(* ===== verification/_CoqProject ===== *)
-Q . S2P
Prelude.v
Window.v
Engine.v
Message.v
Transfer.v
Labels.v
ProtoMem.v
Locks.v
Congestion.v
Timeout.v
FastRetransmit.v
Persist.v
SendBuffer.v
Inplace.v
Slots.v
SlotOps.v
Cumulative.v
CumulativeOps.v
Nagles.v
Input.v
InputOps.v
Handshaker.v
Socket.v
Memory.v
SenderModel.v
ReceiverModel.v
LostWindow.v
Frames.v
Handshake.v
HandshakeOps.v
Channel.v
Places.v
ChannelOps.v
WorkerOps.v
Race.v
Net.v
NetOps.v
Pipe.v
Rounds.v
Connect.v
Serve.v
Stream.v
SendNet.v
Lockstep.v
Worker.v
Members.v
Chat.v
Lifecycle.v
LifecycleOps.v
Scan.v
Setup.v
Tests.v
MemTest.v
LoopTest.v
ScanTest.v
Client.v
NetTest.v
