(* ===== verification/Prelude.v ===== *)
(** * net666: a stream protocol over raw IP sockets, in Rocq

    The repository is a user-space TCP look-alike: a stream socket that puts
    its own segments into raw IP packets, with retransmission, congestion
    control, handshakes and shared memory between the processes that use one
    socket.  This development translates its core, [src/src/*.h] and
    [src/src/*.cpp], into executable definitions and proves what they do.

    ** The program and the files that model it

    A segment goes down this road.  [send] cuts the caller's bytes into
    packets ([Nagles]); each packet gets its number from the cumulative window
    and is stored in the send buffer ([Cumulative], [SendBuffer], [Inplace]);
    the sending worker takes it from there, stamps it with addresses,
    timestamps and a checksum and gives it to the kernel ([Socket],
    [Transfer]).  On the other side the raw socket yields a packet whose
    checksum is tested and which is put into the message queue of the socket
    it is for ([Transfer]); the receiving worker takes it from the queue and
    hands it to the receiving window, the sender's window or the closing
    handshake ([Handshake], [Input]); the client reads the bytes from the
    receiving buffer.  Acknowledgements come back the same way and drive the
    windows and the timers ([Congestion], [Timeout], [FastRetransmit]).

    - [Prelude]: machine integers, bytes, memory, the error monad, access to
      one area of the shared memory, operations that leave a part of the state
      alone ([preserves]) and the RAII scope ([finally]); lemmas and tactics
      used everywhere.
    - [Window]: [tcp_proto_internal.h], the arithmetic of the windows.
    - [Engine]: [tcp_engine.cpp], checksum, conversion of times, choice of the
      MTU.
    - [Message]: [proto.h] and [transfer.h], headers and messages with their
      packed layouts.
    - [Transfer]: [transfer.cpp], the packet level of [newimpl.cpp] (70-160,
      1079-1103), socket labels and queues of [tcp_engine.cpp].  [Labels]: the
      names the labels give to a socket's semaphore, memory and queue.
    - [ProtoMem]: [tcp_proto_mem.h], the shared areas and their placement.
      [Locks]: the semaphores of [tcp_engine.h] and the scopes [mem_ctl] that
      every access to the memory goes through.  [Memory]: the same areas as
      bytes of the shared memory, with their layouts and what [on_init] writes.
    - [Congestion], [Timeout], [FastRetransmit], [Persist]: the timers and
      controls of [tcp_proto_output.h] (247-430).
    - [SendBuffer], [Inplace]: the send buffer of [tcp_proto_output.h]
      (155-207) and the messages in it, at the byte addresses that
      [newimpl.cpp] (438-518) computes.  [Slots]: how a list of messages lies
      in that memory.  [SlotOps]: what the operations do to the list.
    - [Cumulative]: the sender's window of [tcp_proto_output.h] (11-153).
      [CumulativeOps]: its properties against the interface [SenderLaws].
      [Scan]: the scan of [next_msg] over any controller that knows its
      messages' lengths.
    - [Nagles]: the splitter of [tcp_proto_output.h] (209-242).
    - [Input]: [tcp_proto_input.h].  [InputOps]: its properties against the
      interface [ReceiverLaws].
    - [Handshaker]: the templates of [tcp_proto_handshaker.h].
    - [Socket]: [socket_full_impl] of [newimpl.cpp] (184-686): the state of one
      socket, the controllers of all the components, the workers' rounds.
    - [SenderModel], [ReceiverModel]: the socket is an instance of the two
      interfaces, so what the window files prove holds of it; [Client] is what
      the client asks for while [on_msg] waits in a full window, any sizes,
      until it has read the window ([reader]).  [LostWindow]: what happens when
      it asks once more.  [Frames]: the sending and the receiving half of a
      socket leave each other's areas alone.
    - [Handshake]: [handshake], [disconnect], the receiving worker's dispatch
      (689-1042, 265-292).  [HandshakeOps]: their properties.
    - [WorkerOps]: a whole round of the sending worker.  [Race]: what happens
      when its transmission comes late.
    - [Channel]: the state of one direction of a connection, a sender, a
      receiver and what is on the way, and the operations of the sending worker
      on it.  [ChannelOps]: what sender, receiver and messages on the way have
      to agree on, and that the operations keep it.
    - [Net]: both directions at once, any number of sending workers on either
      side, each round cut where the code releases the lock, the dispatch of
      the receiving worker, and a network that loses, repeats and reorders.
      [does] and [receives] have the code's guards and no others; [orderly]
      and [welcome] select the steps the theorems are about.
      [Places]: the messages the workers hold meanwhile.  [NetOps]: the
      invariant.  [Pipe]: either direction refines a first-in first-out pipe.
      [Rounds]: the worker's code, run to its end while the others
      go on, is made of [Net]'s steps.  [Connect]: the handshake of two new
      sockets leads to the state in which [Net]'s steps begin.
    - [Serve]: what the other threads do while a thread is in [send], and what
      it means that they answer its waits.  [Stream]: [send] itself, over the
      interface [NaglesLaws] of the splitter and any invariant of the thread's
      run.  [SendNet]: the sections that serve a [send] are [Net]'s steps.
      [Lockstep]: a network that serves every [send].
    - [Worker]: [class worker] of [tcp_engine.h], the threads that run the
      rounds.  [Members]: the guard and the two workers of one socket object,
      and the destructor that joins them.
    - [Chat]: [server_chat.cpp] over the interface of [stream_socket.h].
    - [Lifecycle]: [class sock] of [tcp_engine.cpp] (161-300), constructors,
      uses and destructors of any number of processes as steps of a kernel.
      [LifecycleOps]: its invariant.
    - [Setup]: the constructors of the raw socket, of the server's socket and
      of the message queue ([newimpl.cpp], [tcp_engine.cpp], [proto.h]), with
      the resource limit the queue raises.  [Client]: [socket_client], and what
      a second [connect] and a destructor do.
    - [Tests], [ScanTest], [LoopTest], [MemTest], [NetTest]: the tests of
      [tcp_test_boost.cpp] as programs over the components, with their
      outcomes; [MemTest] runs them over the shared memory's contents,
      [NetTest] on two whole sockets.

    ** How code is translated

    A C++ value is an integer in the range of its type and every arithmetic
    result goes through the wrap-around of that type ([u16], [u32], [u64],
    [s64]; the host is a little-endian LP64 machine).  A method that changes
    shared memory, throws or waits is a function in the monad [M]: from a
    state to a value, an exception of the code, or a fault, and the state
    then.  Exceptions are those of [proto.h].  Faults are what the language
    does not define or what never returns: an access outside an array, a wait
    that nobody answers, loop fuel that has run out; no [catch] sees them.

    A component's operations take the shared area from any state that has one
    ([MemArea]); what the C++ template asks of its controller [T] is a type
    class, and the socket gives the instances.  Where the code waits, on a
    semaphore or asleep, the definition runs an argument, [others], which may
    do anything to the state.  [setup] and [flush], which copy a window
    between the shared area and the object, are where the code has them.

    The kernel is not modelled: what [sendto] answers, what [recvfrom] yields,
    what the interfaces are and what the time is are arguments.  Theorems that
    need a kernel that takes every segment say so ([sendto_takes_all]).

    ** What is proved

    End to end ([NetOps]): over a network that loses, repeats and reorders
    segments, with any number of workers interleaved at their pauses, in runs
    of orderly steps (below) what each client is given is at all times a prefix
    of what the other side handed to [send], whatever is acknowledged has
    arrived, from every state such runs reach the rest can still arrive, and no
    section leaves its arrays or fails.  The rounds of the sending worker, as
    the code runs them, are such steps, and end but for a wait for a message
    that never comes ([Rounds]); either direction refines a first-in first-out
    pipe ([Pipe]).  Under a fair scheduler [send] returns, and then all it was
    given is acknowledged ([Stream]); when the other threads and the network
    are what [Net] says and answer its waits, the other side then holds every
    byte ([SendNet]).  Segments ([Transfer]): a stamped segment arrives
    as it was sent, and a change of any one byte is noticed; queues and
    routing.  Opening and closing ([HandshakeOps]): an exchange among other
    messages establishes both ends with the same numbers; nothing else does;
    two new sockets that have run it are connected both ways, as the end-to-end
    theorems assume ([Connect]); closing. Sender and receiver: each operation
    of the windows on every branch, the buffer as a list, one signal per
    released message, the round of the worker with its retransmission; over a
    controller that knows its messages the scan finds the first unused one
    ([Scan]). Controls: the round-trip formulas in integers, bounds of the
    timeout, the congestion window in closed form, the count of fast
    retransmissions. Memory: the shared areas do not overlap, and their bytes
    represent the records the other files work on ([Memory]); a scope gives its
    lock back on every way out ([Locks]); labels of different sockets have
    different names ([Labels]); a fresh socket takes the packets routed to it
    ([Setup]). Sharing ([LifecycleOps]): in calm runs, where nobody opens or
    closes a socket while it is being closed, its memory is initialised once, a
    closed socket stays closed and a constructor returns. Threads ([Worker]): a
    worker that was told to stop ends and is joined. Chat: strings survive the
    framing up to their first zero byte, the server sends every line to every
    client.

    Some theorems and lemmas show where the code does not do what it means
    to: [Window.contains_misses_last_byte],
    [SlotOps.data_sz_is_sequence_bits],
    [CumulativeOps.scan_never_passes_first],
    [Nagles.nagles_spins_on_zero_window],
    [SenderModel.duplicate_acks_on_empty_buffer],
    [LostWindow.stale_signal_loses_a_window],
    [InputOps.receiver_stalls_past_wrap],
    [Transfer.short_packet_is_accepted], [Race.late_send_corrupts_stream],
    [Locks.closed_socket_keeps_lock], [LifecycleOps.lifecycle_needs_calm],
    [LifecycleOps.socket_without_queue], [Setup.refused_limit_drops],
    [Setup.socket_base_new_leaks], [Setup.tiny_mtu_wraps],
    [Client.unconnected_client_faults], [Client.second_connect_is_refused],
    [Client.full_window_blocks_destructor], [NetTest.own_syn_can_be_lost]
    and [Connect.repeated_handshake_ack_counts]; four tests do not pass
    ([Tests], [LoopTest], [MemTest]).

    ** Orderly runs: what the end-to-end theorems assume

    The defects above do break the end-to-end promises, so the theorems of
    [NetOps], [Pipe], [Rounds] and [SendNet] are about the runs that avoid
    them. [Net] keeps the two apart: [does] and [receives] are what the code
    can do, [orderly] and [welcome] the conditions on a step.
    - A package is not empty and is stored over no message that a worker still
      holds ([Net.undisturbed]; [Race.late_send_corrupts_stream]).
    - A second worker of a side takes a message only in a window from 256000 on
      ([Net.scan_stops]): there the scan of [next_msg] stops at the first
      outstanding message, before it may not end
      ([CumulativeOps.scan_never_passes_first]).
    - The fourth acknowledgement in a row of everything sent does not arrive
      while nothing is outstanding ([Net.welcome];
      [SenderModel.duplicate_acks_on_empty_buffer]).
    - While [on_msg] waits in a full window the client reads the window to its
      end, in requests of any sizes, and asks for no more until [on_msg] goes
      on ([ReceiverModel.reader], and as a law [InputOps.wait_flushed_law];
      [LostWindow.stale_signal_loses_a_window]).  At all other times it asks as
      it likes, also when there is nothing to read.
    - Numbers stay 2000 below 2^32 ([NetOps.net_below]), three windows where
      [send] is followed to its end: beyond, the receiver stalls
      ([InputOps.receiver_stalls_past_wrap]).
    - The handshake's own messages are through ([Connect.settled];
      [Connect.repeated_handshake_ack_counts]).
    - [send] is answered with windows of at least one byte ([Serve.sending],
      [Serve.served]), which the receiver of this code always advertises
      ([SendNet.advertises]); at zero the splitter sends empty packages until
      the window opens ([Nagles]).
    - The kernel takes every segment whole ([sendto_takes_all]).

    ** Bounds and fuel

    Loops over data recurse on the data or take fuel.  The scan of [next_msg]
    gets one unit per byte of the window, more than it can have messages.
    [send] gets two units per byte and one per stale signal of an empty buffer:
    every round takes a byte, every wake-up a signal.  The
    polling loop gets one unit per 100 ms of the timeout, and
    [WorkerOps.poll_times_out] shows that it is enough.  [nagles_send] gets one
    unit per byte: each round that sends takes a byte at least, and [send]
    hands over no more than the window has room for, so that none is refused;
    for a controller that refuses, [Nagles] asks for one more per round that
    sends nothing.
    The waits of the handshakes get an argument: the theorems that say they
    return ask for more than the messages to skip.  The layout theorems of the
    buffer use the window's 1000 bytes: at 120 bytes of buffer per byte sent,
    a full window lies inside the 300000 bytes.  [Lockstep]'s scheduler gets
    one exchange per byte of the window, more than there can be messages.

    ** What is not modelled

    Diagnostics and their log files; command lines, console text and [main]
    of the chat program; the clock, the random numbers and the other calls
    of the kernel, which are arguments; of the tests, those whose body is
    disabled (no build compiles them), and of [single_socket_test] all but
    that it need not end ([NetTest]). The network of [Net] begins when the
    handshake is through and has no closing handshake: [HandshakeOps] has
    both on their own. A step of [Net] is a section between two points where
    the code releases its lock; accesses without the lock are those of the
    sending worker to its message ([Places], [Race]), other data races are
    outside the model. A received message that claims more data than its
    buffer ([Transfer.short_packet_is_accepted]) is outside what [Input]
    models of [memcpy]; the theorems about the receiving window are about
    messages whose length field is right. In [Lifecycle] a label names one
    socket, a process has one [sock] of it, and processes do not crash; the
    contents of the memory are [Memory]'s, put together with the life cycle
    in [MemTest]. The semaphores that lie in the send buffer's messages are
    counters of their own ([Socket.k_fut]), not bytes. *)
From Stdlib Require Export ZArith Lia.
From stdpp Require Export base tactics numbers list sets.

Global Open Scope Z_scope.
Declare Scope net_scope.
Delimit Scope net_scope with net.

(** ** Machine integers

    [size_t] and [uint64_t] are [u64], [tcp_seq] is [u32], the port, window
    and checksum fields are [u16]; [off_t] and [ssize_t] are [s64] (the LP64
    platform the Makefile builds for).  A C++ value is the mathematical
    integer in its range, and every arithmetic result goes through the
    wrap-around of its type. *)

Abbreviation modulus8 := 256 (only parsing).
Abbreviation modulus16 := 65536 (only parsing).
Abbreviation modulus32 := 4294967296 (only parsing).
Abbreviation modulus64 := 18446744073709551616 (only parsing).

Definition u8 (z : Z) : Z := z `mod` modulus8.
Definition u16 (z : Z) : Z := z `mod` modulus16.
Definition u32 (z : Z) : Z := z `mod` modulus32.
Definition u64 (z : Z) : Z := z `mod` modulus64.
Definition s64 (z : Z) : Z := (z + 9223372036854775808) `mod` modulus64 - 9223372036854775808.

(** ** Bytes

    A byte is a [Z] in [0, 256).  Integers are stored in memory in the host's
    little-endian order. *)

Abbreviation bytes := (list Z).

Definition is_byte (b : Z) : Prop := 0 <= b < modulus8.

Fixpoint le_bytes (n : nat) (z : Z) : bytes :=
  match n with
  | O => []
  | S n => u8 z :: le_bytes n (z `div` modulus8)
  end.

Fixpoint le_val (bs : bytes) : Z :=
  match bs with
  | [] => 0
  | b :: bs => b + modulus8 * le_val bs
  end.

(** The [n] bytes of [bs] from index [i] on. *)
Definition slice (i n : nat) (bs : bytes) : bytes := take n (drop i bs).

(** ** Flat memory: addresses to bytes, zero-filled at the start *)

Abbreviation mem := (Z -> Z).

Definition mem_zero : mem := fun _ => 0.

Fixpoint load_bytes (m : mem) (a : Z) (n : nat) : bytes :=
  match n with
  | O => []
  | S n => m a :: load_bytes m (a + 1) n
  end.

Definition store_bytes (m : mem) (a : Z) (bs : bytes) : mem :=
  fun x =>
    if (a <=? x) && (x <? a + Z.of_nat (length bs))
    then nth (Z.to_nat (x - a)) bs 0
    else m x.

(** An array by index, updated in place. *)
#[export] Instance fun_insert {A} : Insert Z A (Z -> A) :=
  fun i x f j => if Z.eqb j i then x else f j.

(** ** Effects

    The code's control effects: the three exception types of [proto.h] and a
    plain [std::runtime_error]; and,
    as values of their own that no [catch] sees, the ways a run can leave the
    language: an access outside an array, a wait nobody answers, loop fuel that
    ran out, and a requirement of a unit test that does not hold.  State
    survives a [throw], as it does in C++. *)

Inductive exn : Type := EDrop | ETimeout | EFuck | ERuntime.

Inductive fault : Type := out_of_range | blocked | out_of_fuel | test_failed.

Inductive outcome (A : Type) : Type :=
| Ret (a : A)
| Throw (e : exn)
| Fault (f : fault).
Arguments Ret {A} a.
Arguments Throw {A} e.
Arguments Fault {A} f.

Definition M (St A : Type) : Type := St -> outcome A * St.

#[global] Instance M_ret St : MRet (M St) := fun A a s => (Ret a, s).

#[global] Instance M_bind St : MBind (M St) := fun A B f m s =>
  match m s with
  | (Ret a, s') => f a s'
  | (Throw e, s') => (Throw e, s')
  | (Fault x, s') => (Fault x, s')
  end.

Definition throw {St A} (e : exn) : M St A := fun s => (Throw e, s).
Definition faults {St A} (f : fault) : M St A := fun s => (Fault f, s).
Definition gets {St A} (f : St -> A) : M St A := fun s => (Ret (f s), s).
Definition modify {St} (f : St -> St) : M St unit := fun s => (Ret tt, f s).
Definition when {St} (b : bool) (m : M St unit) : M St unit :=
  if b then m else mret tt.

(** [try m catch (e : exn) h]: the handler starts from the state in which
    the exception left. *)
Definition try_catch {St A} (m : M St A) (e : exn -> bool) (h : M St A) : M St A :=
  fun s =>
    match m s with
    | (Throw x, s') => if e x then h s' else (Throw x, s')
    | r => r
    end.

(** [body] in the scope of an object whose destructor is [d]: it runs on the
    return from [body] and when an exception leaves it. *)
Definition finally {St A} (body : M St A) (d : M St unit) : M St A :=
  fun s =>
    match body s with
    | (Ret a, s') => (d;; mret a) s'
    | (Throw e, s') => (d;; throw e) s'
    | r => r
    end.

Definition is_drop (e : exn) : bool := match e with EDrop => true | _ => false end.

(** ** Typed access to one area of the shared memory

    [mem_manager::mem_get<E>] hands a component a pointer to its own area
    of the socket's shared memory.  [MemArea St A] is that access for a
    state [St] that contains an area of type [A]; its laws say the area is a
    store of its own. *)

Class MemArea (St A : Type) : Type := {
  area_get : St -> A;
  area_put : A -> St -> St;
}.

Class MemAreaLaws (St A : Type) `{MemArea St A} : Prop := {
  area_get_put a s : area_get (area_put a s) = a;
  area_put_put a b s : area_put a (area_put b s) = area_put a s;
  area_put_get s : area_put (area_get s) s = s;
}.

(** Two areas of one memory: writing the second leaves the first alone. *)
Class MemAreaIndep (St A B : Type) `{MemArea St A} `{MemArea St B} : Prop :=
  area_get_other (b : B) (s : St) : area_get (A:=A) (area_put b s) = area_get s.

Definition mem_get {St A} `{MemArea St A} : M St A := gets area_get.
Definition mem_put {St A} `{MemArea St A} (a : A) : M St unit := modify (area_put a).

(** ** Shared lemmas and automation *)

Create HintDb net666.
Create Rewrite HintDb net666.

(** Arithmetic over machine integers: write the wrap-arounds out and let
    [lia] see the divisions. *)
Ltac wrap_lia :=
  unfold u8, u16, u32, u64, s64 in *;
  Z.to_euclidean_division_equations; lia.

Lemma u16_range z : 0 <= u16 z < modulus16.
Proof. apply Z.mod_pos_bound. lia. Qed.

Lemma u32_range z : 0 <= u32 z < modulus32.
Proof. apply Z.mod_pos_bound. lia. Qed.

Lemma u64_range z : 0 <= u64 z < modulus64.
Proof. apply Z.mod_pos_bound. lia. Qed.

Lemma u16_small z : 0 <= z < modulus16 -> u16 z = z.
Proof. apply Z.mod_small. Qed.

Lemma u32_small z : 0 <= z < modulus32 -> u32 z = z.
Proof. apply Z.mod_small. Qed.

Lemma u64_small z : 0 <= z < modulus64 -> u64 z = z.
Proof. apply Z.mod_small. Qed.

Lemma s64_small z :
  -9223372036854775808 <= z < 9223372036854775808 -> s64 z = z.
Proof. intros. unfold s64. rewrite Z.mod_small; lia. Qed.

Lemma u32_u64 z : u32 (u64 z) = u32 z.
Proof.
  unfold u32, u64. apply Z.mod_mod_divide. exists modulus32. done.
Qed.

Lemma u32_idem z : u32 (u32 z) = u32 z.
Proof. apply u32_small, u32_range. Qed.

Lemma u32_add_l a b : u32 (u32 a + b) = u32 (a + b).
Proof. apply Z.add_mod_idemp_l. lia. Qed.

Lemma u32_add_r a b : u32 (a + u32 b) = u32 (a + b).
Proof. apply Z.add_mod_idemp_r. lia. Qed.

Lemma u32_sub_l a b : u32 (u32 a - b) = u32 (a - b).
Proof. unfold u32. apply Zminus_mod_idemp_l. Qed.

Lemma u32_sub_r a b : u32 (a - u32 b) = u32 (a - b).
Proof. unfold u32. apply Zminus_mod_idemp_r. Qed.

#[export] Hint Resolve u16_range u32_range u64_range : net666.
#[export] Hint Rewrite u32_idem u32_u64 u32_add_l u32_add_r u32_sub_l u32_sub_r : net666.

(** *** Bytes *)

Lemma u8_is_byte z : is_byte (u8 z).
Proof. apply Z.mod_pos_bound. lia. Qed.

Lemma length_le_bytes n z : length (le_bytes n z) = n.
Proof. revert z. induction n; intros; simpl; auto. Qed.

Lemma le_bytes_are_bytes n z : Forall is_byte (le_bytes n z).
Proof.
  revert z. induction n; intros z; simpl; constructor; auto using u8_is_byte.
Qed.

Lemma le_val_bound bs :
  Forall is_byte bs -> 0 <= le_val bs < modulus8 ^ Z.of_nat (length bs).
Proof.
  induction 1 as [|b bs Hb _ IH]; simpl; [lia|].
  rewrite Nat2Z.inj_succ, Z.pow_succ_r by lia. unfold is_byte in Hb. lia.
Qed.

Lemma le_val_le_bytes n z : le_val (le_bytes n z) = z `mod` modulus8 ^ Z.of_nat n.
Proof.
  revert z. induction n as [|n IH]; intros z; simpl le_val.
  - rewrite Z.mod_1_r. done.
  - rewrite IH, Nat2Z.inj_succ, Z.pow_succ_r by lia. unfold u8.
    rewrite Z.rem_mul_r by lia. done.
Qed.

Lemma le_bytes_le_val bs :
  Forall is_byte bs -> le_bytes (length bs) (le_val bs) = bs.
Proof.
  induction 1 as [|b bs Hb _ IH]; simpl; [done|].
  unfold is_byte in Hb. f_equal.
  - unfold u8. rewrite Z.mul_comm, Z.mod_add, Z.mod_small; lia.
  - rewrite Z.mul_comm, Z.div_add, Z.div_small, Z.add_0_l by lia. done.
Qed.

#[export] Hint Resolve u8_is_byte le_bytes_are_bytes : net666.
#[export] Hint Rewrite length_le_bytes : net666.

(** *** Memory *)

Lemma length_load_bytes m a n : length (load_bytes m a n) = n.
Proof. revert a. induction n; intros; simpl; auto. Qed.

Lemma load_bytes_ext m1 m2 a1 a2 n :
  (forall i, 0 <= i < Z.of_nat n -> m1 (a1 + i) = m2 (a2 + i)) ->
  load_bytes m1 a1 n = load_bytes m2 a2 n.
Proof.
  revert a1 a2. induction n as [|n IH]; intros a1 a2 H; simpl; [done|].
  f_equal.
  - specialize (H 0). rewrite !Z.add_0_r in H. apply H. lia.
  - apply IH. intros i Hi. rewrite <- !Z.add_assoc. apply H. lia.
Qed.

Lemma load_bytes_app m a n k :
  load_bytes m a (n + k) = load_bytes m a n ++ load_bytes m (a + Z.of_nat n) k.
Proof.
  revert a. induction n as [|n IH]; intros a.
  - simpl. rewrite Z.add_0_r. done.
  - cbn [load_bytes Nat.add app]. rewrite IH. do 3 f_equal. lia.
Qed.

Lemma load_bytes_take m a n k :
  (k <= n)%nat -> take k (load_bytes m a n) = load_bytes m a k.
Proof.
  intros H. replace n with (k + (n - k))%nat by lia.
  rewrite load_bytes_app, take_app_length'; [done|].
  rewrite length_load_bytes; done.
Qed.

Lemma load_bytes_drop m a n k :
  (k <= n)%nat -> drop k (load_bytes m a n) = load_bytes m (a + Z.of_nat k) (n - k).
Proof.
  intros H. replace n with (k + (n - k))%nat at 1 by lia.
  rewrite load_bytes_app, drop_app_length'; [done|].
  rewrite length_load_bytes; done.
Qed.

(** Any field of a loaded object is a load at the field's address. *)
Lemma slice_load_bytes m a n i k :
  (i + k <= n)%nat ->
  slice i k (load_bytes m a n) = load_bytes m (a + Z.of_nat i) k.
Proof.
  intros H. unfold slice. rewrite load_bytes_drop by lia.
  apply load_bytes_take. lia.
Qed.

Lemma store_bytes_in m a bs x :
  a <= x < a + Z.of_nat (length bs) ->
  store_bytes m a bs x = nth (Z.to_nat (x - a)) bs 0.
Proof.
  intros H. unfold store_bytes.
  rewrite (proj2 (Z.leb_le a x)), (proj2 (Z.ltb_lt x _)) by lia. done.
Qed.

Lemma store_bytes_out m a bs x :
  x < a \/ a + Z.of_nat (length bs) <= x -> store_bytes m a bs x = m x.
Proof.
  intros H. unfold store_bytes.
  destruct (Z.leb_spec a x), (Z.ltb_spec x (a + Z.of_nat (length bs)));
    simpl; (lia || done).
Qed.

Lemma load_store_same m a bs :
  load_bytes (store_bytes m a bs) a (length bs) = bs.
Proof.
  revert m a. induction bs as [|b bs IH]; intros m a; cbn [length load_bytes]; [done|].
  f_equal.
  - rewrite store_bytes_in by (simpl; lia). rewrite Z.sub_diag. done.
  - etransitivity; [|apply (IH m (a + 1))].
    apply load_bytes_ext. intros i Hi.
    rewrite !store_bytes_in by (simpl length; lia).
    replace (Z.to_nat (a + 1 + i - a)) with (S (Z.to_nat i)) by lia.
    simpl. f_equal. lia.
Qed.

Lemma load_store_disjoint m a bs c n :
  c + Z.of_nat n <= a \/ a + Z.of_nat (length bs) <= c ->
  load_bytes (store_bytes m a bs) c n = load_bytes m c n.
Proof.
  intros H. apply load_bytes_ext. intros i Hi. apply store_bytes_out. lia.
Qed.

Lemma fun_insert_eq {A} (f : Z -> A) i x : (<[i:=x]> f : Z -> A) i = x.
Proof. unfold insert, fun_insert. rewrite Z.eqb_refl. done. Qed.

Lemma fun_insert_ne {A} (f : Z -> A) i j x : j <> i -> (<[i:=x]> f : Z -> A) j = f j.
Proof. intros H. unfold insert, fun_insert. rewrite (proj2 (Z.eqb_neq j i)) by done. done. Qed.

(** *** Running effectful code

    [run_ret] and its siblings execute one bind whose first command's result
    is known; [mstep] does it with a lemma or a hypothesis. *)

Section run.
Context {St A B : Type}.
Implicit Types (m : M St A) (f : A -> M St B) (s : St).

Lemma bind_unfold m f s :
  (m ≫= f) s =
  match m s with
  | (Ret a, s') => f a s'
  | (Throw e, s') => (Throw e, s')
  | (Fault x, s') => (Fault x, s')
  end.
Proof. done. Qed.

Lemma run_ret m f s a s' : m s = (Ret a, s') -> (m ≫= f) s = f a s'.
Proof. intros H. rewrite bind_unfold, H. done. Qed.

Lemma run_throw m f s e s' : m s = (Throw e, s') -> (m ≫= f) s = (Throw e, s').
Proof. intros H. rewrite bind_unfold, H. done. Qed.

Lemma run_fault m f s x s' : m s = (Fault x, s') -> (m ≫= f) s = (Fault x, s').
Proof. intros H. rewrite bind_unfold, H. done. Qed.

(** A run of a bind that returns is a run of both parts. *)
Lemma bind_ret_inv m f s b s'' :
  (m ≫= f) s = (Ret b, s'') ->
  exists a s', m s = (Ret a, s') /\ f a s' = (Ret b, s'').
Proof.
  rewrite bind_unfold. destruct (m s) as [[a|e|x] s'] eqn:E; [|done..].
  eauto.
Qed.

End run.

Lemma finally_ret {St A} (m : M St A) (d : M St unit) s a s' :
  m s = (Ret a, s') -> finally m d s = (d;; mret a) s'.
Proof. intros H. unfold finally. rewrite H. done. Qed.

Lemma finally_throw {St A} (m : M St A) (d : M St unit) s e s' :
  m s = (Throw e, s') -> finally m d s = (d;; throw e) s'.
Proof. intros H. unfold finally. rewrite H. done. Qed.

Lemma finally_ret_inv {St A} (m : M St A) (d : M St unit) s a s'' :
  finally m d s = (Ret a, s'') -> exists s', m s = (Ret a, s') /\ d s' = (Ret tt, s'').
Proof.
  unfold finally. destruct (m s) as [[b|e|x] s'] eqn:E; [| |done];
    rewrite bind_unfold; destruct (d s') as [[[]|e'|x] s1] eqn:Ed; try done.
  intros [= -> ->]. eauto.
Qed.

Ltac mstep H := rewrite (run_ret _ _ _ _ _ H); cbn beta iota.

(** *** What a program leaves alone

    [preserves R m]: whatever [m] answers, the state it leaves is related by
    [R] to the one it started from.  For a preorder the rules follow the
    syntax of the program, and [keeps] applies them; what is special to a
    relation goes into the hints of [frames]. *)

Definition preserves {St A} (R : St -> St -> Prop) (m : M St A) : Prop := forall s, R s (m s).2.

Create HintDb frames.

Section preserves.
Context {St : Type} (R : St -> St -> Prop) `{!PreOrder R}.

Lemma preserves_ret {A} (a : A) : preserves R (mret a).
Proof. intros s. apply PreOrder_Reflexive. Qed.

Lemma preserves_throw {A} e : preserves R (throw (A:=A) e).
Proof. intros s. apply PreOrder_Reflexive. Qed.

Lemma preserves_faults {A} x : preserves R (faults (A:=A) x).
Proof. intros s. apply PreOrder_Reflexive. Qed.

Lemma preserves_gets {A} (f : St -> A) : preserves R (gets f).
Proof. intros s. apply PreOrder_Reflexive. Qed.

Lemma preserves_modify (f : St -> St) : (forall s, R s (f s)) -> preserves R (modify f).
Proof. intros H s. apply H. Qed.

Lemma preserves_bind {A B} (m : M St A) (f : A -> M St B) :
  preserves R m -> (forall a, preserves R (f a)) -> preserves R (m ≫= f).
Proof.
  intros Hm Hf s. rewrite bind_unfold. specialize (Hm s).
  destruct (m s) as [[a|e|x] s']; cbn [snd] in *; [|done..].
  etransitivity; [exact Hm|apply Hf].
Qed.

Lemma preserves_when b (m : M St unit) : preserves R m -> preserves R (when b m).
Proof. intros H. destruct b; [exact H|apply preserves_ret]. Qed.

Lemma preserves_finally {A} (m : M St A) (d : M St unit) :
  preserves R m -> preserves R d -> preserves R (finally m d).
Proof.
  intros Hm Hd s. unfold finally. specialize (Hm s).
  destruct (m s) as [[a|e|x] s']; cbn [snd] in *; [| |done];
    rewrite bind_unfold; specialize (Hd s'); destruct (d s') as [[[]|e'|y] s1]; cbn [snd] in *;
    by etransitivity.
Qed.

Lemma preserves_run {A} (m : M St A) s r s' : preserves R m -> m s = (r, s') -> R s s'.
Proof. intros H E. specialize (H s). rewrite E in H. exact H. Qed.

End preserves.

Ltac keeps :=
  repeat first
    [ solve [auto with frames]
    | lazymatch goal with
      | |- PreOrder _ => apply _
      | |- preserves _ (mbind _ _) => apply preserves_bind; [| |intros ?]
      | |- preserves _ (mret _) => apply preserves_ret
      | |- preserves _ (throw _) => apply preserves_throw
      | |- preserves _ (faults _) => apply preserves_faults
      | |- preserves _ (gets _) => apply preserves_gets
      | |- preserves _ (when _ _) => apply preserves_when
      | |- preserves _ (finally _ _) => apply preserves_finally
      | |- preserves _ (match _ with _ => _ end) => case_match
      end ].

(** *** Slices of byte strings *)

Lemma slice_app_l i n (a b : bytes) :
  (i + n <= length a)%nat -> slice i n (a ++ b) = slice i n a.
Proof.
  intros H. unfold slice. rewrite drop_app_le by lia.
  apply take_app_le. rewrite length_drop. lia.
Qed.

Lemma slice_app_r i n (a b : bytes) :
  (length a <= i)%nat -> slice i n (a ++ b) = slice (i - length a) n b.
Proof. intros H. unfold slice. rewrite drop_app_ge by lia. done. Qed.

Lemma slice_all n (a : bytes) : n = length a -> slice 0 n a = a.
Proof. intros ->. unfold slice. rewrite drop_0. apply firstn_all. Qed.

(** The lengths of strings built from fixed-width pieces, as numerals; the
    length of an opaque piece comes from a hypothesis. *)
Ltac lengths :=
  repeat first
    [ progress rewrite ?length_app, ?length_le_bytes
    | match goal with H : length ?a = _ |- context [length ?a] => rewrite H end ];
  cbn [length Nat.add Nat.sub].

(** Find one field in a concatenation of fixed-width fields. *)
Ltac find_slice :=
  repeat first
    [ rewrite slice_all by (lengths; lia)
    | rewrite slice_app_l by (lengths; lia)
    | rewrite slice_app_r by (lengths; lia); lengths ].

Lemma le_val_le_bytes_small n z :
  0 <= z < modulus8 ^ Z.of_nat n -> le_val (le_bytes n z) = z.
Proof. intros. rewrite le_val_le_bytes. apply Z.mod_small. done. Qed.

Lemma length_slice i n (a : bytes) : (i + n <= length a)%nat -> length (slice i n a) = n.
Proof. intros. unfold slice. rewrite length_take, length_drop. lia. Qed.

Lemma slice_slice i n k (a : bytes) : slice i n a ++ slice (i + n) k a = slice i (n + k) a.
Proof.
  unfold slice. rewrite <- drop_drop. symmetry.
  generalize (drop i a). clear. intros l.
  revert l. induction n as [|n IH]; intros [|x l]; simpl; rewrite ?take_nil; auto.
  f_equal. apply IH.
Qed.

Lemma slice_bytes i n (a : bytes) : Forall is_byte a -> Forall is_byte (slice i n a).
Proof. intros. apply Forall_take, Forall_drop. done. Qed.

Lemma slice_full (a : bytes) n : length a = n -> slice 0 n a = a.
Proof. intros H. apply slice_all. done. Qed.

(** Re-encoding a field gives the bytes it was read from. *)
Lemma le_bytes_slice i n (a : bytes) :
  Forall is_byte a -> (i + n <= length a)%nat ->
  le_bytes n (le_val (slice i n a)) = slice i n a.
Proof.
  intros Ha Hl. rewrite <- (length_slice i n a Hl) at 1.
  apply le_bytes_le_val, slice_bytes. done.
Qed.

Lemma slice_in_slice i n j k (a : bytes) :
  (i + n <= k)%nat -> slice i n (slice j k a) = slice (j + i) n a.
Proof.
  intros H. unfold slice. rewrite <- drop_drop.
  generalize (drop j a). clear -H. intros l.
  rewrite skipn_firstn_comm, take_take. f_equal. lia.
Qed.
