(* ===== verification/Window.v ===== *)
(** * Window: the sequence-number windows of [src/src/tcp_proto_internal.h]

    [receiver_window] (lines 24-95) and its subclass [send_window] (111-147)
    as records with one definition per method; [tcp_state] and the protocol
    constants of the same header.  [start] and [sz] are [size_t], [off] and
    [sent_off] are [off_t]: [start] is not reduced modulo 2^32 when a window
    is followed by the next one, and the theorems say for which windows the
    code's arithmetic agrees with arithmetic modulo 2^32 and where it does
    not. *)
From S2P Require Import Prelude.

(** ** Constants and connection states (lines 5-22) *)

Definition INPUT_WINDOW_SZ : Z := 1000.
Definition INPUT_BUF_SZ : Z := 300000.
Definition OUTPUT_WINDOW_SZ : Z := 1000.
Definition OUTPUT_CONGECTION_START_SZ : Z := 100.
Definition OUTPUT_SEND_BUF_SZ : Z := 300000.
Definition TCP_OUTPUT_START_TIMEOUT : Z := 3000.
Definition TCP_FAST_RETRANSMIT_BOUND : Z := 4.

Inductive tcp_state : Type := CLOSED | SYN_SENT | SYN_RECEIVED | ESTABLISHED.

#[export] Instance tcp_state_eq_dec : EqDecision tcp_state.
Proof. solve_decision. Defined.

(** ** [receiver_window] *)

Record receiver_window : Type := Rwin {
  w_start : Z;
  w_off : Z;
  w_sz : Z;
}.

Definition modulo : Z := modulus32.

Definition offset (w : receiver_window) : Z := w_off w.

Definition next_window (w : receiver_window) : receiver_window :=
  Rwin (u64 (w_start w + w_sz w)) 0 (w_sz w).

Definition end_ (w : receiver_window) : Z := u64 (w_start w + w_sz w).

Definition begin (w : receiver_window) : Z := u64 (w_start w + w_off w).

Definition before_begin (w : receiver_window) : Z :=
  let b := begin w in
  if b =? 0 then modulo - 1 else b - 1.

Definition inc (n : Z) (w : receiver_window) : receiver_window :=
  Rwin (w_start w) (s64 (w_off w + n)) (w_sz w).

Definition get_start_sz (w : receiver_window) : Z := w_sz w.

Definition get_sz (w : receiver_window) : Z := u64 (w_sz w - w_off w).

Definition extend_end (add : Z) (w : receiver_window) : receiver_window :=
  Rwin (w_start w) (w_off w) (u64 (w_sz w + add)).

Definition contains (w win : receiver_window) : bool :=
  let begin_v := begin w in
  let end_v := end_ w in
  let start_win := begin win in
  let end_win := end_ win in
  let '(start_win, end_win) :=
    if (u32 end_v <? begin_v) && (end_win <? u32 end_v) then
      (if start_win <? u32 end_win then u64 (start_win + modulo) else start_win,
       u64 (end_win + modulo))
    else (start_win, end_win) in
  (begin_v <=? start_win) && (end_win <=? end_v).

Definition SINGLE_WINDOW (s : Z) : receiver_window := Rwin s 0 1.

(** ** [send_window] *)

Record send_window : Type := Swin {
  sw_win :> receiver_window;
  w_sent_off : Z;
}.

Definition inc_sent_off (add : Z) (w : send_window) : send_window :=
  Swin (sw_win w) (s64 (w_sent_off w + add)).

Definition sent_begin (w : send_window) : Z := u64 (w_start w + w_sent_off w).

Definition sent_sz (w : send_window) : Z := u64 (w_sz w - w_sent_off w).

Definition get_in_msg_off (sq : Z) (w : send_window) : Z :=
  let start_modulo := u32 (begin w) in
  if start_modulo <=? sq then u64 (sq - start_modulo)
  else u64 (modulo - start_modulo + sq).

Definition set_off_from_seq (sq : Z) (w : send_window) : send_window :=
  Swin (inc (s64 (u64 (get_in_msg_off sq w + 1))) (sw_win w)) (w_sent_off w).

Definition send_next_window (w : send_window) : send_window :=
  Swin (next_window (sw_win w)) 0.

(** ** Well-formed windows

    The offset lies in the window and nothing has left the range of
    [size_t].  [in_space] says further that the whole window lies below 2^32,
    where a sequence number is its own position. *)

Definition window_wf (w : receiver_window) : Prop :=
  0 <= w_start w /\ 0 <= w_off w <= w_sz w /\ w_sz w < modulus32 /\
  w_start w + w_sz w < 9223372036854775808.

Definition in_space (w : receiver_window) : Prop :=
  window_wf w /\ w_start w + w_sz w < modulus32.

Definition send_window_wf (w : send_window) : Prop :=
  window_wf w /\ w_off w <= w_sent_off w <= w_sz w.

(** The number of the sequence number [sq], counted from the window's
    beginning, in arithmetic modulo 2^32. *)
Definition seq_distance (w : receiver_window) (sq : Z) : Z := u32 (sq - begin w).

(** ** Lemmas *)

Section basics.
Context (w : receiver_window).

Lemma in_space_wf : in_space w -> window_wf w.
Proof. intros [? _]. done. Qed.

Lemma begin_wf : window_wf w -> begin w = w_start w + w_off w.
Proof. intros (?&?&?&?). apply u64_small. lia. Qed.

Lemma end_wf : window_wf w -> end_ w = w_start w + w_sz w.
Proof. intros (?&?&?&?). apply u64_small. lia. Qed.

Lemma get_sz_wf : window_wf w -> get_sz w = w_sz w - w_off w.
Proof. intros (?&?&?&?). apply u64_small. lia. Qed.

Lemma get_sz_begin_end : window_wf w -> get_sz w = end_ w - begin w.
Proof. intros H. rewrite get_sz_wf, begin_wf, end_wf by done. lia. Qed.

Lemma inc_wf n :
  window_wf w -> 0 <= n <= get_sz w ->
  inc n w = Rwin (w_start w) (w_off w + n) (w_sz w) /\ window_wf (inc n w).
Proof.
  intros H Hn. rewrite get_sz_wf in Hn by done. destruct H as (?&?&?&?).
  unfold inc. rewrite s64_small by lia. split; [done|].
  unfold window_wf; simpl. lia.
Qed.

Lemma next_window_wf :
  window_wf w -> w_start w + 2 * w_sz w < 9223372036854775808 ->
  window_wf (next_window w).
Proof.
  intros (?&?&?&?) ?. unfold window_wf, next_window; simpl.
  rewrite u64_small; lia.
Qed.

End basics.

#[export] Hint Resolve in_space_wf : net666.

Lemma single_begin sq : 0 <= sq < modulus32 -> begin (SINGLE_WINDOW sq) = sq.
Proof. intros. unfold begin; simpl. rewrite Z.add_0_r. apply u64_small. lia. Qed.

Lemma single_end sq : 0 <= sq < modulus32 -> end_ (SINGLE_WINDOW sq) = sq + 1.
Proof. intros. apply u64_small; simpl. lia. Qed.

(** A window below 2^32 never takes the wrap-around branch. *)
Lemma contains_in_space w v :
  in_space w ->
  contains w v = (begin w <=? begin v) && (end_ v <=? end_ w).
Proof.
  intros [Hw Hs]. unfold contains.
  pose proof (begin_wf _ Hw) as Hb. pose proof (end_wf _ Hw) as He.
  destruct Hw as (?&?&?&?).
  rewrite (u32_small (end_ w)) by lia.
  rewrite (proj2 (Z.ltb_ge (end_ w) (begin w))) by lia. done.
Qed.

Lemma contains_single_in_space w sq :
  in_space w -> 0 <= sq < modulus32 ->
  contains w (SINGLE_WINDOW sq) = (begin w <=? sq) && (sq <? end_ w).
Proof.
  intros. rewrite contains_in_space, single_begin, single_end by done.
  f_equal. destruct (Z.leb_spec (sq + 1) (end_ w)), (Z.ltb_spec sq (end_ w)); lia.
Qed.

Lemma get_in_msg_off_distance (w : send_window) sq :
  0 <= sq < modulus32 -> get_in_msg_off sq w = seq_distance w sq.
Proof.
  intros Hs. unfold get_in_msg_off, seq_distance, modulo.
  rewrite <- u32_sub_r. pose proof (u32_range (begin w)) as Hb.
  generalize dependent (u32 (begin w)). intros b Hb.
  destruct (Z.leb_spec b sq); rewrite u64_small by lia; wrap_lia.
Qed.

Lemma seq_distance_in_space w sq :
  in_space w -> begin w <= sq < modulus32 -> seq_distance w sq = sq - begin w.
Proof.
  intros [Hw ?] ?. pose proof (begin_wf _ Hw). destruct Hw as (?&?&?&?).
  apply u32_small. lia.
Qed.

(** An acknowledged sequence number inside the window moves the offset to
    just past it. *)
Lemma set_off_from_seq_in_space (w : send_window) sq :
  in_space w -> begin w <= sq < end_ w ->
  set_off_from_seq sq w =
    Swin (Rwin (w_start w) (sq + 1 - w_start w) (w_sz w)) (w_sent_off w).
Proof.
  intros Hs Hq. pose proof Hs as [Hw ?].
  rewrite end_wf in Hq by done. pose proof (begin_wf _ Hw) as Hb.
  assert (0 <= sq < modulus32) by (destruct Hw as (?&?&?&?); lia).
  unfold set_off_from_seq.
  rewrite get_in_msg_off_distance, seq_distance_in_space by (done || lia).
  destruct Hw as (?&?&?&?).
  rewrite u64_small, s64_small by lia. unfold inc.
  rewrite s64_small by lia. do 2 f_equal. lia.
Qed.

(** Which segments a window that reaches past 2^32 accepts: those that lie in
    it, counted modulo 2^32, except the ones that have themselves wrapped
    and end exactly where the window ends. *)
Lemma contains_across w sq len :
  window_wf w -> begin w < modulus32 < end_ w -> end_ w < modulus32 + begin w ->
  0 <= sq < modulus32 -> 0 < len < modulus32 ->
  contains w (Rwin sq 0 len) =
    (seq_distance w sq + len <=? get_sz w) &&
    negb ((sq <? begin w) && (sq + len =? end_ w - modulus32)).
Proof.
  intros Hw Hb He Hq Hl. rewrite get_sz_begin_end by done.
  pose proof (begin_wf _ Hw) as Hbw.
  unfold contains, seq_distance, modulo.
  assert (begin (Rwin sq 0 len) = sq) as ->
    by (unfold begin; simpl; rewrite u64_small; lia).
  assert (end_ (Rwin sq 0 len) = sq + len) as ->
    by (unfold end_; simpl; rewrite u64_small; lia).
  assert (0 <= begin w) by (destruct Hw as (?&?&?&?); lia).
  clear Hbw Hw. set (b := begin w) in *. set (e := end_ w) in *. clearbody b e.
  assert (u32 e = e - modulus32) as -> by wrap_lia.
  rewrite (proj2 (Z.ltb_lt (e - modulus32) b)) by lia. simpl.
  destruct (Z.ltb_spec (sq + len) (e - modulus32)) as [Hlt|Hge].
  - assert (u32 (sq + len) = sq + len) as -> by wrap_lia.
    assert (u32 (sq - b) = sq - b + modulus32) as -> by wrap_lia.
    rewrite (proj2 (Z.ltb_lt sq (sq + len))), !u64_small by lia. lia.
  - assert (u32 (sq - b) = if sq <? b then sq - b + modulus32 else sq - b) as ->
      by (destruct (Z.ltb_spec sq b); wrap_lia).
    destruct (Z.ltb_spec sq b); lia.
Qed.

(** ** Properties *)

(** Below 2^32, [contains] is interval inclusion: the window accepts
    exactly the segments that start no earlier and end no later than it. *)
Lemma contains_is_inclusion w v :
  in_space w -> in_space v ->
  contains w v = true <->
  (w_start w + w_off w <= w_start v + w_off v /\ w_start v + w_sz v <= w_start w + w_sz w).
Proof.
  intros Hw Hv. rewrite contains_in_space, andb_true_iff, !Z.leb_le by done.
  rewrite !begin_wf, !end_wf by eauto with net666. done.
Qed.

Lemma contains_is_inclusion_witness :
  contains (Rwin 0 0 100) (Rwin 10 0 50) = true <->
  (0 + 0 <= 10 + 0 /\ 10 + 50 <= 0 + 100).
Proof.
  apply (contains_is_inclusion (Rwin 0 0 100) (Rwin 10 0 50));
    repeat split; simpl; lia.
Defined.

(** A window that reaches past 2^32 accepts a non-empty segment iff the
    segment, placed modulo 2^32, lies in the window, with one exception the
    code has: a segment that has itself wrapped and ends exactly at the
    window's end is refused. *)
Lemma contains_past_wrap w sq len :
  window_wf w -> begin w < modulus32 < end_ w -> end_ w < modulus32 + begin w ->
  0 <= sq < modulus32 -> 0 < len < modulus32 ->
  contains w (Rwin sq 0 len) = true <->
  (seq_distance w sq + len <= get_sz w /\
   ~ (sq < begin w /\ sq + len = end_ w - modulus32)).
Proof.
  intros. rewrite contains_across by done.
  rewrite andb_true_iff, negb_true_iff, andb_false_iff, Z.leb_le, Z.ltb_ge, Z.eqb_neq.
  lia.
Qed.

Lemma contains_past_wrap_witness :
  contains (Rwin 4294967196 0 200) (Rwin 50 0 40) = true <->
  (seq_distance (Rwin 4294967196 0 200) 50 + 40 <= get_sz (Rwin 4294967196 0 200) /\
   ~ (50 < begin (Rwin 4294967196 0 200) /\ 50 + 40 = end_ (Rwin 4294967196 0 200) - modulus32)).
Proof.
  apply contains_past_wrap; vm_compute; intuition discriminate.
Defined.

(** Hence the acknowledgement of the last byte of such a window is never
    recognised, although the byte is in the window. *)
Lemma contains_misses_last_byte w :
  window_wf w -> begin w < modulus32 -> modulus32 + 1 < end_ w ->
  end_ w < modulus32 + begin w ->
  contains w (SINGLE_WINDOW (u32 (end_ w - 1))) = false.
Proof.
  intros Hw Hb He Heb.
  assert (u32 (end_ w - 1) = end_ w - 1 - modulus32) as -> by wrap_lia.
  unfold SINGLE_WINDOW.
  rewrite contains_across by (done || lia).
  rewrite (proj2 (Z.ltb_lt _ (begin w))), (proj2 (Z.eqb_eq _ _)) by lia.
  apply andb_false_r.
Qed.

Lemma contains_misses_last_byte_witness :
  contains (Rwin 4294967000 0 1000) (SINGLE_WINDOW (u32 (end_ (Rwin 4294967000 0 1000) - 1)))
    = false.
Proof.
  apply contains_misses_last_byte; vm_compute; intuition discriminate.
Defined.

(** [set_off_from_seq] advances the window's beginning to the byte after
    the acknowledged sequence number, modulo 2^32, for every window whose
    remaining part is shorter than 2^32. *)
Lemma set_off_from_seq_begin (w : send_window) sq :
  send_window_wf w -> 0 <= sq < modulus32 -> seq_distance w sq < get_sz w ->
  u32 (begin (set_off_from_seq sq w)) = u32 (sq + 1) /\
  w_off (set_off_from_seq sq w) = w_off w + seq_distance w sq + 1 /\
  window_wf (set_off_from_seq sq w).
Proof.
  intros [Hw Ho] Hq Hd. rewrite get_sz_wf in Hd by done.
  pose proof (u32_range (sq - begin w)) as Hr. fold (seq_distance w sq) in Hr.
  unfold set_off_from_seq. rewrite get_in_msg_off_distance by done.
  rewrite u64_small, s64_small by lia.
  destruct (inc_wf w (seq_distance w sq + 1) Hw) as [-> Hwf];
    [rewrite get_sz_wf by done; lia|].
  destruct Hw as (?&?&?&?).
  repeat split; simpl; try lia.
  rewrite begin_wf by (unfold window_wf in *; simpl in *; lia). simpl.
  unfold seq_distance, begin in *. rewrite u64_small in * by lia.
  replace (sq + 1) with (w_start w + w_off w + 1 + (sq - (w_start w + w_off w))) by lia.
  rewrite <- (u32_add_r _ (sq - _)). f_equal. lia.
Qed.

Lemma set_off_from_seq_begin_witness :
  u32 (begin (set_off_from_seq 1 (Swin (Rwin 4294967295 0 100) 0))) = u32 (1 + 1) /\
  w_off (set_off_from_seq 1 (Swin (Rwin 4294967295 0 100) 0)) =
    0 + seq_distance (Rwin 4294967295 0 100) 1 + 1 /\
  window_wf (set_off_from_seq 1 (Swin (Rwin 4294967295 0 100) 0)).
Proof.
  apply (set_off_from_seq_begin (Swin (Rwin 4294967295 0 100) 0) 1);
    vm_compute; intuition discriminate.
Defined.
