(* ===== verification/Engine.v ===== *)
(** * Engine: the helpers of [src/src/tcp_engine.cpp]

    The checksum, the time conversions and the choice of the MTU.  What the
    operating system answers ([getifaddrs], the [SIOCGIFMTU] request) is an
    argument. *)
From S2P Require Import Prelude.

(** ** The checksum (319-331)

    The buffer is the list of the [sz] bytes at [buf]; words are read in the
    host's little-endian order. *)

Fixpoint chsum_loop (bs : bytes) (chksum : Z) : Z :=
  match bs with
  | b0 :: b1 :: rest => chsum_loop rest (u64 (chksum + (b0 + modulus8 * b1)))
  | [b] => u64 (chksum + b)
  | [] => chksum
  end.

Definition chsum (buf : bytes) : Z :=
  let chksum := chsum_loop buf 0 in
  let chksum := u64 (Z.shiftr chksum 16 + Z.land chksum 65535) in
  let chksum := u64 (chksum + Z.shiftr chksum 16) in
  u16 (Z.lnot chksum).

(** ** Time conversions (302-312) *)

Record timeval : Type := Timeval { tv_sec : Z; tv_usec : Z }.
Record timespec : Type := Timespec { ts_sec : Z; ts_nsec : Z }.

(** [duration_cast] truncates toward zero. *)
Definition convert_to_timeval (ms : Z) : timeval :=
  let s := ms `quot` 1000 in
  Timeval s (ms * 1000 - s * 1000000).

Definition convert_to_timespec (ms : Z) : timespec :=
  let s := ms `quot` 1000 in
  Timespec s (ms * 1000000 - s * 1000000000).

(** ** The MTU of the interfaces a socket is bound to (39-62)

    One entry of the list [getifaddrs] returns: the family and address of
    [ifa_addr] when it is not null, and what [mtu_if] answers for [ifa_name]
    when that is not null ([None] inside: the request fails and [mtu_if]
    throws). *)

Record ifaddrs : Type := Ifa {
  ifa_addr : option (Z * Z);
  ifa_name_mtu : option (option Z);
}.

Definition INADDR_ANY : Z := 0.

Definition ifa_matches (family addr : Z) (ifa : ifaddrs) : bool :=
  match ifa_addr ifa with
  | Some (f, a) => (family =? f) && ((addr =? INADDR_ANY) || (a =? addr))
  | None => false
  end.

Fixpoint mtu_binded (ifaddr : list ifaddrs) (family addr max_mtu : Z) : outcome Z :=
  match ifaddr with
  | [] => Ret max_mtu
  | ifa :: rest =>
      if ifa_matches family addr ifa then
        match ifa_name_mtu ifa with
        | Some (Some mtu) => mtu_binded rest family addr (Z.min max_mtu mtu)
        | Some None => Throw EFuck
        | None => mtu_binded rest family addr max_mtu
        end
      else mtu_binded rest family addr max_mtu
  end.

(** ** Lemmas about the checksum *)

(** The sum of the 16-bit words of a byte string, without wrap-around. *)
Fixpoint word_sum (bs : bytes) : Z :=
  match bs with
  | b0 :: b1 :: rest => b0 + modulus8 * b1 + word_sum rest
  | [b] => b
  | [] => 0
  end.

Lemma list_ind2 (P : bytes -> Prop) :
  P [] -> (forall b, P [b]) -> (forall a b l, P l -> P (a :: b :: l)) -> forall l, P l.
Proof.
  intros H0 H1 H2.
  exact (fix IH l := match l with
    | [] => H0 | [b] => H1 b | a :: b :: l => H2 a b l (IH l) end).
Qed.

Lemma word_sum_bound bs :
  Forall is_byte bs -> 0 <= word_sum bs <= 65535 * Z.of_nat (length bs).
Proof.
  induction bs as [|b|a b l IH] using list_ind2; intros H; simpl.
  - lia.
  - inversion H; subst. unfold is_byte in *. lia.
  - inversion H as [|? ? Ha H']; subst. inversion H'; subst.
    unfold is_byte in *. specialize (IH ltac:(done)). lia.
Qed.

Lemma chsum_loop_sum bs acc :
  Forall is_byte bs -> 0 <= acc -> acc + 65535 * Z.of_nat (length bs) < modulus64 ->
  chsum_loop bs acc = acc + word_sum bs.
Proof.
  revert acc.
  induction bs as [|b|a b l IH] using list_ind2; intros acc H Hacc Hlen; cbn [chsum_loop word_sum].
  - lia.
  - inversion H; subst. unfold is_byte in *. apply u64_small. simpl in Hlen. lia.
  - inversion H as [|? ? Ha H']; subst. inversion H'; subst.
    unfold is_byte in *. simpl length in Hlen.
    rewrite u64_small by lia. rewrite IH by (done || lia). lia.
Qed.

Lemma word_sum_le_val bs : word_sum bs `mod` 65535 = le_val bs `mod` 65535.
Proof.
  induction bs as [|b|a b l IH] using list_ind2; cbn [word_sum le_val]; [done| |].
  - f_equal. lia.
  - rewrite Zplus_mod, IH, <- Zplus_mod.
    replace (a + modulus8 * (b + modulus8 * le_val l))
      with (a + modulus8 * b + le_val l + le_val l * 65535) by lia.
    rewrite Z.mod_add by lia. done.
Qed.

(** The two folding steps, for sums below 2^32. *)
Lemma fold_twice c :
  0 <= c < modulus32 ->
  let v := u64 (Z.shiftr c 16 + Z.land c 65535) in
  let w := u64 (v + Z.shiftr v 16) in
  0 <= u16 (Z.lnot w) < modulus16 /\ (u16 (Z.lnot w) + c) `mod` 65535 = 0.
Proof.
  intros Hc. cbv zeta. split; [apply u16_range|].
  assert (Z.land c 65535 = c `mod` modulus16) as -> by (apply (Z.land_ones c 16); lia).
  rewrite !Z.shiftr_div_pow2 by lia. change (2 ^ 16) with modulus16.
  assert (0 <= c `div` modulus16 < modulus16) as Hh by (Z.to_euclidean_division_equations; lia).
  pose proof (Z.mod_pos_bound c modulus16 eq_refl) as Hl.
  pose proof (Z.div_mod c modulus16 ltac:(done)) as Hd.
  generalize dependent (c `div` modulus16). generalize dependent (c `mod` modulus16).
  intros l Hl h Hh Hd.
  rewrite (u64_small (h + l)) by lia.
  assert (0 <= (h + l) `div` modulus16 <= 1) as Hv by (Z.to_euclidean_division_equations; lia).
  rewrite u64_small by lia. unfold u16, Z.lnot.
  Z.to_euclidean_division_equations. lia.
Qed.

Lemma chsum_spec bs :
  Forall is_byte bs -> Z.of_nat (length bs) <= 65536 ->
  0 <= chsum bs < modulus16 /\ (chsum bs + le_val bs) `mod` 65535 = 0.
Proof.
  intros Hb Hlen. pose proof (word_sum_bound bs Hb).
  unfold chsum. rewrite chsum_loop_sum by (done || lia). rewrite Z.add_0_l.
  destruct (fold_twice (word_sum bs)) as [Hr Hm]; [lia|]. split; [done|].
  rewrite Zplus_mod, <- word_sum_le_val, <- Zplus_mod. done.
Qed.

Lemma le_val_insert bs i b bi :
  bs !! i = Some bi ->
  le_val (<[i:=b]> bs) = le_val bs + (b - bi) * modulus8 ^ Z.of_nat i.
Proof.
  revert i. induction bs as [|c bs IH]; intros [|i] H; simplify_eq/=; [lia|].
  rewrite (IH _ H), Nat2Z.inj_succ, Z.pow_succ_r by lia. lia.
Qed.

(** 256 is invertible modulo 65535, being its own inverse. *)
Lemma byte_shift_cancel x n :
  (x * modulus8 ^ Z.of_nat n) `mod` 65535 = 0 -> x `mod` 65535 = 0.
Proof.
  induction n as [|n IH]; intros H; [rewrite Z.mul_1_r in H; done|].
  apply IH. rewrite Nat2Z.inj_succ, Z.pow_succ_r in H by lia.
  set (y := x * modulus8 ^ Z.of_nat n).
  replace (x * (modulus8 * modulus8 ^ Z.of_nat n)) with (modulus8 * y) in H by (unfold y; lia).
  clearbody y. Z.to_euclidean_division_equations. lia.
Qed.

Lemma Forall_insert_byte bs i b :
  Forall is_byte bs -> is_byte b -> Forall is_byte (<[i:=b]> bs).
Proof. intros. apply Forall_insert; done. Qed.

Lemma chsum_one_byte bs i b bi :
  Forall is_byte bs -> is_byte b -> Z.of_nat (length bs) <= 65536 ->
  bs !! i = Some bi -> b <> bi -> chsum (<[i:=b]> bs) <> chsum bs.
Proof.
  intros Hbs Hb Hlen Hi Hne Heq.
  destruct (chsum_spec bs Hbs Hlen) as [_ H1].
  destruct (chsum_spec (<[i:=b]> bs)) as [_ H2];
    [by apply Forall_insert_byte|rewrite length_insert; done|].
  rewrite Heq, (le_val_insert _ _ _ _ Hi) in H2.
  assert (((b - bi) * modulus8 ^ Z.of_nat i) `mod` 65535 = 0) as H3
    by (Z.to_euclidean_division_equations; lia).
  apply byte_shift_cancel in H3.
  assert (is_byte bi) by (eapply Forall_lookup_1; eauto).
  unfold is_byte in *. Z.to_euclidean_division_equations. lia.
Qed.

(** ** Properties *)

(** The checksum is the one's-complement negation of the buffer: read as
    one little-endian number, buffer plus checksum is 0 modulo 65535, for
    every buffer of at most 65536 bytes (an IP packet has fewer). *)
Lemma chsum_ones_complement bs :
  Forall is_byte bs -> Z.of_nat (length bs) <= 65536 ->
  0 <= chsum bs < modulus16 /\ (chsum bs + le_val bs) `mod` 65535 = 0.
Proof. apply chsum_spec. Qed.

Lemma chsum_ones_complement_witness :
  0 <= chsum [1; 2; 3] < modulus16 /\ (chsum [1; 2; 3] + le_val [1; 2; 3]) `mod` 65535 = 0.
Proof.
  apply chsum_ones_complement; [|simpl; lia].
  repeat constructor; unfold is_byte; lia.
Defined.

(** Changing one byte of a buffer changes its checksum (what [chsum_test]
    tries for one buffer). *)
Lemma chsum_detects_byte_change bs i b bi :
  Forall is_byte bs -> is_byte b -> Z.of_nat (length bs) <= 65536 ->
  bs !! i = Some bi -> b <> bi -> chsum (<[i:=b]> bs) <> chsum bs.
Proof. apply chsum_one_byte. Qed.

Lemma chsum_detects_byte_change_witness :
  chsum (<[1%nat := 7]> [1; 2; 3]) <> chsum [1; 2; 3].
Proof.
  apply (chsum_detects_byte_change [1; 2; 3] 1 7 2);
    [repeat constructor; unfold is_byte; lia|unfold is_byte; lia|simpl; lia|done|done].
Defined.

(** For a non-negative duration the converted [timeval] and [timespec] are
    normalised and denote exactly that duration. *)
Lemma convert_time_exact ms :
  0 <= ms ->
  (0 <= tv_usec (convert_to_timeval ms) < 1000000 /\
   tv_sec (convert_to_timeval ms) * 1000000 + tv_usec (convert_to_timeval ms) = ms * 1000) /\
  (0 <= ts_nsec (convert_to_timespec ms) < 1000000000 /\
   ts_sec (convert_to_timespec ms) * 1000000000 + ts_nsec (convert_to_timespec ms)
     = ms * 1000000).
Proof.
  intros H. unfold convert_to_timeval, convert_to_timespec; simpl.
  Z.to_euclidean_division_equations. lia.
Qed.

Lemma convert_time_exact_witness :
  (0 <= tv_usec (convert_to_timeval 1234) < 1000000 /\
   tv_sec (convert_to_timeval 1234) * 1000000 + tv_usec (convert_to_timeval 1234) = 1234 * 1000) /\
  (0 <= ts_nsec (convert_to_timespec 1234) < 1000000000 /\
   ts_sec (convert_to_timespec 1234) * 1000000000 + ts_nsec (convert_to_timespec 1234)
     = 1234 * 1000000).
Proof. apply (convert_time_exact 1234). lia. Defined.

(** The MTUs of the named interfaces that match the bound address. *)
Definition matching_mtus (ifaddr : list ifaddrs) (family addr : Z) : list (option Z) :=
  omap ifa_name_mtu (filter (fun ifa => ifa_matches family addr ifa = true) ifaddr).

(** [mtu_binded] throws iff the MTU of some matching interface cannot be
    had, and otherwise answers the least of the matching MTUs and the cap. *)
Lemma mtu_binded_is_minimum ifaddr family addr max_mtu :
  mtu_binded ifaddr family addr max_mtu =
  if decide (None ∈ matching_mtus ifaddr family addr) then Throw EFuck
  else Ret (foldl Z.min max_mtu (omap id (matching_mtus ifaddr family addr))).
Proof.
  unfold matching_mtus. revert max_mtu.
  induction ifaddr as [|ifa rest IH]; intros max_mtu; [done|].
  cbn [mtu_binded]. rewrite filter_cons.
  destruct (decide (ifa_matches family addr ifa = true)) as [->|Hm].
  - cbn [omap list_omap].
    destruct (ifa_name_mtu ifa) as [[mtu|]|].
    + rewrite IH. set (l := omap ifa_name_mtu _).
      destruct (decide (None ∈ l)), (decide (None ∈ Some mtu :: l)); set_solver.
    + rewrite decide_True by set_solver. done.
    + apply IH.
  - rewrite (not_true_is_false _ Hm). apply IH.
Qed.
