(* ===== verification/Message.v ===== *)
(** * Message: packets and messages ([src/src/proto.h], [src/src/transfer.h])

    The headers as records with the fields of the C structures, the packed
    layout of [msg::raw_msg_t] as an encoding into bytes, and the methods of
    [struct msg].  A [msg] value holds what its raw block holds; [m_data] is
    the memory [get_data()] points to.  Header integers are kept in host byte
    order, as the code stores them. *)
From S2P Require Import Prelude.

(** ** Addresses (proto.h 10-18, tcp_engine.cpp 64-81) *)

Record sockaddr_in : Type := Addr {
  sin_addr : Z;
  sin_port : Z;
}.

Record socket_identify : Type := Ident {
  in_addr : sockaddr_in;
  out_addr : sockaddr_in;
}.

#[export] Instance sockaddr_in_eq_dec : EqDecision sockaddr_in.
Proof. solve_decision. Defined.

Definition addr_comparable (a b : sockaddr_in) : bool :=
  (sin_addr a =? sin_addr b) && (sin_port a =? sin_port b).

(** ** Headers

    [ip_front] is the first twelve bytes of [struct iphdr], up to and with
    its checksum, which the program never looks at. *)

Record iphdr : Type := Iphdr {
  ip_front : bytes;
  saddr : Z;
  daddr : Z;
}.

Record tcphdr : Type := Tcphdr {
  th_source : Z;
  th_dest : Z;
  th_seq : Z;
  th_ack_seq : Z;
  th_off_res : Z;
  th_fin : bool;
  th_syn : bool;
  th_rst : bool;
  th_psh : bool;
  th_ack : bool;
  th_urg : bool;
  th_res2 : Z;
  th_window : Z;
  th_check : Z;
  th_urg_ptr : Z;
}.

Record TCPHDR : Type := Thdr {
  hdr : tcphdr;
  sender_timestamp : Z;
  recv_timestamp : Z;
}.

Record msg : Type := Msg {
  m_buf_len : Z;
  m_data_len : Z;
  m_iph : iphdr;
  m_tcph : TCPHDR;
  m_data : bytes;
}.

(** ** Sizes of the packed structures *)

Definition sizeof_iphdr : Z := 20.
Definition sizeof_tcphdr : Z := 20.
Definition sizeof_TCPHDR : Z := sizeof_tcphdr + 8 + 8.
Definition sizeof_TCP_PACKET : Z := sizeof_iphdr + sizeof_TCPHDR.
Definition sizeof_raw_msg : Z := 8 + 8 + sizeof_TCP_PACKET.

Definition max_packet_data_size (mtu : Z) : Z := u64 (mtu - sizeof_TCP_PACKET).

(** ** The packed layout *)

Definition encode_iphdr (h : iphdr) : bytes :=
  ip_front h ++ le_bytes 4 (saddr h) ++ le_bytes 4 (daddr h).

Definition flags_byte (h : tcphdr) : Z :=
  Z.b2z (th_fin h) + 2 * Z.b2z (th_syn h) + 4 * Z.b2z (th_rst h) +
  8 * Z.b2z (th_psh h) + 16 * Z.b2z (th_ack h) + 32 * Z.b2z (th_urg h) +
  64 * th_res2 h.

Definition encode_tcphdr (h : tcphdr) : bytes :=
  le_bytes 2 (th_source h) ++ le_bytes 2 (th_dest h) ++
  le_bytes 4 (th_seq h) ++ le_bytes 4 (th_ack_seq h) ++
  le_bytes 1 (th_off_res h) ++ le_bytes 1 (flags_byte h) ++
  le_bytes 2 (th_window h) ++ le_bytes 2 (th_check h) ++ le_bytes 2 (th_urg_ptr h).

Definition encode_TCPHDR (h : TCPHDR) : bytes :=
  encode_tcphdr (hdr h) ++
  le_bytes 8 (sender_timestamp h) ++ le_bytes 8 (recv_timestamp h).

Definition encode_packet (m : msg) : bytes :=
  encode_iphdr (m_iph m) ++ encode_TCPHDR (m_tcph m) ++ m_data m.

(** The [sizeof(raw_msg_t)] bytes before the flexible array. *)
Definition encode_header (m : msg) : bytes :=
  le_bytes 8 (m_buf_len m) ++ le_bytes 8 (m_data_len m) ++
  encode_iphdr (m_iph m) ++ encode_TCPHDR (m_tcph m).

Definition encode_raw (m : msg) : bytes := encode_header m ++ m_data m.

Definition field (i n : nat) (bs : bytes) : Z := le_val (slice i n bs).

Definition decode_iphdr (bs : bytes) : iphdr :=
  Iphdr (slice 0 12 bs) (field 12 4 bs) (field 16 4 bs).

Definition decode_tcphdr (bs : bytes) : tcphdr :=
  let fl := field 13 1 bs in
  Tcphdr (field 0 2 bs) (field 2 2 bs) (field 4 4 bs) (field 8 4 bs)
    (field 12 1 bs)
    (Z.testbit fl 0) (Z.testbit fl 1) (Z.testbit fl 2) (Z.testbit fl 3)
    (Z.testbit fl 4) (Z.testbit fl 5) (fl / 64)
    (field 14 2 bs) (field 16 2 bs) (field 18 2 bs).

Definition decode_TCPHDR (bs : bytes) : TCPHDR :=
  Thdr (decode_tcphdr (slice 0 20 bs)) (field 20 8 bs) (field 28 8 bs).

Definition decode_raw (bs : bytes) : msg :=
  Msg (field 0 8 bs) (field 8 8 bs) (decode_iphdr (slice 16 20 bs))
    (decode_TCPHDR (slice 36 36 bs)) (drop 72 bs).

(** ** The methods of [struct msg] (transfer.h 21-172)

    Setters are functional updates; a narrower parameter type truncates. *)

Definition full_sz_no_obj (buf_len : Z) : Z := u64 (sizeof_raw_msg + buf_len).
Definition full_sz (m : msg) : Z := full_sz_no_obj (m_buf_len m).
Definition full_sz_updated_data (m : msg) : Z := u64 (full_sz_no_obj 0 + m_data_len m).
Definition header_len : Z := sizeof_iphdr + sizeof_TCPHDR.
Definition get_data_len (m : msg) : Z := m_data_len m.
Definition tcp_data_sz (m : msg) : Z := u64 (sizeof_TCPHDR + m_data_len m).
Definition packet_sz (m : msg) : Z := u64 (sizeof_TCP_PACKET + m_data_len m).

(** What [flush_to_orig_buf] copies: the first [data_len] bytes of the data. *)
Definition msg_data (m : msg) : bytes := take (Z.to_nat (m_data_len m)) (m_data m).

Definition set_data_len (n : Z) (m : msg) : msg :=
  Msg (m_buf_len m) n (m_iph m) (m_tcph m) (m_data m).
Definition cleanup_data_sz (m : msg) : msg := set_data_len (m_buf_len m) m.

Definition upd_iph (f : iphdr -> iphdr) (m : msg) : msg :=
  Msg (m_buf_len m) (m_data_len m) (f (m_iph m)) (m_tcph m) (m_data m).
Definition upd_tcph (f : TCPHDR -> TCPHDR) (m : msg) : msg :=
  Msg (m_buf_len m) (m_data_len m) (m_iph m) (f (m_tcph m)) (m_data m).
Definition upd_hdr (f : tcphdr -> tcphdr) (m : msg) : msg :=
  upd_tcph (fun t => Thdr (f (hdr t)) (sender_timestamp t) (recv_timestamp t)) m.

Definition m_hdr (m : msg) : tcphdr := hdr (m_tcph m).

Definition get_seq (m : msg) : Z := th_seq (m_hdr m).
Definition set_seq (v : Z) : msg -> msg := upd_hdr (fun h =>
  Tcphdr (th_source h) (th_dest h) (u32 v) (th_ack_seq h) (th_off_res h) (th_fin h)
    (th_syn h) (th_rst h) (th_psh h) (th_ack h) (th_urg h) (th_res2 h)
    (th_window h) (th_check h) (th_urg_ptr h)).
Definition get_ack_seq (m : msg) : Z := th_ack_seq (m_hdr m).
Definition set_ack_seq (v : Z) : msg -> msg := upd_hdr (fun h =>
  Tcphdr (th_source h) (th_dest h) (th_seq h) (u32 v) (th_off_res h) (th_fin h)
    (th_syn h) (th_rst h) (th_psh h) (th_ack h) (th_urg h) (th_res2 h)
    (th_window h) (th_check h) (th_urg_ptr h)).
Definition get_window_sz (m : msg) : Z := th_window (m_hdr m).
Definition set_window_sz (v : Z) : msg -> msg := upd_hdr (fun h =>
  Tcphdr (th_source h) (th_dest h) (th_seq h) (th_ack_seq h) (th_off_res h) (th_fin h)
    (th_syn h) (th_rst h) (th_psh h) (th_ack h) (th_urg h) (th_res2 h)
    (u16 v) (th_check h) (th_urg_ptr h)).
Definition get_chsum (m : msg) : Z := th_check (m_hdr m).
Definition set_chsum (v : Z) : msg -> msg := upd_hdr (fun h =>
  Tcphdr (th_source h) (th_dest h) (th_seq h) (th_ack_seq h) (th_off_res h) (th_fin h)
    (th_syn h) (th_rst h) (th_psh h) (th_ack h) (th_urg h) (th_res2 h)
    (th_window h) (u16 v) (th_urg_ptr h)).

Definition set_dest_addr (a : sockaddr_in) (m : msg) : msg :=
  upd_hdr (fun h =>
    Tcphdr (th_source h) (sin_port a) (th_seq h) (th_ack_seq h) (th_off_res h) (th_fin h)
      (th_syn h) (th_rst h) (th_psh h) (th_ack h) (th_urg h) (th_res2 h)
      (th_window h) (th_check h) (th_urg_ptr h))
    (upd_iph (fun i => Iphdr (ip_front i) (saddr i) (sin_addr a)) m).
Definition get_dest_addr (m : msg) : sockaddr_in := Addr (daddr (m_iph m)) (th_dest (m_hdr m)).
Definition set_src_addr (a : sockaddr_in) (m : msg) : msg :=
  upd_hdr (fun h =>
    Tcphdr (sin_port a) (th_dest h) (th_seq h) (th_ack_seq h) (th_off_res h) (th_fin h)
      (th_syn h) (th_rst h) (th_psh h) (th_ack h) (th_urg h) (th_res2 h)
      (th_window h) (th_check h) (th_urg_ptr h))
    (upd_iph (fun i => Iphdr (ip_front i) (sin_addr a) (daddr i)) m).
Definition get_src_addr (m : msg) : sockaddr_in := Addr (saddr (m_iph m)) (th_source (m_hdr m)).

Definition is_ack (m : msg) : bool := th_ack (m_hdr m).
Definition is_syn (m : msg) : bool := th_syn (m_hdr m).
Definition is_fin (m : msg) : bool := th_fin (m_hdr m).
Definition is_rst (m : msg) : bool := th_rst (m_hdr m).
Definition is_usual (m : msg) : bool :=
  negb (is_ack m) && negb (is_syn m) && negb (is_fin m) && negb (is_rst m).

Definition get_sender_timestamp (m : msg) : Z := sender_timestamp (m_tcph m).
Definition set_sender_timestamp (v : Z) : msg -> msg :=
  upd_tcph (fun t => Thdr (hdr t) v (recv_timestamp t)).
Definition get_recv_timestamp (m : msg) : Z := recv_timestamp (m_tcph m).
Definition set_recv_timestamp (v : Z) : msg -> msg :=
  upd_tcph (fun t => Thdr (hdr t) (sender_timestamp t) v).

Definition set_flags (fin syn rst ack : bool) : msg -> msg := upd_hdr (fun h =>
  Tcphdr (th_source h) (th_dest h) (th_seq h) (th_ack_seq h) (th_off_res h)
    (fin || th_fin h) (syn || th_syn h) (rst || th_rst h) (th_psh h) (ack || th_ack h)
    (th_urg h) (th_res2 h) (th_window h) (th_check h) (th_urg_ptr h)).
Definition set_syn : msg -> msg := set_flags false true false false.
Definition set_ack : msg -> msg := set_flags false false false true.
Definition set_fin : msg -> msg := set_flags true false false false.
Definition set_rst : msg -> msg := set_flags false false true false.

(** [msg(void *buf, size_t buf_len)]: zeroed memory, the data copied in;
    with a null [buf] the data stays zero. *)
Definition zero_iphdr : iphdr := Iphdr (replicate 12 0) 0 0.
Definition zero_tcphdr : tcphdr :=
  Tcphdr 0 0 0 0 0 false false false false false false 0 0 0 0.
Definition msg_zeroed (buf_len : Z) (d : bytes) : msg :=
  Msg buf_len buf_len zero_iphdr (Thdr zero_tcphdr 0 0) d.
Definition msg_alloc (buf_len : Z) : msg :=
  msg_zeroed buf_len (replicate (Z.to_nat buf_len) 0).
Definition msg_of (buf : bytes) : msg := msg_zeroed (Z.of_nat (length buf)) buf.

(** [tmp_msg(data, sz)]: a header block of its own over the caller's data. *)
Definition tmp_msg (d : bytes) : msg := msg_zeroed (Z.of_nat (length d)) d.

(** [msg(msg &other, void *inplace)]: the two [memcpy]s into the raw block at
    address [p]. *)
Definition copy_inplace (other : msg) (p : Z) (mm : mem) : mem :=
  store_bytes
    (store_bytes mm p
       (take (Z.to_nat (u64 (full_sz other - get_data_len other))) (encode_raw other)))
    (p + sizeof_raw_msg) (msg_data other).

(** [msg(void *inplace)]: the raw block at [p], read as a message. *)
Definition load_msg (mm : mem) (p : Z) : msg :=
  let head := load_bytes mm p (Z.to_nat sizeof_raw_msg) in
  decode_raw (head ++ load_bytes mm (p + sizeof_raw_msg) (Z.to_nat (field 0 8 head))).

(** Writing a message's header block back where it lies. *)
Definition store_header (mm : mem) (p : Z) (m : msg) : mem :=
  store_bytes mm p (encode_header m).

(** ** Well-formed messages: every field in the range of its type *)

Definition iphdr_wf (h : iphdr) : Prop :=
  length (ip_front h) = 12%nat /\ 0 <= saddr h < modulus32 /\ 0 <= daddr h < modulus32.

Definition tcphdr_wf (h : tcphdr) : Prop :=
  0 <= th_source h < modulus16 /\ 0 <= th_dest h < modulus16 /\
  0 <= th_seq h < modulus32 /\ 0 <= th_ack_seq h < modulus32 /\
  0 <= th_off_res h < modulus8 /\ 0 <= th_res2 h < 4 /\
  0 <= th_window h < modulus16 /\ 0 <= th_check h < modulus16 /\
  0 <= th_urg_ptr h < modulus16.

Definition TCPHDR_wf (h : TCPHDR) : Prop :=
  tcphdr_wf (hdr h) /\ 0 <= sender_timestamp h < modulus64 /\
  0 <= recv_timestamp h < modulus64.

Definition msg_wf (m : msg) : Prop :=
  0 <= m_buf_len m < modulus64 /\ 0 <= m_data_len m < modulus64 /\
  iphdr_wf (m_iph m) /\ TCPHDR_wf (m_tcph m).

(** ** Layout lemmas *)

Lemma length_encode_tcphdr h : length (encode_tcphdr h) = 20%nat.
Proof. unfold encode_tcphdr. lengths. done. Qed.

Lemma length_encode_TCPHDR h : length (encode_TCPHDR h) = 36%nat.
Proof.
  pose proof (length_encode_tcphdr (hdr h)). unfold encode_TCPHDR. lengths. done.
Qed.

Lemma length_encode_iphdr h :
  length (ip_front h) = 12%nat -> length (encode_iphdr h) = 20%nat.
Proof. intros H. unfold encode_iphdr. lengths. lia. Qed.

Lemma length_encode_header m :
  iphdr_wf (m_iph m) -> length (encode_header m) = 72%nat.
Proof.
  intros (H&_&_). pose proof (length_encode_iphdr _ H).
  pose proof (length_encode_TCPHDR (m_tcph m)). unfold encode_header. lengths. done.
Qed.

Lemma decode_encode_iphdr h : iphdr_wf h -> decode_iphdr (encode_iphdr h) = h.
Proof.
  intros (Hl&Hs&Hd). destruct h as [f s d]; simpl in *.
  unfold decode_iphdr, encode_iphdr, field; simpl ip_front; simpl saddr; simpl daddr.
  f_equal; find_slice; [done|apply le_val_le_bytes_small; simpl; lia..].
Qed.

Lemma flags_byte_range h : 0 <= th_res2 h < 4 -> 0 <= flags_byte h < modulus8.
Proof.
  intros H. unfold flags_byte.
  destruct (th_fin h), (th_syn h), (th_rst h), (th_psh h), (th_ack h), (th_urg h);
    simpl Z.b2z; lia.
Qed.

Lemma flags_byte_bits h :
  0 <= th_res2 h < 4 ->
  let fl := flags_byte h in
  Z.testbit fl 0 = th_fin h /\ Z.testbit fl 1 = th_syn h /\
  Z.testbit fl 2 = th_rst h /\ Z.testbit fl 3 = th_psh h /\
  Z.testbit fl 4 = th_ack h /\ Z.testbit fl 5 = th_urg h /\ fl / 64 = th_res2 h.
Proof.
  intros H. cbv zeta. unfold flags_byte.
  assert (th_res2 h = 0 \/ th_res2 h = 1 \/ th_res2 h = 2 \/ th_res2 h = 3)
    as [->|[->|[->| ->]]] by lia;
  destruct (th_fin h), (th_syn h), (th_rst h), (th_psh h), (th_ack h), (th_urg h);
    repeat split.
Qed.

Lemma decode_encode_tcphdr h : tcphdr_wf h -> decode_tcphdr (encode_tcphdr h) = h.
Proof.
  intros (?&?&?&?&?&Hr&?&?&?).
  pose proof (flags_byte_range h Hr) as Hfr.
  pose proof (flags_byte_bits h Hr) as (Hb0&Hb1&Hb2&Hb3&Hb4&Hb5&Hb6).
  unfold decode_tcphdr, encode_tcphdr, field.
  assert (le_val (le_bytes 1 (flags_byte h)) = flags_byte h) as Hfl
    by (apply le_val_le_bytes_small; simpl; lia).
  cbv zeta. find_slice. rewrite Hfl, Hb0, Hb1, Hb2, Hb3, Hb4, Hb5, Hb6.
  rewrite !le_val_le_bytes_small by (simpl; lia).
  destruct h; done.
Qed.

Lemma decode_encode_TCPHDR h : TCPHDR_wf h -> decode_TCPHDR (encode_TCPHDR h) = h.
Proof.
  intros (Hh&?&?). pose proof (length_encode_tcphdr (hdr h)) as Hl.
  unfold decode_TCPHDR, encode_TCPHDR, field.
  find_slice. rewrite decode_encode_tcphdr by done.
  rewrite !le_val_le_bytes_small by (simpl; lia).
  destruct h; done.
Qed.

Lemma decode_encode_raw m : msg_wf m -> decode_raw (encode_raw m) = m.
Proof.
  intros (?&?&Hi&Ht). pose proof (length_encode_header m Hi) as Hh.
  pose proof (length_encode_iphdr (m_iph m) (proj1 Hi)) as Hil.
  pose proof (length_encode_TCPHDR (m_tcph m)) as Htl.
  unfold decode_raw, encode_raw, field.
  rewrite drop_app_length' by done.
  rewrite !slice_app_l by lia. unfold encode_header. find_slice.
  rewrite decode_encode_iphdr, decode_encode_TCPHDR by done.
  rewrite !le_val_le_bytes_small by (simpl; lia).
  destruct m; done.
Qed.

(** *** From bytes to headers and back *)

Lemma flags_byte_of_bits fl :
  is_byte fl ->
  Z.b2z (Z.testbit fl 0) + 2 * Z.b2z (Z.testbit fl 1) + 4 * Z.b2z (Z.testbit fl 2) +
  8 * Z.b2z (Z.testbit fl 3) + 16 * Z.b2z (Z.testbit fl 4) + 32 * Z.b2z (Z.testbit fl 5) +
  64 * (fl / 64) = fl.
Proof.
  intros H. unfold is_byte in H.
  rewrite !Z.testbit_spec' by lia.
  change (2 ^ 0) with 1. change (2 ^ 1) with 2. change (2 ^ 2) with 4.
  change (2 ^ 3) with 8. change (2 ^ 4) with 16. change (2 ^ 5) with 32.
  Z.to_euclidean_division_equations. lia.
Qed.

Lemma encode_decode_tcphdr bs :
  length bs = 20%nat -> Forall is_byte bs -> encode_tcphdr (decode_tcphdr bs) = bs.
Proof.
  intros Hl Hb. unfold encode_tcphdr, decode_tcphdr, flags_byte, field.
  cbn [th_source th_dest th_seq th_ack_seq th_off_res th_fin th_syn th_rst th_psh
       th_ack th_urg th_res2 th_window th_check th_urg_ptr].
  assert (is_byte (le_val (slice 13 1 bs))) as Hf.
  { pose proof (le_val_bound _ (slice_bytes 13 1 bs Hb)) as H.
    rewrite length_slice in H by lia. done. }
  rewrite flags_byte_of_bits by done.
  rewrite !le_bytes_slice by (done || lia).
  rewrite !slice_slice. apply slice_full. done.
Qed.

Lemma encode_decode_TCPHDR bs :
  length bs = 36%nat -> Forall is_byte bs -> encode_TCPHDR (decode_TCPHDR bs) = bs.
Proof.
  intros Hl Hb. unfold encode_TCPHDR, decode_TCPHDR, field.
  cbn [hdr sender_timestamp recv_timestamp].
  rewrite encode_decode_tcphdr by (auto using slice_bytes; rewrite length_slice; lia).
  rewrite !le_bytes_slice by (done || lia).
  rewrite !slice_slice. apply slice_full. done.
Qed.

(** *** What is read from bytes is in range *)

Lemma field_range i n bs :
  Forall is_byte bs -> 0 <= field i n bs < modulus8 ^ Z.of_nat n.
Proof.
  intros Hb. unfold field. pose proof (le_val_bound _ (slice_bytes i n bs Hb)) as H.
  assert (length (slice i n bs) <= n)%nat as Hl
    by (unfold slice; rewrite length_take; lia).
  split; [lia|]. eapply Z.lt_le_trans; [apply H|].
  apply Z.pow_le_mono_r; lia.
Qed.

Lemma decode_iphdr_wf bs :
  (20 <= length bs)%nat -> Forall is_byte bs -> iphdr_wf (decode_iphdr bs).
Proof.
  intros Hl Hb. unfold iphdr_wf, decode_iphdr. cbn [ip_front saddr daddr].
  rewrite length_slice by lia.
  split_and!; [done|apply (field_range 12 4 bs Hb)|apply (field_range 12 4 bs Hb)
              |apply (field_range 16 4 bs Hb)|apply (field_range 16 4 bs Hb)].
Qed.

Lemma decode_tcphdr_wf bs : Forall is_byte bs -> tcphdr_wf (decode_tcphdr bs).
Proof.
  intros Hb. unfold tcphdr_wf, decode_tcphdr.
  cbn [th_source th_dest th_seq th_ack_seq th_off_res th_res2 th_window th_check th_urg_ptr].
  assert (0 <= field 13 1 bs / 64 < 4) as Hf.
  { pose proof (field_range 13 1 bs Hb) as H. change (modulus8 ^ Z.of_nat 1) with 256 in H.
    Z.to_euclidean_division_equations. lia. }
  split_and!; try (apply Hf); apply (field_range _ 2 bs Hb) || apply (field_range _ 4 bs Hb)
    || apply (field_range _ 1 bs Hb).
Qed.

Lemma decode_TCPHDR_wf bs : Forall is_byte bs -> TCPHDR_wf (decode_TCPHDR bs).
Proof.
  intros Hb. unfold TCPHDR_wf, decode_TCPHDR. cbn [hdr sender_timestamp recv_timestamp].
  split; [apply decode_tcphdr_wf, slice_bytes; done|].
  split; apply (field_range _ 8 bs Hb).
Qed.

(** ** Properties *)

(** Writing a message into raw memory and reading it back gives the
    message: the packed layout loses nothing. *)
Lemma raw_msg_roundtrip m : msg_wf m -> decode_raw (encode_raw m) = m.
Proof. apply decode_encode_raw. Qed.

Lemma raw_msg_roundtrip_witness :
  decode_raw (encode_raw (set_syn (set_seq 77 (msg_of [1; 2; 3])))) =
  set_syn (set_seq 77 (msg_of [1; 2; 3])).
Proof.
  apply raw_msg_roundtrip. vm_compute. intuition discriminate.
Defined.
