(* ===== verification/Transfer.v ===== *)
(** * Transfer: sending and receiving packets

    [src/src/transfer.cpp]; the packet-level operations of [socket_sock_base]
    and [socket_serv] in [src/src/newimpl.cpp] (lines 70-160, 1079-1103); and
    [sock_label] of [src/src/tcp_engine.cpp].  The kernel is an argument: the
    bytes a raw socket hands over, the answer of [sendto], the time. *)
From stdpp Require Import gmap strings pretty.
From S2P Require Import Prelude Engine Message.

(** ** One TCP segment in memory

    The [tcp_data_sz()] bytes at [tcp_data_begin()]. *)

Definition tcp_region (m : msg) : bytes :=
  take (Z.to_nat (tcp_data_sz m)) (encode_TCPHDR (m_tcph m) ++ m_data m).

(** [check_msg_corruption] (newimpl.cpp 70-78): the checksum field is put back
    before it returns, so the message is unchanged. *)
Definition check_msg_corruption (m : msg) : bool :=
  let chsum_req := get_chsum m in
  let chsum_has := chsum (tcp_region (set_chsum 0 m)) in
  negb (chsum_has =? chsum_req).

(** The header [socket_sock_base::send] (145-157) writes before it hands the
    message to [transfer_send_to]. *)
Definition stamp (id : socket_identify) (ts : Z) (m : msg) : msg :=
  let m := set_src_addr (in_addr id) m in
  let m := set_dest_addr (out_addr id) m in
  let m := set_recv_timestamp ts m in
  let m := set_sender_timestamp ts m in
  let m := set_chsum 0 m in
  set_chsum (chsum (tcp_region m)) m.

(** [transfer_send_to] (transfer.cpp 13-30): [sendto] is the kernel's answer.
    Answers what was handed to the kernel. *)
Definition transfer_send_to (sendto : sockaddr_in -> bytes -> Z) (m : msg) :
    outcome (sockaddr_in * bytes) :=
  let addr := get_dest_addr m in
  let ret := sendto addr (tcp_region m) in
  if negb (ret =? tcp_data_sz m) then Throw EFuck
  else Ret (addr, tcp_region m).

Definition socket_send (sendto : sockaddr_in -> bytes -> Z) (id : socket_identify)
    (ts : Z) (m : msg) : outcome (sockaddr_in * bytes) :=
  transfer_send_to sendto (stamp id ts m).

(** Reading the bytes of a packet, header by header, into a raw block. *)
Definition decode_packet (m : msg) (bs : bytes) : msg :=
  Msg (m_buf_len m) (m_data_len m)
    (decode_iphdr (slice 0 20 bs)) (decode_TCPHDR (slice 20 36 bs)) (drop 56 bs).

(** [transfer_recvfrom] (32-52): [recvfrom] writes at most [packet_sz()] bytes
    over the packet and leaves what is behind them; [None]: it failed. *)
Definition transfer_recvfrom (recvd : option bytes) (m : msg) : outcome msg :=
  match recvd with
  | None => Throw EFuck
  | Some pkt =>
      let got := take (Z.to_nat (packet_sz m)) pkt in
      let raw := got ++ drop (length got) (encode_packet m) in
      Ret (set_data_len (u64 (Z.of_nat (length got) - header_len)) (decode_packet m raw))
  end.

(** ** Message queues and labels *)

(** [inet_ntoa]: the four bytes of the address, in memory order. *)
Definition inet_ntoa (a : Z) : string :=
  (pretty (field 0 1 (le_bytes 4 a)) +:+ "." +:+ pretty (field 1 1 (le_bytes 4 a)) +:+ "." +:+
   pretty (field 2 1 (le_bytes 4 a)) +:+ "." +:+ pretty (field 3 1 (le_bytes 4 a)))%string.

(** [ntohs] on the little-endian host: the two bytes swapped. *)
Definition ntohs (p : Z) : Z := u16 (modulus8 * u8 p + u8 (p / modulus8)).

(** [sock_label] (tcp_engine.cpp 27, 83-88) *)
Definition sock_label (id : socket_identify) : string :=
  ("/sock-" +:+ inet_ntoa (sin_addr (in_addr id)) +:+ "." +:+
   pretty (ntohs (sin_port (in_addr id))) +:+ "-" +:+
   inet_ntoa (sin_addr (out_addr id)) +:+ "." +:+
   pretty (ntohs (sin_port (out_addr id))))%string.

(** A POSIX message queue that exists under a name; every message is put
    with priority 1, so it is first in, first out. *)
Record mqueue : Type := Mq {
  mq_maxmsg : Z;
  mq_msgsize : Z;
  mq_msgs : list bytes;
}.

Abbreviation queues := (gmap string mqueue).

(** [sock_mq::put_msg] (tcp_engine.cpp 145-148): [mq_send] refuses a message
    longer than the queue's and blocks on a full queue. *)
Definition put_msg (label : string) (data : bytes) : M queues unit := fun qs =>
  match qs !! label with
  | None => (Throw EFuck, qs)
  | Some q =>
      if mq_msgsize q <? Z.of_nat (length data) then (Throw EFuck, qs)
      else if mq_maxmsg q <=? Z.of_nat (length (mq_msgs q)) then (Fault blocked, qs)
      else (Ret tt, <[label := Mq (mq_maxmsg q) (mq_msgsize q) (mq_msgs q ++ [data])]> qs)
  end.

(** [sock_mq::get_msg] (150-155) into a buffer of [sz] bytes. *)
Definition get_msg (label : string) (sz : Z) : M queues bytes := fun qs =>
  match qs !! label with
  | None => (Throw EFuck, qs)
  | Some q =>
      if sz <? mq_msgsize q then (Throw EFuck, qs)
      else match mq_msgs q with
           | [] => (Fault blocked, qs)
           | d :: rest => (Ret d, <[label := Mq (mq_maxmsg q) (mq_msgsize q) rest]> qs)
           end
  end.

(** The queued form of a message: [packet_sz()] bytes at [packet_begin()]. *)
Definition packet_bytes (m : msg) : bytes := take (Z.to_nat (packet_sz m)) (encode_packet m).

(** [put_msg_to_q] (newimpl.cpp 81-100): to the queue of the socket the packet
    is for, named by its destination and source; a missing queue, or one
    whose messages are shorter, drops the packet. *)
Definition is_fuck (e : exn) : bool := match e with EFuck => true | _ => false end.

Definition msg_ident (m : msg) : socket_identify := Ident (get_dest_addr m) (get_src_addr m).

Definition put_msg_to_q (input_msg : msg) : M queues unit :=
  let label := sock_label (msg_ident input_msg) in
  try_catch
    (qs ← gets id;
     match (qs : queues) !! label with
     | None => throw EFuck
     | Some q =>
         if mq_msgsize q <? packet_sz input_msg then throw EFuck
         else put_msg label (packet_bytes input_msg)
     end)
    is_fuck (mret tt).

(** [socket_sock_base::enqueue_msg] (141-143) *)
Definition enqueue_msg (label : string) (m : msg) : M queues unit :=
  put_msg label (packet_bytes m).

(** [socket_sock_base::next_msg] (102-139).  [raw] is what the raw socket
    yields if [select] finds it readable, [None] if it does not; the queue is
    readable when it is not empty at the time of the [select]. *)
Definition next_msg (label : string) (max_data_sz : Z) (raw : option (option bytes)) :
    M queues msg :=
  qs ← gets id;
  let mq_ready := match (qs : queues) !! label with
                  | Some q => negb (Nat.eqb (length (mq_msgs q)) 0)
                  | None => false
                  end in
  let input_msg := msg_alloc max_data_sz in
  input_msg ← match raw with
    | None => mret input_msg
    | Some recvd =>
        match transfer_recvfrom recvd input_msg with
        | Ret m =>
            when (negb (check_msg_corruption m)) (put_msg_to_q m);;
            mret m
        | Throw e => throw e
        | Fault f => faults f
        end
    end;
  let input_msg := cleanup_data_sz input_msg in
  if mq_ready then
    d ← get_msg label (packet_sz input_msg);
    let raw_bytes := d ++ drop (length d) (encode_packet input_msg) in
    mret (set_data_len (u64 (Z.of_nat (length d) - header_len))
            (decode_packet input_msg raw_bytes))
  else throw ETimeout.

(** [socket_serv::accept_one_client] (1079-1103) over the packets the raw
    socket yields, one after the other, into the one reused message: the
    socket to create and the message to enqueue to it, or what is left to
    wait for.  Packets for other addresses are routed to their queues. *)
Fixpoint accept_one_client (in_addr_ : sockaddr_in) (recvd : list (option bytes))
    (input_msg : msg) : M queues (socket_identify * msg) :=
  match recvd with
  | [] => faults blocked
  | r :: rest =>
      match transfer_recvfrom r (cleanup_data_sz input_msg) with
      | Throw e => throw e
      | Fault f => faults f
      | Ret m =>
          if check_msg_corruption m then accept_one_client in_addr_ rest m
          else if addr_comparable (in_addr (msg_ident m)) in_addr_
               then mret (msg_ident m, m)
               else put_msg_to_q m;; accept_one_client in_addr_ rest m
      end
  end.

(** ** Lemmas: segments *)

(** A message whose length field says how much data it has. *)
Definition sized (m : msg) : Prop :=
  m_data_len m = Z.of_nat (length (m_data m)) /\ m_data_len m <= 65536 - 56.

Lemma tcp_region_split m :
  0 <= m_data_len m <= 65536 - 56 ->
  tcp_region m = encode_TCPHDR (m_tcph m) ++ msg_data m.
Proof.
  intros H. unfold tcp_region, msg_data, tcp_data_sz, sizeof_TCPHDR, sizeof_tcphdr.
  rewrite u64_small by lia. pose proof (length_encode_TCPHDR (m_tcph m)) as Hl.
  rewrite take_app_ge by lia. do 2 f_equal. lia.
Qed.

Lemma msg_data_sized m : sized m -> msg_data m = m_data m.
Proof. intros [Hl _]. unfold msg_data. apply firstn_all2. lia. Qed.

Lemma tcp_region_sized m :
  sized m -> tcp_region m = encode_TCPHDR (m_tcph m) ++ m_data m.
Proof.
  intros H. rewrite tcp_region_split by (destruct H; lia).
  rewrite msg_data_sized by done. done.
Qed.

Lemma check_passes_stamp id ts m : check_msg_corruption (stamp id ts m) = false.
Proof.
  unfold check_msg_corruption, stamp.
  set (m0 := set_sender_timestamp ts _).
  assert (set_chsum 0 (set_chsum (chsum (tcp_region (set_chsum 0 m0))) (set_chsum 0 m0))
          = set_chsum 0 m0) as -> by done.
  apply negb_false_iff, Z.eqb_eq. symmetry.
  apply u16_small. unfold chsum at 1. apply u16_range.
Qed.

(** What the checksum is computed over: the segment with bytes 16 and 17, its
    checksum field, set to zero. *)
Definition zero_check (r : bytes) : bytes := <[16%nat := 0]> (<[17%nat := 0]> r).

Lemma encode_zero_check h :
  encode_TCPHDR (m_tcph (set_chsum 0 (Msg 0 0 zero_iphdr h []))) = zero_check (encode_TCPHDR h).
Proof. reflexivity. Qed.

Lemma check_of_region m r :
  36 <= Z.of_nat (length r) <= 65536 - 20 -> Forall is_byte r ->
  m_data_len m = Z.of_nat (length r) - 36 ->
  m_tcph m = decode_TCPHDR (slice 0 36 r) -> msg_data m = drop 36 r ->
  check_msg_corruption m = negb (chsum (zero_check r) =? field 16 2 r).
Proof.
  intros Hl Hb Hs Ht Hd. unfold check_msg_corruption. f_equal. f_equal.
  - f_equal. rewrite tcp_region_split by (simpl; lia).
    change (m_tcph (set_chsum 0 m))
      with (m_tcph (set_chsum 0 (Msg 0 0 zero_iphdr (m_tcph m) []))).
    rewrite encode_zero_check, Ht, encode_decode_TCPHDR
      by (auto using slice_bytes; apply length_slice; lia).
    change (msg_data (set_chsum 0 m)) with (msg_data m). rewrite Hd.
    rewrite <- (take_drop 36 r) at 3. unfold zero_check, slice. rewrite drop_0.
    rewrite !insert_app_l; rewrite ?length_insert, ?length_take; lia || done.
  - unfold get_chsum, m_hdr. rewrite Ht. simpl. unfold field.
    rewrite !slice_in_slice by lia. done.
Qed.

(** ** Lemmas: a segment on its way *)

(** [packet] is what the receiving kernel hands over: an IP header of its own
    and the bytes of the segment. *)
Definition packet (iph : iphdr) (seg : bytes) : bytes := encode_iphdr iph ++ seg.

Lemma recv_packet iph seg max_data :
  iphdr_wf iph -> (36 <= length seg)%nat ->
  Z.of_nat (length seg) <= 36 + max_data -> max_data <= 65536 - 56 ->
  exists m,
    transfer_recvfrom (Some (packet iph seg)) (msg_alloc max_data) = Ret m /\
    m_iph m = iph /\ m_tcph m = decode_TCPHDR (slice 0 36 seg) /\
    m_data_len m = Z.of_nat (length seg) - 36 /\ msg_data m = drop 36 seg /\
    exists rest, m_data m = drop 36 seg ++ rest.
Proof.
  intros Hi Hl Hm Hmax. pose proof (length_encode_iphdr _ (proj1 Hi)) as Hil.
  unfold transfer_recvfrom. eexists; split; [reflexivity|].
  set (old := encode_packet (msg_alloc max_data)).
  assert (take (Z.to_nat (packet_sz (msg_alloc max_data))) (packet iph seg)
          = packet iph seg) as ->.
  { apply firstn_all2. unfold packet, packet_sz, sizeof_TCP_PACKET, sizeof_iphdr,
      sizeof_TCPHDR, sizeof_tcphdr. simpl m_data_len.
    rewrite length_app, u64_small by lia. lia. }
  assert (length (packet iph seg) = 20 + length seg)%nat as Hp
    by (unfold packet; rewrite length_app; lia).
  rewrite Hp. unfold packet. rewrite <- app_assoc. cbn [set_data_len decode_packet m_iph m_tcph m_data m_data_len].
  unfold header_len, sizeof_iphdr, sizeof_TCPHDR, sizeof_tcphdr.
  rewrite u64_small by lia.
  assert (drop 56 (encode_iphdr iph ++ seg ++ drop (20 + length seg) old)
          = drop 36 seg ++ drop (20 + length seg) old) as Hd.
  { rewrite drop_app_ge, Hil by lia. change (56 - 20)%nat with 36%nat.
    rewrite drop_app_le by lia. done. }
  split_and!.
  - rewrite slice_app_l, slice_all by lia. apply decode_encode_iphdr. done.
  - rewrite slice_app_r, Hil by lia. change (20 - 20)%nat with 0%nat.
    rewrite slice_app_l by lia. done.
  - lia.
  - unfold msg_data. cbn [set_data_len decode_packet m_data_len m_data]. rewrite Hd.
    rewrite take_app_length'; [done|]. rewrite length_drop. lia.
  - rewrite Hd. eauto.
Qed.

(** The received message's verdict depends on the segment alone. *)
Lemma recv_packet_check iph seg max_data :
  iphdr_wf iph -> 36 <= Z.of_nat (length seg) <= 36 + max_data -> max_data <= 65536 - 56 ->
  Forall is_byte seg ->
  exists m,
    transfer_recvfrom (Some (packet iph seg)) (msg_alloc max_data) = Ret m /\
    check_msg_corruption m = negb (chsum (zero_check seg) =? field 16 2 seg) /\
    m_iph m = iph /\ m_tcph m = decode_TCPHDR (slice 0 36 seg) /\
    m_data_len m = Z.of_nat (length seg) - 36 /\ msg_data m = drop 36 seg.
Proof.
  intros Hi Hl Hmax Hb.
  destruct (recv_packet iph seg max_data Hi) as (m&Hr&?&Ht&Hd&Hmd&_); [lia..|].
  exists m. split; [done|]. split; [|done].
  apply check_of_region; (done || lia).
Qed.

Lemma region_of_wf m :
  sized m -> msg_wf m -> Forall is_byte (m_data m) ->
  Forall is_byte (tcp_region m) /\ Z.of_nat (length (tcp_region m)) = 36 + m_data_len m.
Proof.
  intros Hs _ Hb. rewrite tcp_region_sized by done. split.
  - apply Forall_app_2; [|done]. unfold encode_TCPHDR, encode_tcphdr.
    repeat apply Forall_app_2; apply le_bytes_are_bytes.
  - rewrite length_app, length_encode_TCPHDR. destruct Hs. lia.
Qed.

Lemma stamp_fields id ts m :
  m_data_len (stamp id ts m) = m_data_len m /\ m_data (stamp id ts m) = m_data m /\
  get_seq (stamp id ts m) = get_seq m /\ get_ack_seq (stamp id ts m) = get_ack_seq m /\
  get_window_sz (stamp id ts m) = get_window_sz m /\
  is_ack (stamp id ts m) = is_ack m /\ is_syn (stamp id ts m) = is_syn m /\
  is_fin (stamp id ts m) = is_fin m /\ is_rst (stamp id ts m) = is_rst m.
Proof. done. Qed.

Definition ident_wf (id : socket_identify) : Prop :=
  0 <= sin_addr (in_addr id) < modulus32 /\ 0 <= sin_port (in_addr id) < modulus16 /\
  0 <= sin_addr (out_addr id) < modulus32 /\ 0 <= sin_port (out_addr id) < modulus16.

Lemma stamp_wf id ts m :
  msg_wf m -> ident_wf id -> 0 <= ts < modulus64 -> msg_wf (stamp id ts m).
Proof.
  intros (?&?&(?&?&?)&((?&?&?&?&?&?&?&?&?)&?&?)) (?&?&?&?) ?.
  pose proof (u16_range (chsum (tcp_region (set_chsum 0
    (set_sender_timestamp ts (set_recv_timestamp ts
      (set_dest_addr (out_addr id) (set_src_addr (in_addr id) m)))))))).
  unfold msg_wf, iphdr_wf, TCPHDR_wf, tcphdr_wf; simpl. split_and!; done || lia.
Qed.

Lemma check_same_content m1 m2 :
  m_tcph m1 = m_tcph m2 -> msg_data m1 = msg_data m2 ->
  0 <= m_data_len m1 <= 65536 - 56 -> 0 <= m_data_len m2 <= 65536 - 56 ->
  check_msg_corruption m1 = check_msg_corruption m2.
Proof.
  intros Ht Hd H1 H2. unfold check_msg_corruption, get_chsum, m_hdr.
  rewrite !tcp_region_split by done.
  change (msg_data (set_chsum 0 m1)) with (msg_data m1).
  change (msg_data (set_chsum 0 m2)) with (msg_data m2).
  change (m_tcph (set_chsum 0 m1)) with (m_tcph (set_chsum 0 (Msg 0 0 zero_iphdr (m_tcph m1) []))).
  change (m_tcph (set_chsum 0 m2)) with (m_tcph (set_chsum 0 (Msg 0 0 zero_iphdr (m_tcph m2) []))).
  rewrite Ht, Hd. done.
Qed.

(** What travels: the segment of a message that [socket_send] stamped. *)
Lemma stamped_arrives id ts m iph max_data :
  msg_wf m -> sized m -> Forall is_byte (m_data m) -> ident_wf id -> 0 <= ts < modulus64 ->
  iphdr_wf iph -> m_data_len m <= max_data <= 65536 - 56 ->
  exists m',
    transfer_recvfrom (Some (packet iph (tcp_region (stamp id ts m)))) (msg_alloc max_data)
      = Ret m' /\
    check_msg_corruption m' = false /\
    m_tcph m' = m_tcph (stamp id ts m) /\
    m_data_len m' = m_data_len m /\ msg_data m' = m_data m /\ m_iph m' = iph.
Proof.
  intros Hwf Hs Hb Hid Hts Hi Hm.
  assert (sized (stamp id ts m)) as Hs' by done.
  destruct (region_of_wf _ Hs' (stamp_wf _ _ _ Hwf Hid Hts) Hb) as [Hrb Hrl].
  change (m_data_len (stamp id ts m)) with (m_data_len m) in Hrl.
  assert (0 <= m_data_len m <= 65536 - 56) as Hlen by (destruct Hs; lia).
  destruct (recv_packet_check iph (tcp_region (stamp id ts m)) max_data Hi) as (m'&Hr&_&Hip&Ht&Hl&Hd);
    [lia|lia|exact Hrb|].
  exists m'. rewrite tcp_region_sized in Ht, Hd by exact Hs'.
  pose proof (length_encode_TCPHDR (m_tcph (stamp id ts m))) as He.
  rewrite slice_app_l, slice_all in Ht by lia.
  rewrite decode_encode_TCPHDR in Ht by apply (stamp_wf _ _ _ Hwf Hid Hts).
  rewrite drop_app_length' in Hd by done.
  split_and!; try done; [|lia].
  rewrite <- (check_passes_stamp id ts m). apply check_same_content; try done; [|lia].
  rewrite Hd. symmetry. apply msg_data_sized. done.
Qed.

(** A single changed byte is caught, wherever in the segment it is. *)
Lemma zero_check_insert_other r i b :
  i <> 16%nat -> i <> 17%nat -> zero_check (<[i:=b]> r) = <[i:=b]> (zero_check r).
Proof.
  intros. unfold zero_check.
  rewrite (list_insert_insert_ne r 17 i), (list_insert_insert_ne _ 16 i) by done. done.
Qed.

Lemma zero_check_insert_check r i b :
  i = 16%nat \/ i = 17%nat -> zero_check (<[i:=b]> r) = zero_check r.
Proof.
  intros [->| ->]; unfold zero_check.
  - rewrite (list_insert_insert_ne r 17 16) by done. apply list_insert_insert_eq.
  - rewrite list_insert_insert_eq. done.
Qed.

Lemma zero_check_lookup_ne r i :
  i <> 16%nat -> i <> 17%nat -> zero_check r !! i = r !! i.
Proof. intros. unfold zero_check. rewrite !list_lookup_insert_ne by done. done. Qed.

Lemma field_insert_ne r i b k n :
  (i < k \/ k + n <= i)%nat -> field k n (<[i:=b]> r) = field k n r.
Proof.
  intros H. unfold field, slice. f_equal. destruct H.
  - rewrite drop_insert_lt by lia. done.
  - rewrite drop_insert_ge, take_insert_ge by lia. done.
Qed.

Lemma field_insert_in r i b bi k n :
  r !! i = Some bi -> (k <= i < k + n)%nat -> b <> bi ->
  field k n (<[i:=b]> r) <> field k n r.
Proof.
  intros Hi Hk Hne. unfold field, slice.
  rewrite drop_insert_ge, take_insert_lt by lia.
  rewrite (le_val_insert _ _ _ bi).
  - intros H. assert (0 < modulus8 ^ Z.of_nat (i - k)) by (apply Z.pow_pos_nonneg; lia). nia.
  - rewrite lookup_take_lt by lia. rewrite lookup_drop. rewrite <- Hi. f_equal. lia.
Qed.

Lemma corrupted_byte_detected seg i b bi :
  36 <= Z.of_nat (length seg) <= 65536 - 20 -> Forall is_byte seg -> is_byte b ->
  seg !! i = Some bi -> b <> bi -> chsum (zero_check seg) = field 16 2 seg ->
  chsum (zero_check (<[i:=b]> seg)) <> field 16 2 (<[i:=b]> seg).
Proof.
  intros Hl Hs Hb Hi Hne Hok.
  destruct (decide (i = 16 \/ i = 17)%nat) as [Hc|Hc].
  - rewrite zero_check_insert_check, Hok by done.
    apply not_eq_sym, (field_insert_in _ _ _ bi); (done || lia).
  - rewrite field_insert_ne, <- Hok, zero_check_insert_other by lia.
    apply (chsum_one_byte _ _ _ bi); try done.
    + unfold zero_check. apply Forall_insert_byte; [apply Forall_insert_byte|];
        done || (unfold is_byte; lia).
    + unfold zero_check. rewrite !length_insert. lia.
    + rewrite zero_check_lookup_ne by lia. done.
Qed.

(** ** Lemmas: queues *)

Lemma put_msg_to_q_eq m qs :
  put_msg_to_q m qs =
  let label := sock_label (msg_ident m) in
  match qs !! label with
  | Some q =>
      if (mq_msgsize q <? packet_sz m) || (mq_msgsize q <? Z.of_nat (length (packet_bytes m)))
      then (Ret tt, qs)
      else if mq_maxmsg q <=? Z.of_nat (length (mq_msgs q)) then (Fault blocked, qs)
      else (Ret tt, <[label := Mq (mq_maxmsg q) (mq_msgsize q) (mq_msgs q ++ [packet_bytes m])]> qs)
  | None => (Ret tt, qs)
  end.
Proof.
  unfold put_msg_to_q, try_catch. rewrite bind_unfold. cbn [gets id].
  destruct (qs !! sock_label (msg_ident m)) as [q|] eqn:Hq; [|done].
  destruct (mq_msgsize q <? packet_sz m); [done|]. cbn [orb].
  unfold put_msg. rewrite Hq.
  destruct (mq_msgsize q <? Z.of_nat (length (packet_bytes m))); [done|].
  destruct (mq_maxmsg q <=? Z.of_nat (length (mq_msgs q))); done.
Qed.

Lemma packet_sz_small m : 0 <= m_data_len m <= 65536 -> packet_sz m = 56 + m_data_len m.
Proof. intros. apply (u64_small (56 + m_data_len m)). lia. Qed.

Lemma packet_bytes_sized m :
  sized m -> iphdr_wf (m_iph m) ->
  packet_bytes m = encode_iphdr (m_iph m) ++ encode_TCPHDR (m_tcph m) ++ m_data m /\
  Z.of_nat (length (packet_bytes m)) = 56 + m_data_len m /\
  packet_sz m = 56 + m_data_len m.
Proof.
  intros [Hl Hm] Hi. pose proof (length_encode_iphdr _ (proj1 Hi)) as Hil.
  pose proof (length_encode_TCPHDR (m_tcph m)) as Htl.
  pose proof (packet_sz_small m ltac:(lia)) as Hp.
  assert (length (encode_packet m) = 56 + length (m_data m))%nat as He
    by (unfold encode_packet; rewrite !length_app; lia).
  unfold packet_bytes. rewrite Hp, firstn_all2 by lia. split_and!; [done|lia|done].
Qed.

(** A queued message comes out as it went in. *)
Lemma dequeue_decode m max_data :
  sized m -> iphdr_wf (m_iph m) -> TCPHDR_wf (m_tcph m) -> m_data_len m <= max_data ->
  let d := packet_bytes m in
  let blank := msg_alloc max_data in
  let m' := set_data_len (u64 (Z.of_nat (length d) - header_len))
              (decode_packet blank (d ++ drop (length d) (encode_packet blank))) in
  m_iph m' = m_iph m /\ m_tcph m' = m_tcph m /\ m_data_len m' = m_data_len m /\
  msg_data m' = m_data m.
Proof.
  intros Hs Hi Ht Hm. cbv zeta.
  destruct (packet_bytes_sized m Hs Hi) as (Hp&Hl&_).
  pose proof (length_encode_iphdr _ (proj1 Hi)) as Hil.
  pose proof (length_encode_TCPHDR (m_tcph m)) as Htl.
  destruct Hs as [Hdl Hmax].
  assert (u64 (Z.of_nat (length (packet_bytes m)) - header_len) = m_data_len m) as Hu
    by (rewrite Hl; unfold header_len, sizeof_iphdr, sizeof_TCPHDR, sizeof_tcphdr;
        rewrite u64_small; lia).
  rewrite Hu. set (rest := drop _ (encode_packet _)). rewrite Hp. clearbody rest.
  unfold msg_data. cbn [set_data_len decode_packet m_iph m_tcph m_data_len m_data].
  rewrite <- !app_assoc. split_and!; [..|done|].
  - rewrite slice_app_l, slice_all by lia. apply decode_encode_iphdr. done.
  - rewrite slice_app_r, Hil by lia. change (20 - 20)%nat with 0%nat.
    rewrite slice_app_l, slice_all by lia. apply decode_encode_TCPHDR. done.
  - rewrite app_assoc, drop_app_length' by (rewrite length_app; lia).
    apply take_app_length'. lia.
Qed.

(** ** Lemmas: whatever is received

    [bytes_ok] adds to [msg_wf] that the memory behind the fields holds
    bytes. *)
Definition bytes_ok (m : msg) : Prop :=
  Forall is_byte (ip_front (m_iph m)) /\ Forall is_byte (m_data m).

Lemma encode_packet_bytes m : bytes_ok m -> Forall is_byte (encode_packet m).
Proof.
  intros [Hf Hd]. unfold encode_packet, encode_iphdr, encode_TCPHDR, encode_tcphdr.
  repeat apply Forall_app_2; try done; apply le_bytes_are_bytes.
Qed.

Lemma decode_packet_wf m bs :
  0 <= m_buf_len m < modulus64 -> 0 <= m_data_len m < modulus64 ->
  (20 <= length bs)%nat -> Forall is_byte bs ->
  msg_wf (decode_packet m bs) /\ bytes_ok (decode_packet m bs).
Proof.
  intros H1 H2 Hl Hb. unfold msg_wf, bytes_ok, decode_packet.
  cbn [m_buf_len m_data_len m_iph m_tcph m_data].
  split; split_and!; try lia.
  - apply decode_iphdr_wf; [rewrite length_slice; lia|apply slice_bytes; done].
  - apply decode_TCPHDR_wf, slice_bytes. done.
  - unfold decode_iphdr. cbn [ip_front]. apply slice_bytes, slice_bytes. done.
  - apply Forall_drop. done.
Qed.

(** ** Properties *)

(** C12: a message that [socket_send] stamps and the network carries unchanged
    passes the receiver's checksum test and arrives with its header and its
    data. *)
Theorem stamped_segment_arrives id ts m iph max_data :
  msg_wf m -> sized m -> Forall is_byte (m_data m) -> ident_wf id -> 0 <= ts < modulus64 ->
  iphdr_wf iph -> m_data_len m <= max_data <= 65536 - 56 ->
  exists m',
    transfer_recvfrom (Some (packet iph (tcp_region (stamp id ts m)))) (msg_alloc max_data)
      = Ret m' /\
    check_msg_corruption m' = false /\
    m_tcph m' = m_tcph (stamp id ts m) /\ msg_data m' = m_data m.
Proof.
  intros. destruct (stamped_arrives id ts m iph max_data) as (m'&?&?&?&_&?&_); try done.
  eauto 10.
Qed.

Lemma stamped_segment_arrives_witness :
  exists m',
    transfer_recvfrom
      (Some (packet zero_iphdr
         (tcp_region (stamp (Ident (Addr 16777343 20480) (Addr 16777343 53764)) 5
            (set_seq 9 (msg_of [1; 2; 3])))))) (msg_alloc 10) = Ret m' /\
    check_msg_corruption m' = false /\
    m_tcph m' = m_tcph (stamp (Ident (Addr 16777343 20480) (Addr 16777343 53764)) 5
                  (set_seq 9 (msg_of [1; 2; 3]))) /\
    msg_data m' = [1; 2; 3].
Proof.
  apply (stamped_segment_arrives (Ident (Addr 16777343 20480) (Addr 16777343 53764)) 5
    (set_seq 9 (msg_of [1; 2; 3])) zero_iphdr 10);
    try (vm_compute; intuition discriminate).
  repeat constructor; unfold is_byte; lia.
Defined.

(** C13: if one byte of the segment, header, checksum field or data, changes on
    the way, [check_msg_corruption] reports the packet as corrupted. *)
Theorem changed_byte_is_rejected id ts m iph max_data i b bi :
  msg_wf m -> sized m -> Forall is_byte (m_data m) -> ident_wf id -> 0 <= ts < modulus64 ->
  iphdr_wf iph -> m_data_len m <= max_data <= 65536 - 56 -> is_byte b ->
  tcp_region (stamp id ts m) !! i = Some bi -> b <> bi ->
  exists m',
    transfer_recvfrom (Some (packet iph (<[i:=b]> (tcp_region (stamp id ts m)))))
      (msg_alloc max_data) = Ret m' /\
    check_msg_corruption m' = true.
Proof.
  intros Hwf Hs Hb Hid Hts Hi Hm Hbb Hlk Hne.
  destruct (region_of_wf (stamp id ts m) Hs (stamp_wf _ _ _ Hwf Hid Hts) Hb) as [Hrb Hrl].
  change (m_data_len (stamp id ts m)) with (m_data_len m) in Hrl.
  assert (0 <= m_data_len m) by (destruct Hs; lia).
  destruct (stamped_arrives id ts m iph max_data) as (m0&Hr0&Hc0&_); try done.
  set (seg := tcp_region (stamp id ts m)) in *.
  destruct (recv_packet_check iph seg max_data Hi) as (m1&Hr1&Hc1&_); [lia|lia|done|].
  assert (m1 = m0) as -> by congruence.
  rewrite Hc0 in Hc1. symmetry in Hc1. apply negb_false_iff, Z.eqb_eq in Hc1.
  destruct (recv_packet_check iph (<[i:=b]> seg) max_data Hi) as (m'&Hr'&Hc'&_);
    [by rewrite length_insert; lia|lia|by apply Forall_insert_byte|].
  exists m'. split; [done|]. rewrite Hc'. apply negb_true_iff, Z.eqb_neq.
  eapply corrupted_byte_detected; (done || lia).
Qed.

Lemma changed_byte_is_rejected_witness :
  exists m',
    transfer_recvfrom
      (Some (packet zero_iphdr
         (<[36%nat := 77]> (tcp_region (stamp (Ident (Addr 16777343 20480) (Addr 16777343 53764)) 5
            (set_seq 9 (msg_of [1; 2; 3]))))))) (msg_alloc 10) = Ret m' /\
    check_msg_corruption m' = true.
Proof.
  apply (changed_byte_is_rejected (Ident (Addr 16777343 20480) (Addr 16777343 53764)) 5
    (set_seq 9 (msg_of [1; 2; 3])) zero_iphdr 10 36 77 1);
    try (vm_compute; intuition discriminate).
  repeat constructor; unfold is_byte; lia.
Defined.

(** C27: whatever bytes the raw socket hands over, the message that
    [transfer_recvfrom] leaves has every field in the range of its type and
    bytes behind them, in a buffer as long as before; its data is as long as
    the packet is beyond its headers, and within the buffer, exactly when the
    packet has room for the two headers.  For a shorter packet the length
    wraps, to at least 2^64 - 56. *)
Theorem received_message_wf pkt m m' :
  msg_wf m -> bytes_ok m -> Z.of_nat (length (m_data m)) = m_buf_len m ->
  m_data_len m <= m_buf_len m <= 65536 - 56 -> Forall is_byte pkt ->
  transfer_recvfrom (Some pkt) m = Ret m' ->
  msg_wf m' /\ bytes_ok m' /\ m_buf_len m' = m_buf_len m /\
  length (m_data m') = length (m_data m) /\
  ((56 <= length pkt)%nat ->
     m_data_len m' = Z.min (Z.of_nat (length pkt) - 56) (m_data_len m) /\
     msg_data m' = take (Z.to_nat (m_data_len m)) (drop 56 pkt)) /\
  ((length pkt < 56)%nat -> m_data_len m' = modulus64 - 56 + Z.of_nat (length pkt)).
Proof.
  intros (Hbl&Hdl&Hi&Ht) Hok Hlen Hle Hpkt [= <-].
  pose proof (length_encode_iphdr _ (proj1 Hi)) as Hil.
  pose proof (length_encode_TCPHDR (m_tcph m)) as Htl.
  assert (length (encode_packet m) = 56 + length (m_data m))%nat as He
    by (unfold encode_packet; rewrite !length_app; lia).
  rewrite packet_sz_small by lia.
  set (got := take _ pkt).
  assert (Forall is_byte got) as Hgb by (apply Forall_take; done).
  assert (Z.of_nat (length got) = Z.min (Z.of_nat (length pkt)) (56 + m_data_len m)) as Hgl
    by (unfold got; rewrite length_take; lia).
  assert (length (got ++ drop (length got) (encode_packet m)) = 56 + length (m_data m))%nat as Hrl
    by (rewrite length_app, length_drop; lia).
  assert (Forall is_byte (got ++ drop (length got) (encode_packet m))) as Hrb
    by (apply Forall_app_2; [done|apply Forall_drop, encode_packet_bytes; done]).
  assert (20 <= length (got ++ drop (length got) (encode_packet m)))%nat as H20 by lia.
  destruct (decode_packet_wf m _ Hbl Hdl H20 Hrb) as ((_&_&Hi'&Ht')&Hok').
  change header_len with 56. pose proof (u64_range (Z.of_nat (length got) - 56)) as Hu.
  split_and!; try done; [| |].
  - cbn [set_data_len decode_packet m_data]. rewrite length_drop. lia.
  - intros Hge. cbn [set_data_len m_data_len]. rewrite u64_small by lia. split; [lia|].
    unfold msg_data. cbn [set_data_len decode_packet m_data_len m_data].
    rewrite drop_app_le by lia.
    rewrite take_app_length' by (rewrite length_drop; lia).
    unfold got. rewrite take_drop_commute. do 2 f_equal. lia.
  - intros Hlt. cbn [set_data_len m_data_len].
    assert (length got = length pkt) as -> by lia.
    unfold u64. symmetry. apply (Z.mod_unique _ _ (-1)); lia.
Qed.

Lemma received_message_wf_witness :
  let m' := set_data_len (modulus64 - 56) (msg_alloc 10) in
  msg_wf m' /\ bytes_ok m' /\ m_buf_len m' = 10 /\ length (m_data m') = 10%nat /\
  ((56 <= 0)%nat -> m_data_len m' = Z.min (0 - 56) 10 /\ msg_data m' = take 10 (drop 56 [])) /\
  ((0 < 56)%nat -> m_data_len m' = modulus64 - 56 + 0).
Proof.
  apply (received_message_wf [] (msg_alloc 10));
    first [reflexivity | constructor; fail | idtac].
  - vm_compute; intuition discriminate.
  - split; repeat constructor; unfold is_byte; lia.
  - vm_compute; intuition discriminate.
Defined.

(** A packet too short for its headers can pass the checksum test: 38
    bytes, all zero but the checksum field, are received as an intact message
    with more data than any buffer holds. *)
Lemma short_packet_is_accepted buf_len :
  0 <= buf_len <= 65536 - 56 ->
  exists m',
    transfer_recvfrom (Some (replicate 36 0 ++ [255; 255])) (msg_alloc buf_len) = Ret m' /\
    check_msg_corruption m' = false /\
    m_data_len m' = modulus64 - 18 /\ m_buf_len m' = buf_len.
Proof.
  intros Hb. unfold transfer_recvfrom. eexists. split; [reflexivity|].
  rewrite packet_sz_small by (cbn; lia).
  rewrite firstn_all2 by (rewrite length_app, length_replicate; cbn; lia).
  set (m' := set_data_len _ _).
  assert (m_tcph m' = decode_TCPHDR (replicate 16 0 ++ [255; 255] ++ replicate 18 0)) as Ht
    by done.
  assert (m_data_len m' = modulus64 - 18) as Hd by done.
  split; [|done]. unfold check_msg_corruption, tcp_region.
  assert (Z.to_nat (tcp_data_sz (set_chsum 0 m')) = 18%nat) as -> by done.
  rewrite take_app_le by (rewrite length_encode_TCPHDR; lia).
  unfold get_chsum, m_hdr, set_chsum, upd_hdr, upd_tcph. cbn [m_tcph].
  rewrite Ht. vm_compute. done.
Qed.

Lemma short_packet_is_accepted_witness :
  exists m',
    transfer_recvfrom (Some (replicate 36 0 ++ [255; 255])) (msg_alloc 1444) = Ret m' /\
    check_msg_corruption m' = false /\
    m_data_len m' = modulus64 - 18 /\ m_buf_len m' = 1444.
Proof. apply (short_packet_is_accepted 1444). lia. Defined.

(** [put_msg_to_q] adds the packet at the end of the queue named after its
    destination and source when that queue exists, is long-worded enough and
    not full, and touches no other queue in any case. *)
Lemma put_msg_to_q_routes m qs :
  let label := sock_label (msg_ident m) in
  (forall l, l <> label -> snd (put_msg_to_q m qs) !! l = qs !! l) /\
  (forall q, qs !! label = Some q -> sized m -> iphdr_wf (m_iph m) ->
     56 + m_data_len m <= mq_msgsize q ->
     Z.of_nat (length (mq_msgs q)) < mq_maxmsg q ->
     put_msg_to_q m qs =
       (Ret tt, <[label := Mq (mq_maxmsg q) (mq_msgsize q) (mq_msgs q ++ [packet_bytes m])]> qs)) /\
  (qs !! label = None -> put_msg_to_q m qs = (Ret tt, qs)).
Proof.
  cbv zeta. rewrite put_msg_to_q_eq. cbv zeta. split_and!.
  - intros l Hl. destruct (qs !! sock_label (msg_ident m)) as [q|]; [|done].
    repeat (case_match; [done|]). simpl. rewrite lookup_insert_ne by done. done.
  - intros q -> Hs Hi Hm Hf. destruct (packet_bytes_sized m Hs Hi) as (_&Hl&Hp).
    rewrite Hl, Hp.
    rewrite (proj2 (Z.ltb_ge _ _)) by done. cbn [orb].
    rewrite (proj2 (Z.leb_gt _ _)) by done. done.
  - intros ->. done.
Qed.

(** What [next_msg] takes from a socket's queue is the message that was put
    there: same headers, same data. *)
Lemma next_msg_dequeues label max_data m q rest qs :
  qs !! label = Some q -> mq_msgs q = packet_bytes m :: rest ->
  sized m -> iphdr_wf (m_iph m) -> TCPHDR_wf (m_tcph m) -> m_data_len m <= max_data ->
  mq_msgsize q = 56 + max_data -> max_data <= 65536 - 56 ->
  exists m',
    next_msg label max_data None qs =
      (Ret m', <[label := Mq (mq_maxmsg q) (mq_msgsize q) rest]> qs) /\
    m_iph m' = m_iph m /\ m_tcph m' = m_tcph m /\ msg_data m' = m_data m.
Proof.
  intros Hq Hms Hs Hi Ht Hm Hsz Hmax.
  destruct (dequeue_decode m max_data Hs Hi Ht Hm) as (H1&H2&_&H3).
  assert (0 <= m_data_len m) by (destruct Hs; lia).
  eexists. split; [|split_and!; [exact H1|exact H2|exact H3]].
  unfold next_msg. rewrite bind_unfold. cbn [gets id]. rewrite Hq, Hms.
  cbn [length Nat.eqb negb]. rewrite bind_unfold. cbn [mret M_ret].
  rewrite bind_unfold. unfold get_msg. rewrite Hq, Hms.
  assert (packet_sz (cleanup_data_sz (msg_alloc max_data)) = 56 + max_data) as ->
    by (apply packet_sz_small; simpl; lia).
  rewrite Hsz, Z.ltb_irrefl. done.
Qed.

Definition example_queues (m : msg) : queues :=
  {[ "/sock-x" := Mq 100 (56 + 10) [packet_bytes m] ]}.

Lemma next_msg_dequeues_witness :
  let m := set_syn (set_seq 9 (msg_of [1; 2; 3])) in
  exists m',
    next_msg "/sock-x" 10 None (example_queues m) =
      (Ret m', <["/sock-x" := Mq 100 66 []]> (example_queues m)) /\
    m_iph m' = m_iph m /\ m_tcph m' = m_tcph m /\ msg_data m' = [1; 2; 3].
Proof.
  apply (next_msg_dequeues "/sock-x" 10 (set_syn (set_seq 9 (msg_of [1; 2; 3])))
    (Mq 100 66 [packet_bytes (set_syn (set_seq 9 (msg_of [1; 2; 3])))]) []);
    try (vm_compute; intuition discriminate); done.
Defined.

(** C35: the server accepts a connection only for a packet whose checksum is
    right and whose destination is the server's own address; the new socket
    gets the packet's addresses and the packet itself, as it was received; and
    no queue is created or removed on the way. *)
Theorem accept_takes_intact_packet_for_server addr recvd m0 qs id m qs' :
  accept_one_client addr recvd m0 qs = (Ret (id, m), qs') ->
  check_msg_corruption m = false /\ id = msg_ident m /\ in_addr id = addr /\
  (exists r m1, r ∈ recvd /\ transfer_recvfrom r m1 = Ret m) /\
  dom qs' = dom qs.
Proof.
  revert m0 qs. induction recvd as [|r rest IH]; intros m0 qs; cbn [accept_one_client]; [done|].
  destruct (transfer_recvfrom r (cleanup_data_sz m0)) as [m1|e|f] eqn:Hr; [|done..].
  destruct (check_msg_corruption m1) eqn:Hc.
  - intros H. destruct (IH _ _ H) as (?&?&?&(r'&m'&?&?)&?).
    split_and!; try done. exists r', m'. split; [by constructor|done].
  - destruct (addr_comparable (in_addr (msg_ident m1)) addr) eqn:Ha.
    + intros [= <- <- <-]. split_and!; try done.
      * unfold addr_comparable in Ha. apply andb_true_iff in Ha as [H1 H2].
        apply Z.eqb_eq in H1, H2. destruct addr, (in_addr (msg_ident m1)); simpl in *. congruence.
      * exists r, (cleanup_data_sz m0). split; [constructor|done].
    + rewrite bind_unfold, put_msg_to_q_eq. cbv zeta.
      destruct (qs !! sock_label (msg_ident m1)) as [q|] eqn:Hq.
      * intros Hrun.
        assert (exists qs1, accept_one_client addr rest m1 qs1 = (Ret (id, m), qs') /\
                  dom qs1 = dom qs) as (qs1&Hrun1&Hd1).
        { revert Hrun. repeat case_match; simplify_eq; intros Hrun; try done; try (by eauto).
          eexists. split; [exact Hrun|]. apply dom_insert_lookup_L. eauto. }
        destruct (IH _ _ Hrun1) as (?&?&?&(r'&m'&?&?)&Hd).
        split_and!; [done..| |congruence]. exists r', m'. split; [by constructor|done].
      * intros H. destruct (IH _ _ H) as (?&?&?&(r'&m'&?&?)&?).
        split_and!; try done. exists r', m'. split; [by constructor|done].
Qed.

Lemma accept_takes_intact_packet_for_server_witness :
  let srv := Addr 16777343 20480 in
  let syn := stamp (Ident (Addr 16777343 53764) srv) 5 (set_syn (set_seq 9 (msg_of []))) in
  let pkt := packet (Iphdr (replicate 12 0) 16777343 16777343) (tcp_region syn) in
  match accept_one_client srv [Some (<[21%nat := 1]> pkt); Some pkt] (msg_alloc 10) ∅ with
  | (Ret (id, m), _) => check_msg_corruption m = false /\ in_addr id = srv
  | _ => False
  end.
Proof.
  cbv zeta. set (r := accept_one_client _ _ _ _).
  destruct r as [[[id m]|e|f] qs'] eqn:Hr; [|revert Hr; vm_compute; discriminate..].
  destruct (accept_takes_intact_packet_for_server _ _ _ _ _ _ _ Hr) as (H1&_&H2&_).
  split; [exact H1|exact H2].
Defined.
