(* ===== verification/Labels.v ===== *)
(** * Labels: a connection has a name of its own

    [sock_label] of [src/src/tcp_engine.cpp] (83-88) names the semaphore, the
    memory and the queue of a socket after its four numbers; two sockets share
    them exactly when their labels are equal.  Here: the labels of different
    connections are different. *)
From Stdlib Require Import Ascii.
From stdpp Require Import strings pretty.
From S2P Require Import Prelude Message Transfer.

(** ** Strings without a separator *)

Fixpoint free_of (c : Ascii.ascii) (s : string) : Prop :=
  match s with
  | EmptyString => True
  | String x s => x <> c /\ free_of c s
  end.

Lemma cut_at c a1 a2 r1 r2 :
  free_of c a1 -> free_of c a2 ->
  (a1 +:+ String c r1)%string = (a2 +:+ String c r2)%string -> a1 = a2 /\ r1 = r2.
Proof.
  revert a2. induction a1 as [|x a1 IH]; intros [|y a2]; cbn.
  - intros _ _ [= ->]. done.
  - intros _ [Hy _] [= -> _]. done.
  - intros [Hx _] _ [= -> _]. done.
  - intros [Hx H1] [Hy H2] [= -> H]. destruct (IH a2 H1 H2 H) as [-> ->]. done.
Qed.

Lemma str_app_assoc (s1 s2 s3 : string) : ((s1 +:+ s2) +:+ s3)%string = (s1 +:+ (s2 +:+ s3))%string.
Proof. induction s1 as [|x s1 IH]; [done|]. exact (f_equal (String x) IH). Qed.

(** Numbers are written in digits. *)
Definition is_sep (c : Ascii.ascii) : Prop := c = "."%char \/ c = "-"%char.

Lemma pretty_go_free c n s : is_sep c -> free_of c s -> free_of c (pretty_N_go n s).
Proof.
  intros Hc. revert s. induction (N.lt_wf_0 n) as [n _ IH]; intros s Hs.
  destruct (decide (n = 0)%N) as [->|Hn]; [done|].
  rewrite pretty_N_go_step by lia. apply IH; [apply N.div_lt; lia|].
  split; [|done]. unfold pretty_N_char. destruct Hc as [-> | ->]; by repeat case_match.
Qed.

Lemma pretty_free c z : is_sep c -> 0 <= z -> free_of c (pretty z).
Proof.
  intros Hc Hz.
  assert (forall n : N, free_of c (pretty n)) as H.
  { intros n. unfold pretty, pretty_N. case_decide; [|by apply pretty_go_free].
    cbn. destruct Hc as [-> | ->]; done. }
  destruct z as [|p|p]; [apply (H 0%N)|apply (H (Npos p))|lia].
Qed.

(** ** The parts of a label *)

Lemma field_byte i bs : 0 <= field i 1 bs \/ ~ Forall is_byte bs.
Proof.
  destruct (decide (Forall is_byte bs)) as [H|H]; [left|by right].
  apply (le_val_bound (slice i 1 bs)). by apply slice_bytes.
Qed.

Lemma field_le_nonneg i n z : 0 <= field i 1 (le_bytes n z).
Proof. destruct (field_byte i (le_bytes n z)) as [|[]]; [done|]. apply le_bytes_are_bytes. Qed.

(** The four bytes say which address it is. *)
Lemma address_of_bytes a :
  0 <= a < modulus32 ->
  a = le_val [field 0 1 (le_bytes 4 a); field 1 1 (le_bytes 4 a);
              field 2 1 (le_bytes 4 a); field 3 1 (le_bytes 4 a)].
Proof.
  intros Ha. rewrite <- (le_val_le_bytes_small 4 a) at 1 by (cbn; lia).
  unfold field, slice. cbn [le_bytes take drop firstn skipn le_val]. lia.
Qed.

Lemma ntohs_range p : 0 <= ntohs p.
Proof. apply u16_range. Qed.

Lemma ntohs_inj p1 p2 :
  0 <= p1 < modulus16 -> 0 <= p2 < modulus16 -> ntohs p1 = ntohs p2 -> p1 = p2.
Proof. unfold ntohs. wrap_lia. Qed.

(** An address, its separator and what follows. *)
Lemma inet_ntoa_cut a1 a2 r1 r2 :
  0 <= a1 < modulus32 -> 0 <= a2 < modulus32 ->
  (inet_ntoa a1 +:+ String "."%char r1)%string = (inet_ntoa a2 +:+ String "."%char r2)%string ->
  a1 = a2 /\ r1 = r2.
Proof.
  intros H1 H2. unfold inet_ntoa. rewrite !str_app_assoc. cbn [String.append]. intros H.
  assert (is_sep "."%char) as Hs by (by left).
  do 3 (apply cut_at in H as [?%(inj pretty) H]; [|apply pretty_free; [done|apply field_le_nonneg]..]).
  apply cut_at in H as [?%(inj pretty) ->]; [|apply pretty_free; [done|apply field_le_nonneg]..].
  split; [|done]. rewrite (address_of_bytes a1), (address_of_bytes a2) by done. congruence.
Qed.

(** C15: the label determines the connection: sockets of different connections
    share neither memory nor semaphore nor queue. *)
Theorem sock_label_inj id1 id2 :
  ident_wf id1 -> ident_wf id2 -> sock_label id1 = sock_label id2 -> id1 = id2.
Proof.
  destruct id1 as [[a1 p1] [b1 q1]], id2 as [[a2 p2] [b2 q2]]. unfold ident_wf, sock_label.
  cbn [in_addr out_addr sin_addr sin_port]. intros (?&?&?&?) (?&?&?&?) Hl.
  cbn [String.append] in Hl. injection Hl as Hl.
  apply inet_ntoa_cut in Hl as [-> Hl]; [|done..].
  apply cut_at in Hl as [Hp Hl]; [|apply pretty_free; [by right|apply ntohs_range]..].
  apply (inj pretty), ntohs_inj in Hp; [|done..].
  apply inet_ntoa_cut in Hl as [-> Hl]; [|done..].
  apply (inj pretty), ntohs_inj in Hl; [|done..]. congruence.
Qed.

Lemma sock_label_inj_witness :
  let id1 := Ident (Addr 16777343 20480) (Addr 16777343 53764) in
  sock_label id1 = "/sock-127.0.0.1.80-127.0.0.1.1234"%string /\
  forall id2, ident_wf id2 -> sock_label id2 = "/sock-127.0.0.1.80-127.0.0.1.1234"%string -> id1 = id2.
Proof.
  split; [vm_compute; reflexivity|]. intros id2 H2 Hl. apply sock_label_inj.
  - vm_compute. intuition discriminate.
  - exact H2.
  - rewrite Hl. vm_compute. reflexivity.
Defined.
