(* ===== verification/ProtoMem.v ===== *)
(** * ProtoMem: the areas of the shared memory ([src/src/tcp_proto_mem.h])

    One record per [mem_area<E>::area], with the value its [init] leaves in
    zero-filled memory; and the placement [mem_info] computes for them, with
    the proof that the areas lie side by side in the memory the socket
    allocates, which is what lets the other files treat each area as a record
    of its own. *)
From S2P Require Import Prelude Window.

(** ** The areas (36-162) *)

Record internal_state_area : Type := InternalStateArea { is_state : tcp_state }.

Record window_control_area : Type := WindowControlArea {
  receiver_win_sz : Z;
  congection_win_sz : Z;
  mtu : Z;
}.

Record cumulative_area : Type := CumulativeArea {
  cw_start : Z;
  cw_off : Z;
  cw_send_off : Z;
  cw_sz : Z;
}.

(** [buf] as flat memory from its first byte, [off_map] by index. *)
Record send_buffer_area : Type := SendBufferArea {
  sb_buf : mem;
  sb_off_map : Z -> Z;
  sb_end : Z;
}.

Record timeout_area : Type := TimeoutArea {
  SRTT : Z;
  RTTVAR : Z;
  nm : Z;
}.

Record fast_retransmit_area : Type := FastRetransmitArea {
  fr_last : Z;
  fr_cnt : Z;
}.

Record input_window_area : Type := InputWindowArea {
  iw_start : Z;
  iw_off : Z;
  iw_sz : Z;
  iw_flushed_off : Z;
}.

Record input_buffer_area : Type := InputBufferArea {
  ib_off : Z;
  ib_buf : mem;
}.

Record establish_area : Type := EstablishArea {
  est_send_remebered_seq : Z;
  est_recv_remebered_seq : Z;
  est_recv_remebered_ack_seq : Z;
}.

Record close_area : Type := CloseArea {
  cl_send_remebered_seq : Z;
  cl_recv_remebered_seq : Z;
}.

(** What [mem_manager::on_init] leaves: each [init] over zero-filled memory. *)
Definition internal_state_init := InternalStateArea CLOSED.
Definition window_control_init := WindowControlArea OUTPUT_WINDOW_SZ OUTPUT_CONGECTION_START_SZ 0.
Definition cumulative_init := CumulativeArea 0 0 0 OUTPUT_WINDOW_SZ.
Definition send_buffer_init := SendBufferArea mem_zero (fun _ => 0) 0.
Definition timeout_init := TimeoutArea 0 0 0.
Definition fast_retransmit_init := FastRetransmitArea 0 0.
Definition input_window_init := InputWindowArea 0 0 INPUT_WINDOW_SZ 0.
Definition input_buffer_init := InputBufferArea 0 mem_zero.
Definition establish_init := EstablishArea 0 0 0.
Definition close_init := CloseArea 0 0.

(** ** Placement (11-26, 185-212, 276-285) *)

Inductive MEM_TAG : Type :=
| MEM_TAG_BEGIN
| INTERNAL_STATE
| OUTPUT_RECEIVER_WINDOW_CONTROL
| OUTPUT_RECEIVER_WINDOW_NAGLES
| OUTPUT_CUMULATIVE_WINDOW_PROCESSING
| OUTPUT_SEND_OUTPUT_BUFFER
| OUTPUT_TIMEOUT_COMPUTING
| OUTPUT_FAST_RETRANSMITION
| INPUT_RECEIVER_WINDOW_PROCESSING
| INPUT_RECEIVER_BUFFER_PROCESSING
| ESTABLISH_HANDSHAKER
| CLOSE_HANDSHAKER
| MEM_TAG_END
| RESERVED.

#[export] Instance MEM_TAG_eq_dec : EqDecision MEM_TAG.
Proof. solve_decision. Defined.

Definition all_tags : list MEM_TAG :=
  [MEM_TAG_BEGIN; INTERNAL_STATE; OUTPUT_RECEIVER_WINDOW_CONTROL;
   OUTPUT_RECEIVER_WINDOW_NAGLES; OUTPUT_CUMULATIVE_WINDOW_PROCESSING;
   OUTPUT_SEND_OUTPUT_BUFFER; OUTPUT_TIMEOUT_COMPUTING; OUTPUT_FAST_RETRANSMITION;
   INPUT_RECEIVER_WINDOW_PROCESSING; INPUT_RECEIVER_BUFFER_PROCESSING;
   ESTABLISH_HANDSHAKER; CLOSE_HANDSHAKER; MEM_TAG_END; RESERVED].

(** The enumerators' values. *)
Definition tag_no (E : MEM_TAG) : nat :=
  match E with
  | MEM_TAG_BEGIN => 0 | INTERNAL_STATE => 1 | OUTPUT_RECEIVER_WINDOW_CONTROL => 2
  | OUTPUT_RECEIVER_WINDOW_NAGLES => 3 | OUTPUT_CUMULATIVE_WINDOW_PROCESSING => 4
  | OUTPUT_SEND_OUTPUT_BUFFER => 5 | OUTPUT_TIMEOUT_COMPUTING => 6
  | OUTPUT_FAST_RETRANSMITION => 7 | INPUT_RECEIVER_WINDOW_PROCESSING => 8
  | INPUT_RECEIVER_BUFFER_PROCESSING => 9 | ESTABLISH_HANDSHAKER => 10
  | CLOSE_HANDSHAKER => 11 | MEM_TAG_END => 12 | RESERVED => 13
  end%nat.

(** [mem_info<E>::sz()]: [sizeof] of the area.  All but the handshaker's area,
    which is packed, are aligned to 8 bytes; an empty area takes one unit. *)
Definition mem_sz (E : MEM_TAG) : Z :=
  match E with
  | MEM_TAG_BEGIN => 0
  | INTERNAL_STATE => 8
  | OUTPUT_RECEIVER_WINDOW_CONTROL => 3 * 8
  | OUTPUT_RECEIVER_WINDOW_NAGLES => 8
  | OUTPUT_CUMULATIVE_WINDOW_PROCESSING => 4 * 8
  | OUTPUT_SEND_OUTPUT_BUFFER => OUTPUT_SEND_BUF_SZ + 8 * OUTPUT_SEND_BUF_SZ + 8
  | OUTPUT_TIMEOUT_COMPUTING => 3 * 8
  | OUTPUT_FAST_RETRANSMITION => 4 + 4
  | INPUT_RECEIVER_WINDOW_PROCESSING => 4 * 8
  | INPUT_RECEIVER_BUFFER_PROCESSING => 8 + INPUT_BUF_SZ
  | ESTABLISH_HANDSHAKER => 3 * 4
  | CLOSE_HANDSHAKER => 2 * 4
  | MEM_TAG_END => 8
  | RESERVED => 8
  end.

(** [mem_info<E>::summary_prefix_off()]: the template recursion over the
    previous tags. *)
Fixpoint prefix_off (n : nat) : Z :=
  match n with
  | O => 0
  | S p => prefix_off p + match all_tags !! p with Some E => mem_sz E | None => 0 end
  end.

Definition summary_prefix_off (E : MEM_TAG) : Z := prefix_off (tag_no E).

Definition mem_full_sz : Z := summary_prefix_off MEM_TAG_END.

(** ** Properties *)

Lemma all_tags_complete E : E ∈ all_tags.
Proof. destruct E; unfold all_tags; set_solver. Qed.

Lemma tag_no_lookup E : all_tags !! tag_no E = Some E.
Proof. destruct E; done. Qed.

Lemma prefix_off_step E : prefix_off (S (tag_no E)) = summary_prefix_off E + mem_sz E.
Proof. cbn [prefix_off]. rewrite tag_no_lookup. done. Qed.

Lemma mem_sz_nonneg E : 0 <= mem_sz E.
Proof. destruct E; vm_compute; discriminate. Qed.

Lemma prefix_off_mono n m : (n <= m)%nat -> prefix_off n <= prefix_off m.
Proof.
  induction 1 as [|m _ IH]; [lia|]. cbn [prefix_off].
  destruct (all_tags !! m) as [E|]; [pose proof (mem_sz_nonneg E)|]; lia.
Qed.

(** The areas do not overlap: of two different tags, one area ends before
    the other begins; and every area between the two end marks lies inside
    the [mem_full_sz] bytes the socket allocates. *)
Lemma areas_disjoint_and_inside E1 E2 :
  (E1 <> E2 ->
     summary_prefix_off E1 + mem_sz E1 <= summary_prefix_off E2 \/
     summary_prefix_off E2 + mem_sz E2 <= summary_prefix_off E1) /\
  (E1 <> MEM_TAG_END -> E1 <> RESERVED ->
     0 <= summary_prefix_off E1 /\ summary_prefix_off E1 + mem_sz E1 <= mem_full_sz).
Proof.
  split.
  - intros Hne. rewrite <- !prefix_off_step. unfold summary_prefix_off.
    assert (tag_no E1 < tag_no E2 \/ tag_no E2 < tag_no E1)%nat as [H|H]
      by (destruct E1, E2; simpl; (lia || done)); [left|right];
      apply prefix_off_mono; lia.
  - intros He Hr. rewrite <- prefix_off_step. split.
    + apply (prefix_off_mono 0). lia.
    + apply prefix_off_mono. destruct E1; simpl; (lia || done).
Qed.
