(* ===== verification/Locks.v ===== *)
(** * Locks: the semaphores and scopes that protect the shared memory

    [external_lock_wrapper] and [notificator_wrapper] of
    [src/src/tcp_engine.h] (75-145), [sock::accquire_shmem] and
    [put_internal_lock] of [src/src/tcp_engine.cpp] (282-296), [mem_get],
    [mem_put] and the scope [mem_ctl] of [src/src/tcp_proto_mem.h] (210-284):
    which semaphore a section takes, and what is left of it when the section
    ends, also by an exception.  [Socket] uses what is proved here: its sections
    are one semaphore taken and given back. *)
From S2P Require Import Prelude.

(** ** The semaphores of one socket

    By number, [sh_own] the named one of [sock] itself; [sh_unlinked]: the
    socket has been closed by some process. *)
Record shared : Type := Shared {
  sh_sems : nat -> Z;
  sh_own : nat;
  sh_unlinked : bool;
}.

Definition set_count (n : nat) (v : Z) (s : shared) : shared :=
  Shared (fun m => if decide (m = n) then v else sh_sems s m) (sh_own s) (sh_unlinked s).

Section locks.

(** The calls on a semaphore that the kernel refuses. *)
Context (refused : nat -> bool).

Definition sem_init (n : nat) (v : Z) : M shared unit :=
  if refused n then throw EFuck else modify (set_count n v).

Definition sem_wait (n : nat) : M shared unit :=
  if refused n then throw EFuck
  else
    v ← gets (fun s => sh_sems s n);
    if 0 <? v then modify (set_count n (v - 1)) else faults blocked.

(** [sem_timedwait]: returns also when the time is over. *)
Definition sem_timedwait (n : nat) : M shared unit :=
  if refused n then throw EFuck
  else
    v ← gets (fun s => sh_sems s n);
    when (0 <? v) (modify (set_count n (v - 1))).

Definition sem_post (n : nat) : M shared unit :=
  if refused n then throw EFuck
  else v ← gets (fun s => sh_sems s n); modify (set_count n (v + 1)).

(** ** [external_lock_wrapper] *)

Record external_lock_wrapper : Type := ExternalLock {
  el_sem : option nat;
  el_ignored : bool;
}.

(** [if (!sem || ignored) return;] *)
Definition on_lock (l : external_lock_wrapper) (f : nat -> M shared unit) : M shared unit :=
  match el_sem l with
  | Some n => when (negb (el_ignored l)) (f n)
  | None => mret tt
  end.

(** [init] does not look at the answer of [sem_init]. *)
Definition lock_init (l : external_lock_wrapper) : M shared unit :=
  on_lock l (fun n => if refused n then mret tt else sem_init n 1).
Definition lock_lock (l : external_lock_wrapper) : M shared unit := on_lock l sem_wait.
Definition lock_unlock (l : external_lock_wrapper) : M shared unit := on_lock l sem_post.
Definition lock_have (l : external_lock_wrapper) : bool :=
  el_ignored l || match el_sem l with Some _ => true | None => false end.

(** ** [notificator_wrapper] *)

Definition notif_init (n : nat) : M shared unit := sem_init n 0.
Definition notif_wait (n : nat) : M shared unit := sem_wait n.
Definition notif_wait_for (n : nat) : M shared unit := sem_timedwait n.
Definition notif_notify (n : nat) : M shared unit := sem_post n.

(** ** The memory *)

(** [accquire_shmem] *)
Definition accquire_shmem (internal_lock : bool) : M shared unit :=
  own ← gets sh_own;
  when internal_lock (sem_wait own);;
  unlinked ← gets sh_unlinked;
  if unlinked : bool then
    when internal_lock (sem_post own);;
    throw EFuck
  else mret tt.

Definition put_internal_lock : M shared unit := own ← gets sh_own; sem_post own.

Definition mem_get (l : external_lock_wrapper) : M shared unit :=
  when (lock_have l) (lock_lock l);;
  accquire_shmem (negb (lock_have l)).

Definition mem_put (l : external_lock_wrapper) : M shared unit :=
  if lock_have l then lock_unlock l else put_internal_lock.

(** A scope with a [mem_ctl] in it: the constructor, the body, and the
    destructor on either way out of the body. *)
Definition mem_ctl {A} (l : external_lock_wrapper) (body : M shared A) : M shared A :=
  mem_get l;;
  finally body (mem_put l).

(** ** What they come to *)

(** The semaphore a scope takes: the given lock's, or the socket's own when
    there is no lock; none when the lock is to be ignored. *)
Definition lock_of (l : external_lock_wrapper) (s : shared) : option nat :=
  if el_ignored l then None
  else Some (match el_sem l with Some n => n | None => sh_own s end).

Definition take_lock (l : external_lock_wrapper) (s : shared) : shared :=
  match lock_of l s with Some n => set_count n (sh_sems s n - 1) s | None => s end.

Lemma set_count_set n v v' s m :
  sh_sems (set_count n v (set_count n v' s)) m = sh_sems (set_count n v s) m.
Proof. cbn. by destruct (decide (m = n)). Qed.

Lemma sem_wait_free n s :
  refused n = false -> 0 < sh_sems s n -> sem_wait n s = (Ret tt, set_count n (sh_sems s n - 1) s).
Proof. intros Hr Hn. unfold sem_wait. rewrite Hr. rewrite bind_unfold. cbn [gets]. by rewrite (proj2 (Z.ltb_lt _ _)). Qed.

Lemma sem_post_ok n s :
  refused n = false -> sem_post n s = (Ret tt, set_count n (sh_sems s n + 1) s).
Proof. intros Hr. unfold sem_post. by rewrite Hr. Qed.

Lemma sem_wait_taken n s :
  refused n = false -> sh_sems s n <= 0 -> sem_wait n s = (Fault blocked, s).
Proof. intros Hr Hn. unfold sem_wait. rewrite Hr. rewrite bind_unfold. cbn [gets]. by rewrite (proj2 (Z.ltb_ge _ _)). Qed.

Hypothesis never_refused : forall n, refused n = false.

Lemma on_lock_ignored l f s : el_ignored l = true -> on_lock l f s = (Ret tt, s).
Proof. intros H. unfold on_lock. rewrite H. by destruct (el_sem l). Qed.

Lemma accquire_external s :
  accquire_shmem false s = (if sh_unlinked s then Throw EFuck else Ret tt, s).
Proof. destruct s as [f o []]; reflexivity. Qed.

Lemma accquire_internal s s1 :
  sem_wait (sh_own s) s = (Ret tt, s1) -> sh_unlinked s1 = sh_unlinked s ->
  accquire_shmem true s = if sh_unlinked s then (sem_post (sh_own s);; throw EFuck) s1 else (Ret tt, s1).
Proof.
  intros Hw Hu. unfold accquire_shmem. mstep (eq_refl (gets sh_own s)). cbn [when]. mstep Hw.
  mstep (eq_refl (gets sh_unlinked s1)). rewrite Hu. by destruct (sh_unlinked s).
Qed.

(** The constructor of a scope takes the lock of an open socket. *)
Lemma mem_get_ok l s :
  sh_unlinked s = false ->
  (forall n, lock_of l s = Some n -> sh_sems s n = 1) ->
  mem_get l s = (Ret tt, take_lock l s).
Proof.
  intros Hu Hfree.
  assert (forall n, lock_of l s = Some n -> sem_wait n s = (Ret tt, take_lock l s)) as Hw.
  { intros n Hn. unfold take_lock. rewrite Hn. apply sem_wait_free; [done|]. rewrite Hfree by done. lia. }
  assert (sh_unlinked (take_lock l s) = false) as Hu' by (unfold take_lock; by destruct (lock_of l s)).
  unfold mem_get, lock_have, lock_lock. unfold lock_of in Hw.
  destruct l as [[n|] []]; cbn [el_sem el_ignored orb negb when on_lock] in *.
  - mstep (eq_refl (mret (M:=M shared) tt s)). by rewrite accquire_external, Hu.
  - mstep (Hw n eq_refl). by rewrite accquire_external, Hu'.
  - mstep (eq_refl (mret (M:=M shared) tt s)). by rewrite accquire_external, Hu.
  - mstep (eq_refl (mret (M:=M shared) tt s)).
    rewrite (accquire_internal s _ (Hw _ eq_refl)); by rewrite ?Hu, ?Hu'.
Qed.

(** The destructor gives back what the constructor has taken. *)
Lemma mem_put_ok l s :
  mem_put l s =
    (Ret tt, match lock_of l s with Some n => set_count n (sh_sems s n + 1) s | None => s end).
Proof.
  unfold mem_put, lock_have, lock_unlock, put_internal_lock, lock_of.
  destruct l as [[n|] []]; cbn [el_sem el_ignored orb negb when on_lock]; try done.
  - by apply sem_post_ok.
  - mstep (eq_refl (gets sh_own s)). by apply sem_post_ok.
Qed.

(** C17: a scope is a section under its lock.  On a socket that is open and with
    the lock free, the body, whatever it does to the memory and to other
    semaphores, runs with the lock taken; its answer is the scope's, an
    exception as well as a value; and in the end the lock has been given back
    once: every semaphore is as the body has left it, and the scope's lock is
    one more.  A body that does not end keeps the lock. *)
Theorem scope_gives_lock_back {A} l (body : M shared A) s :
  sh_unlinked s = false ->
  (forall n, lock_of l s = Some n -> sh_sems s n = 1) ->
  sh_own (snd (body (take_lock l s))) = sh_own s ->
  (forall n, lock_of l s = Some n -> sh_sems (take_lock l s) n = 0) /\
  match body (take_lock l s) with
  | (Fault x, s1) => mem_ctl l body s = (Fault x, s1)
  | (r, s1) => exists s2, mem_ctl l body s = (r, s2) /\
      sh_own s2 = sh_own s1 /\ sh_unlinked s2 = sh_unlinked s1 /\
      forall n, sh_sems s2 n = sh_sems s1 n + (if decide (lock_of l s = Some n) then 1 else 0)
  end.
Proof.
  intros Hu Hfree Hown. split.
  { intros n Hn. unfold take_lock. rewrite Hn. cbn. rewrite decide_True, Hfree by done. lia. }
  assert (forall r s1, body (take_lock l s) = (r, s1) ->
    mem_ctl l body s = finally (fun _ => (r, s1)) (mem_put l) s) as Hrun.
  { intros r s1 Hr. unfold mem_ctl. mstep (mem_get_ok l s Hu Hfree). unfold finally. by rewrite Hr. }
  destruct (body (take_lock l s)) as [r s1] eqn:Hr. cbn [snd] in Hown. specialize (Hrun _ _ eq_refl).
  assert (lock_of l s1 = lock_of l s) as Hlk by (unfold lock_of; by rewrite Hown).
  assert (exists s2, mem_put l s1 = (Ret tt, s2) /\ sh_own s2 = sh_own s1 /\
    sh_unlinked s2 = sh_unlinked s1 /\
    forall n, sh_sems s2 n = sh_sems s1 n + (if decide (lock_of l s = Some n) then 1 else 0)) as (s2&Hp&Hs2).
  { eexists. split; [apply mem_put_ok|]. rewrite Hlk. destruct (lock_of l s) as [n|]; cbn.
    - split_and!; try done. intros m. destruct (decide (m = n)) as [->|Hne].
      + by rewrite decide_True.
      + rewrite decide_False by congruence. lia.
    - split_and!; try done. intros m. rewrite decide_False by done. lia. }
  unfold finally in Hrun. destruct r as [a|e|x]; [| |exact Hrun];
    (exists s2; split; [|exact Hs2]; rewrite Hrun, bind_unfold, Hp; done).
Qed.

(** C18: on a socket that some process has closed, a scope throws and its body
    does not run; a lock of the shared memory is not given back, for the
    constructor has taken it and the destructor of an object that was not
    constructed does not run; whoever takes it next, the destructor of the
    socket among them, waits for ever. *)
Theorem closed_socket_keeps_lock {A B} n (body : M shared A) (body' : M shared B) s :
  sh_unlinked s = true -> sh_sems s n = 1 ->
  let l := ExternalLock (Some n) false in
  let s' := set_count n 0 s in
  mem_ctl l body s = (Throw EFuck, s') /\
  mem_ctl l body' s' = (Fault blocked, s') /\
  lock_lock l s' = (Fault blocked, s').
Proof.
  intros Hu Hn l s'. assert (lock_lock l s' = (Fault blocked, s')) as Hb
    by (apply sem_wait_taken; [done|]; cbn; by rewrite decide_True).
  split_and!; [| |exact Hb].
  - unfold mem_ctl, mem_get. cbn [l lock_have el_sem el_ignored orb when].
    assert (lock_lock l s = (Ret tt, s')) as Hl.
    { unfold s'. replace 0 with (sh_sems s n - 1) by lia. apply sem_wait_free; [done|lia]. }
    rewrite bind_unfold, bind_unfold, Hl, accquire_external. cbn [s' set_count sh_unlinked]. by rewrite Hu.
  - unfold mem_ctl, mem_get. cbn [l lock_have el_sem el_ignored orb when].
    by rewrite bind_unfold, bind_unfold, Hb.
Qed.

(** A scope under the socket's own lock does give it back, and one under an
    ignored lock has taken nothing. *)
Lemma closed_socket_own_lock {A} (body : M shared A) s :
  sh_unlinked s = true -> sh_sems s (sh_own s) = 1 ->
  exists s', mem_ctl (ExternalLock None false) body s = (Throw EFuck, s') /\
    forall n, sh_sems s' n = sh_sems s n.
Proof.
  intros Hu Hn. pose proof (sem_wait_free (sh_own s) s (never_refused _) ltac:(lia)) as Hw.
  eexists. split.
  - unfold mem_ctl, mem_get. cbn [lock_have el_sem el_ignored orb negb when].
    rewrite bind_unfold. mstep (eq_refl (mret (M:=M shared) tt s)).
    rewrite (accquire_internal s _ Hw eq_refl), Hu, bind_unfold, sem_post_ok by done. reflexivity.
  - intros m. cbn. destruct (decide (m = sh_own s)) as [->|]; [|done]. rewrite decide_True by done. lia.
Qed.

Lemma closed_socket_no_lock {A} o (body : M shared A) s :
  sh_unlinked s = true -> mem_ctl (ExternalLock o true) body s = (Throw EFuck, s).
Proof.
  intros Hu. unfold mem_ctl, mem_get. cbn [lock_have el_sem el_ignored orb negb when].
  rewrite !bind_unfold. unfold lock_lock. rewrite on_lock_ignored, accquire_external, Hu by done. done.
Qed.

(** ** Notifications *)

(** A notification is not lost: it ends one wait, now or later. *)
Lemma notify_then_wait n s :
  0 <= sh_sems s n ->
  exists s1 s2, notif_notify n s = (Ret tt, s1) /\ notif_wait n s1 = (Ret tt, s2) /\
    forall m, sh_sems s2 m = sh_sems s m.
Proof.
  intros Hn. do 2 eexists. split; [by apply sem_post_ok|].
  split; [apply sem_wait_free; [done|]; cbn; rewrite decide_True by done; lia|].
  intros m. cbn. destruct (decide (m = n)) as [->|]; [|done]. rewrite decide_True by done. lia.
Qed.

(** A wait with a time limit ends. *)
Lemma wait_for_returns n s : exists s', notif_wait_for n s = (Ret tt, s').
Proof.
  unfold notif_wait_for, sem_timedwait. rewrite never_refused, bind_unfold. cbn [gets].
  destruct (0 <? sh_sems s n); eexists; done.
Qed.

End locks.

(** ** Witnesses *)

Definition one_socket (unlinked : bool) : shared := Shared (fun _ => 1) 9 unlinked.

(** A body that notifies somebody and then throws. *)
Definition notify_and_throw : M shared unit := notif_notify (fun _ => false) 3;; throw EDrop.

Lemma scope_gives_lock_back_witness :
  exists s2,
    mem_ctl (fun _ => false) (ExternalLock (Some 1%nat) false) notify_and_throw (one_socket false)
      = (Throw EDrop, s2) /\
    sh_sems s2 1%nat = 1 /\ sh_sems s2 3%nat = 2 /\ sh_sems s2 4%nat = 1.
Proof.
  destruct (scope_gives_lock_back (fun _ => false) (fun _ => eq_refl) (ExternalLock (Some 1%nat) false)
    notify_and_throw (one_socket false)) as (_&s2&H1&_&_&H2).
  - reflexivity.
  - intros n _. reflexivity.
  - reflexivity.
  - exists s2. split; [exact H1|]. split; [exact (H2 1%nat)|]. split; [exact (H2 3%nat)|exact (H2 4%nat)].
Defined.

Lemma closed_socket_keeps_lock_witness :
  fst (mem_ctl (fun _ => false) (ExternalLock (Some 1%nat) false) (mret tt) (one_socket true)) = Throw EFuck.
Proof.
  destruct (closed_socket_keeps_lock (fun _ => false) (fun _ => eq_refl) 1 (mret tt) (mret tt)
    (one_socket true) eq_refl eq_refl) as [H _].
  rewrite H. reflexivity.
Defined.
