(* ===== verification/Congestion.v ===== *)
(** * Congestion: [congection_window_control] of [src/src/tcp_proto_output.h]

    Lines 247-300: the congestion window grows by one MTU with every
    acknowledgement and halves with every retransmission; the receiver's
    window is whatever the last acknowledgement advertised. *)
From S2P Require Import Prelude Window Message ProtoMem.

Definition mult_arg : Z := 2.
Definition add_arg : Z := 1.

Section congestion.
Context {St : Type} `{!MemArea St window_control_area}.

(** The constructor: the first one to attach sets the MTU. *)
Definition congection_window_control (mtu_ : Z) : M St unit :=
  a ← mem_get;
  when (mtu a =? 0)
    (mem_put (WindowControlArea (receiver_win_sz a) (congection_win_sz a) mtu_)).

Definition get_mtu : M St Z := a ← mem_get; mret (mtu a).

Definition bounded_win_sz : M St Z :=
  a ← mem_get; mret (Z.min (receiver_win_sz a) (congection_win_sz a)).

Definition cwc_on_retry : M St unit :=
  a ← mem_get;
  mem_put (WindowControlArea (receiver_win_sz a)
             (Z.max (congection_win_sz a `div` mult_arg) 1) (mtu a)).

Definition cwc_on_ack (m : msg) : M St unit :=
  a ← mem_get;
  mem_put (WindowControlArea (get_window_sz m)
             (u64 (congection_win_sz a + u64 (add_arg * mtu a))) (mtu a)).

End congestion.

(** The area alone is a state. *)
#[export] Instance window_control_self : MemArea window_control_area window_control_area :=
  {| area_get := id; area_put := fun a _ => a |}.

(** The two events the window answers to, and a run of them. *)
Inductive cwc_event : Type := CwcAck (m : msg) | CwcRetry.

Definition cwc_handle (e : cwc_event) : M window_control_area unit :=
  match e with CwcAck m => cwc_on_ack m | CwcRetry => cwc_on_retry end.

Fixpoint cwc_run (es : list cwc_event) : M window_control_area unit :=
  match es with
  | [] => mret tt
  | e :: es => cwc_handle e;; cwc_run es
  end.

(** ** Lemmas *)

Lemma cwc_retry_eq (a : window_control_area) :
  cwc_on_retry a = (Ret tt, WindowControlArea (receiver_win_sz a)
                              (Z.max (congection_win_sz a `div` mult_arg) 1) (mtu a)).
Proof. done. Qed.

Lemma cwc_ack_eq m (a : window_control_area) :
  0 <= mtu a -> 0 <= congection_win_sz a -> congection_win_sz a + mtu a < modulus64 ->
  cwc_on_ack m a = (Ret tt, WindowControlArea (get_window_sz m)
                              (congection_win_sz a + mtu a) (mtu a)).
Proof.
  intros. change (cwc_on_ack m a) with (Ret tt, WindowControlArea (get_window_sz m)
    (u64 (congection_win_sz a + u64 (add_arg * mtu a))) (mtu a)).
  unfold add_arg. rewrite Z.mul_1_l, (u64_small (mtu a)), u64_small by lia. done.
Qed.

Lemma cwc_run_retries a k :
  cwc_run (replicate (S k) CwcRetry) a =
    (Ret tt, WindowControlArea (receiver_win_sz a)
               (Z.max (congection_win_sz a `div` 2 ^ Z.of_nat (S k)) 1) (mtu a)).
Proof.
  revert a. induction k as [|k IH]; intros a; [done|].
  change (replicate (S (S k)) CwcRetry) with (CwcRetry :: replicate (S k) CwcRetry).
  cbn [cwc_run cwc_handle]. mstep (cwc_retry_eq a). rewrite IH. clear IH.
  cbn [receiver_win_sz congection_win_sz mtu]. unfold mult_arg. do 2 f_equal.
  rewrite (Nat2Z.inj_succ (S k)), Z.pow_succ_r by lia.
  rewrite <- Z.div_div by lia. set (c := congection_win_sz a `div` 2).
  assert (2 <= 2 ^ Z.of_nat (S k)) as Hp
    by (rewrite Nat2Z.inj_succ, Z.pow_succ_r by lia;
        pose proof (Z.pow_pos_nonneg 2 (Z.of_nat k)); lia).
  destruct (Z.le_gt_cases 1 c) as [H|H]; [rewrite (Z.max_l c) by lia; done|].
  rewrite (Z.max_r c), (Z.div_small 1) by lia.
  assert (c `div` 2 ^ Z.of_nat (S k) <= 0)
    by (apply Z.lt_succ_r, Z.div_lt_upper_bound; lia).
  lia.
Qed.

Lemma cwc_run_acks a m n :
  0 <= congection_win_sz a -> 0 <= mtu a ->
  congection_win_sz a + Z.of_nat n * mtu a < modulus64 -> (0 < n)%nat ->
  cwc_run (replicate n (CwcAck m)) a =
    (Ret tt, WindowControlArea (get_window_sz m)
               (congection_win_sz a + Z.of_nat n * mtu a) (mtu a)).
Proof.
  revert a. induction n as [|n IH]; intros a Hc Hm Hlt Hn; [lia|].
  cbn [replicate cwc_run cwc_handle]. mstep (cwc_ack_eq m a Hm Hc ltac:(nia)).
  destruct n as [|n]; [cbn [replicate cwc_run]; unfold mret, M_ret; do 2 f_equal; lia|].
  rewrite IH by (simpl; lia). simpl. do 2 f_equal. lia.
Qed.

Lemma cwc_run_app es1 es2 a a' :
  cwc_run es1 a = (Ret tt, a') -> cwc_run (es1 ++ es2) a = cwc_run es2 a'.
Proof.
  revert a. induction es1 as [|e es1 IH]; intros a H; cbn [cwc_run app] in *.
  - injection H as <-. done.
  - destruct (bind_ret_inv _ _ _ _ _ H) as ([]&a1&H1&H2). mstep H1. auto.
Qed.

(** ** Properties *)

(** Additive increase, multiplicative decrease: after [n] acknowledgements
    and then [k] retransmissions in a row the congestion window is
    [(cwnd + n * mtu) / 2^k], but never below 1, and the receiver's window is
    the last one advertised. *)
Lemma aimd_closed_form a m n k :
  0 <= congection_win_sz a -> 0 <= mtu a ->
  congection_win_sz a + Z.of_nat n * mtu a < modulus64 -> (0 < n)%nat -> (0 < k)%nat ->
  cwc_run (replicate n (CwcAck m) ++ replicate k CwcRetry) a =
    (Ret tt, WindowControlArea (get_window_sz m)
       (Z.max ((congection_win_sz a + Z.of_nat n * mtu a) `div` 2 ^ Z.of_nat k) 1) (mtu a)).
Proof.
  intros Hc Hm Hlt Hn Hk. rewrite (cwc_run_app _ _ _ _ (cwc_run_acks a m n Hc Hm Hlt Hn)).
  destruct k as [|k]; [lia|]. rewrite cwc_run_retries. done.
Qed.

Lemma aimd_closed_form_witness :
  cwc_run (replicate 10 (CwcAck (set_window_sz 65534 (msg_of []))) ++ replicate 5 CwcRetry)
    (WindowControlArea 1000 100 1500) =
    (Ret tt, WindowControlArea 65534 (Z.max ((100 + 10 * 1500) `div` 2 ^ 5) 1) 1500).
Proof.
  apply (aimd_closed_form (WindowControlArea 1000 100 1500)
           (set_window_sz 65534 (msg_of [])) 10 5); simpl; lia.
Defined.

(** Whatever acknowledgements and retransmissions come in whatever order,
    the congestion window stays at least 1 (so the sender is never stopped by
    congestion) and grows by at most one MTU per event. *)
Lemma congestion_window_bounds es a :
  1 <= congection_win_sz a -> 0 <= mtu a ->
  congection_win_sz a + Z.of_nat (length es) * mtu a < modulus64 ->
  exists a',
    cwc_run es a = (Ret tt, a') /\ mtu a' = mtu a /\
    1 <= congection_win_sz a' <= congection_win_sz a + Z.of_nat (length es) * mtu a.
Proof.
  revert a. induction es as [|e es IH]; intros a Hc Hm Hlt; cbn [cwc_run].
  - eexists; split_and!; [done|done|lia|simpl; lia].
  - cbn [length] in *. rewrite Nat2Z.inj_succ in *.
    destruct e as [m|]; cbn [cwc_handle].
    + mstep (cwc_ack_eq m a Hm ltac:(lia) ltac:(nia)).
      destruct (IH (WindowControlArea (get_window_sz m) (congection_win_sz a + mtu a) (mtu a)))
        as (a'&->&?&?); simpl in *; try lia. exists a'. split_and!; (done || lia).
    + mstep (cwc_retry_eq a). unfold mult_arg.
      assert (congection_win_sz a `div` 2 <= congection_win_sz a)
        by (apply Z.div_le_upper_bound; lia).
      destruct (IH (WindowControlArea (receiver_win_sz a)
                      (Z.max (congection_win_sz a `div` 2) 1) (mtu a)))
        as (a'&->&?&?); simpl in *; try lia. exists a'. split_and!; (done || lia).
Qed.

Lemma congestion_window_bounds_witness :
  exists a',
    cwc_run [CwcRetry; CwcAck (msg_of []); CwcRetry] (WindowControlArea 1000 100 1500)
      = (Ret tt, a') /\ mtu a' = 1500 /\ 1 <= congection_win_sz a' <= 100 + 3 * 1500.
Proof.
  apply (congestion_window_bounds [CwcRetry; CwcAck (msg_of []); CwcRetry]
           (WindowControlArea 1000 100 1500)); simpl; lia.
Defined.
