(* ===== verification/Timeout.v ===== *)
(** * Timeout: [timeout_computing] of [src/src/tcp_proto_output.h]

    Lines 302-372: the retransmission timeout from smoothed round-trip times.
    The code computes in [double]; here a double is the integer number of
    eighths it is worth, and every operation rounds to 53 significant bits as
    IEEE 754 does.  All values the code forms are non-negative multiples of
    one eighth (the factors are 3/4, 1/4, 7/8 and 1/8, applied to converted
    integers), so nothing else of the format is needed. *)
From S2P Require Import Prelude Window Message ProtoMem.

(** ** Doubles as eighths *)

(** Round to 53 significant bits, ties to even. *)
Definition dbl_round (v : Z) : Z :=
  let k := Z.log2 v - 52 in
  if k <=? 0 then v
  else
    let ulp := 2 ^ k in
    let q := v `div` ulp in
    let r := v `mod` ulp in
    if 2 * r <? ulp then q * ulp
    else if ulp <? 2 * r then (q + 1) * ulp
    else if Z.even q then q * ulp else (q + 1) * ulp.

Definition dbl_of_size (x : Z) : Z := dbl_round (8 * x).
Definition dbl_add (a b : Z) : Z := dbl_round (a + b).
(** Multiplication by [num/8], for the four factors of the code.  They are only
    ever applied to a converted integer, which is a multiple of 8 whatever its
    size ([dbl_of_size_eighths]), so the division is exact and the only
    rounding is that of the product. *)
Definition dbl_mul8 (num a : Z) : Z := dbl_round ((num * a) `div` 8).
(** Conversion to [size_t] truncates. *)
Definition size_of_dbl (a : Z) : Z := u64 (a `div` 8).

Definition alpha8 : Z := 1.
Definition beta8 : Z := 2.
Definition Gkof : Z := 300.
Definition K : Z := 4.

Section timeout.
Context {St : Type} `{!MemArea St timeout_area}.

Definition clean_compute (R : Z) : M St unit :=
  a ← mem_get; mem_put (TimeoutArea R (R `div` 2) (nm a)).

Definition noclean_compute (R : Z) : M St unit :=
  a ← mem_get;
  let dev := Z.abs (s64 (s64 (SRTT a) - s64 R)) in
  let rttvar := size_of_dbl
    (dbl_add (dbl_mul8 (8 - beta8) (dbl_of_size (RTTVAR a)))
             (dbl_mul8 beta8 (dbl_of_size dev))) in
  let srtt := size_of_dbl
    (dbl_add (dbl_mul8 (8 - alpha8) (dbl_of_size (SRTT a)))
             (dbl_mul8 alpha8 (dbl_of_size R))) in
  mem_put (TimeoutArea srtt rttvar (nm a)).

Definition get_rto (a : timeout_area) : Z :=
  u64 (SRTT a + Z.max Gkof (u64 (K * RTTVAR a))).

Definition compute_timeout (R : Z) : M St unit :=
  a ← mem_get;
  (if nm a =? 0 then clean_compute R else noclean_compute R);;
  a ← mem_get;
  mem_put (TimeoutArea (SRTT a) (RTTVAR a) (u64 (nm a + 1))).

Definition get_timeout : M St Z :=
  a ← mem_get;
  mret (if nm a =? 0 then TCP_OUTPUT_START_TIMEOUT else get_rto a).

(** [now] is the controller's [get_timestamp()]. *)
Definition timeout_refresh (now : Z) (sender ack : msg) : M St unit :=
  let sender_timestamp := s64 (get_sender_timestamp sender) in
  let current_timestamp := s64 now in
  let conv_ack_recv_timestamp := s64 (get_recv_timestamp ack) in
  let conv_ack_sender_timestamp := s64 (get_sender_timestamp ack) in
  let R := s64 (s64 (conv_ack_recv_timestamp - conv_ack_sender_timestamp) +
                s64 (current_timestamp - sender_timestamp)) in
  compute_timeout (u64 R).

End timeout.

#[export] Instance timeout_self : MemArea timeout_area timeout_area :=
  {| area_get := id; area_put := fun a _ => a |}.

Fixpoint timeout_run (Rs : list Z) : M timeout_area unit :=
  match Rs with
  | [] => mret tt
  | R :: Rs => compute_timeout R;; timeout_run Rs
  end.

(** ** Lemmas *)

(** Times below 2^48 ms (some nine thousand years). *)
Definition small_time (x : Z) : Prop := 0 <= x < 281474976710656.

Lemma dbl_round_exact v : 0 <= v < 9007199254740992 -> dbl_round v = v.
Proof.
  intros H. unfold dbl_round.
  destruct (Z.eq_dec v 0) as [->|Hv]; [done|].
  rewrite (proj2 (Z.leb_le _ 0)); [done|].
  assert (Z.log2 v < 53); [|lia].
  apply Z.log2_lt_pow2; [lia|]. change (2 ^ 53) with 9007199254740992. lia.
Qed.

(** A converted integer, rounded or not, is a whole number. *)
Lemma dbl_of_size_eighths x : 0 <= x -> (8 | dbl_of_size x).
Proof.
  intros Hx. unfold dbl_of_size, dbl_round. set (k := Z.log2 (8 * x) - 52).
  destruct (Z.leb_spec k 0) as [|Hk]; [by exists x; lia|].
  destruct (Z.lt_ge_cases k 3) as [Hs|Hl].
  - assert ((8 * x) `mod` 2 ^ k = 0) as Hr.
    { assert (8 = 2 ^ (3 - k) * 2 ^ k) as E
        by (rewrite <- Z.pow_add_r by lia; replace (3 - k + k) with 3 by lia; done).
      rewrite E, (Z.mul_comm _ x), Z.mul_assoc. apply Z_mod_mult. }
    rewrite Hr. rewrite (proj2 (Z.ltb_lt _ _)) by lia.
    exists x. pose proof (Z.div_mod (8 * x) (2 ^ k) ltac:(lia)) as Hd. rewrite Hr in Hd. lia.
  - assert (8 | 2 ^ k) as H8.
    { exists (2 ^ (k - 3)). change 8 with (2 ^ 3). rewrite <- Z.pow_add_r by lia.
      by replace (k - 3 + 3) with k by lia. }
    repeat case_match; by apply Z.divide_mul_r.
Qed.

Lemma dbl_mul8_product num x :
  0 <= num -> 0 <= x -> 8 * ((num * dbl_of_size x) `div` 8) = num * dbl_of_size x.
Proof.
  intros Hn Hx. pose proof (dbl_of_size_eighths x Hx) as Hm.
  destruct Hm as [k ->]. rewrite Z.mul_assoc, Z.div_mul by lia. lia.
Qed.

Lemma dbl_mul8_exact num x :
  0 <= num <= 8 -> small_time x -> dbl_mul8 num (dbl_of_size x) = num * x.
Proof.
  unfold small_time. intros Hn Hx. unfold dbl_mul8, dbl_of_size.
  rewrite (dbl_round_exact (8 * x)) by lia.
  replace (num * (8 * x)) with (num * x * 8) by lia. rewrite Z.div_mul by lia.
  apply dbl_round_exact. nia.
Qed.

Lemma noclean_exact (a : timeout_area) R :
  small_time (SRTT a) -> small_time (RTTVAR a) -> small_time R ->
  noclean_compute R a =
    (Ret tt, TimeoutArea ((7 * SRTT a + R) `div` 8)
               ((3 * RTTVAR a + Z.abs (SRTT a - R)) `div` 4) (nm a)).
Proof.
  intros Hs Hv HR. unfold noclean_compute. rewrite bind_unfold.
  cbn [mem_get gets area_get timeout_self id].
  rewrite !dbl_mul8_exact; unfold alpha8, beta8; try done || lia;
    [|unfold small_time in *; rewrite (s64_small (SRTT a)), (s64_small R), s64_small; lia].
  unfold small_time in *. rewrite (s64_small (SRTT a)), (s64_small R), s64_small by lia.
  unfold mem_put, modify, area_put, timeout_self, size_of_dbl, dbl_add.
  rewrite !dbl_round_exact by lia.
  do 2 f_equal; rewrite u64_small; Z.to_euclidean_division_equations; lia.
Qed.

Lemma compute_timeout_eq (a : timeout_area) R :
  small_time (SRTT a) -> small_time (RTTVAR a) -> small_time R ->
  0 <= nm a < modulus64 - 1 ->
  compute_timeout R a =
    (Ret tt,
     if nm a =? 0 then TimeoutArea R (R `div` 2) 1
     else TimeoutArea ((7 * SRTT a + R) `div` 8)
            ((3 * RTTVAR a + Z.abs (SRTT a - R)) `div` 4) (nm a + 1)).
Proof.
  intros Hs Hv HR Hn. unfold compute_timeout. rewrite bind_unfold.
  cbn [mem_get gets area_get timeout_self id].
  destruct (Z.eqb_spec (nm a) 0) as [H0|H0].
  - transitivity (Ret tt, TimeoutArea R (R `div` 2) (u64 (nm a + 1))); [done|].
    rewrite H0. done.
  - mstep (noclean_exact a R Hs Hv HR).
    rewrite <- (u64_small (nm a + 1)) by lia. done.
Qed.

(** The estimator never leaves the range of the samples. *)
Definition estimate_in (lo hi : Z) (a : timeout_area) : Prop :=
  1 <= nm a /\ lo <= SRTT a <= hi /\ 0 <= RTTVAR a <= hi.

Lemma compute_timeout_range lo hi (a : timeout_area) R :
  0 <= lo -> small_time hi -> lo <= R <= hi -> 0 <= nm a < modulus64 - 1 ->
  nm a = 0 /\ small_time (SRTT a) /\ small_time (RTTVAR a) \/ estimate_in lo hi a ->
  exists a', compute_timeout R a = (Ret tt, a') /\ estimate_in lo hi a' /\ nm a' = nm a + 1.
Proof.
  unfold small_time, estimate_in. intros Hlo Hhi HR Hn Ha.
  rewrite compute_timeout_eq by (unfold small_time; lia).
  eexists; split; [done|].
  destruct (Z.eqb_spec (nm a) 0) as [H0|H0]; cbn [SRTT RTTVAR nm];
    Z.to_euclidean_division_equations; lia.
Qed.

Lemma timeout_run_range lo hi Rs (a : timeout_area) :
  0 <= lo -> small_time hi -> Forall (fun R => lo <= R <= hi) Rs ->
  0 <= nm a -> nm a + Z.of_nat (length Rs) < modulus64 ->
  estimate_in lo hi a ->
  exists a', timeout_run Rs a = (Ret tt, a') /\ estimate_in lo hi a'.
Proof.
  intros Hlo Hhi HRs. revert a. induction HRs as [|R Rs HR _ IH]; intros a Hn Hlen Ha; cbn [timeout_run].
  - eauto.
  - cbn [length] in Hlen.
    destruct (compute_timeout_range lo hi a R) as (a1&H1&Ha1&Hn1); auto; [lia|].
    mstep H1. apply IH; (done || lia).
Qed.

(** ** Properties *)

(** C32: for times below 2^48 ms the floating-point update computes exactly the
    integer estimator: [SRTT' = (7 SRTT + R) / 8] and
    [RTTVAR' = (3 RTTVAR + |SRTT - R|) / 4], both rounded down, with the
    deviation taken from the old [SRTT]. *)
Theorem rtt_update_is_integer_ewma (a : timeout_area) R :
  small_time (SRTT a) -> small_time (RTTVAR a) -> small_time R -> nm a <> 0 ->
  0 <= nm a < modulus64 - 1 ->
  compute_timeout R a =
    (Ret tt, TimeoutArea ((7 * SRTT a + R) `div` 8)
               ((3 * RTTVAR a + Z.abs (SRTT a - R)) `div` 4) (nm a + 1)).
Proof.
  intros. rewrite compute_timeout_eq by done.
  destruct (Z.eqb_spec (nm a) 0); done.
Qed.

Lemma rtt_update_is_integer_ewma_witness :
  compute_timeout 120 (TimeoutArea 100 50 1) =
    (Ret tt, TimeoutArea ((7 * 100 + 120) `div` 8) ((3 * 50 + Z.abs (100 - 120)) `div` 4) (1 + 1)).
Proof.
  apply (rtt_update_is_integer_ewma (TimeoutArea 100 50 1) 120);
    unfold small_time; simpl; lia.
Defined.

(** C33: after any non-empty sequence of round-trip samples between [lo] and
    [hi], starting from the initial area, the timeout lies between
    [lo + 300] and [hi + max(300, 4 hi)]. *)
Theorem rto_bounds lo hi R Rs :
  0 <= lo -> small_time hi -> Forall (fun R => lo <= R <= hi) (R :: Rs) ->
  Z.of_nat (length (R :: Rs)) < modulus64 ->
  exists a t,
    timeout_run (R :: Rs) timeout_init = (Ret tt, a) /\
    get_timeout a = (Ret t, a) /\
    lo + Gkof <= t <= hi + Z.max Gkof (K * hi).
Proof.
  intros Hlo Hhi HRs Hlen. inversion HRs as [|? ? HR HRs']; subst.
  cbn [timeout_run].
  destruct (compute_timeout_range lo hi timeout_init R) as (a1&H1&Ha1&Hn1);
    [done|done|done|simpl; lia|left; unfold small_time; simpl; lia|].
  mstep H1. cbn [length] in Hlen.
  destruct (timeout_run_range lo hi Rs a1) as (a2&H2&Ha2); [done|done|done|simpl in *; lia..|done|].
  unfold small_time, estimate_in in *.
  exists a2, (get_rto a2). split; [done|]. split.
  - unfold get_timeout. rewrite bind_unfold. cbn [mem_get gets area_get timeout_self id].
    rewrite (proj2 (Z.eqb_neq _ _)) by lia. done.
  - unfold get_rto, Gkof, K. rewrite (u64_small (4 * _)) by lia. rewrite u64_small by lia. lia.
Qed.

Lemma rto_bounds_witness :
  exists a t,
    timeout_run [80; 120; 100] timeout_init = (Ret tt, a) /\
    get_timeout a = (Ret t, a) /\
    80 + Gkof <= t <= 120 + Z.max Gkof (K * 120).
Proof.
  apply (rto_bounds 80 120 80 [120; 100]); unfold small_time; try (simpl; lia).
  repeat constructor; lia.
Defined.
