(* ===== verification/FastRetransmit.v ===== *)
(** * FastRetransmit: [fast_retransmit] of [src/src/tcp_proto_output.h]

    Lines 398-430: four acknowledgements in a row with the same number make
    the sender retransmit. *)
From S2P Require Import Prelude Window Message ProtoMem.

(** What the component asks of its controller. *)
Class RetryController (St : Type) : Type := {
  output_on_retry : msg -> M St unit;
}.

Section fast_retransmit.
Context {St : Type} `{!MemArea St fast_retransmit_area} `{!RetryController St}.

Definition fr_on_ack (ack sender : msg) : M St unit :=
  a ← mem_get;
  let sq := get_seq ack in
  if fr_cnt a =? 0 then mem_put (FastRetransmitArea sq 1)
  else if sq =? fr_last a then
    if TCP_FAST_RETRANSMIT_BOUND <=? fr_cnt a + 1 then
      mem_put (FastRetransmitArea (fr_last a) 0);;
      output_on_retry sender
    else mem_put (FastRetransmitArea (fr_last a) (fr_cnt a + 1))
  else mem_put (FastRetransmitArea sq 1).

End fast_retransmit.

(** ** A controller that records what it is asked to retransmit *)

Record retry_log : Type := RetryLog {
  rl_area : fast_retransmit_area;
  rl_retries : list msg;
}.

#[export] Instance retry_log_area : MemArea retry_log fast_retransmit_area := {|
  area_get := rl_area;
  area_put := fun a s => RetryLog a (rl_retries s);
|}.

#[export] Instance retry_log_controller : RetryController retry_log := {|
  output_on_retry := fun m s => (Ret tt, RetryLog (rl_area s) (rl_retries s ++ [m]));
|}.

Fixpoint fr_run (acks : list msg) (sender : msg) : M retry_log unit :=
  match acks with
  | [] => mret tt
  | ack :: acks => fr_on_ack ack sender;; fr_run acks sender
  end.

(** ** Specification: runs of equal acknowledgement numbers

    [runs] cuts a sequence into its maximal blocks of equal numbers; each
    block of [n] asks for [n / 4] retransmissions. *)

Fixpoint runs (l : list Z) : list (Z * nat) :=
  match l with
  | [] => []
  | x :: l =>
      match runs l with
      | (y, n) :: rest => if x =? y then (y, S n) :: rest else (x, 1%nat) :: (y, n) :: rest
      | [] => [(x, 1%nat)]
      end
  end.

Definition retries_due (l : list Z) : nat :=
  sum_list (map (fun xn : Z * nat => (snd xn / 4)%nat) (runs l)).

(** ** Lemmas *)

(** The retransmissions due when [c] acknowledgements with number [x] have
    already been counted. *)
Definition due_from (x : Z) (c : nat) (l : list Z) : nat :=
  match runs l with
  | (y, n) :: rest =>
      if x =? y then ((c + n) / 4 + sum_list (map (fun xn : Z * nat => (snd xn / 4)%nat) rest))%nat
      else retries_due l
  | [] => 0
  end.

Lemma due_from_zero x l : due_from x 0 l = retries_due l.
Proof.
  unfold due_from, retries_due. destruct (runs l) as [|[y n] rest]; [done|].
  destruct (x =? y); done.
Qed.

Lemma retries_due_cons x l : retries_due (x :: l) = due_from x 1 l.
Proof.
  unfold due_from, retries_due. cbn [runs].
  destruct (runs l) as [|[y n] rest]; [done|]. destruct (Z.eqb_spec x y) as [->|]; done.
Qed.

Lemma due_from_cons_same x c l :
  (c < 4)%nat ->
  due_from x c (x :: l) =
    if (c + 1 =? 4)%nat then S (retries_due l) else due_from x (S c) l.
Proof.
  intros Hc. rewrite <- (due_from_zero x l). unfold due_from. cbn [runs].
  assert (forall n, (c + 1 = 4 -> (c + S n) / 4 = S ((0 + n) / 4))%nat) as Hdiv.
  { intros n H. replace (c + S n)%nat with (n + 1 * 4)%nat by lia.
    rewrite Nat.div_add, Nat.add_0_l by lia. lia. }
  assert (forall n, (c + S n = S c + n)%nat) as Hs by lia.
  destruct (runs l) as [|[y n] rest] eqn:Hr.
  - rewrite Z.eqb_refl. specialize (Hdiv 0%nat). destruct (Nat.eqb_spec (c + 1) 4) as [H|H].
    + simpl map. simpl sum_list. rewrite (Hdiv H). done.
    + simpl map. simpl sum_list. rewrite Nat.div_small by lia. done.
  - destruct (Z.eqb_spec x y) as [->|Hxy]; rewrite Z.eqb_refl.
    + destruct (Nat.eqb_spec (c + 1) 4) as [H|H]; [rewrite Hdiv by done; done|].
      rewrite Hs. done.
    + unfold retries_due. rewrite Hr. simpl map. simpl sum_list.
      destruct (Nat.eqb_spec (c + 1) 4) as [H|H].
      * rewrite (Hdiv 0%nat H). done.
      * rewrite (Nat.div_small (c + 1)) by lia. done.
Qed.

Lemma due_from_cons_other x c y l :
  x <> y -> due_from x c (y :: l) = retries_due (y :: l).
Proof.
  intros Hne. unfold due_from. cbn [runs].
  destruct (runs l) as [|[z n] rest] eqn:Hr.
  - rewrite (proj2 (Z.eqb_neq x y)) by done. done.
  - destruct (Z.eqb_spec y z) as [->|]; rewrite (proj2 (Z.eqb_neq _ _)) by done; done.
Qed.

Lemma fr_run_from acks sender x c rs :
  (c < 4)%nat ->
  exists a,
    fr_run acks sender (RetryLog (FastRetransmitArea x (Z.of_nat c)) rs) =
    (Ret tt, RetryLog a (rs ++ replicate (due_from x c (map get_seq acks)) sender)).
Proof.
  revert x c rs. induction acks as [|ack acks IH]; intros x c rs Hc.
  - simpl. rewrite app_nil_r. eexists. done.
  - cbn [fr_run map]. set (sq := get_seq ack).
    unfold fr_on_ack at 1. rewrite bind_unfold, bind_unfold.
    cbn [mem_get gets area_get retry_log_area rl_area fr_cnt fr_last].
    fold sq. destruct (Z.eqb_spec (Z.of_nat c) 0) as [H0|H0].
    + assert (c = 0)%nat as -> by lia. rewrite due_from_zero, retries_due_cons.
      apply (IH sq 1%nat rs). lia.
    + destruct (Z.eqb_spec sq x) as [->|Hne].
      * rewrite due_from_cons_same by done. unfold TCP_FAST_RETRANSMIT_BOUND.
        destruct (Z.leb_spec 4 (Z.of_nat c + 1)) as [H4|H4].
        -- rewrite (proj2 (Nat.eqb_eq _ _)) by lia.
           destruct (IH x 0%nat (rs ++ [sender]) ltac:(lia)) as [a Ha].
           exists a. etransitivity; [exact Ha|].
           rewrite due_from_zero, <- app_assoc. done.
        -- rewrite (proj2 (Nat.eqb_neq _ _)) by lia.
           destruct (IH x (S c) rs ltac:(lia)) as [a Ha].
           exists a. rewrite <- Ha. cbn. do 3 f_equal. lia.
      * rewrite due_from_cons_other by done. rewrite retries_due_cons.
        apply (IH sq 1%nat rs). lia.
Qed.

(** ** Properties *)

(** C34: over any sequence of acknowledgements, from the initial area, the
    sender is asked to retransmit exactly [n / 4] times for every maximal
    block of [n] acknowledgements with the same number: never for fewer than
    four in a row, and again only after four more. *)
Theorem fast_retransmit_counts_runs acks sender :
  exists a,
    fr_run acks sender (RetryLog fast_retransmit_init []) =
    (Ret tt, RetryLog a (replicate (retries_due (map get_seq acks)) sender)).
Proof.
  destruct (fr_run_from acks sender 0 0 [] ltac:(lia)) as [a Ha].
  exists a. rewrite due_from_zero in Ha. exact Ha.
Qed.
