(* ===== verification/Persist.v ===== *)
(** * Persist: [output_control_flow_persist_timer] of [src/src/tcp_proto_output.h]

    Lines 374-394: what an acknowledgement does when it closes the receiver's
    window, and when it opens it again.  No other code of the repository uses
    the class; its controller is the interface below. *)
From S2P Require Import Prelude Message.

(** What the component asks of its controller. *)
Class PingController (St : Type) : Type := {
  output_set_ping_only : bool -> M St unit;
  output_wait_win_sz_not_zero : M St unit;
  output_signal_win_sz_not_zero : M St unit;
}.

Section persist.
Context {St : Type} `{!PingController St}.

Definition persist_on_ack (m : msg) (ping_only : bool) : M St unit :=
  let winsz := get_window_sz m in
  if winsz =? 0 then
    when (negb ping_only)
      (output_set_ping_only true;; output_wait_win_sz_not_zero)
  else
    when ping_only
      (output_set_ping_only false;; output_signal_win_sz_not_zero).

End persist.

(** ** A controller that keeps the flag and records waits and signals *)

Inductive ping_event : Type := PingWait | PingSignal.

#[export] Instance ping_event_eq_dec : EqDecision ping_event.
Proof. solve_decision. Defined.

Record ping_log : Type := PingLog {
  ping_flag : bool;
  ping_events : list ping_event;
}.

#[export] Instance ping_log_controller : PingController ping_log := {|
  output_set_ping_only := fun b s => (Ret tt, PingLog b (ping_events s));
  output_wait_win_sz_not_zero := fun s =>
    (Ret tt, PingLog (ping_flag s) (ping_events s ++ [PingWait]));
  output_signal_win_sz_not_zero := fun s =>
    (Ret tt, PingLog (ping_flag s) (ping_events s ++ [PingSignal]));
|}.

(** Every acknowledgement is handled with the flag as it then is. *)
Fixpoint ping_run (acks : list msg) : M ping_log unit :=
  match acks with
  | [] => mret tt
  | a :: acks =>
      b ← gets ping_flag;
      persist_on_ack a b;; ping_run acks
  end.

(** ** What it comes to

    The flag follows the window: it is set exactly while the last
    acknowledgement advertised nothing. *)

Definition closed (m : msg) : bool := get_window_sz m =? 0.

(** The edges of a sequence of flags that starts from [b]. *)
Fixpoint edges (b : bool) (l : list bool) : list ping_event :=
  match l with
  | [] => []
  | c :: l =>
      match b, c with
      | false, true => [PingWait]
      | true, false => [PingSignal]
      | _, _ => []
      end ++ edges c l
  end.

Lemma persist_step a (s : ping_log) :
  persist_on_ack a (ping_flag s) s =
    (Ret tt, PingLog (closed a) (ping_events s ++ edges (ping_flag s) [closed a])).
Proof.
  destruct s as [b es]. unfold persist_on_ack, closed.
  destruct (get_window_sz a =? 0), b; cbn; rewrite ?app_nil_r; done.
Qed.

(** A wait for every time the window closes, a signal for every time it opens
    again, in that order, and none between. *)
Lemma ping_run_edges acks (s : ping_log) :
  ping_run acks s =
    (Ret tt, PingLog (default (ping_flag s) (last (map closed acks)))
               (ping_events s ++ edges (ping_flag s) (map closed acks))).
Proof.
  revert s. induction acks as [|a acks IH]; intros s.
  - destruct s. cbn. rewrite app_nil_r. done.
  - cbn [ping_run]. mstep (eq_refl (gets ping_flag s)). mstep (persist_step a s).
    rewrite IH. cbn [ping_flag ping_events map edges]. do 2 f_equal.
    + rewrite last_cons. destruct (last (map closed acks)); done.
    + rewrite app_nil_r, app_assoc. done.
Qed.

(** Waits and signals alternate, so no signal is ever left over. *)
Fixpoint alternates (b : bool) (es : list ping_event) : bool :=
  match es with
  | [] => true
  | PingWait :: es => negb b && alternates true es
  | PingSignal :: es => b && alternates false es
  end.

Lemma edges_alternate b l : alternates b (edges b l) = true.
Proof. revert b. induction l as [|[] l IH]; intros []; cbn; auto. Qed.

Lemma ping_run_alternates acks :
  exists s, ping_run acks (PingLog false []) = (Ret tt, s) /\
    alternates false (ping_events s) = true.
Proof. rewrite ping_run_edges. eexists; split; [done|]. apply edges_alternate. Qed.
