(* ===== verification/SendBuffer.v ===== *)
(** * SendBuffer: [send_output_buffer] of [src/src/tcp_proto_output.h]

    Lines 155-207: the buffer that holds the sent but not yet acknowledged
    messages of the current window, one behind the other, and [off_map], from
    the offset of a message in the window to its place in the buffer.  A
    pointer into [buf] is its distance from the first byte.  An [off_map] index
    outside the array is undefined behaviour in the code and the fault
    [out_of_range] here. *)
From S2P Require Import Prelude Window Message ProtoMem.

(** What the component asks of its controller [T]: [V] is its pointer to a
    message, [E] its completion future. *)
Class InplaceController (St V E : Type) : Type := {
  put_msg_inplace : Z -> msg -> M St Z;
  get_msg_inplace : Z -> M St V;
  get_msg_inplace_future : Z -> M St E;
  release_inplace_msg : Z -> M St Z;
}.

Section send_output_buffer.
Context {St V E : Type} `{!MemArea St send_buffer_area} `{!InplaceController St V E}.

Definition in_off_map (i : Z) : bool := (0 <=? i) && (i <? OUTPUT_SEND_BUF_SZ).

Definition real_off (off : Z) : M St Z :=
  a ← mem_get;
  if in_off_map off then mret (sb_off_map a off) else faults out_of_range.

Definition put_real_off (client_off real : Z) : M St unit :=
  a ← mem_get;
  if in_off_map client_off then
    mem_put (SendBufferArea (sb_buf a) (<[client_off := real]> (sb_off_map a)) (sb_end a))
  else faults out_of_range.

Definition refresh : M St unit :=
  a ← mem_get;
  mem_put (SendBufferArea (sb_buf a) (sb_off_map a) 0);;
  put_real_off 0 0.

Definition get_msg_at (off : Z) : M St V :=
  r ← real_off off;
  get_msg_inplace r.

Definition put_msg_at (off : Z) (m : msg) : M St E :=
  r ← real_off off;
  final_sz ← put_msg_inplace r m;
  a ← mem_get;
  let end' := s64 (sb_end a + final_sz) in
  mem_put (SendBufferArea (sb_buf a) (sb_off_map a) end');;
  put_real_off (s64 (u64 (off + get_data_len m))) end';;
  r' ← real_off off;
  get_msg_inplace_future r'.

(** The loop [while (off < real_end)], [fuel] iterations at most. *)
Fixpoint release_loop (fuel : nat) (off real_end : Z) : M St unit :=
  if off <? real_end then
    match fuel with
    | O => faults out_of_fuel
    | S fuel =>
        sz ← release_inplace_msg off;
        release_loop fuel (u64 (off + sz)) real_end
    end
  else mret tt.

(** Every message takes at least one byte, so as many iterations as there are
    bytes between the two offsets are enough. *)
Definition release_range (begin_ end_ : Z) : M St unit :=
  off ← real_off begin_;
  real_end ← real_off (s64 (end_ + 1));
  release_loop (Z.to_nat (u64 real_end - u64 off)) (u64 off) (u64 real_end).

End send_output_buffer.
