(* ===== verification/Slots.v ===== *)
(** * Slots: what the send buffer holds

    The representation of a list of sent messages in the bytes and the offset
    map of the send buffer ([SendBuffer], [Inplace]), and the lemmas that say
    which writes keep it.  Everything here is about memory contents; the
    operations are in the next files. *)
From S2P Require Import Prelude Window Message ProtoMem SendBuffer Inplace.

(** ** One message in raw memory *)

Definition raw_at (mm : mem) (p : Z) (m : msg) : Prop :=
  load_bytes mm p (length (encode_raw m)) = encode_raw m.

(** A message as the splitter makes it and the window numbers it: data only,
    no flag, no acknowledgement number. *)
Record sent_msg (sq : Z) (d : bytes) (m : msg) : Prop := {
  sm_wf : msg_wf m;
  sm_bytes : Forall is_byte d;
  sm_small : Z.of_nat (length d) <= 65536 - 56;
  sm_buf_len : m_buf_len m = Z.of_nat (length d);
  sm_data_len : m_data_len m = Z.of_nat (length d);
  sm_data : m_data m = d;
  sm_seq : get_seq m = sq;
  sm_ack_seq : get_ack_seq m = 0;
  sm_off_res : th_off_res (m_hdr m) = 0;
  sm_usual : is_usual m = true;
}.

(** The message in the slot at [r]: its raw block starts at [msg_data]. *)
Definition slot_at (mm : mem) (r sq : Z) (d : bytes) : Prop :=
  exists m, sent_msg sq d m /\ raw_at mm (r + offsetof_msg_data) m.

(** ** All the messages since the last refresh

    From window offset [o] and buffer position [r] on, one behind the other,
    up to the end of what is stored. *)
Abbreviation sent := (list (Z * bytes)).

Fixpoint slots (a : send_buffer_area) (o r : Z) (ms : sent) : Prop :=
  match ms with
  | [] => sb_off_map a o = r /\ sb_end a = r
  | (sq, d) :: ms =>
      sb_off_map a o = r /\ slot_at (sb_buf a) r sq d /\ (0 < length d)%nat /\
      slots a (o + Z.of_nat (length d)) (r + inplace_size (Z.of_nat (length d))) ms
  end.

Fixpoint total (ms : sent) : Z :=
  match ms with [] => 0 | (_, d) :: ms => Z.of_nat (length d) + total ms end.

Fixpoint real_total (ms : sent) : Z :=
  match ms with [] => 0 | (_, d) :: ms => inplace_size (Z.of_nat (length d)) + real_total ms end.

(** ** Raw memory *)

Lemma length_encode_raw m :
  msg_wf m -> length (encode_raw m) = (72 + length (m_data m))%nat.
Proof.
  intros (_&_&Hi&_). unfold encode_raw.
  rewrite length_app, (length_encode_header m Hi). done.
Qed.

Lemma raw_at_load mm p m :
  msg_wf m -> m_buf_len m = Z.of_nat (length (m_data m)) ->
  raw_at mm p m -> load_msg mm p = m.
Proof.
  intros Hwf Hb H. unfold raw_at in H. rewrite (length_encode_raw m Hwf) in H.
  unfold load_msg. change (Z.to_nat sizeof_raw_msg) with 72%nat. cbv zeta.
  pose proof (length_encode_header m (proj1 (proj2 (proj2 Hwf)))) as Hh.
  assert (load_bytes mm p 72 = encode_header m) as Hhd.
  { rewrite <- (load_bytes_take mm p (72 + length (m_data m)) 72) by lia. rewrite H.
    unfold encode_raw. apply take_app_length'. done. }
  assert (field 0 8 (encode_header m) = m_buf_len m) as Hf.
  { unfold field, encode_header. rewrite slice_app_l by (rewrite length_le_bytes; lia).
    rewrite slice_all by (rewrite length_le_bytes; done).
    apply le_val_le_bytes_small. destruct Hwf as ((?&?)&_). simpl. lia. }
  rewrite Hhd, Hf, Hb, Nat2Z.id.
  assert (load_bytes mm (p + sizeof_raw_msg) (length (m_data m)) = m_data m) as ->.
  { replace (length (m_data m)) with (72 + length (m_data m) - 72)%nat at 1 by lia.
    change sizeof_raw_msg with (Z.of_nat 72).
    rewrite <- (load_bytes_drop mm p (72 + length (m_data m)) 72) by lia. rewrite H.
    unfold encode_raw. apply drop_app_length'. done. }
  apply (decode_encode_raw m Hwf).
Qed.

(** A field of a stored message, by its position in the encoding. *)
Lemma raw_at_field mm p m i n :
  msg_wf m -> (i + n <= 72 + length (m_data m))%nat -> raw_at mm p m ->
  load_bytes mm (p + Z.of_nat i) n = slice i n (encode_raw m).
Proof.
  intros Hwf Hl H. unfold raw_at in H. rewrite (length_encode_raw m Hwf) in H.
  rewrite <- H. symmetry. apply slice_load_bytes. lia.
Qed.

(** [copy_inplace] stores the message. *)
Lemma copy_inplace_raw m p mm :
  msg_wf m -> m_buf_len m = Z.of_nat (length (m_data m)) ->
  m_data_len m = Z.of_nat (length (m_data m)) -> Z.of_nat (length (m_data m)) <= 65536 ->
  copy_inplace m p mm = store_bytes (store_bytes mm p (encode_header m)) (p + 72) (m_data m).
Proof.
  intros Hwf Hb Hd Hs. unfold copy_inplace, full_sz, full_sz_no_obj, get_data_len.
  change sizeof_raw_msg with 72. rewrite Hb, Hd.
  rewrite (u64_small (72 + _)) by lia. rewrite u64_small by lia.
  pose proof (length_encode_header m (proj1 (proj2 (proj2 Hwf)))) as Hh.
  replace (72 + Z.of_nat (length (m_data m)) - Z.of_nat (length (m_data m))) with 72 by lia.
  unfold encode_raw, msg_data. rewrite Hd, Nat2Z.id, firstn_all.
  rewrite take_app_length' by (rewrite Hh; done). done.
Qed.

(** Two adjacent stores read back as one. *)
Lemma load_two_stores mm p (a b : bytes) :
  load_bytes (store_bytes (store_bytes mm p a) (p + Z.of_nat (length a)) b) p
    (length a + length b) = a ++ b.
Proof.
  rewrite load_bytes_app, load_store_same.
  rewrite load_store_disjoint by lia. rewrite load_store_same. done.
Qed.

Lemma copy_inplace_stores m p mm :
  msg_wf m -> m_buf_len m = Z.of_nat (length (m_data m)) ->
  m_data_len m = Z.of_nat (length (m_data m)) -> Z.of_nat (length (m_data m)) <= 65536 ->
  raw_at (copy_inplace m p mm) p m.
Proof.
  intros Hwf Hb Hd Hs. rewrite copy_inplace_raw by done.
  pose proof (length_encode_header m (proj1 (proj2 (proj2 Hwf)))) as Hh.
  unfold raw_at, encode_raw. rewrite length_app, <- (load_two_stores mm p), Hh. done.
Qed.

Lemma copy_inplace_outside m p mm x :
  msg_wf m -> m_buf_len m = Z.of_nat (length (m_data m)) ->
  m_data_len m = Z.of_nat (length (m_data m)) -> Z.of_nat (length (m_data m)) <= 65536 ->
  x < p \/ p + 72 + Z.of_nat (length (m_data m)) <= x ->
  copy_inplace m p mm x = mm x.
Proof.
  intros Hwf Hb Hd Hs Hx. rewrite copy_inplace_raw by done.
  pose proof (length_encode_header m (proj1 (proj2 (proj2 Hwf)))) as Hh.
  rewrite !store_bytes_out by lia. done.
Qed.

(** Memory that agrees on the block holds the same message. *)
Lemma raw_at_ext mm mm' p m :
  msg_wf m -> raw_at mm p m ->
  (forall x, p <= x < p + 72 + Z.of_nat (length (m_data m)) -> mm' x = mm x) ->
  raw_at mm' p m.
Proof.
  intros Hwf H He. unfold raw_at in *. rewrite <- H at 2.
  pose proof (length_encode_raw m Hwf). apply load_bytes_ext. intros i Hi. apply He. lia.
Qed.

(** Writing the header back changes the header only. *)
Lemma raw_at_store_header mm p m m' :
  msg_wf m -> msg_wf m' -> m_data m' = m_data m -> raw_at mm p m ->
  raw_at (store_header mm p m') p m'.
Proof.
  intros Hwf Hwf' Hd H. unfold raw_at, store_header.
  pose proof (length_encode_header m (proj1 (proj2 (proj2 Hwf)))) as Hh.
  pose proof (length_encode_header m' (proj1 (proj2 (proj2 Hwf')))) as Hh'.
  unfold encode_raw. rewrite length_app, load_bytes_app, load_store_same. f_equal.
  rewrite load_store_disjoint by lia. rewrite Hh', Hd.
  rewrite (raw_at_field mm p m 72) by (done || lia). unfold encode_raw, slice.
  rewrite drop_app_length' by done. apply firstn_all.
Qed.

(** ** The byte [mark_msg_used] writes

    Byte 32 of the raw block is the first byte of the destination address in
    its IP header. *)

Definition set_daddr0 (b : Z) (m : msg) : msg :=
  upd_iph (fun i => Iphdr (ip_front i) (saddr i) (b + modulus8 * (daddr i / modulus8))) m.

Definition before_daddr (m : msg) : bytes :=
  le_bytes 8 (m_buf_len m) ++ le_bytes 8 (m_data_len m) ++ ip_front (m_iph m) ++
  le_bytes 4 (saddr (m_iph m)).

Definition after_daddr0 (m : msg) : bytes :=
  le_bytes 3 (daddr (m_iph m) / modulus8) ++ encode_TCPHDR (m_tcph m) ++ m_data m.

Lemma encode_raw_daddr m :
  encode_raw m = before_daddr m ++ [u8 (daddr (m_iph m))] ++ after_daddr0 m.
Proof.
  unfold encode_raw, encode_header, encode_iphdr, before_daddr, after_daddr0.
  change (le_bytes 4 (daddr (m_iph m)))
    with ([u8 (daddr (m_iph m))] ++ le_bytes 3 (daddr (m_iph m) / modulus8)).
  rewrite <- !app_assoc. done.
Qed.

Lemma length_before_daddr m : iphdr_wf (m_iph m) -> length (before_daddr m) = 32%nat.
Proof. intros (H&_). unfold before_daddr. lengths. done. Qed.

Lemma encode_raw_set_daddr0 m b :
  is_byte b -> encode_raw (set_daddr0 b m) = before_daddr m ++ [b] ++ after_daddr0 m.
Proof.
  intros Hb. unfold is_byte in Hb. rewrite encode_raw_daddr.
  unfold before_daddr, after_daddr0, set_daddr0. cbn [upd_iph m_buf_len m_data_len m_iph m_tcph m_data ip_front saddr daddr].
  assert (u8 (b + modulus8 * (daddr (m_iph m) `div` modulus8)) = b) as -> by wrap_lia.
  assert ((b + modulus8 * (daddr (m_iph m) `div` modulus8)) `div` modulus8
          = daddr (m_iph m) `div` modulus8) as -> by wrap_lia.
  done.
Qed.

Lemma set_daddr0_wf b m : is_byte b -> msg_wf m -> msg_wf (set_daddr0 b m).
Proof.
  unfold is_byte. intros Hb (?&?&(?&?&?)&?). unfold msg_wf, iphdr_wf; simpl.
  split_and!; try done; Z.to_euclidean_division_equations; lia.
Qed.

Lemma raw_at_mark mm p m b :
  msg_wf m -> is_byte b -> raw_at mm p m ->
  raw_at (store_bytes mm (p + 32) [b]) p (set_daddr0 b m).
Proof.
  intros Hwf Hb H. unfold raw_at in *.
  rewrite encode_raw_set_daddr0 by done. rewrite encode_raw_daddr in H.
  pose proof (length_before_daddr m (proj1 (proj2 (proj2 Hwf)))) as Hl.
  rewrite !length_app, Hl, !load_bytes_app in *. cbn [length] in *.
  change (Z.of_nat 32) with 32 in *. change (Z.of_nat 1) with 1 in *.
  apply app_inj_1 in H as [H1 H2]; [|rewrite length_load_bytes; done].
  apply app_inj_1 in H2 as [_ H3]; [|done].
  rewrite (load_store_disjoint _ _ [b] p) by (simpl; lia).
  rewrite (load_store_disjoint _ _ [b] (p + 32 + 1)) by (simpl; lia).
  rewrite H1, H3. f_equal. f_equal. exact (load_store_same mm (p + 32) [b]).
Qed.

Lemma sent_msg_mark sq d m b : is_byte b -> sent_msg sq d m -> sent_msg sq d (set_daddr0 b m).
Proof. intros Hb []. split; try done. apply set_daddr0_wf; done. Qed.

(** ** Slots *)

Lemma slot_at_ext mm mm' r sq d :
  slot_at mm r sq d ->
  (forall x, r + 33 <= x < r + 105 + Z.of_nat (length d) -> mm' x = mm x) ->
  slot_at mm' r sq d.
Proof.
  intros (m&Hm&Hr) He. exists m. split; [done|].
  apply (raw_at_ext mm); [apply Hm|done|]. rewrite (sm_data _ _ _ Hm).
  unfold offsetof_msg_data, offsetof_used, sizeof_sem_t. intros x Hx. apply He. lia.
Qed.

(** The memory of a slot says which message it holds. *)
Lemma slot_at_unique mm r q1 d1 q2 d2 : slot_at mm r q1 d1 -> slot_at mm r q2 d2 -> q1 = q2 /\ d1 = d2.
Proof.
  intros (m1&[? ? ? Hb1 ? Hd1 Hs1 _ _ _]&Hr1) (m2&[? ? ? Hb2 ? Hd2 Hs2 _ _ _]&Hr2).
  assert (m1 = m2) as Hm.
  { pose proof (raw_at_load mm (r + offsetof_msg_data) m1 ltac:(done) ltac:(congruence) Hr1) as E1.
    pose proof (raw_at_load mm (r + offsetof_msg_data) m2 ltac:(done) ltac:(congruence) Hr2) as E2.
    congruence. }
  subst m2. split; congruence.
Qed.

Lemma inplace_size_eq len :
  0 <= len <= 65536 -> inplace_size len = ((112 + len) `div` 8 + 1) * 8.
Proof.
  intros H. unfold inplace_size, full_sz_no_obj, sizeof_inplace_msg, sizeof_raw_msg,
    sizeof_TCP_PACKET, sizeof_TCPHDR, sizeof_iphdr, sizeof_tcphdr.
  rewrite (u64_small (8 + 8 + _ + len)) by lia. rewrite (u64_small (40 + _)) by lia.
  rewrite u64_small by (Z.to_euclidean_division_equations; lia).
  do 3 f_equal. lia.
Qed.

(** A slot's structure fits between it and the next one. *)
Lemma inplace_size_bounds len :
  1 <= len <= 65536 -> 112 + len < inplace_size len <= 120 * len.
Proof.
  intros H. rewrite inplace_size_eq by lia. Z.to_euclidean_division_equations; lia.
Qed.

Lemma slots_app a o r ms1 ms2 :
  slots a o r (ms1 ++ ms2) ->
  slots a (o + total ms1) (r + real_total ms1) ms2 /\
  sb_off_map a (o + total ms1) = r + real_total ms1.
Proof.
  revert o r. induction ms1 as [|[sq d] ms1 IH]; intros o r; cbn [app slots total real_total].
  - rewrite !Z.add_0_r. intros H. split; [done|].
    destruct ms2 as [|[? ?] ?]; apply H.
  - intros (_&_&_&H). destruct (IH _ _ H) as [H1 H2].
    rewrite !Z.add_assoc. done.
Qed.

Lemma slots_slot a o r ms1 sq d ms2 :
  slots a o r (ms1 ++ (sq, d) :: ms2) ->
  slot_at (sb_buf a) (r + real_total ms1) sq d /\ (0 < length d)%nat.
Proof. intros H. destruct (slots_app _ _ _ _ _ H) as [(?&?&?&?) _]. done. Qed.

Lemma total_app ms1 ms2 : total (ms1 ++ ms2) = total ms1 + total ms2.
Proof. induction ms1 as [|[sq d] ms1 IH]; simpl; lia. Qed.

Lemma real_total_app ms1 ms2 : real_total (ms1 ++ ms2) = real_total ms1 + real_total ms2.
Proof. induction ms1 as [|[sq d] ms1 IH]; simpl; lia. Qed.

Lemma slots_end a o r ms : slots a o r ms -> sb_end a = r + real_total ms.
Proof.
  revert o r. induction ms as [|[sq d] ms IH]; intros o r; cbn [slots real_total].
  - intros [_ H]. lia.
  - intros (_&_&_&H). apply IH in H. lia.
Qed.

Lemma total_nonneg ms : 0 <= total ms.
Proof. induction ms as [|[sq d] ms IH]; simpl; lia. Qed.

Lemma real_total_nonneg ms : 0 <= real_total ms.
Proof.
  induction ms as [|[sq d] ms IH]; cbn [real_total]; [done|].
  pose proof (u64_range ((u64 (sizeof_inplace_msg + full_sz_no_obj (Z.of_nat (length d))) `div` 8 + 1) * 8)).
  unfold inplace_size. lia.
Qed.

Definition messages_fit (ms : sent) : Prop :=
  Forall (fun m : Z * bytes => (0 < length (snd m))%nat) ms /\ total ms <= OUTPUT_WINDOW_SZ.

Lemma real_total_bounds ms :
  Forall (fun m : Z * bytes => (0 < length (snd m))%nat) ms -> total ms <= 65536 ->
  112 * Z.of_nat (length ms) + total ms <= real_total ms <= 120 * total ms.
Proof.
  induction 1 as [|[sq d] ms Hm _ IH]; cbn [total real_total length snd] in *; intros Ht; [lia|].
  pose proof (total_nonneg ms). pose proof (inplace_size_bounds (Z.of_nat (length d))). lia.
Qed.

Lemma slots_nonempty a o r ms :
  slots a o r ms -> Forall (fun m : Z * bytes => (0 < length (snd m))%nat) ms.
Proof.
  revert o r. induction ms as [|[sq d] ms IH]; intros o r; cbn [slots]; [constructor|].
  intros (_&_&?&H). constructor; [done|eauto].
Qed.

Lemma slots_small a o r ms :
  slots a o r ms -> total ms <= 65536 -> 0 <= real_total ms.
Proof.
  intros H Ht. pose proof (slots_nonempty _ _ _ _ H) as Hn.
  pose proof (real_total_bounds ms Hn Ht). pose proof (total_nonneg ms). lia.
Qed.

Lemma slots_ext a a' o r ms :
  slots a o r ms -> total ms <= 65536 ->
  (forall i, o <= i <= o + total ms -> sb_off_map a' i = sb_off_map a i) ->
  (forall x, r <= x < r + real_total ms -> sb_buf a' x = sb_buf a x) ->
  sb_end a' = sb_end a ->
  slots a' o r ms.
Proof.
  intros H Ht Ho Hb He. revert o r H Ho Hb.
  induction ms as [|[sq d] ms IH]; intros o r; cbn [slots total real_total] in *.
  - intros [H1 H2] Ho _. rewrite Ho, He by lia. done.
  - intros (H1&H2&H3&H4) Ho Hb. pose proof (total_nonneg ms).
    pose proof (slots_small _ _ _ _ H4 ltac:(lia)).
    pose proof (inplace_size_bounds (Z.of_nat (length d)) ltac:(lia)).
    split_and!; [rewrite Ho by lia; done| |done|].
    + apply (slot_at_ext (sb_buf a)); [done|]. intros x Hx. apply Hb. lia.
    + apply IH; [lia|done| |]; intros; [apply Ho|apply Hb]; lia.
Qed.

(** One more message behind the last one. *)
Lemma slots_snoc a a' o r ms sq d :
  slots a o r ms -> total ms + Z.of_nat (length d) <= 65536 -> (0 < length d)%nat ->
  (forall i, o <= i <= o + total ms -> sb_off_map a' i = sb_off_map a i) ->
  (forall x, r <= x < r + real_total ms -> sb_buf a' x = sb_buf a x) ->
  slot_at (sb_buf a') (r + real_total ms) sq d ->
  sb_end a' = r + real_total ms + inplace_size (Z.of_nat (length d)) ->
  sb_off_map a' (o + total ms + Z.of_nat (length d)) = sb_end a' ->
  slots a' o r (ms ++ [(sq, d)]).
Proof.
  intros H Ht Hd Ho Hb Hs He Hm. revert o r H Ho Hb Hs He Hm.
  induction ms as [|[sq0 d0] ms IH]; intros o r; cbn [slots total real_total app] in *.
  - rewrite !Z.add_0_r. intros [H1 H2] Ho _ Hs He Hm. rewrite Ho by lia.
    split_and!; done || congruence.
  - intros (H1&H2&H3&H4) Ho Hb Hs He Hm. pose proof (total_nonneg ms).
    pose proof (slots_small _ _ _ _ H4 ltac:(lia)).
    pose proof (inplace_size_bounds (Z.of_nat (length d0)) ltac:(lia)).
    rewrite !Z.add_assoc in *.
    split_and!; [rewrite Ho by lia; done| |done|].
    + apply (slot_at_ext (sb_buf a)); [done|]. intros x Hx. apply Hb. lia.
    + apply IH; try done; try lia; intros; [apply Ho|apply Hb]; lia.
Qed.

(** A write inside one slot that leaves its message in place. *)
Lemma slots_rewrite a a' o r ms1 sq d ms2 :
  slots a o r (ms1 ++ (sq, d) :: ms2) -> total (ms1 ++ (sq, d) :: ms2) <= 65536 ->
  sb_off_map a' = sb_off_map a -> sb_end a' = sb_end a ->
  (forall x, x < r + real_total ms1 + 33 \/
             r + real_total ms1 + 105 + Z.of_nat (length d) <= x -> sb_buf a' x = sb_buf a x) ->
  slot_at (sb_buf a') (r + real_total ms1) sq d ->
  slots a' o r (ms1 ++ (sq, d) :: ms2).
Proof.
  intros H Ht Ho He Hb Hs. revert o r H Hb Hs.
  induction ms1 as [|[sq0 d0] ms1 IH]; intros o r; cbn [slots total real_total app] in *.
  - rewrite !Z.add_0_r. intros (H1&_&H3&H4) Hb Hs. pose proof (total_nonneg ms2).
    pose proof (inplace_size_bounds (Z.of_nat (length d)) ltac:(lia)).
    rewrite Ho. split_and!; try done.
    apply (slots_ext a); try done; [lia|by rewrite Ho|].
    intros x Hx. apply Hb. lia.
  - intros (H1&H2&H3&H4) Hb Hs. rewrite total_app in Ht. cbn [total] in Ht.
    pose proof (total_nonneg ms1). pose proof (total_nonneg ms2).
    assert (0 <= real_total ms1).
    { pose proof (slots_nonempty _ _ _ _ H4) as Hn. apply Forall_app in Hn as [Hn _].
      pose proof (real_total_bounds ms1 Hn ltac:(lia)). lia. }
    pose proof (inplace_size_bounds (Z.of_nat (length d0)) ltac:(lia)).
    rewrite !Z.add_assoc in *. rewrite Ho. split_and!; try done.
    + apply (slot_at_ext (sb_buf a)); [done|]. intros x Hx. apply Hb. lia.
    + apply IH; try done; rewrite ?total_app; cbn [total]; lia.
Qed.

(** What the splitter hands to the window, once numbered, is such a message. *)
Lemma sent_msg_tmp sq d :
  0 <= sq < modulus32 -> Forall is_byte d -> Z.of_nat (length d) <= 65536 - 56 ->
  sent_msg sq d (set_seq sq (tmp_msg d)).
Proof.
  intros Hs Hb Hd. assert (u32 sq = sq) as Hu by (apply u32_small; done).
  split; try done; try exact Hu.
  unfold msg_wf, iphdr_wf, TCPHDR_wf, tcphdr_wf. cbn -[u32].
  rewrite Hu. split_and!; try done; lia.
Qed.
