(* ===== verification/SlotOps.v ===== *)
(** * SlotOps: what the operations of the send buffer do

    [send_output_buffer] (tcp_proto_output.h) over the in-place messages of
    newimpl.cpp, for a buffer that represents a list of sent messages
    ([Slots.slots]): reading, storing, marking and releasing messages. *)
From S2P Require Import Prelude Window Message ProtoMem SendBuffer Inplace Slots.

Section slot_ops.
Context {St : Type} `{HSB : !MemArea St send_buffer_area} `{HF : !MemArea St futures_area}.
Context `{!MemAreaLaws St send_buffer_area} `{!MemAreaLaws St futures_area}.
Context `{!MemAreaIndep St send_buffer_area futures_area}.
Context `{!MemAreaIndep St futures_area send_buffer_area}.
Implicit Types (s : St) (ms : sent).

Definition sbuf s : send_buffer_area := area_get s.
Definition futs s : Z -> Z := futures (area_get s).

(** Nothing outside the buffer and its semaphores changes. *)
Definition same_rest s s' : Prop :=
  forall (B : Type) (g : St -> B),
    (forall (a : send_buffer_area) s, g (area_put a s) = g s) ->
    (forall (f : futures_area) s, g (area_put f s) = g s) -> g s' = g s.

Definition holds ms s : Prop := slots (sbuf s) 0 0 ms /\ total ms <= OUTPUT_WINDOW_SZ.

(** The buffer's memory before [lo] and from [hi] on is the same. *)
Definition same_outside (lo hi : Z) s s' : Prop :=
  forall x, x < lo \/ hi <= x -> sb_buf (sbuf s') x = sb_buf (sbuf s) x.

(** ** Areas *)

Lemma sbuf_put a s : sbuf (area_put a s) = a.
Proof. apply area_get_put. Qed.

Lemma sbuf_put_fut (f : futures_area) s : sbuf (area_put f s) = sbuf s.
Proof. apply area_get_other. Qed.

Lemma futs_put (f : futures_area) s : futs (area_put f s) = futures f.
Proof. unfold futs. rewrite area_get_put. done. Qed.

Lemma futs_put_sb (a : send_buffer_area) s : futs (area_put a s) = futs s.
Proof. unfold futs. rewrite area_get_other. done. Qed.

Hint Rewrite sbuf_put sbuf_put_fut futs_put futs_put_sb : net666.

Lemma same_rest_refl s : same_rest s s.
Proof. done. Qed.

Lemma same_rest_sb s s' (a : send_buffer_area) : same_rest s s' -> same_rest s (area_put a s').
Proof. intros H B g Ha Hf. rewrite Ha. apply H; done. Qed.

Lemma same_rest_fut s s' (f : futures_area) : same_rest s s' -> same_rest s (area_put f s').
Proof. intros H B g Ha Hf. rewrite Hf. apply H; done. Qed.

Lemma same_rest_trans s1 s2 s3 : same_rest s1 s2 -> same_rest s2 s3 -> same_rest s1 s3.
Proof. intros H1 H2 B g Ha Hf. rewrite (H2 B g), (H1 B g); done. Qed.

Hint Resolve same_rest_refl same_rest_sb same_rest_fut : net666.

(** ** Plain accesses *)

Lemma read_buf_ok p n s :
  in_buf p n = true -> read_buf p n s = (Ret (load_bytes (sb_buf (sbuf s)) p (Z.to_nat n)), s).
Proof. intros H. unfold read_buf. rewrite bind_unfold. cbn [mem_get gets]. rewrite H. done. Qed.

Lemma write_buf_ok p n f s :
  in_buf p n = true ->
  write_buf p n f s =
    (Ret tt, area_put (SendBufferArea (f (sb_buf (sbuf s))) (sb_off_map (sbuf s)) (sb_end (sbuf s))) s).
Proof. intros H. unfold write_buf. rewrite bind_unfold. cbn [mem_get gets]. rewrite H. done. Qed.

Lemma real_off_ok o s :
  in_off_map o = true -> real_off o s = (Ret (sb_off_map (sbuf s) o), s).
Proof. intros H. unfold real_off. rewrite bind_unfold. cbn [mem_get gets]. rewrite H. done. Qed.

Lemma put_real_off_ok o r s :
  in_off_map o = true ->
  put_real_off o r s =
    (Ret tt, area_put (SendBufferArea (sb_buf (sbuf s)) (<[o := r]> (sb_off_map (sbuf s)))
                         (sb_end (sbuf s))) s).
Proof. intros H. unfold put_real_off. rewrite bind_unfold. cbn [mem_get gets]. rewrite H. done. Qed.

Lemma in_off_map_window o : 0 <= o <= OUTPUT_WINDOW_SZ -> in_off_map o = true.
Proof. unfold in_off_map, OUTPUT_SEND_BUF_SZ, OUTPUT_WINDOW_SZ. lia. Qed.

(** A full window of messages takes well under the 300000 bytes. *)
Lemma in_buf_window ms p n :
  Forall (fun m : Z * bytes => (0 < length (snd m))%nat) ms -> total ms <= OUTPUT_WINDOW_SZ ->
  0 <= p -> p + n <= real_total ms + 120000 -> in_buf p n = true.
Proof.
  unfold in_buf, OUTPUT_SEND_BUF_SZ, OUTPUT_WINDOW_SZ. intros Hn Ht Hp Hl.
  pose proof (real_total_bounds ms Hn ltac:(lia)). lia.
Qed.

Lemma holds_split ms1 ms2 s :
  holds (ms1 ++ ms2) s ->
  0 <= total ms1 /\ 0 <= total ms2 /\ total ms1 + total ms2 <= OUTPUT_WINDOW_SZ /\
  112 * Z.of_nat (length ms1) <= real_total ms1 <= 120 * total ms1 /\
  112 * Z.of_nat (length ms2) <= real_total ms2 <= 120 * total ms2 /\
  sb_off_map (sbuf s) (total ms1) = real_total ms1.
Proof.
  intros [Hs Ht]. rewrite total_app in Ht. unfold OUTPUT_WINDOW_SZ in *.
  pose proof (total_nonneg ms1). pose proof (total_nonneg ms2).
  pose proof (slots_nonempty _ _ _ _ Hs) as Hn. apply Forall_app in Hn as [Hn1 Hn2].
  pose proof (real_total_bounds ms1 Hn1 ltac:(lia)).
  pose proof (real_total_bounds ms2 Hn2 ltac:(lia)).
  destruct (slots_app _ _ _ _ _ Hs) as [_ Hm]. rewrite !Z.add_0_l in Hm. split_and!; (done || lia).
Qed.

Lemma get_msg_at_ok ms1 ms2 s :
  holds (ms1 ++ ms2) s ->
  get_msg_at (V:=Z) (E:=Z) (total ms1) s = (Ret (real_total ms1 + offsetof_msg_data), s).
Proof.
  intros H. destruct (holds_split _ _ _ H) as (?&?&?&_&_&Hm).
  unfold get_msg_at. mstep (real_off_ok (total ms1) s ltac:(apply in_off_map_window; lia)).
  rewrite Hm. done.
Qed.

(** The message in a slot, its bytes and its place. *)
Lemma holds_slot ms1 sq d ms2 s :
  holds (ms1 ++ (sq, d) :: ms2) s ->
  exists m, sent_msg sq d m /\
    raw_at (sb_buf (sbuf s)) (real_total ms1 + 33) m /\
    load_msg (sb_buf (sbuf s)) (real_total ms1 + 33) = m /\ (0 < length d)%nat /\
    Z.of_nat (length d) <= 1000 /\ 0 <= real_total ms1 /\
    real_total ms1 + inplace_size (Z.of_nat (length d)) <= 120000 /\
    112 + Z.of_nat (length d) < inplace_size (Z.of_nat (length d)).
Proof.
  intros H. destruct (holds_split _ _ _ H) as (?&?&Ht&?&Hr&_). destruct H as [Hs _].
  destruct (slots_slot _ _ _ _ _ _ _ Hs) as [(m&Hm&Hra) Hd].
  rewrite Z.add_0_l in Hra. exists m. cbn [total real_total length] in *.
  pose proof (slots_nonempty _ _ _ _ Hs) as Hn. apply Forall_app in Hn as [_ Hn].
  inversion Hn as [|? ? _ Hn2]; subst. unfold OUTPUT_WINDOW_SZ in *.
  pose proof (total_nonneg ms2).
  pose proof (real_total_bounds ms2 Hn2 ltac:(lia)).
  pose proof (inplace_size_bounds (Z.of_nat (length d)) ltac:(lia)).
  split_and!; try done; try lia.
  apply (raw_at_load _ _ m); [apply Hm| |done].
  rewrite (sm_data _ _ _ Hm). apply Hm.
Qed.

(** ** Storing *)

Lemma get_inplace_msg_size_ok r m s :
  msg_wf m -> m_buf_len m <= 65536 -> 0 <= r -> r <= 150000 ->
  raw_at (sb_buf (sbuf s)) (r + 33) m ->
  get_inplace_msg_size r s = (Ret (inplace_size (m_buf_len m)), s).
Proof.
  intros Hwf Hl Hr0 Hr H. unfold get_inplace_msg_size.
  mstep (read_buf_ok (r + offsetof_msg_data) 8 s
           ltac:(unfold in_buf, offsetof_msg_data, offsetof_used, sizeof_sem_t, OUTPUT_SEND_BUF_SZ; lia)).
  change (r + offsetof_msg_data) with (r + 33).
  pose proof (raw_at_field _ _ m 0 8 Hwf ltac:(lia) H) as Hf.
  change (Z.of_nat 0) with 0 in Hf. rewrite Z.add_0_r in Hf. change (Z.to_nat 8) with 8%nat. rewrite Hf.
  unfold encode_raw, encode_header.
  rewrite !slice_app_l by (rewrite ?length_app, ?length_le_bytes; lia).
  rewrite slice_all by (rewrite length_le_bytes; done).
  rewrite le_val_le_bytes_small by (destruct Hwf as ((?&?)&_); simpl; lia). done.
Qed.

Lemma raw_at_copy m r mm sq d :
  sent_msg sq d m -> slot_at (copy_inplace m (r + 33) mm) r sq d.
Proof.
  intros Hm. exists m. split; [done|]. pose proof (sm_small _ _ _ Hm).
  apply copy_inplace_stores; rewrite ?(sm_data _ _ _ Hm); try apply Hm. lia.
Qed.

(** The message written into its slot: the size it takes there is the one
    computed from its data, and the slot's future is cleared. *)
Lemma sk_put_msg_inplace_ok sq d m r s :
  sent_msg sq d m -> 1 <= Z.of_nat (length d) <= 1000 ->
  0 <= r <= 150000 ->
  sk_put_msg_inplace r m s =
    (Ret (inplace_size (Z.of_nat (length d))),
     area_put (FuturesArea (<[r := 0]> (futs s)))
       (area_put (SendBufferArea (copy_inplace m (r + 33) (sb_buf (sbuf s)))
                    (sb_off_map (sbuf s)) (sb_end (sbuf s))) s)).
Proof.
  intros Hm Hlen Hr. set (len := Z.of_nat (length d)) in *.
  pose proof (inplace_size_bounds len ltac:(lia)) as Hsz.
  pose proof (sm_small _ _ _ Hm) as Hsm. pose proof (sm_buf_len _ _ _ Hm) as Hbl. pose proof (sm_data_len _ _ _ Hm) as Hdl.
  fold len in Hbl, Hdl.
  set (a := sbuf s) in *. set (a1 := SendBufferArea _ _ _).
  set (s2 := area_put (FuturesArea _) _).
  unfold sk_put_msg_inplace.
  mstep (write_buf_ok r (offsetof_msg_data + Z.max (u64 (full_sz m - get_data_len m)) (sizeof_raw_msg + get_data_len m))
           (copy_inplace m (r + offsetof_msg_data)) s
           ltac:(unfold in_buf, offsetof_msg_data, offsetof_used, sizeof_sem_t, OUTPUT_SEND_BUF_SZ,
                   full_sz, full_sz_no_obj, get_data_len, sizeof_raw_msg, sizeof_TCP_PACKET,
                   sizeof_TCPHDR, sizeof_iphdr, sizeof_tcphdr; rewrite Hbl, Hdl;
                 rewrite (u64_small (8 + _ + _ + len)) by lia; rewrite u64_small by lia; lia)).
  change (r + offsetof_msg_data) with (r + 33). fold a. fold a1.
  assert (future_init r (area_put a1 s) = (Ret tt, s2)) as Hfi.
  { unfold future_init. rewrite bind_unfold. cbn [mem_get gets].
    fold (futs (area_put a1 s)). rewrite futs_put_sb. done. }
  mstep Hfi. rewrite <- Hbl. apply get_inplace_msg_size_ok; [apply Hm|lia..|].
  unfold s2. autorewrite with net666. cbn [a1 sb_buf].
  apply copy_inplace_stores; rewrite ?(sm_data _ _ _ Hm); try apply Hm. lia.
Qed.

(** [put_msg_at] at the end of the buffer stores one message more. *)
Lemma put_msg_at_ok ms sq d m s :
  holds ms s -> sent_msg sq d m -> (0 < length d)%nat ->
  total ms + Z.of_nat (length d) <= OUTPUT_WINDOW_SZ ->
  exists s',
    put_msg_at (V:=Z) (E:=Z) (total ms) m s = (Ret (real_total ms), s') /\
    holds (ms ++ [(sq, d)]) s' /\
    futs s' = <[real_total ms := 0]> (futs s) /\ same_rest s s' /\
    same_outside (real_total ms) (real_total ms + inplace_size (Z.of_nat (length d))) s s' /\
    raw_at (sb_buf (sbuf s')) (real_total ms + 33) m.
Proof.
  intros Hh Hm Hd Ht. pose proof (sm_small _ _ _ Hm) as Hsm.
  assert (holds (ms ++ []) s) as Hh0 by (rewrite app_nil_r; done).
  destruct (holds_split _ _ _ Hh0) as (Ht0&_&_&Hr&_&Hmap). destruct Hh as [Hs Hlt].
  unfold OUTPUT_WINDOW_SZ in *. set (r := real_total ms) in *.
  pose proof (slots_end _ _ _ _ Hs) as He. rewrite Z.add_0_l in He. fold r in He.
  set (len := Z.of_nat (length d)) in *.
  assert (1 <= len <= 1000) as Hlen by lia.
  pose proof (inplace_size_bounds len ltac:(lia)) as Hsz.
  pose proof (sm_data_len _ _ _ Hm) as Hdl. fold len in Hdl.
  pose proof (sk_put_msg_inplace_ok sq d m r s Hm Hlen ltac:(lia)) as Hput. fold len in Hput.
  set (a := sbuf s) in *. set (a1 := SendBufferArea _ _ _) in Hput.
  set (s2 := area_put (FuturesArea _) _) in Hput.
  unfold put_msg_at.
  mstep (real_off_ok (total ms) s ltac:(apply in_off_map_window; unfold OUTPUT_WINDOW_SZ; lia)).
  fold a. rewrite Hmap. cbn [put_msg_inplace sk_inplace_controller]. mstep Hput.
  rewrite (bind_unfold mem_get). cbn [mem_get gets]. fold (sbuf s2).
  assert (sbuf s2 = a1) as Hs2 by (unfold s2; autorewrite with net666; done).
  rewrite Hs2. cbn [a1 sb_buf sb_off_map sb_end]. rewrite He.
  rewrite (s64_small (r + inplace_size len)) by lia.
  set (a3 := SendBufferArea _ _ (r + inplace_size len)).
  rewrite (bind_unfold (mem_put a3)). cbn [mem_put modify].
  unfold get_data_len. rewrite Hdl. rewrite u64_small, s64_small by lia.
  mstep (put_real_off_ok (total ms + len) (r + inplace_size len) (area_put a3 s2)
           ltac:(apply in_off_map_window; unfold OUTPUT_WINDOW_SZ; lia)).
  rewrite sbuf_put. cbn [a3 sb_buf sb_off_map sb_end].
  set (a4 := SendBufferArea _ (<[_:=_]> _) _).
  mstep (real_off_ok (total ms) (area_put a4 (area_put a3 s2))
           ltac:(apply in_off_map_window; unfold OUTPUT_WINDOW_SZ; lia)).
  rewrite sbuf_put. cbn [a4 sb_off_map]. rewrite fun_insert_ne, Hmap by lia.
  eexists. split; [reflexivity|]. split_and!.
  - split; [|rewrite total_app; simpl; unfold OUTPUT_WINDOW_SZ; lia].
    rewrite sbuf_put. apply (slots_snoc a); try done; try lia.
    + intros i Hi. cbn [a4 sb_off_map]. apply fun_insert_ne. lia.
    + intros x Hx. cbn [a4 sb_buf]. fold r in Hx.
      apply copy_inplace_outside; rewrite ?(sm_data _ _ _ Hm); try apply Hm; lia.
    + cbn [a4 sb_buf]. apply raw_at_copy. done.
    + cbn [a4 sb_off_map sb_end]. apply fun_insert_eq.
  - rewrite !futs_put_sb. unfold s2. rewrite futs_put. done.
  - unfold s2. auto with net666.
  - intros x Hx. rewrite sbuf_put. cbn [a4 sb_buf].
    apply copy_inplace_outside; rewrite ?(sm_data _ _ _ Hm); try apply Hm; lia.
  - rewrite sbuf_put. cbn [a4 sb_buf]. fold r.
    apply copy_inplace_stores; rewrite ?(sm_data _ _ _ Hm); try apply Hm. lia.
Qed.

(** A message with an address of zero in its header is not in use. *)
Lemma raw_at_unused p m s :
  raw_at (sb_buf (sbuf s)) p m -> iphdr_wf (m_iph m) -> daddr (m_iph m) = 0 ->
  in_buf (p + offsetof_used) 1 = true -> sk_is_msg_used p s = (Ret false, s).
Proof.
  intros Hr Hwf Hd Hin. unfold sk_is_msg_used. mstep (read_buf_ok (p + offsetof_used) 1 s Hin).
  change (p + offsetof_used) with (p + 32).
  assert (load_bytes (sb_buf (sbuf s)) (p + 32) (Z.to_nat 1) = [0]) as ->; [|done].
  unfold raw_at in Hr. rewrite encode_raw_daddr, Hd in Hr.
  rewrite !length_app, (length_before_daddr m Hwf), !load_bytes_app in Hr.
  apply app_inj_1 in Hr as [_ Hr]; [|rewrite length_load_bytes, (length_before_daddr m Hwf); done].
  apply app_inj_1 in Hr as [Hr _]; [exact Hr|done].
Qed.

(** ** Writing inside a stored message *)

(** A write inside the raw block of one message that leaves a message with the
    same number and data there. *)
Lemma rewrite_slot_ok ms1 sq d ms2 p n f s m' :
  holds (ms1 ++ (sq, d) :: ms2) s -> sent_msg sq d m' ->
  real_total ms1 + 33 <= p -> 0 <= n -> p + n <= real_total ms1 + 105 + Z.of_nat (length d) ->
  (forall mm x, x < p \/ p + n <= x -> f mm x = mm x) ->
  raw_at (f (sb_buf (sbuf s))) (real_total ms1 + 33) m' ->
  exists s',
    write_buf p n f s = (Ret tt, s') /\ holds (ms1 ++ (sq, d) :: ms2) s' /\
    sb_buf (sbuf s') = f (sb_buf (sbuf s)) /\ futs s' = futs s /\ same_rest s s'.
Proof.
  intros Hh Hm' Hp Hn Hpn Hf Hra.
  destruct (holds_slot _ _ _ _ _ Hh) as (m&_&_&_&Hd&?&?&?&?).
  eexists. split_and!.
  - apply write_buf_ok. unfold in_buf, OUTPUT_SEND_BUF_SZ. lia.
  - destruct Hh as [Hs Ht]. split; [|done]. rewrite sbuf_put.
    apply (slots_rewrite (sbuf s)); try done; [unfold OUTPUT_WINDOW_SZ in Ht; lia|..];
      cbn [sb_buf]; rewrite ?Z.add_0_l.
    + intros x Hx. apply Hf. lia.
    + exists m'. done.
  - rewrite sbuf_put. done.
  - apply futs_put_sb.
  - auto with net666.
Qed.

(** [mark_msg_used], called with the pointer [get_msg_at] answers. *)
Lemma mark_msg_used_ok ms1 sq d ms2 b s :
  holds (ms1 ++ (sq, d) :: ms2) s ->
  exists s',
    sk_mark_msg_used (real_total ms1 + 33) b s = (Ret tt, s') /\
    holds (ms1 ++ (sq, d) :: ms2) s' /\ futs s' = futs s /\ same_rest s s' /\
    sk_is_msg_used (real_total ms1 + 33) s' = (Ret b, s') /\
    same_outside (real_total ms1) (real_total ms1 + inplace_size (Z.of_nat (length d))) s s'.
Proof.
  intros Hh. destruct (holds_slot _ _ _ _ _ Hh) as (m&Hm&Hra&_&Hd&?&?&?&?).
  assert (is_byte (Z.b2z b)) as Hb by (unfold is_byte; destruct b; simpl; lia).
  destruct (rewrite_slot_ok ms1 sq d ms2 (real_total ms1 + 33 + offsetof_used) 1
    (fun mm => store_bytes mm (real_total ms1 + 33 + offsetof_used) [Z.b2z b]) s
    (set_daddr0 (Z.b2z b) m)) as (s'&Hw&Hh'&Hbuf&Hf&Hr).
  - done.
  - apply sent_msg_mark; done.
  - unfold offsetof_used, sizeof_sem_t. lia.
  - lia.
  - unfold offsetof_used, sizeof_sem_t. lia.
  - intros mm x Hx. apply store_bytes_out. simpl. lia.
  - apply raw_at_mark; [apply Hm|done|done].
  - exists s'. split_and!; try done; [unfold sk_is_msg_used|].
    { mstep (read_buf_ok (real_total ms1 + 33 + offsetof_used) 1 s'
               ltac:(unfold in_buf, offsetof_used, sizeof_sem_t, OUTPUT_SEND_BUF_SZ; lia)).
      rewrite Hbuf. rewrite (load_store_same _ _ [Z.b2z b]). destruct b; done. }
    intros x Hx. rewrite Hbuf. apply store_bytes_out. unfold offsetof_used, sizeof_sem_t.
    cbn [length]. lia.
Qed.

(** Writing a message's header block back over the stored one. *)
Lemma store_header_ok ms1 sq d ms2 m' s :
  holds (ms1 ++ (sq, d) :: ms2) s -> sent_msg sq d m' ->
  exists s',
    write_buf (real_total ms1 + 33) sizeof_raw_msg
      (fun mm => store_header mm (real_total ms1 + 33) m') s = (Ret tt, s') /\
    holds (ms1 ++ (sq, d) :: ms2) s' /\ futs s' = futs s /\ same_rest s s' /\
    same_outside (real_total ms1) (real_total ms1 + inplace_size (Z.of_nat (length d))) s s'.
Proof.
  intros Hh Hm'. destruct (holds_slot _ _ _ _ _ Hh) as (m&Hm&Hra&_&Hd&?&?&?&?).
  pose proof (length_encode_header m' (proj1 (proj2 (proj2 (sm_wf _ _ _ Hm'))))) as Hl.
  destruct (rewrite_slot_ok ms1 sq d ms2 (real_total ms1 + 33) sizeof_raw_msg
    (fun mm => store_header mm (real_total ms1 + 33) m') s m') as (s'&Hw&Hh'&Hbuf&Hf&Hr);
    try done; try (unfold sizeof_raw_msg, sizeof_TCP_PACKET, sizeof_iphdr, sizeof_TCPHDR,
                     sizeof_tcphdr; lia).
  - intros mm x Hx. apply store_bytes_out.
    rewrite Hl.
    change sizeof_raw_msg with 72 in Hx. lia.
  - apply (raw_at_store_header _ _ m); [apply Hm|apply Hm'| |done].
    rewrite (sm_data _ _ _ Hm), (sm_data _ _ _ Hm'). done.
  - exists s'. split_and!; try done. intros x Hx. rewrite Hbuf. apply store_bytes_out. lia.
Qed.

(** [get_msg_data_sz], called with the pointer [get_msg_at] answers, reads
    bytes 41 to 48 of the raw block: the upper three bytes of the sequence
    number, the acknowledgement number and the byte behind it. *)
Lemma get_msg_data_sz_ok ms1 sq d ms2 s :
  holds (ms1 ++ (sq, d) :: ms2) s -> 0 <= sq ->
  sk_get_msg_data_sz (real_total ms1 + 33) s = (Ret (sq `div` 256), s).
Proof.
  intros Hh Hsq. destruct (holds_slot _ _ _ _ _ Hh) as (m&Hm&Hra&_&Hd&?&?&?&?).
  unfold sk_get_msg_data_sz.
  mstep (read_buf_ok (real_total ms1 + 33 + offsetof_msg_data + 8) 8 s
           ltac:(unfold in_buf, offsetof_msg_data, offsetof_used, sizeof_sem_t, OUTPUT_SEND_BUF_SZ; lia)).
  pose proof (sm_wf _ _ _ Hm) as Hwf.
  pose proof (raw_at_field _ _ m 41 8 Hwf ltac:(lia) Hra) as Hf.
  change (Z.of_nat 41) with 41 in Hf.
  replace (real_total ms1 + 33 + offsetof_msg_data + 8) with (real_total ms1 + 33 + 41)
    by (unfold offsetof_msg_data, offsetof_used, sizeof_sem_t; lia).
  change (Z.to_nat 8) with 8%nat. rewrite Hf.
  pose proof (length_encode_iphdr (m_iph m) (proj1 (proj1 (proj2 (proj2 Hwf))))) as Hi.
  unfold encode_raw, encode_header, encode_TCPHDR, encode_tcphdr.
  pose proof (sm_seq _ _ _ Hm) as E1. pose proof (sm_ack_seq _ _ _ Hm) as E2.
  unfold get_seq, get_ack_seq, m_hdr in E1, E2.
  pose proof (sm_off_res _ _ _ Hm) as E3. unfold m_hdr in E3.
  rewrite E1, E2, E3.
  assert (0 <= sq < modulus32) as Hr.
  { destruct Hwf as (_&_&_&((_&_&Hs&_)&_)). rewrite E1 in Hs. done. }
  rewrite <- !app_assoc.
  rewrite slice_app_r by (rewrite length_le_bytes; lia). rewrite length_le_bytes.
  rewrite slice_app_r by (rewrite length_le_bytes; lia). rewrite length_le_bytes.
  rewrite slice_app_r by (rewrite Hi; lia). rewrite Hi.
  rewrite slice_app_r by (rewrite length_le_bytes; lia). rewrite length_le_bytes.
  rewrite slice_app_r by (rewrite length_le_bytes; lia). rewrite length_le_bytes.
  change (41 - 8 - 8 - 20 - 2 - 2)%nat with 1%nat.
  unfold slice. cbn [le_bytes drop app take le_val].
  unfold mret, M_ret. do 2 f_equal. wrap_lia.
Qed.

(** ** Releasing *)

(** Where the slots of [ms] start, the first one at [r]. *)
Fixpoint slot_starts (r : Z) (ms : sent) : list Z :=
  match ms with
  | [] => []
  | (_, d) :: ms => r :: slot_starts (r + inplace_size (Z.of_nat (length d))) ms
  end.

(** Every future in the list counted up by one. *)
Definition notify_all (f : Z -> Z) (l : list Z) : Z -> Z :=
  fold_left (fun f i => <[i := f i + 1]> f) l f.

Lemma notify_all_once f l :
  NoDup l -> forall x, notify_all f l x = f x + (if decide (x ∈ l) then 1 else 0).
Proof.
  intros Hn. revert f. induction Hn as [|i l Hi Hn IH]; intros f x.
  - simpl. lia.
  - cbn [notify_all fold_left]. fold (notify_all (<[i:=f i + 1]> f) l). rewrite IH.
    destruct (decide (x = i)) as [->|Hx].
    + rewrite fun_insert_eq. rewrite decide_False by done.
      rewrite (decide_True (P:=i ∈ i :: l)) by constructor. lia.
    + rewrite fun_insert_ne by done.
      destruct (decide (x ∈ l)), (decide (x ∈ i :: l)); set_solver by lia.
Qed.

Lemma slot_starts_above r ms :
  Forall (fun m : Z * bytes => (0 < length (snd m))%nat) ms -> total ms <= 65536 ->
  Forall (fun x => r <= x) (slot_starts r ms) /\ NoDup (slot_starts r ms).
Proof.
  intros Hn. revert r. induction Hn as [|[sq d] ms Hd Hn IH]; intros r Ht; cbn [slot_starts].
  - split; constructor.
  - cbn [total snd] in *. pose proof (total_nonneg ms).
    pose proof (inplace_size_bounds (Z.of_nat (length d)) ltac:(lia)).
    destruct (IH (r + inplace_size (Z.of_nat (length d))) ltac:(lia)) as [H1 H2].
    split; constructor; try done; try lia.
    + eapply Forall_impl; [exact H1|]. simpl. lia.
    + intros Hin. rewrite Forall_forall in H1. specialize (H1 _ Hin). lia.
Qed.

Lemma slot_starts_nodup ms1 rel ms2 s :
  holds (ms1 ++ rel ++ ms2) s -> NoDup (slot_starts (real_total ms1) rel).
Proof.
  intros [Hs Ht]. pose proof (slots_nonempty _ _ _ _ Hs) as Hn.
  apply Forall_app in Hn as [_ Hn]. apply Forall_app in Hn as [Hn _].
  apply slot_starts_above; [done|].
  rewrite !total_app in Ht. pose proof (total_nonneg ms1). pose proof (total_nonneg ms2).
  unfold OUTPUT_WINDOW_SZ in Ht. lia.
Qed.

Lemma release_one ms1 sq d ms2 s :
  holds (ms1 ++ (sq, d) :: ms2) s ->
  sk_release_inplace_msg (real_total ms1) s =
    (Ret (inplace_size (Z.of_nat (length d))),
     area_put (FuturesArea (<[real_total ms1 := futs s (real_total ms1) + 1]> (futs s))) s).
Proof.
  intros Hh. destruct (holds_slot _ _ _ _ _ Hh) as (m&Hm&Hra&_&Hd&?&?&?&?).
  unfold sk_release_inplace_msg, output_signal_msg_complete.
  rewrite bind_unfold. cbn [sk_get_msg_inplace mret M_ret].
  replace (real_total ms1 + offsetof_msg_data - offsetof_msg_data) with (real_total ms1) by lia.
  set (s1 := area_put _ s).
  assert (future_notify (real_total ms1) s = (Ret tt, s1)) as Hn by done.
  mstep Hn. rewrite <- (sm_buf_len _ _ _ Hm).
  apply get_inplace_msg_size_ok; [apply Hm| |lia|lia|].
  - rewrite (sm_buf_len _ _ _ Hm). lia.
  - unfold s1. rewrite sbuf_put_fut. done.
Qed.

Lemma release_loop_ok ms1 rel ms2 fuel s :
  holds (ms1 ++ rel ++ ms2) s -> (length rel <= fuel)%nat ->
  exists s',
    release_loop (V:=Z) (E:=Z) fuel (real_total ms1) (real_total (ms1 ++ rel)) s = (Ret tt, s') /\
    sbuf s' = sbuf s /\ futs s' = notify_all (futs s) (slot_starts (real_total ms1) rel) /\
    same_rest s s'.
Proof.
  revert ms1 fuel s. induction rel as [|[sq d] rel IH]; intros ms1 fuel s Hh Hf.
  - rewrite app_nil_r. exists s. split_and!; try done.
    destruct fuel; cbn [release_loop]; rewrite Z.ltb_irrefl; done.
  - cbn [length] in Hf. destruct fuel as [|fuel]; [lia|].
    pose proof (release_one ms1 sq d (rel ++ ms2) s Hh) as Hrel.
    set (s1 := area_put _ s) in *.
    destruct (holds_slot _ _ _ _ _ Hh) as (_&_&_&_&_&?&?&?&?).
    assert (holds (ms1 ++ (sq, d) :: rel ++ ms2) s1) as Hh1
      by (unfold holds, s1 in *; rewrite sbuf_put_fut; done).
    assert (ms1 ++ (sq, d) :: rel = (ms1 ++ [(sq, d)]) ++ rel) as Happ
      by (rewrite <- app_assoc; done).
    assert (real_total (ms1 ++ [(sq, d)]) = real_total ms1 + inplace_size (Z.of_nat (length d))) as Hrt
      by (rewrite real_total_app; simpl; lia).
    destruct (IH (ms1 ++ [(sq, d)]) fuel s1) as (s'&Hrun&Hb&Hft&Hsr);
      [rewrite <- app_assoc; exact Hh1|lia|].
    exists s'. split_and!.
    + cbn [release_loop].
      assert (0 <= real_total rel) as Hrr.
      { destruct (holds_split _ _ _ Hh) as (_&_&_&_&Hr2&_).
        destruct Hh as [Hs Ht]. rewrite !total_app in Ht. cbn [total] in Ht. rewrite ?total_app in Ht.
        pose proof (slots_nonempty _ _ _ _ Hs) as Hn. apply Forall_app in Hn as [_ Hn].
        inversion Hn as [|? ? _ Hn']; subst. apply Forall_app in Hn' as [Hn' _].
        pose proof (total_nonneg ms1). pose proof (total_nonneg rel). pose proof (total_nonneg ms2).
        unfold OUTPUT_WINDOW_SZ in Ht.
        pose proof (real_total_bounds rel Hn' ltac:(lia)). lia. }
      rewrite (proj2 (Z.ltb_lt _ _)) by (rewrite real_total_app; cbn [real_total]; lia).
      cbn [release_inplace_msg sk_inplace_controller]. mstep Hrel.
      rewrite u64_small by lia. rewrite <- Hrt, Happ. exact Hrun.
    + rewrite Hb. unfold s1. apply sbuf_put_fut.
    + rewrite Hft. unfold s1. rewrite futs_put, Hrt. done.
    + eapply same_rest_trans; [|exact Hsr]. unfold s1. auto with net666.
Qed.

(** [release_range] from one message's offset to the last byte before
    another's signals each message between them once. *)
Lemma release_range_ok ms1 rel ms2 s :
  holds (ms1 ++ rel ++ ms2) s ->
  exists s',
    release_range (V:=Z) (E:=Z) (total ms1) (total (ms1 ++ rel) - 1) s = (Ret tt, s') /\
    sbuf s' = sbuf s /\ futs s' = notify_all (futs s) (slot_starts (real_total ms1) rel) /\
    same_rest s s'.
Proof.
  intros Hh. destruct (holds_split _ _ _ Hh) as (?&?&Ht1&Hr1&_&Hm1).
  assert (holds ((ms1 ++ rel) ++ ms2) s) as Hh' by (rewrite <- app_assoc; done).
  destruct (holds_split _ _ _ Hh') as (?&?&Ht2&Hr2&_&Hm2).
  rewrite length_app in Hr2. unfold OUTPUT_WINDOW_SZ in *.
  destruct (release_loop_ok ms1 rel ms2
    (Z.to_nat (real_total (ms1 ++ rel) - real_total ms1)) s Hh) as (s'&Hrun&?&?&?).
  { rewrite real_total_app in *.
    destruct Hh as [Hs _]. pose proof (slots_nonempty _ _ _ _ Hs) as Hn.
    apply Forall_app in Hn as [_ Hn]. apply Forall_app in Hn as [Hn _].
    rewrite total_app in *. pose proof (total_nonneg rel).
    pose proof (real_total_bounds rel Hn ltac:(lia)). lia. }
  exists s'. split_and!; try done.
  unfold release_range.
  mstep (real_off_ok (total ms1) s ltac:(apply in_off_map_window; unfold OUTPUT_WINDOW_SZ; lia)).
  rewrite s64_small by lia. replace (total (ms1 ++ rel) - 1 + 1) with (total (ms1 ++ rel)) by lia.
  mstep (real_off_ok (total (ms1 ++ rel)) s ltac:(apply in_off_map_window; unfold OUTPUT_WINDOW_SZ; lia)).
  rewrite Hm1, Hm2, !u64_small by lia. exact Hrun.
Qed.

(** ** Properties *)

(** Storing a message behind the stored ones keeps every earlier message
    and makes the new one readable: [get_msg_at] at the offset it was stored
    at answers a pointer to a message with its number and its data, and the
    future returned by [put_msg_at] is that message's, with nothing signalled
    yet.  A window's worth of messages always fits in the buffer. *)
Lemma put_then_get ms sq d m s :
  holds ms s -> sent_msg sq d m -> (0 < length d)%nat ->
  total ms + Z.of_nat (length d) <= OUTPUT_WINDOW_SZ ->
  exists fut p s',
    put_msg_at (V:=Z) (E:=Z) (total ms) m s = (Ret fut, s') /\
    holds (ms ++ [(sq, d)]) s' /\
    get_msg_at (V:=Z) (E:=Z) (total ms) s' = (Ret p, s') /\
    get_seq (load_msg (sb_buf (sbuf s')) p) = sq /\
    msg_data (load_msg (sb_buf (sbuf s')) p) = d /\
    sk_get_msg_inplace_future fut s' = (Ret (p - offsetof_msg_data), s') /\ futs s' fut = 0.
Proof.
  intros Hh Hm Hd Ht.
  destruct (put_msg_at_ok ms sq d m s Hh Hm Hd Ht) as (s'&Hput&Hh'&Hf&_).
  exists (real_total ms), (real_total ms + offsetof_msg_data), s'.
  destruct (holds_slot _ _ _ _ _ Hh') as (m'&Hm'&_&Hl&_).
  change (real_total ms + offsetof_msg_data) with (real_total ms + 33). rewrite Hl.
  split_and!; try done.
  - apply (get_msg_at_ok ms [(sq, d)]). done.
  - apply Hm'.
  - unfold msg_data. rewrite (sm_data _ _ _ Hm'), (sm_data_len _ _ _ Hm'), Nat2Z.id.
    apply firstn_all.
  - unfold sk_get_msg_inplace_future, mret, M_ret, offsetof_msg_data, offsetof_used, sizeof_sem_t.
    do 2 f_equal. lia.
  - rewrite Hf. apply fun_insert_eq.
Qed.

(** C30: [release_range] over the messages between two message boundaries
    signals the future of each of them exactly once, signals no other, and
    leaves the buffer as it is. *)
Theorem release_signals_each_once ms1 rel ms2 s :
  holds (ms1 ++ rel ++ ms2) s ->
  exists s',
    release_range (V:=Z) (E:=Z) (total ms1) (total (ms1 ++ rel) - 1) s = (Ret tt, s') /\
    sbuf s' = sbuf s /\
    forall x, futs s' x = futs s x + (if decide (x ∈ slot_starts (real_total ms1) rel) then 1 else 0).
Proof.
  intros Hh. destruct (release_range_ok ms1 rel ms2 s Hh) as (s'&Hrun&Hb&Hf&_).
  exists s'. split_and!; try done. intros x. rewrite Hf.
  apply notify_all_once, (slot_starts_nodup ms1 rel ms2 s). done.
Qed.

(** The size [next_msg] skips by when it passes a used message is not the
    message's length: on the pointer [get_msg_at] answers, [get_msg_data_sz]
    returns the sequence number divided by 256. *)
Lemma data_sz_is_sequence_bits ms1 sq d ms2 s :
  holds (ms1 ++ (sq, d) :: ms2) s -> 0 <= sq ->
  exists p,
    get_msg_at (V:=Z) (E:=Z) (total ms1) s = (Ret p, s) /\
    m_data_len (load_msg (sb_buf (sbuf s)) p) = Z.of_nat (length d) /\
    sk_get_msg_data_sz p s = (Ret (sq `div` 256), s).
Proof.
  intros Hh Hsq. exists (real_total ms1 + offsetof_msg_data). split_and!.
  - apply (get_msg_at_ok ms1 ((sq, d) :: ms2)). done.
  - destruct (holds_slot _ _ _ _ _ Hh) as (m&Hm&_&Hl&_).
    change (real_total ms1 + offsetof_msg_data) with (real_total ms1 + 33). rewrite Hl.
    apply Hm.
  - apply (get_msg_data_sz_ok ms1 sq d ms2); done.
Qed.

End slot_ops.

(** ** A buffer on its own *)

Record buffer_state : Type := BufferState { b_sb : send_buffer_area; b_fut : futures_area }.

#[export] Instance buffer_state_sb : MemArea buffer_state send_buffer_area :=
  {| area_get := b_sb; area_put := fun a s => BufferState a (b_fut s) |}.
#[export] Instance buffer_state_fut : MemArea buffer_state futures_area :=
  {| area_get := b_fut; area_put := fun a s => BufferState (b_sb s) a |}.
#[export] Instance buffer_state_sb_laws : MemAreaLaws buffer_state send_buffer_area.
Proof. split; intros; destruct s; done. Qed.
#[export] Instance buffer_state_fut_laws : MemAreaLaws buffer_state futures_area.
Proof. split; intros; destruct s; done. Qed.
#[export] Instance buffer_state_indep1 : MemAreaIndep buffer_state send_buffer_area futures_area.
Proof. done. Qed.
#[export] Instance buffer_state_indep2 : MemAreaIndep buffer_state futures_area send_buffer_area.
Proof. done. Qed.

Definition empty_buffer : buffer_state :=
  BufferState send_buffer_init (FuturesArea (fun _ => 0)).

(** The messages of 10 and 20 bytes numbered 300 and 310, stored one after
    the other. *)
Definition data10 : bytes := replicate 10 7.
Definition data20 : bytes := replicate 20 9.
Definition two_messages : buffer_state :=
  snd ((put_msg_at (V:=Z) (E:=Z) 0 (set_seq 300 (tmp_msg data10));;
        put_msg_at (V:=Z) (E:=Z) 10 (set_seq 310 (tmp_msg data20))) empty_buffer).

Lemma empty_buffer_holds : holds [] empty_buffer.
Proof. split; [split|]; done. Qed.

Lemma replicate_bytes n b : is_byte b -> Forall is_byte (replicate n b).
Proof. intros. apply Forall_replicate. done. Qed.

Lemma two_messages_holds : holds [(300, data10); (310, data20)] two_messages.
Proof.
  destruct (put_msg_at_ok [] 300 data10 (set_seq 300 (tmp_msg data10)) empty_buffer)
    as (s1&H1&Hh1&_); [apply empty_buffer_holds| |simpl; lia|simpl; unfold OUTPUT_WINDOW_SZ; lia|].
  { apply sent_msg_tmp; [lia| |simpl; lia]. apply replicate_bytes. unfold is_byte; lia. }
  destruct (put_msg_at_ok [(300, data10)] 310 data20 (set_seq 310 (tmp_msg data20)) s1)
    as (s2&H2&Hh2&_); [exact Hh1| |simpl; lia|simpl; unfold OUTPUT_WINDOW_SZ; lia|].
  { apply sent_msg_tmp; [lia| |simpl; lia]. apply replicate_bytes. unfold is_byte; lia. }
  unfold two_messages. change (total []) with 0 in H1. rewrite (run_ret _ _ _ _ _ H1).
  change (total [(300, data10)]) with 10 in H2. rewrite H2. exact Hh2.
Qed.

Lemma put_then_get_witness :
  exists fut p s',
    put_msg_at (V:=Z) (E:=Z) (total []) (set_seq 300 (tmp_msg data10)) empty_buffer = (Ret fut, s') /\
    holds ([] ++ [(300, data10)]) s' /\
    get_msg_at (V:=Z) (E:=Z) (total []) s' = (Ret p, s') /\
    get_seq (load_msg (sb_buf (sbuf s')) p) = 300 /\
    msg_data (load_msg (sb_buf (sbuf s')) p) = data10 /\
    sk_get_msg_inplace_future fut s' = (Ret (p - offsetof_msg_data), s') /\ futs s' fut = 0.
Proof.
  apply (put_then_get [] 300 data10 (set_seq 300 (tmp_msg data10)) empty_buffer).
  - apply empty_buffer_holds.
  - apply sent_msg_tmp; [lia| |simpl; lia]. apply replicate_bytes. unfold is_byte; lia.
  - simpl. lia.
  - simpl. unfold OUTPUT_WINDOW_SZ. lia.
Defined.

Lemma release_signals_each_once_witness :
  exists s',
    release_range (V:=Z) (E:=Z) (total [(300, data10)])
      (total ([(300, data10)] ++ [(310, data20)]) - 1) two_messages = (Ret tt, s') /\
    sbuf s' = sbuf two_messages /\
    forall x, futs s' x = futs two_messages x +
      (if decide (x ∈ slot_starts (real_total [(300, data10)]) [(310, data20)]) then 1 else 0).
Proof.
  apply (release_signals_each_once [(300, data10)] [(310, data20)] []).
  apply two_messages_holds.
Defined.

Lemma data_sz_is_sequence_bits_witness :
  exists p,
    get_msg_at (V:=Z) (E:=Z) (total [(300, data10)]) two_messages = (Ret p, two_messages) /\
    m_data_len (load_msg (sb_buf (sbuf two_messages)) p) = 20 /\
    sk_get_msg_data_sz p two_messages = (Ret (310 `div` 256), two_messages).
Proof.
  apply (data_sz_is_sequence_bits [(300, data10)] 310 data20 []);
    [apply two_messages_holds|lia].
Defined.

