(* ===== verification/Cumulative.v ===== *)
(** * Cumulative: [send_cumulative_window_processing]

    [src/src/tcp_proto_output.h], lines 11-153: the sender's window of
    sequence numbers and its reaction to acknowledgements.  The three type
    classes are what the C++ template asks of its controller [T].  The member
    [win] is a copy of the shared area: [setup] reads it and [flush] writes
    it back, in the places where the code does. *)
From S2P Require Import Prelude Window Message ProtoMem.

(** The send buffer as the window sees it: [V] points to a buffered message,
    [E] is the future of its acknowledgement. *)
Class SentBuf (St V E : Type) : Type := {
  output_sent_buf_put_msg_at : Z -> msg -> M St E;
  output_sent_buf_get_msg_at : Z -> M St V;
  output_sent_buf_release_range : Z -> Z -> M St unit;
  output_sent_buf_refresh_contents : M St unit;
  mark_msg_used : V -> bool -> M St unit;
  is_msg_used : V -> M St bool;
  get_msg_data_sz : V -> M St Z;
}.

(** What is signalled to the rest of the socket. *)
Class SendEvents (St V : Type) : Type := {
  output_sent_buf_signal_not_empty : M St unit;
  output_refresh_on_msg_pair : V -> msg -> M St unit;
  output_refresh_on_msg_pair_prev_window_matched : V -> msg -> M St unit;
  on_sent_buf_empty : M St unit;
}.

(** What the sending worker waits for. *)
Class SendWait (St : Type) : Type := {
  output_sent_buf_wait_not_empty : M St unit;
}.

Section cumulative.
Context {St V E : Type} `{!MemArea St cumulative_area}.

Definition win_of (a : cumulative_area) : send_window :=
  Swin (Rwin (cw_start a) (cw_off a) (cw_sz a)) (cw_send_off a).

Definition area_of (w : send_window) : cumulative_area :=
  CumulativeArea (w_start w) (w_off w) (w_sent_off w) (w_sz w).

Definition setup : M St send_window := a ← mem_get; mret (win_of a).
Definition flush (w : send_window) : M St unit := mem_put (area_of w).

Definition msg_in_win (w : send_window) (m : msg) : bool :=
  contains (sw_win w) (SINGLE_WINDOW (get_seq m)).

Definition msg_in_prev_win (w : send_window) (m : msg) : bool :=
  contains w (SINGLE_WINDOW (u64 (get_seq m + 1))).

Definition sent_buf_empty (w : send_window) : bool := w_sent_off w =? w_off w.

Definition cw_get_sz : M St Z := win ← setup; mret (get_sz (sw_win win)).

(** [force_move_start]: called once, when the connection is established. *)
Definition cw_force_move_start (start_seq : Z) : M St unit :=
  win ← setup;
  flush (Swin (Rwin start_seq 0 (w_sz (sw_win win))) 0).

Definition is_sent_buf_empty : M St bool := win ← setup; mret (sent_buf_empty win).

(** [check_msg_complete] *)
Definition cw_check_msg_complete (m : msg) : M St bool :=
  win ← setup;
  let ret := negb (msg_in_win win m) in
  flush win;;
  mret ret.

Context `{!SentBuf St V E}.

(** [retry] *)
Definition cw_retry (m : msg) : M St unit :=
  win ← setup;
  let msg_off := s64 (u64 (get_in_msg_off (get_seq m) win + offset (sw_win win))) in
  ret ← output_sent_buf_get_msg_at msg_off;
  mark_msg_used ret false;;
  flush win.

Context `{!SendEvents St V}.

(** [send]: the sequence number is written into the caller's message. *)
Definition cw_send (m : msg) : M St (msg * E) :=
  win ← setup;
  if sent_sz win <? get_data_len m then throw EDrop
  else
    let m := set_seq (sent_begin win) m in
    when (sent_buf_empty win) output_sent_buf_signal_not_empty;;
    ret ← output_sent_buf_put_msg_at (w_sent_off win) m;
    flush (inc_sent_off (s64 (get_data_len m)) win);;
    mret (m, ret).

(** [on_ack] *)
Definition cw_on_ack (m : msg) : M St unit :=
  win ← setup;
  win ←
    (if msg_in_win win m then
       let old_off := offset (sw_win win) in
       let win := set_off_from_seq (get_seq m) win in
       let new_off := offset (sw_win win) in
       ret ← output_sent_buf_get_msg_at old_off;
       output_refresh_on_msg_pair ret m;;
       output_sent_buf_release_range old_off (s64 (new_off - 1));;
       when (sent_buf_empty win) on_sent_buf_empty;;
       if get_sz (sw_win win) =? 0 then
         output_sent_buf_refresh_contents;;
         mret (send_next_window win)
       else mret win
     else if msg_in_prev_win win m then
       first_msg ← output_sent_buf_get_msg_at (offset (sw_win win));
       output_refresh_on_msg_pair_prev_window_matched first_msg m;;
       mret win
     else mret win);
  flush win.

Context `{!SendWait St}.

(** The scan of [next_msg], [fuel] iterations at most. *)
Fixpoint next_msg_loop (fuel : nat) (win : send_window) (off : Z) : M St V :=
  if off <? w_sent_off win then
    match fuel with
    | O => faults out_of_fuel
    | S fuel =>
        ret ← output_sent_buf_get_msg_at off;
        used ← is_msg_used ret;
        if used : bool then
          n ← get_msg_data_sz ret;
          next_msg_loop fuel win (s64 (off + n))
        else
          mark_msg_used ret true;;
          flush win;;
          mret ret
    end
  else throw ETimeout.

(** [next_msg].  While the worker waits, other threads move the window; the
    wait reads it again into the member [win] before it returns. *)
Definition cw_next_msg (fuel : nat) : M St V :=
  win ← setup;
  when (sent_buf_empty win) output_sent_buf_wait_not_empty;;
  win ← setup;
  next_msg_loop fuel win (offset (sw_win win)).

End cumulative.

#[export] Instance cumulative_self : MemArea cumulative_area cumulative_area :=
  {| area_get := id; area_put := fun a _ => a |}.

Lemma win_area w : win_of (area_of w) = w.
Proof. destruct w as [[]]; done. Qed.

Lemma area_win a : area_of (win_of a) = a.
Proof. destruct a; done. Qed.
