(* ===== verification/CumulativeOps.v ===== *)
(** * CumulativeOps: the sender's window over the buffer it fills

    What [send], [on_ack] and [next_msg] of [Cumulative] do to the list of
    messages the send buffer holds, proved against an interface: the laws of
    the buffer and of the signals, [SenderLaws].  [SenderModel] shows that the
    socket satisfies them. *)
From S2P Require Import Prelude Window Message ProtoMem Slots Cumulative.

(** ** The interface

    [stored ms s]: the buffer holds the messages [ms], all those put since the
    last refresh.  [frame s s']: what the calls may not touch is the same.
    [posted e s]: how often the future [e] has been signalled and not yet waited
    for; [empties s]: the same for the signal of an empty buffer; [fut_at ms]:
    the future of the message stored behind [ms]; [elsewhere ms1 ms2 s s']: the
    memory of the messages [ms1] in the buffer, and the memory that follows the
    messages [ms2], is the same. *)

(** The futures of the messages [ms], stored behind [dn]. *)
Fixpoint futures_of {E} (fut_at : sent -> E) (dn ms : sent) : list E :=
  match ms with
  | [] => []
  | m :: ms => fut_at dn :: futures_of fut_at (dn ++ [m]) ms
  end.

Definition same_signals {St E} (posted : E -> St -> Z) (empties : St -> Z) (s s' : St) : Prop :=
  (forall e, posted e s' = posted e s) /\ empties s' = empties s.

Class SenderLaws (St V E : Type) `{MemArea St cumulative_area} `{!SentBuf St V E}
    `{!SendEvents St V} : Type := {
  stored : sent -> St -> Prop;
  frame : St -> St -> Prop;
  posted : E -> St -> Z;
  empties : St -> Z;
  fut_at : sent -> E;
  elsewhere : sent -> sent -> St -> St -> Prop;
  elsewhere_refl ms1 ms2 s : elsewhere ms1 ms2 s s;
  elsewhere_trans ms1 ms2 s1 s2 s3 :
    elsewhere ms1 ms2 s1 s2 -> elsewhere ms1 ms2 s2 s3 -> elsewhere ms1 ms2 s1 s3;
  elsewhere_nothing ms1 ms2 s s' : elsewhere [] [] s s' -> elsewhere ms1 ms2 s s';
  elsewhere_cw ms1 ms2 (a : cumulative_area) s : elsewhere ms1 ms2 s (area_put a s);
  cw_laws :: MemAreaLaws St cumulative_area;
  frame_refl s : frame s s;
  frame_trans s1 s2 s3 : frame s1 s2 -> frame s2 s3 -> frame s1 s3;
  frame_cw (a : cumulative_area) s : frame s (area_put a s);
  signals_cw (a : cumulative_area) s : same_signals posted empties s (area_put a s);
  futures_law ms s : stored ms s -> NoDup (futures_of fut_at [] ms);
  stored_cw ms (a : cumulative_area) s : stored ms s -> stored ms (area_put a s);
  put_law ms sq d m s :
    stored ms s -> sent_msg sq d m -> (0 < length d)%nat ->
    total ms + Z.of_nat (length d) <= OUTPUT_WINDOW_SZ ->
    exists s', output_sent_buf_put_msg_at (total ms) m s = (Ret (fut_at ms), s') /\
      stored (ms ++ [(sq, d)]) s' /\ area_get s' = (area_get s : cumulative_area) /\ frame s s' /\
      posted (fut_at ms) s' = 0 /\ (forall e, e <> fut_at ms -> posted e s' = posted e s) /\
      empties s' = empties s /\ elsewhere ms (ms ++ [(sq, d)]) s s' /\
      (daddr (m_iph m) = 0 -> exists v, output_sent_buf_get_msg_at (total ms) s' = (Ret v, s') /\
         is_msg_used v s' = (Ret false, s'));
  refers : V -> Z -> bytes -> St -> Prop;
  get_law ms1 sq d ms2 s :
    stored (ms1 ++ (sq, d) :: ms2) s ->
    exists v, output_sent_buf_get_msg_at (total ms1) s = (Ret v, s) /\ refers v sq d s;
  release_law ms1 rel ms2 s :
    stored (ms1 ++ rel ++ ms2) s ->
    exists s', output_sent_buf_release_range (total ms1) (total (ms1 ++ rel) - 1) s = (Ret tt, s') /\
      stored (ms1 ++ rel ++ ms2) s' /\ area_get s' = (area_get s : cumulative_area) /\ frame s s' /\
      (forall e, e ∈ futures_of fut_at ms1 rel -> posted e s' = posted e s + 1) /\
      (forall e, e ∉ futures_of fut_at ms1 rel -> posted e s' = posted e s) /\
      empties s' = empties s /\ elsewhere [] [] s s';
  refresh_law ms s :
    stored ms s ->
    exists s', output_sent_buf_refresh_contents s = (Ret tt, s') /\
      stored [] s' /\ area_get s' = (area_get s : cumulative_area) /\ frame s s' /\
      same_signals posted empties s s' /\ elsewhere [] [] s s';
  signal_law ms s (b : bool) :
    stored ms s ->
    exists s', (if b then output_sent_buf_signal_not_empty else on_sent_buf_empty) s = (Ret tt, s') /\
      stored ms s' /\ area_get s' = (area_get s : cumulative_area) /\ frame s s' /\
      (forall e, posted e s' = posted e s) /\ empties s' = empties s + (if b then 0 else 1) /\
      elsewhere [] [] s s';
  pair_law ms v sq d ack s :
    stored ms s -> refers v sq d s ->
    exists s', output_refresh_on_msg_pair v ack s = (Ret tt, s') /\
      stored ms s' /\ area_get s' = (area_get s : cumulative_area) /\ frame s s' /\
      same_signals posted empties s s' /\ elsewhere [] [] s s';
  prev_law start ms1 sq d ms2 sent_off v ack s :
    stored (ms1 ++ (sq, d) :: ms2) s -> refers v sq d s ->
    area_get s = CumulativeArea start (total ms1) sent_off OUTPUT_WINDOW_SZ ->
    sq = start + total ms1 -> 0 <= start /\ start + OUTPUT_WINDOW_SZ < modulus32 ->
    exists s', output_refresh_on_msg_pair_prev_window_matched v ack s = (Ret tt, s') /\
      stored (ms1 ++ (sq, d) :: ms2) s' /\ area_get s' = (area_get s : cumulative_area) /\
      frame s s' /\ same_signals posted empties s s' /\ elsewhere ms1 (ms1 ++ [(sq, d)]) s s' /\
      (forall v', output_sent_buf_get_msg_at (total ms1) s = (Ret v', s) ->
        is_msg_used v' s = (Ret false, s) -> is_msg_used v' s' = (Ret false, s'));
  place_law ms1 sq d ms2 s s' :
    stored (ms1 ++ (sq, d) :: ms2) s -> stored (ms1 ++ (sq, d) :: ms2) s' ->
    exists v, output_sent_buf_get_msg_at (total ms1) s = (Ret v, s) /\
      output_sent_buf_get_msg_at (total ms1) s' = (Ret v, s');
  used_law v sq d s : refers v sq d s -> exists b, is_msg_used v s = (Ret b, s);
  mark_law ms1 sq d ms2 v b s :
    stored (ms1 ++ (sq, d) :: ms2) s ->
    output_sent_buf_get_msg_at (total ms1) s = (Ret v, s) ->
    exists s', mark_msg_used v b s = (Ret tt, s') /\
      stored (ms1 ++ (sq, d) :: ms2) s' /\ area_get s' = (area_get s : cumulative_area) /\
      refers v sq d s' /\ is_msg_used v s' = (Ret b, s') /\ frame s s' /\
      same_signals posted empties s s' /\ elsewhere ms1 (ms1 ++ [(sq, d)]) s s';
  refers_cw v sq d (a : cumulative_area) s : refers v sq d s -> refers v sq d (area_put a s);
  used_cw v b (a : cumulative_area) s :
    is_msg_used v s = (Ret b, s) -> is_msg_used v (area_put a s) = (Ret b, area_put a s);
  size_law v sq d s : refers v sq d s -> get_msg_data_sz v s = (Ret (sq `div` 256), s);
}.

(** ** The sender's invariant

    The window's messages carry consecutive numbers from the window's start,
    the acknowledged ones first. *)
Fixpoint numbered (sq : Z) (ms : sent) : Prop :=
  match ms with
  | [] => True
  | (q, d) :: ms => q = sq /\ numbered (sq + Z.of_nat (length d)) ms
  end.

Lemma numbered_app sq ms1 ms2 :
  numbered sq (ms1 ++ ms2) <-> numbered sq ms1 /\ numbered (sq + total ms1) ms2.
Proof.
  revert sq. induction ms1 as [|[q d] ms1 IH]; intros sq; cbn [numbered app total].
  - rewrite Z.add_0_r. tauto.
  - rewrite IH, Z.add_assoc. tauto.
Qed.

Section sender.
Context {St V E : Type} `{SenderLaws St V E}.
Implicit Types (s : St).

Definition cwa s : cumulative_area := area_get s.

(** No signal is sent. *)
Definition quiet : St -> St -> Prop := same_signals posted empties.

Lemma quiet_refl s : quiet s s.
Proof. done. Qed.

Lemma quiet_trans s1 s2 s3 : quiet s1 s2 -> quiet s2 s3 -> quiet s1 s3.
Proof. intros [H1 H2] [H3 H4]. split; [intros e; rewrite H3; apply H1|congruence]. Qed.

Lemma quiet_cw (a : cumulative_area) s : quiet s (area_put a s).
Proof. apply signals_cw. Qed.

(** Nothing but the sender's own areas changes, and no signal is sent. *)
Definition still s s' : Prop := frame s s' /\ quiet s s'.

Lemma still_trans s1 s2 s3 : still s1 s2 -> still s2 s3 -> still s1 s3.
Proof. intros [? ?] [? ?]. split; [eapply frame_trans|eapply quiet_trans]; eauto. Qed.

Lemma still_cw (a : cumulative_area) s : still s (area_put a s).
Proof. split; [apply frame_cw|apply quiet_cw]. Qed.

Lemma futures_of_app dn ms1 ms2 :
  futures_of fut_at dn (ms1 ++ ms2) = futures_of fut_at dn ms1 ++ futures_of fut_at (dn ++ ms1) ms2.
Proof.
  revert dn. induction ms1 as [|m ms1 IH]; intros dn; cbn [futures_of app].
  - rewrite app_nil_r. done.
  - rewrite IH, <- app_assoc. done.
Qed.

(** The window of a sender that has sent [done ++ open] since the window's
    start and has had [done] acknowledged. *)
Definition sender_win (start : Z) (done open : sent) : send_window :=
  Swin (Rwin start (total done) OUTPUT_WINDOW_SZ) (total (done ++ open)).

Record sender_inv (start : Z) (done open : sent) s : Prop := {
  si_area : cwa s = area_of (sender_win start done open);
  si_start : 0 <= start /\ start + OUTPUT_WINDOW_SZ < modulus32;
  si_stored : stored (done ++ open) s;
  si_numbered : numbered start (done ++ open);
  si_nonempty : Forall (fun m : Z * bytes => (0 < length (snd m))%nat) (done ++ open);
  si_room : total done < OUTPUT_WINDOW_SZ /\ total (done ++ open) <= OUTPUT_WINDOW_SZ;
}.

Lemma cwa_put a s : cwa (area_put a s) = a.
Proof. apply area_get_put. Qed.

Lemma setup_eq s : setup s = (Ret (win_of (cwa s)), s).
Proof. done. Qed.

Lemma flush_eq w s : flush w s = (Ret tt, area_put (area_of w) s).
Proof. done. Qed.

Lemma sender_win_in_space start dn op s :
  sender_inv start dn op s -> in_space (sender_win start dn op).
Proof.
  intros []. pose proof (total_nonneg dn). unfold in_space, window_wf, OUTPUT_WINDOW_SZ in *; simpl.
  unfold OUTPUT_WINDOW_SZ. lia.
Qed.

Lemma sender_win_begin start dn op s :
  sender_inv start dn op s -> begin (sender_win start dn op) = start + total dn.
Proof. intros Hi. apply begin_wf, in_space_wf. eapply sender_win_in_space. exact Hi. Qed.

Lemma sender_win_end start dn op s :
  sender_inv start dn op s -> end_ (sender_win start dn op) = start + OUTPUT_WINDOW_SZ.
Proof. intros Hi. apply (end_wf (sender_win start dn op)), in_space_wf. eapply sender_win_in_space. exact Hi. Qed.

(** The buffer is empty iff nothing is outstanding. *)
Lemma sender_empty start dn op :
  Forall (fun m : Z * bytes => (0 < length (snd m))%nat) op ->
  sent_buf_empty (sender_win start dn op) = match op with [] => true | _ => false end.
Proof.
  intros Hn. unfold sent_buf_empty, sender_win. cbn [w_sent_off w_off sw_win].
  rewrite total_app. destruct op as [|[q d] op]; cbn [total].
  - rewrite Z.add_0_r. apply Z.eqb_refl.
  - inversion Hn; subst. simpl in *. pose proof (total_nonneg op). apply Z.eqb_neq. lia.
Qed.

Lemma sent_sz_eq start dn op s :
  sender_inv start dn op s ->
  sent_sz (sender_win start dn op) = OUTPUT_WINDOW_SZ - total (dn ++ op) /\
  sent_begin (sender_win start dn op) = start + total (dn ++ op).
Proof.
  intros [_ ? _ _ _ ?]. pose proof (total_nonneg (dn ++ op)).
  unfold sent_sz, sent_begin, sender_win, OUTPUT_WINDOW_SZ in *. cbn [w_sz w_start w_sent_off sw_win].
  rewrite !u64_small by lia. done.
Qed.

(** *** [send] *)

Lemma cw_send_run start dn op d s :
  sender_inv start dn op s -> (0 < length d)%nat -> Forall is_byte d ->
  total (dn ++ op) + Z.of_nat (length d) <= OUTPUT_WINDOW_SZ ->
  exists s',
    cw_send (E:=E) (tmp_msg d) s =
      (Ret (set_seq (start + total (dn ++ op)) (tmp_msg d), fut_at (dn ++ op)), s') /\
    sender_inv start dn (op ++ [(start + total (dn ++ op), d)]) s' /\ frame s s' /\
    posted (fut_at (dn ++ op)) s' = 0 /\
    (forall e, e <> fut_at (dn ++ op) -> posted e s' = posted e s) /\ empties s' = empties s /\
    elsewhere (dn ++ op) ((dn ++ op) ++ [(start + total (dn ++ op), d)]) s s' /\
    exists v, output_sent_buf_get_msg_at (total (dn ++ op)) s' = (Ret v, s') /\
      is_msg_used v s' = (Ret false, s').
Proof.
  intros Hi Hd Hb Hfit. destruct (sent_sz_eq _ _ _ _ Hi) as [Hsz Hbeg].
  pose proof Hi as [Ha Hst Hsto Hnum Hne Hroom].
  set (sq := start + total (dn ++ op)) in *.
  pose proof (total_nonneg (dn ++ op)) as Ht.
  unfold cw_send. mstep (setup_eq s). rewrite Ha, win_area, Hsz, Hbeg.
  unfold get_data_len at 1. change (m_data_len (tmp_msg d)) with (Z.of_nat (length d)).
  rewrite (proj2 (Z.ltb_ge _ _)) by lia.
  assert (exists s1, when (sent_buf_empty (sender_win start dn op))
            output_sent_buf_signal_not_empty s = (Ret tt, s1) /\
            stored (dn ++ op) s1 /\ cwa s1 = cwa s /\ frame s s1 /\ quiet s s1 /\ elsewhere [] [] s s1)
    as (s1&H1&Hsto1&Ha1&Hf1&Hq1&Hb1).
  { destruct (sent_buf_empty _); cbn [when].
    - destruct (signal_law _ s true Hsto) as (s1&?&?&?&?&?&?&?).
      exists s1. rewrite Z.add_0_r in *. done.
    - exists s. split_and!; auto using frame_refl, quiet_refl, elsewhere_refl. }
  mstep H1.
  assert (sent_msg sq d (set_seq sq (tmp_msg d))) as Hm.
  { apply sent_msg_tmp; unfold OUTPUT_WINDOW_SZ in *; (done || lia). }
  destruct (put_law (dn ++ op) sq d _ s1 Hsto1 Hm Hd Hfit) as (s2&H2&Hsto2&Ha2&Hf2&Hp2&Ho2&He2&Hb2&Hu2).
  change (w_sent_off (sender_win start dn op)) with (total (dn ++ op)).
  mstep H2. unfold get_data_len. change (m_data_len _) with (Z.of_nat (length d)) at 1.
  rewrite s64_small by lia. mstep (flush_eq (inc_sent_off (Z.of_nat (length d)) (sender_win start dn op)) s2).
  eexists. split; [reflexivity|].
  assert (total (dn ++ op ++ [(sq, d)]) = total (dn ++ op) + Z.of_nat (length d)) as Htot
    by (rewrite app_assoc, (total_app (dn ++ op)); simpl; lia).
  destruct (quiet_cw (area_of (inc_sent_off (Z.of_nat (length d)) (sender_win start dn op))) s2)
    as [Hp3 He3].
  split; [split|split; [|split; [|split; [|split; [|split]]]]].
  - rewrite cwa_put. unfold inc_sent_off, sender_win, area_of. cbn [w_start w_off w_sent_off w_sz sw_win].
    rewrite s64_small, Htot by (unfold OUTPUT_WINDOW_SZ in *; lia). done.
  - done.
  - rewrite app_assoc. apply stored_cw. done.
  - rewrite app_assoc, numbered_app. split; [done|]. simpl. done.
  - rewrite app_assoc. apply Forall_app. split; [done|]. constructor; [done|constructor].
  - rewrite Htot. split; [tauto|lia].
  - eapply frame_trans; [exact Hf1|]. eapply frame_trans; [exact Hf2|]. apply frame_cw.
  - rewrite Hp3. done.
  - intros e He. rewrite Hp3, Ho2 by done. apply Hq1.
  - rewrite He3, He2. apply Hq1.
  - eapply elsewhere_trans; [apply elsewhere_nothing; exact Hb1|].
    eapply elsewhere_trans; [exact Hb2|apply elsewhere_cw].
  - destruct (Hu2 eq_refl) as (v&Hv&Hu). exists v. split; [|apply used_cw; done].
    apply (stored_cw _ (area_of (inc_sent_off (Z.of_nat (length d)) (sender_win start dn op)))) in Hsto2 as Hsto3.
    destruct (place_law (dn ++ op) sq d [] _ _ Hsto2 Hsto3) as (v'&Hv'&Hv''). congruence.
Qed.

Lemma cw_send_ok start dn op d s :
  sender_inv start dn op s -> (0 < length d)%nat -> Forall is_byte d ->
  total (dn ++ op) + Z.of_nat (length d) <= OUTPUT_WINDOW_SZ ->
  exists e s',
    cw_send (E:=E) (tmp_msg d) s =
      (Ret (set_seq (start + total (dn ++ op)) (tmp_msg d), e), s') /\
    sender_inv start dn (op ++ [(start + total (dn ++ op), d)]) s' /\ frame s s'.
Proof.
  intros H1 H2 H3 H4. destruct (cw_send_run _ _ _ _ _ H1 H2 H3 H4) as (s'&?&?&?&_). eauto.
Qed.

Lemma cw_send_drops start dn op d s :
  sender_inv start dn op s ->
  OUTPUT_WINDOW_SZ < total (dn ++ op) + Z.of_nat (length d) ->
  cw_send (E:=E) (tmp_msg d) s = (Throw EDrop, s).
Proof.
  intros Hi Hfit. destruct (sent_sz_eq _ _ _ _ Hi) as [Hsz Hbeg].
  pose proof Hi as [Ha Hst Hsto Hnum Hne Hroom].
  unfold cw_send. mstep (setup_eq s). rewrite Ha, win_area, Hsz.
  unfold get_data_len at 1. change (m_data_len (tmp_msg d)) with (Z.of_nat (length d)).
  rewrite (proj2 (Z.ltb_lt _ _)) by lia. done.
Qed.

(** *** [on_ack] *)

(** The acknowledgement of the last byte of [now] is inside the window and
    moves the window's offset behind [now]. *)
Lemma sender_ack_window start dn now rest ack s :
  sender_inv start dn (now ++ rest) s -> now <> [] ->
  get_seq ack = start + total (dn ++ now) - 1 ->
  msg_in_win (sender_win start dn (now ++ rest)) ack = true /\
  set_off_from_seq (get_seq ack) (sender_win start dn (now ++ rest)) = sender_win start (dn ++ now) rest /\
  total (dn ++ now) <= OUTPUT_WINDOW_SZ.
Proof.
  intros Hi Hnow Hq. pose proof Hi as [_ Hst _ _ Hne Hroom].
  pose proof (sender_win_in_space _ _ _ _ Hi) as Hsp.
  pose proof (sender_win_begin _ _ _ _ Hi) as Hbeg. pose proof (sender_win_end _ _ _ _ Hi) as Hend.
  destruct now as [|[q0 d0] now]; [done|]. clear Hnow. set (nw := (q0, d0) :: now) in *.
  assert (0 < total nw) as Hpos.
  { apply Forall_app in Hne as [_ Hne]. inversion Hne; subst. unfold nw. simpl in *.
    pose proof (total_nonneg now). lia. }
  rewrite app_assoc in Hroom. rewrite (total_app (dn ++ nw) rest) in Hroom.
  pose proof (total_nonneg rest). pose proof (total_nonneg dn).
  rewrite total_app in Hq, Hroom. rewrite total_app.
  set (w := sender_win start dn (nw ++ rest)) in *.
  assert (begin w <= get_seq ack < end_ w) as Hin by (rewrite Hbeg, Hend, Hq; lia).
  split; [|split; [|lia]].
  - unfold msg_in_win. rewrite contains_single_in_space by (done || rewrite Hq; lia).
    apply andb_true_iff. split; lia.
  - rewrite (set_off_from_seq_in_space w (get_seq ack) Hsp Hin).
    unfold sender_win, w. cbn [w_start w_sz sw_win w_sent_off sender_win].
    rewrite <- app_assoc. do 2 f_equal. rewrite Hq, total_app. lia.
Qed.

(** The empty semaphore is posted exactly when nothing is outstanding. *)
Lemma signal_when_empty start dn op ms s :
  stored ms s -> Forall (fun m : Z * bytes => (0 < length (snd m))%nat) op ->
  exists s', when (sent_buf_empty (sender_win start dn op)) on_sent_buf_empty s = (Ret tt, s') /\
    stored ms s' /\ cwa s' = cwa s /\ frame s s' /\
    (forall e, posted e s' = posted e s) /\
    empties s' = empties s + (match op with [] => 1 | _ => 0 end) /\ elsewhere [] [] s s'.
Proof.
  intros Hs Hne. rewrite sender_empty by done. destruct op; cbn [when].
  - apply (signal_law _ s false). done.
  - exists s. rewrite Z.add_0_r. split_and!; auto using frame_refl, elsewhere_refl.
Qed.

(** What [on_ack] does to the messages before it looks at the window: the
    round trip is read off the first of [now], the futures of [now] are
    posted, and the empty semaphore if nothing is left. *)
Lemma on_ack_release_run start dn now rest ack s :
  stored (dn ++ now ++ rest) s -> now <> [] -> total (dn ++ now) <= OUTPUT_WINDOW_SZ ->
  Forall (fun m : Z * bytes => (0 < length (snd m))%nat) rest ->
  exists v s1 s2 s3,
    output_sent_buf_get_msg_at (total dn) s = (Ret v, s) /\
    output_refresh_on_msg_pair v ack s = (Ret tt, s1) /\
    output_sent_buf_release_range (total dn) (s64 (total (dn ++ now) - 1)) s1 = (Ret tt, s2) /\
    when (sent_buf_empty (sender_win start (dn ++ now) rest)) on_sent_buf_empty s2 = (Ret tt, s3) /\
    stored (dn ++ now ++ rest) s3 /\ cwa s3 = cwa s /\ frame s s3 /\ elsewhere [] [] s s3 /\
    (forall e, e ∈ futures_of fut_at dn now -> posted e s3 = posted e s + 1) /\
    (forall e, e ∉ futures_of fut_at dn now -> posted e s3 = posted e s) /\
    empties s3 = empties s + (match rest with [] => 1 | _ => 0 end).
Proof.
  intros Hsto Hnow Hle Hne. destruct now as [|[q0 d0] now]; [done|]. set (nw := (q0, d0) :: now) in *.
  destruct (get_law dn q0 d0 (now ++ rest) s Hsto) as (v&Hget&Href).
  destruct (pair_law _ v q0 d0 ack s Hsto Href) as (s1&Hpair&Hsto1&Ha1&Hf1&[Hp1 He1]&Hb1).
  destruct (release_law dn nw rest s1 Hsto1) as (s2&Hrel&Hsto2&Ha2&Hf2&Hp2&Ho2&He2&Hb2).
  destruct (signal_when_empty start (dn ++ nw) rest _ s2 Hsto2 Hne) as (s3&Hsig&Hsto3&Ha3&Hf3&Hp3&He3&Hb3).
  pose proof (total_nonneg (dn ++ nw)).
  exists v, s1, s2, s3. rewrite s64_small by (unfold OUTPUT_WINDOW_SZ in *; lia).
  split_and!; try done; [| eauto using frame_trans | eauto using elsewhere_trans | | |].
  - unfold cwa in *. congruence.
  - intros e He. rewrite Hp3, (Hp2 e He), Hp1. done.
  - intros e He. rewrite Hp3, (Ho2 e He), Hp1. done.
  - rewrite He3, He2, He1. done.
Qed.

(** An acknowledgement of the last byte of some outstanding message. *)
Lemma cw_on_ack_run start dn now rest ack s :
  sender_inv start dn (now ++ rest) s -> now <> [] ->
  get_seq ack = start + total (dn ++ now) - 1 ->
  start + 2 * OUTPUT_WINDOW_SZ < modulus32 ->
  exists s',
    cw_on_ack (V:=V) (E:=E) ack s = (Ret tt, s') /\ frame s s' /\
    (if total (dn ++ now) =? OUTPUT_WINDOW_SZ
     then sender_inv (start + OUTPUT_WINDOW_SZ) [] [] s' /\ rest = []
     else sender_inv start (dn ++ now) rest s') /\
    (forall e, e ∈ futures_of fut_at dn now -> posted e s' = posted e s + 1) /\
    (forall e, e ∉ futures_of fut_at dn now -> posted e s' = posted e s) /\
    empties s' = empties s + (match rest with [] => 1 | _ => 0 end) /\ elsewhere [] [] s s'.
Proof.
  intros Hi Hnow Hq H2w. pose proof Hi as [Ha Hst Hsto Hnum Hne Hroom].
  destruct (sender_ack_window _ _ _ _ _ _ Hi Hnow Hq) as (Hin&Hoff&Hle).
  assert (Forall (fun m : Z * bytes => (0 < length (snd m))%nat) rest) as Hne'
    by (apply Forall_app in Hne as [_ Hne]; apply Forall_app in Hne; apply Hne).
  destruct (on_ack_release_run start dn now rest ack s Hsto Hnow Hle Hne')
    as (v&s1&s2&s3&Hget&Hpair&Hrel&Hsig&Hsto3&Ha3&Hf3&Hb3&Hin3&Hout3&He3).
  unfold cw_on_ack. mstep (setup_eq s). rewrite Ha, win_area, Hin, Hoff.
  unfold offset. cbn [w_off sw_win sender_win].
  rewrite !bind_unfold, Hget, bind_unfold, Hpair, bind_unfold, Hrel, bind_unfold, Hsig.
  assert (forall s4, quiet s3 s4 -> elsewhere [] [] s3 s4 ->
    (forall e, e ∈ futures_of fut_at dn now -> posted e s4 = posted e s + 1) /\
    (forall e, e ∉ futures_of fut_at dn now -> posted e s4 = posted e s) /\
    empties s4 = empties s + (match rest with [] => 1 | _ => 0 end) /\ elsewhere [] [] s s4) as Hsg.
  { intros s4 [Hp4 He4] Hb4. split_and!; [| | |eauto using elsewhere_trans].
    - intros e He. rewrite Hp4. by apply Hin3.
    - intros e He. rewrite Hp4. by apply Hout3.
    - by rewrite He4. }
  pose proof (total_nonneg (dn ++ now)).
  assert (get_sz (Rwin start (total (dn ++ now)) OUTPUT_WINDOW_SZ)
          = OUTPUT_WINDOW_SZ - total (dn ++ now)) as ->
    by (unfold get_sz; cbn [w_sz w_off]; apply u64_small; unfold OUTPUT_WINDOW_SZ in *; lia).
  assert ((OUTPUT_WINDOW_SZ - total (dn ++ now) =? 0) = (total (dn ++ now) =? OUTPUT_WINDOW_SZ)) as -> by lia.
  rewrite app_assoc in Hroom. rewrite (total_app (dn ++ now) rest) in Hroom.
  destruct (Z.eqb_spec (total (dn ++ now)) OUTPUT_WINDOW_SZ) as [Hfull|Hopen].
  - destruct (refresh_law _ s3 Hsto3) as (s4&Href4&Hsto4&Ha4&Hf4&Hq4&Hb4).
    rewrite bind_unfold, Href4. unfold mret, M_ret. rewrite flush_eq.
    eexists. split; [reflexivity|]. split; [eauto using frame_trans, frame_cw|].
    split; [|apply Hsg; eauto using quiet_trans, quiet_cw, elsewhere_trans, elsewhere_cw]. split.
    + split; simpl; try done; unfold OUTPUT_WINDOW_SZ in *; try lia.
      * rewrite cwa_put. unfold send_next_window, next_window, area_of, sender_win.
        cbn [w_start w_sz sw_win w_off w_sent_off total app]. unfold OUTPUT_WINDOW_SZ in *.
        rewrite u64_small by lia. done.
      * apply stored_cw. done.
    + destruct rest as [|[q1 d1] rest]; [done|]. exfalso.
      inversion Hne'; subst. simpl in *. pose proof (total_nonneg rest). lia.
  - unfold mret, M_ret. rewrite flush_eq. eexists. split; [reflexivity|].
    split; [eauto using frame_trans, frame_cw|].
    split; [|apply Hsg; [apply quiet_cw|apply elsewhere_cw]].
    split; rewrite <- ?app_assoc; try done.
    + apply cwa_put.
    + apply stored_cw. done.
    + rewrite app_assoc, (total_app (dn ++ now) rest). lia.
Qed.

Lemma cw_on_ack_advances start dn now rest ack s :
  sender_inv start dn (now ++ rest) s -> now <> [] ->
  get_seq ack = start + total (dn ++ now) - 1 ->
  start + 2 * OUTPUT_WINDOW_SZ < modulus32 ->
  exists s',
    cw_on_ack (V:=V) (E:=E) ack s = (Ret tt, s') /\ frame s s' /\
    if total (dn ++ now) =? OUTPUT_WINDOW_SZ
    then sender_inv (start + OUTPUT_WINDOW_SZ) [] [] s' /\ rest = []
    else sender_inv start (dn ++ now) rest s'.
Proof.
  intros H1 H2 H3 H4. destruct (cw_on_ack_run _ _ _ _ _ _ H1 H2 H3 H4) as (s'&?&?&?&_). eauto.
Qed.

(** An acknowledgement outside the window, and not of the byte before it. *)
Lemma cw_on_ack_ignored_still start dn op ack s :
  sender_inv start dn op s -> 0 <= get_seq ack < modulus32 ->
  get_seq ack + 1 < start + total dn \/ start + OUTPUT_WINDOW_SZ <= get_seq ack ->
  exists s', cw_on_ack (V:=V) (E:=E) ack s = (Ret tt, s') /\ still s s' /\
    sender_inv start dn op s' /\ elsewhere [] [] s s'.
Proof.
  intros Hi Hr Hq. pose proof Hi as [Ha Hst Hsto Hnum Hne Hroom].
  pose proof (sender_win_in_space _ _ _ _ Hi) as Hsp.
  pose proof (sender_win_begin _ _ _ _ Hi) as Hbeg. pose proof (sender_win_end _ _ _ _ Hi) as Hend.
  unfold cw_on_ack. mstep (setup_eq s). rewrite Ha, win_area.
  assert (msg_in_win (sender_win start dn op) ack = false) as ->.
  { unfold msg_in_win. rewrite contains_single_in_space by done. rewrite Hbeg, Hend.
    apply andb_false_iff. pose proof (total_nonneg dn). lia. }
  assert (msg_in_prev_win (sender_win start dn op) ack = false) as ->.
  { unfold msg_in_prev_win. rewrite contains_in_space by done. rewrite Hbeg, Hend.
    unfold SINGLE_WINDOW, begin, end_. cbn [w_start w_off w_sz].
    rewrite (u64_small (get_seq ack + 1)), !u64_small by lia.
    apply andb_false_iff. pose proof (total_nonneg dn). lia. }
  eexists. split; [reflexivity|]. split; [apply still_cw|]. split; [|apply elsewhere_cw].
  split; try done; [apply cwa_put|apply stored_cw; done].
Qed.

Lemma cw_on_ack_ignored start dn op ack s :
  sender_inv start dn op s -> 0 <= get_seq ack < modulus32 ->
  get_seq ack + 1 < start + total dn \/ start + OUTPUT_WINDOW_SZ <= get_seq ack ->
  exists s', cw_on_ack (V:=V) (E:=E) ack s = (Ret tt, s') /\ frame s s' /\
    sender_inv start dn op s'.
Proof.
  intros H1 H2 H3. destruct (cw_on_ack_ignored_still _ _ _ _ _ H1 H2 H3) as (s'&?&[? _]&?&_). eauto.
Qed.

(** A repeated acknowledgement of the byte before the first outstanding
    message. *)
Lemma cw_on_ack_duplicate_still start dn q d op ack s :
  sender_inv start dn ((q, d) :: op) s -> get_seq ack + 1 = start + total dn -> 0 <= get_seq ack ->
  exists s', cw_on_ack (V:=V) (E:=E) ack s = (Ret tt, s') /\ still s s' /\
    sender_inv start dn ((q, d) :: op) s' /\ elsewhere dn (dn ++ [(q, d)]) s s' /\
    (forall v', output_sent_buf_get_msg_at (total dn) s = (Ret v', s) ->
      is_msg_used v' s = (Ret false, s) -> is_msg_used v' s' = (Ret false, s')).
Proof.
  intros Hi Hq Hq0. pose proof Hi as [Ha Hst Hsto Hnum Hne Hroom].
  pose proof (sender_win_in_space _ _ _ _ Hi) as Hsp.
  pose proof (sender_win_begin _ _ _ _ Hi) as Hbeg. pose proof (sender_win_end _ _ _ _ Hi) as Hend.
  pose proof (total_nonneg dn). unfold OUTPUT_WINDOW_SZ in Hroom.
  unfold cw_on_ack. mstep (setup_eq s). rewrite Ha, win_area.
  assert (msg_in_win (sender_win start dn ((q, d) :: op)) ack = false) as ->.
  { unfold msg_in_win.
    rewrite contains_single_in_space by (done || (unfold OUTPUT_WINDOW_SZ in *; lia)).
    rewrite Hbeg. apply andb_false_iff. lia. }
  assert (msg_in_prev_win (sender_win start dn ((q, d) :: op)) ack = true) as ->.
  { unfold msg_in_prev_win. rewrite contains_in_space by done. rewrite Hbeg, Hend.
    unfold SINGLE_WINDOW, begin, end_, OUTPUT_WINDOW_SZ in *. cbn [w_start w_off w_sz].
    rewrite (u64_small (get_seq ack + 1)), !u64_small by lia. lia. }
  rewrite !bind_unfold. unfold offset. cbn [w_off sw_win sender_win].
  destruct (get_law dn q d op s Hsto) as (v&Hget&Href). rewrite Hget.
  rewrite bind_unfold.
  apply numbered_app in Hnum as Hn. destruct Hn as [_ [Hqs _]].
  destruct (prev_law start dn q d op (total (dn ++ (q, d) :: op)) v ack s)
    as (s1&->&Hsto1&Ha1&Hf1&Hq1&Hb1&Hk1); [done..|].
  eexists. split; [reflexivity|].
  split; [eapply still_trans; [split; [exact Hf1|exact Hq1]|apply still_cw]|].
  split; [|split; [eauto using elsewhere_trans, elsewhere_cw|]];
    [|intros v' [= <-] Hu'; apply used_cw; exact (Hk1 v Hget Hu')].
  split; try done; [apply cwa_put|apply stored_cw; done].
Qed.

Lemma cw_on_ack_duplicate start dn q d op ack s :
  sender_inv start dn ((q, d) :: op) s -> get_seq ack + 1 = start + total dn -> 0 <= get_seq ack ->
  exists s', cw_on_ack (V:=V) (E:=E) ack s = (Ret tt, s') /\ frame s s' /\
    sender_inv start dn ((q, d) :: op) s'.
Proof.
  intros H1 H2 H3. destruct (cw_on_ack_duplicate_still _ _ _ _ _ _ _ H1 H2 H3) as (s'&?&[? _]&?&_). eauto.
Qed.

(** *** [check_msg_complete] *)

Lemma cw_check_still start dn op m s :
  sender_inv start dn op s -> 0 <= get_seq m < start + OUTPUT_WINDOW_SZ ->
  exists s', cw_check_msg_complete m s = (Ret (get_seq m <? start + total dn), s') /\
    sender_inv start dn op s' /\ still s s' /\ elsewhere [] [] s s'.
Proof.
  intros Hi Hm. pose proof Hi as [Ha Hst Hsto Hnum Hne Hroom].
  unfold cw_check_msg_complete. mstep (setup_eq s). rewrite Ha, win_area.
  unfold msg_in_win. rewrite contains_single_in_space
    by (try (eapply sender_win_in_space; exact Hi); lia).
  rewrite (sender_win_begin _ _ _ _ Hi), (sender_win_end _ _ _ _ Hi).
  assert (negb ((start + total dn <=? get_seq m) && (get_seq m <? start + OUTPUT_WINDOW_SZ))
          = (get_seq m <? start + total dn)) as -> by lia.
  eexists. split; [reflexivity|]. split; [|split; [apply still_cw|apply elsewhere_cw]].
  split; try done; [apply cwa_put|apply stored_cw; done].
Qed.

Lemma cw_check_ok start dn op m s :
  sender_inv start dn op s -> start <= get_seq m < start + OUTPUT_WINDOW_SZ ->
  exists s', cw_check_msg_complete m s = (Ret (get_seq m <? start + total dn), s') /\
    sender_inv start dn op s' /\ frame s s'.
Proof.
  intros H1 H2. pose proof (si_start _ _ _ _ H1).
  assert (0 <= get_seq m < start + OUTPUT_WINDOW_SZ) as Hm by lia.
  destruct (cw_check_still _ _ _ _ _ H1 Hm) as (s'&?&?&[? _]&_). eauto.
Qed.

(** *** [retry] *)

(** Retrying an outstanding message marks it, and nothing else, as unused. *)
Lemma cw_retry_still start dn o1 q d o2 m s :
  sender_inv start dn (o1 ++ (q, d) :: o2) s -> get_seq m = q ->
  exists v s',
    output_sent_buf_get_msg_at (total (dn ++ o1)) s = (Ret v, s) /\
    cw_retry (V:=V) (E:=E) m s = (Ret tt, s') /\ still s s' /\
    sender_inv start dn (o1 ++ (q, d) :: o2) s' /\
    refers v q d s' /\ is_msg_used v s' = (Ret false, s') /\
    elsewhere (dn ++ o1) ((dn ++ o1) ++ [(q, d)]) s s'.
Proof.
  intros Hi Hq. pose proof Hi as [Ha Hst Hsto Hnum Hne Hroom].
  pose proof (sender_win_in_space _ _ _ _ Hi) as Hsp.
  pose proof (sender_win_begin _ _ _ _ Hi) as Hbeg.
  set (w := sender_win start dn (o1 ++ (q, d) :: o2)) in *.
  pose proof (total_nonneg dn). pose proof (total_nonneg o1). pose proof (total_nonneg o2).
  rewrite app_assoc in Hnum. apply numbered_app in Hnum as [_ [Hqs _]].
  rewrite total_app in Hqs.
  rewrite !total_app in Hroom. cbn [total] in Hroom. unfold OUTPUT_WINDOW_SZ in Hst, Hroom.
  assert (s64 (u64 (get_in_msg_off (get_seq m) w + offset w)) = total (dn ++ o1)) as Hoff.
  { rewrite get_in_msg_off_distance by lia.
    rewrite seq_distance_in_space by (done || (rewrite Hbeg; lia)). rewrite Hbeg, Hq, Hqs.
    unfold offset. cbn [w_off sw_win w sender_win].
    rewrite u64_small, s64_small by lia. rewrite total_app. lia. }
  unfold cw_retry. mstep (setup_eq s). rewrite Ha, win_area. fold w. rewrite Hoff.
  rewrite app_assoc in Hsto.
  destruct (get_law (dn ++ o1) q d o2 s Hsto) as (v&Hget&Href).
  mstep Hget.
  destruct (mark_law (dn ++ o1) q d o2 v false s Hsto Hget) as (s1&Hm&Hsto1&Ha1&Href1&Hu1&Hf1&Hq1&Hb1).
  mstep Hm. rewrite flush_eq.
  exists v. eexists. split_and!; try done; try reflexivity.
  - eapply still_trans; [split; [exact Hf1|exact Hq1]|apply still_cw].
  - split; try done; [apply cwa_put|apply stored_cw; rewrite app_assoc; done|..].
    + rewrite app_assoc. apply numbered_app.
      destruct Hi as [_ _ _ Hn _ _]. rewrite app_assoc in Hn. apply numbered_app in Hn. done.
    + rewrite !total_app. cbn [total]. unfold OUTPUT_WINDOW_SZ. lia.
  - apply refers_cw. done.
  - apply used_cw. done.
  - eauto using elsewhere_trans, elsewhere_cw.
Qed.

Lemma cw_retry_ok start dn o1 q d o2 m s :
  sender_inv start dn (o1 ++ (q, d) :: o2) s -> get_seq m = q ->
  exists v s',
    output_sent_buf_get_msg_at (total (dn ++ o1)) s = (Ret v, s) /\
    cw_retry (V:=V) (E:=E) m s = (Ret tt, s') /\ frame s s' /\
    sender_inv start dn (o1 ++ (q, d) :: o2) s' /\
    refers v q d s' /\ is_msg_used v s' = (Ret false, s').
Proof.
  intros H1 H2. destruct (cw_retry_still _ _ _ _ _ _ _ _ H1 H2) as (v&s'&?&?&[? _]&?&?&?&_). eauto 10.
Qed.

(** *** [next_msg] *)

Context `{!SendWait St}.

Lemma cw_next_msg_unfold start dn q d op fuel s :
  sender_inv start dn ((q, d) :: op) s ->
  cw_next_msg (V:=V) (E:=E) fuel s =
    next_msg_loop (V:=V) (E:=E) fuel (sender_win start dn ((q, d) :: op)) (total dn) s.
Proof.
  intros Hi. pose proof Hi as [Ha _ _ _ Hne _]. apply Forall_app in Hne as [_ Hne].
  unfold cw_next_msg. mstep (setup_eq s). rewrite Ha, win_area.
  rewrite (sender_empty start dn ((q, d) :: op) Hne). cbn [when].
  rewrite bind_unfold. cbn [mret M_ret]. mstep (setup_eq s). rewrite Ha, win_area. done.
Qed.

(** The scan looks at the first outstanding message.  Unused, it is marked
    and returned.  Used, the scan skips by the first message's number divided
    by 256. *)
Lemma cw_next_msg_first_still start dn q d op s :
  sender_inv start dn ((q, d) :: op) s ->
  exists v b,
    output_sent_buf_get_msg_at (total dn) s = (Ret v, s) /\ refers v q d s /\
    is_msg_used v s = (Ret b, s) /\
    forall fuel,
    if b : bool then
      cw_next_msg (V:=V) (E:=E) (S fuel) s =
        next_msg_loop (V:=V) (E:=E) fuel (sender_win start dn ((q, d) :: op))
          (total dn + (start + total dn) `div` 256) s
    else
      exists s', cw_next_msg (V:=V) (E:=E) (S fuel) s = (Ret v, s') /\ still s s' /\
        sender_inv start dn ((q, d) :: op) s' /\ refers v q d s' /\
        is_msg_used v s' = (Ret true, s') /\ elsewhere dn (dn ++ [(q, d)]) s s'.
Proof.
  intros Hi. pose proof Hi as [Ha Hst Hsto Hnum Hne Hroom].
  destruct (get_law dn q d op s Hsto) as (v&Hget&Href).
  destruct (used_law v q d s Href) as (b&Hu).
  pose proof (total_nonneg dn). pose proof (total_nonneg op).
  apply numbered_app in Hnum as [_ [Hqs _]].
  assert (total dn < total (dn ++ (q, d) :: op)) as Hlt.
  { apply Forall_app in Hne as [_ Hne]. inversion Hne; subst. rewrite total_app. simpl in *. lia. }
  exists v, b. split_and!; try done. intros fuel.
  rewrite (cw_next_msg_unfold start dn q d op (S fuel) s Hi). cbn [next_msg_loop].
  cbn [w_sent_off sender_win]. rewrite (proj2 (Z.ltb_lt _ _)) by done.
  destruct b.
  - mstep Hget. mstep Hu. mstep (size_law v q d s Href). rewrite Hqs.
    rewrite s64_small; [done|]. unfold OUTPUT_WINDOW_SZ in *.
    Z.to_euclidean_division_equations; lia.
  - destruct (mark_law dn q d op v true s Hsto Hget) as (s1&Hm&Hsto1&Ha1&Href1&Hu1&Hf1&Hq1&Hb1).
    eexists. split; [|split_and!; [| |apply refers_cw, Href1|apply used_cw, Hu1|]].
    + mstep Hget. mstep Hu. mstep Hm. mstep (flush_eq (sender_win start dn ((q, d) :: op)) s1). done.
    + eapply still_trans; [split; [exact Hf1|exact Hq1]|apply still_cw].
    + split; try done; [apply cwa_put|apply stored_cw; done|].
      apply numbered_app. destruct Hi as [_ _ _ Hn _ _]. apply numbered_app in Hn. done.
    + eauto using elsewhere_trans, elsewhere_cw.
Qed.

Lemma cw_next_msg_first start dn q d op s :
  sender_inv start dn ((q, d) :: op) s ->
  exists v b,
    output_sent_buf_get_msg_at (total dn) s = (Ret v, s) /\ refers v q d s /\
    is_msg_used v s = (Ret b, s) /\
    forall fuel,
    if b : bool then
      cw_next_msg (V:=V) (E:=E) (S fuel) s =
        next_msg_loop (V:=V) (E:=E) fuel (sender_win start dn ((q, d) :: op))
          (total dn + (start + total dn) `div` 256) s
    else
      exists s', cw_next_msg (V:=V) (E:=E) (S fuel) s = (Ret v, s') /\ frame s s' /\
        sender_inv start dn ((q, d) :: op) s' /\ refers v q d s' /\
        is_msg_used v s' = (Ret true, s').
Proof.
  intros H1. destruct (cw_next_msg_first_still _ _ _ _ _ _ H1) as (v&b&?&?&?&Hb).
  exists v, b. split_and!; try done. intros fuel. specialize (Hb fuel). destruct b; [done|].
  destruct Hb as (s'&?&[? _]&?&?&?&_). eauto 10.
Qed.

(** With a used first message and a start of at least 256000 the scan leaves
    the window at once. *)
Lemma next_msg_loop_past (w : send_window) off fuel s :
  w_sent_off w <= off ->
  next_msg_loop (V:=V) (E:=E) fuel w off s = (Throw ETimeout, s).
Proof. intros Hle. destruct fuel; simpl; rewrite (proj2 (Z.ltb_ge _ _)) by done; done. Qed.

(** With a number below 256 the scan never moves. *)
Lemma next_msg_loop_stuck start dn q d op v s fuel :
  sender_inv start dn ((q, d) :: op) s -> start + total dn < 256 ->
  output_sent_buf_get_msg_at (total dn) s = (Ret v, s) -> refers v q d s ->
  is_msg_used v s = (Ret true, s) ->
  next_msg_loop (V:=V) (E:=E) fuel (sender_win start dn ((q, d) :: op)) (total dn) s
    = (Fault out_of_fuel, s).
Proof.
  intros Hi Hq Hget Href Hu. pose proof Hi as [Ha Hst Hsto Hnum Hne Hroom].
  pose proof (total_nonneg dn). pose proof (total_nonneg op).
  apply numbered_app in Hnum as [_ [Hqs _]].
  assert (total dn < total (dn ++ (q, d) :: op)) as Hlt.
  { apply Forall_app in Hne as [_ Hne]. inversion Hne; subst. rewrite total_app. simpl in *. lia. }
  induction fuel as [|fuel IH]; cbn [next_msg_loop]; cbn [w_sent_off sender_win];
    rewrite (proj2 (Z.ltb_lt _ _)) by done; [done|].
  mstep Hget. mstep Hu. mstep (size_law v q d s Href).
  assert (s64 (total dn + q `div` 256) = total dn) as ->; [|exact IH].
  rewrite Z.div_small, Z.add_0_r, s64_small by (unfold OUTPUT_WINDOW_SZ in *; lia). done.
Qed.

(** ** Properties *)

(** C21: [send] gives a message the number of the first byte not yet sent in
    the window, stores it behind the others and advances the window's send
    offset, when the rest of the window has room for it; otherwise it throws
    [drop] and nothing has changed.  Messages are therefore numbered without
    gap or overlap. *)
Theorem send_numbers_consecutively start dn op d s :
  sender_inv start dn op s -> (0 < length d)%nat -> Forall is_byte d ->
  if total (dn ++ op) + Z.of_nat (length d) <=? OUTPUT_WINDOW_SZ then
    exists e s',
      cw_send (E:=E) (tmp_msg d) s =
        (Ret (set_seq (start + total (dn ++ op)) (tmp_msg d), e), s') /\
      sender_inv start dn (op ++ [(start + total (dn ++ op), d)]) s' /\ frame s s'
  else cw_send (E:=E) (tmp_msg d) s = (Throw EDrop, s).
Proof.
  intros Hi Hd Hb. destruct (Z.leb_spec (total (dn ++ op) + Z.of_nat (length d)) OUTPUT_WINDOW_SZ).
  - apply cw_send_ok; done.
  - apply (cw_send_drops start dn op d s); done.
Qed.

(** C20: cumulative acknowledgement: an acknowledgement of the last byte of
    some outstanding message acknowledges that message and all before it; the
    window's offset moves just past it, and when the whole window is
    acknowledged the next window begins where this one ends, with an empty
    buffer. *)
Theorem ack_slides_the_window start dn now rest ack s :
  sender_inv start dn (now ++ rest) s -> now <> [] ->
  get_seq ack = start + total (dn ++ now) - 1 ->
  start + 2 * OUTPUT_WINDOW_SZ < modulus32 ->
  exists s',
    cw_on_ack (V:=V) (E:=E) ack s = (Ret tt, s') /\ frame s s' /\
    if total (dn ++ now) =? OUTPUT_WINDOW_SZ
    then sender_inv (start + OUTPUT_WINDOW_SZ) [] [] s' /\ rest = []
    else sender_inv start (dn ++ now) rest s'.
Proof. apply cw_on_ack_advances. Qed.

(** Acknowledgements of anything older, repeated ones while messages are
    outstanding, and ones from beyond the window leave the window and the
    messages in the buffer as they are. *)
Lemma other_acks_change_nothing start dn q d op ack s :
  sender_inv start dn ((q, d) :: op) s -> 0 <= get_seq ack < modulus32 ->
  get_seq ack < start + total dn \/ start + OUTPUT_WINDOW_SZ <= get_seq ack ->
  exists s', cw_on_ack (V:=V) (E:=E) ack s = (Ret tt, s') /\ frame s s' /\
    sender_inv start dn ((q, d) :: op) s'.
Proof.
  intros Hi Hr Hq. destruct (Z.eq_dec (get_seq ack + 1) (start + total dn)) as [He|He].
  - apply (cw_on_ack_duplicate start dn q d op ack s); (done || lia).
  - apply (cw_on_ack_ignored start dn ((q, d) :: op) ack s); (done || lia).
Qed.

(** [check_msg_complete] says of a message of the current window exactly
    whether its first byte has been acknowledged. *)
Lemma complete_iff_acknowledged start dn op m s :
  sender_inv start dn op s -> start <= get_seq m < start + OUTPUT_WINDOW_SZ ->
  exists s', cw_check_msg_complete m s = (Ret (get_seq m <? start + total dn), s') /\
    sender_inv start dn op s' /\ frame s s'.
Proof. apply cw_check_ok. Qed.

(** A retried first message is the next one to be sent: after [retry],
    [next_msg] returns it and marks it as used. *)
Lemma retried_message_is_next start dn q d op m fuel s :
  sender_inv start dn ((q, d) :: op) s -> get_seq m = q ->
  exists v s',
    (cw_retry (V:=V) (E:=E) m;; cw_next_msg (V:=V) (E:=E) (S fuel)) s = (Ret v, s') /\
    refers v q d s' /\ is_msg_used v s' = (Ret true, s') /\
    sender_inv start dn ((q, d) :: op) s' /\ frame s s'.
Proof.
  intros Hi Hm.
  destruct (cw_retry_ok start dn [] q d op m s Hi Hm) as (v&s1&Hg&Hr&Hf&Hi1&Href&Hu).
  destruct (cw_next_msg_first start dn q d op s1 Hi1) as (v1&b&Hg1&Href1&Hu1&Hnext).
  rewrite app_nil_r in Hg.
  assert (v1 = v) as ->.
  { destruct Hi1 as [_ _ Hsto1 _ _ _]. destruct Hi as [_ _ Hsto _ _ _].
    destruct (place_law dn q d op s s1 Hsto Hsto1) as (v2&H2&H3). congruence. }
  assert (b = false) as -> by congruence.
  destruct (Hnext fuel) as (s2&Hn&Hf2&Hi2&Href2&Hu2).
  exists v, s2. mstep Hr. split_and!; try done. eauto using frame_trans.
Qed.

(** C37: the scan of [next_msg] never reaches a second message: when the first
    outstanding message is in use and the window starts at 256000 or later,
    the scan gives up with [timeout] whatever is behind that message; and in
    a window whose first outstanding message is numbered below 256 it never
    ends. *)
Theorem scan_never_passes_first start dn q d op v s :
  sender_inv start dn ((q, d) :: op) s ->
  output_sent_buf_get_msg_at (total dn) s = (Ret v, s) -> is_msg_used v s = (Ret true, s) ->
  (256000 <= start -> forall fuel, cw_next_msg (V:=V) (E:=E) (S fuel) s = (Throw ETimeout, s)) /\
  (start + total dn < 256 -> forall fuel,
     cw_next_msg (V:=V) (E:=E) fuel s = (Fault out_of_fuel, s)).
Proof.
  intros Hi Hg Hu.
  destruct (cw_next_msg_first start dn q d op s Hi) as (v1&b&Hg1&Href&Hu1&Hnext).
  assert (v1 = v) as -> by congruence. assert (b = true) as -> by congruence.
  split; intros Hs fuel.
  - rewrite Hnext. apply next_msg_loop_past.
    pose proof Hi as [_ _ _ _ _ [_ Hroom]]. pose proof (total_nonneg dn).
    cbn [w_sent_off sender_win]. unfold OUTPUT_WINDOW_SZ in Hroom.
    Z.to_euclidean_division_equations. lia.
  - rewrite (cw_next_msg_unfold start dn q d op fuel s Hi).
    eapply next_msg_loop_stuck; done.
Qed.

End sender.
