(* ===== verification/Nagles.v ===== *)
(** * Nagles: the splitter [nagles] of [src/src/tcp_proto_output.h]

    Lines 209-242: cuts a client's data into messages.  A full MTU goes out
    at once when the window is larger than that; anything smaller waits until
    everything sent before is acknowledged. *)
From S2P Require Import Prelude.

(** What the component asks of its controller. *)
Class NaglesController (St E : Type) : Type := {
  output_get_mtu : M St Z;
  output_bounded_win_sz : M St Z;
  output_send_as_single_package : bytes -> M St E;
  output_wait_on_send_buf_empty : M St unit;
}.

Section nagles.
Context {St E : Type} `{!NaglesController St E}.

(** The loop [while (data_sz > 0)], [fuel] iterations at most. *)
Fixpoint nagles_send (fuel : nat) (data : bytes) : M St (list E) :=
  match data with
  | [] => mret []
  | _ :: _ =>
      match fuel with
      | O => faults out_of_fuel
      | S fuel =>
          mtu ← output_get_mtu;
          win_sz ← output_bounded_win_sz;
          let data_sz := Z.of_nat (length data) in
          if (mtu <? win_sz) && (mtu <=? data_sz) then
            sent ← try_catch
              (e ← output_send_as_single_package (take (Z.to_nat mtu) data); mret (Some e))
              is_drop
              (output_wait_on_send_buf_empty;; mret None);
            match sent with
            | None => nagles_send fuel data
            | Some e =>
                rest ← nagles_send fuel (drop (Z.to_nat mtu) data);
                mret (e :: rest)
            end
          else
            let segment := Z.min mtu (Z.min win_sz data_sz) in
            output_wait_on_send_buf_empty;;
            e ← output_send_as_single_package (take (Z.to_nat segment) data);
            rest ← nagles_send fuel (drop (Z.to_nat segment) data);
            mret (e :: rest)
      end
  end.

(** One round, for data that is not empty. *)
Lemma nagles_unfold fuel data :
  data <> [] ->
  nagles_send (S fuel) data =
    (mtu ← output_get_mtu;
     win_sz ← output_bounded_win_sz;
     let data_sz := Z.of_nat (length data) in
     if (mtu <? win_sz) && (mtu <=? data_sz) then
       sent ← try_catch
         (e ← output_send_as_single_package (take (Z.to_nat mtu) data); mret (Some e))
         is_drop
         (output_wait_on_send_buf_empty;; mret None);
       match sent with
       | None => nagles_send fuel data
       | Some e => rest ← nagles_send fuel (drop (Z.to_nat mtu) data); mret (e :: rest)
       end
     else
       let segment := Z.min mtu (Z.min win_sz data_sz) in
       output_wait_on_send_buf_empty;;
       e ← output_send_as_single_package (take (Z.to_nat segment) data);
       rest ← nagles_send fuel (drop (Z.to_nat segment) data);
       mret (e :: rest)).
Proof. destruct data; done. Qed.

End nagles.

(** ** What the splitter may rely on

    [nagles_ok b ps es data s]: [ps] has been handed to the window so far, with
    the futures [es], [data] is to come, and at most [b] more rounds will hand
    over nothing of it, because the package is dropped or the window is zero.
    A full package may be dropped, and then the splitter waits until the buffer
    is empty; one that is sent after that wait is not.  With a zero window the
    package sent is an empty one. *)
Class NaglesLaws (St E : Type) `{!NaglesController St E} : Type := {
  nagles_ok : nat -> list bytes -> list E -> bytes -> St -> Prop;
  link_mtu : Z;
  mtu_pos : 1 <= link_mtu;
  mtu_law b ps es data s : nagles_ok b ps es data s -> output_get_mtu s = (Ret link_mtu, s);
  win_law b ps es data s :
    nagles_ok b ps es data s -> exists w, output_bounded_win_sz s = (Ret w, s) /\ 0 <= w;
  full_law b ps es d data s :
    nagles_ok b ps es (d ++ data) s -> Forall is_byte d -> Z.of_nat (length d) = link_mtu ->
    (exists e s', output_send_as_single_package d s = (Ret e, s') /\
       nagles_ok b (ps ++ [d]) (es ++ [e]) data s') \/
    (exists x s1 s2 b', output_send_as_single_package d s = (Throw x, s1) /\ is_drop x = true /\
       output_wait_on_send_buf_empty s1 = (Ret tt, s2) /\
       b = S b' /\ nagles_ok b' ps es (d ++ data) s2);
  rest_law b ps es d data s :
    nagles_ok b ps es (d ++ data) s -> Forall is_byte d -> 1 <= Z.of_nat (length d) <= link_mtu ->
    exists s1 e s2, output_wait_on_send_buf_empty s = (Ret tt, s1) /\
      output_send_as_single_package d s1 = (Ret e, s2) /\
      nagles_ok b (ps ++ [d]) (es ++ [e]) data s2;
  zero_law b ps es data s :
    nagles_ok b ps es data s -> data <> [] -> output_bounded_win_sz s = (Ret 0, s) ->
    exists s1 e s2 b', output_wait_on_send_buf_empty s = (Ret tt, s1) /\
      output_send_as_single_package [] s1 = (Ret e, s2) /\
      b = S b' /\ nagles_ok b' (ps ++ [[]]) (es ++ [e]) data s2;
}.

Section nagles_spec.
Context {St E : Type} `{NaglesLaws St E}.

(** One round of the loop sends a first piece of the data, or is one of those
    that send nothing of it: a package was dropped, or an empty one was sent. *)
Lemma nagles_round fuel b data ps es s :
  nagles_ok b ps es data s -> data <> [] -> Forall is_byte data ->
  (exists n s' e,
     (0 < n <= length data)%nat /\ Z.of_nat n <= link_mtu /\
     nagles_ok b (ps ++ [take n data]) (es ++ [e]) (drop n data) s' /\
     nagles_send (E:=E) (S fuel) data s =
       (rest ← nagles_send fuel (drop n data); mret (e :: rest)) s') \/
  (exists b' s', b = S b' /\ nagles_ok b' ps es data s' /\
     nagles_send (E:=E) (S fuel) data s = nagles_send fuel data s') \/
  (exists b' s' e, b = S b' /\ nagles_ok b' (ps ++ [[]]) (es ++ [e]) data s' /\
     nagles_send (E:=E) (S fuel) data s = (rest ← nagles_send fuel data; mret (e :: rest)) s').
Proof.
  intros Hok Hd Hb. pose proof mtu_pos as Hmtu.
  destruct (win_law b ps es data s Hok) as (w&Hw&Hw0).
  assert (1 <= Z.of_nat (length data)) as Hlen by (destruct data; [done|simpl; lia]).
  rewrite (nagles_unfold fuel data Hd).
  rewrite (run_ret _ _ _ _ _ (mtu_law b ps es data s Hok)), (run_ret _ _ _ _ _ Hw). cbv zeta.
  destruct ((link_mtu <? w) && (link_mtu <=? Z.of_nat (length data))) eqn:Hfull.
  - apply andb_true_iff in Hfull as [_ Hfull]. apply Z.leb_le in Hfull.
    set (n := Z.to_nat link_mtu). assert (0 < n <= length data)%nat as Hn by lia.
    pose proof Hok as Hok0. rewrite <- (take_drop n data) in Hok0.
    destruct (full_law b ps es (take n data) (drop n data) s Hok0)
      as [(e&s'&Hs&Hok')|(x&s1&s2&b'&Hs&Hx&Hwait&->&Hok')];
      [by apply Forall_take|rewrite length_take; lia|left|right; left].
    + exists n, s', e. split_and!; try done; try lia.
      unfold try_catch. rewrite !bind_unfold, Hs. done.
    + rewrite take_drop in Hok'. exists b', s2. split_and!; try done.
      unfold try_catch. rewrite !bind_unfold, Hs, Hx. by rewrite bind_unfold, Hwait.
  - destruct (Z.eq_dec w 0) as [->|Hw1]; [right; right|left].
    + destruct (zero_law b ps es data s Hok Hd Hw) as (s1&e&s2&b'&Hwait&Hs&->&Hok').
      exists b', s2, e. split_and!; try done.
      replace (Z.min link_mtu (Z.min 0 (Z.of_nat (length data)))) with 0 by lia.
      change (take (Z.to_nat 0) data) with (@nil Z). change (drop (Z.to_nat 0) data) with data.
      rewrite (run_ret _ _ _ _ _ Hwait), (run_ret _ _ _ _ _ Hs). done.
    + set (n := Z.to_nat (Z.min link_mtu (Z.min w (Z.of_nat (length data))))).
      assert (0 < n <= length data)%nat as Hn by lia.
      pose proof Hok as Hok0. rewrite <- (take_drop n data) in Hok0.
      destruct (rest_law b ps es (take n data) (drop n data) s Hok0)
        as (s1&e&s2&Hwait&Hs&Hok'); [by apply Forall_take|rewrite length_take; lia|].
      exists n, s2, e. split_and!; try done; try lia.
      rewrite (run_ret _ _ _ _ _ Hwait), (run_ret _ _ _ _ _ Hs). done.
Qed.

(** How many packages are empty. *)
Definition empties (ps : list bytes) : nat := length (filter (fun p => p = []) ps).

(** The loop, in at most one round per byte and one per round that sends
    nothing. *)
Lemma nagles_send_ok fuel b data ps es s :
  (length data + b <= fuel)%nat -> nagles_ok b ps es data s -> Forall is_byte data ->
  exists es' s' ps' b',
    nagles_send (E:=E) fuel data s = (Ret es', s') /\
    nagles_ok b' (ps ++ ps') (es ++ es') [] s' /\ (b' + empties ps' <= b)%nat /\
    concat ps' = data /\ length es' = length ps' /\
    Forall (fun p : bytes => Z.of_nat (length p) <= link_mtu) ps'.
Proof.
  revert b data ps es s. induction fuel as [|fuel IH]; intros b data ps es s Hf Hok Hb.
  all: destruct (decide (data = [])) as [->|Hd];
    [exists [], s, [], b; rewrite !app_nil_r; split_and!; (done || (unfold empties; cbn; lia))|].
  { destruct data; [done|cbn [length] in Hf; lia]. }
  assert (0 < length data)%nat as Hlen by (destruct data; [done|simpl; lia]).
  destruct (nagles_round fuel b data ps es s Hok Hd Hb)
    as [(n&s1&e&Hn&Hnm&Hok1&Hrun)|[(b1&s1&->&Hok1&Hrun)|(b1&s1&e&->&Hok1&Hrun)]]; rewrite Hrun.
  - assert (length (drop n data) = length data - n)%nat as Hdl by apply length_drop.
    destruct (IH b (drop n data) _ _ s1 ltac:(lia) Hok1) as (es'&s2&ps'&b'&H2&Hok2&Hbb&Hc&Hl&Hall);
      [by apply Forall_drop|].
    exists (e :: es'), s2, (take n data :: ps'), b'. mstep H2. split_and!; try done.
    + rewrite <- !app_assoc in Hok2. exact Hok2.
    + unfold empties in *. rewrite filter_cons_False; [done|].
      intros He. apply (f_equal length) in He. rewrite length_take in He. cbn in He. lia.
    + cbn [concat]. rewrite Hc. apply take_drop.
    + simpl. lia.
    + constructor; [|done]. rewrite length_take. lia.
  - destruct (IH b1 data ps es s1 ltac:(lia) Hok1 Hb) as (es'&s2&ps'&b'&H2&Hok2&Hbb&Hrest).
    exists es', s2, ps', b'. split_and!; try apply Hrest; try done. lia.
  - destruct (IH b1 data _ _ s1 ltac:(lia) Hok1 Hb) as (es'&s2&ps'&b'&H2&Hok2&Hbb&Hc&Hl&Hall).
    exists (e :: es'), s2, ([] :: ps'), b'. mstep H2. split_and!; try done.
    + rewrite <- !app_assoc in Hok2. exact Hok2.
    + unfold empties in *. rewrite filter_cons_True by done. simpl. lia.
    + simpl. lia.
    + constructor; [|done]. simpl. pose proof mtu_pos. lia.
Qed.

(** ** Properties *)

(** C31: the splitter finishes and loses nothing, even when packages are
    dropped and when the window is zero for a while.  If no more than [b] of
    its rounds send nothing, it ends within one round per byte and [b] more;
    the packages handed over, put together, are the data, in order and none of
    it twice; each is at most one MTU long and no more than [b] of them are
    empty; there is one future for each. *)
Theorem nagles_splits_losslessly b data ps es s :
  nagles_ok b ps es data s -> Forall is_byte data ->
  exists es' s' ps' b',
    nagles_send (E:=E) (length data + b) data s = (Ret es', s') /\
    nagles_ok b' (ps ++ ps') (es ++ es') [] s' /\ (b' + empties ps' <= b)%nat /\
    concat ps' = data /\ length es' = length ps' /\
    Forall (fun p : bytes => Z.of_nat (length p) <= link_mtu) ps'.
Proof. apply nagles_send_ok. done. Qed.
End nagles_spec.

(** A window of zero makes the splitter loop for ever: it waits for the
    buffer to be empty, sends a package of no bytes, and tries again with the
    same data. *)
Lemma nagles_spins_on_zero_window {St E : Type} `{!NaglesController St E} mtu fuel data (s : St) :
  data <> [] -> 0 <= mtu ->
  (forall s, output_get_mtu (E:=E) s = (Ret mtu, s)) ->
  (forall s, output_bounded_win_sz (E:=E) s = (Ret 0, s)) ->
  (forall s, exists s', output_wait_on_send_buf_empty (E:=E) s = (Ret tt, s')) ->
  (forall s, exists e s', output_send_as_single_package (E:=E) [] s = (Ret e, s')) ->
  exists s', nagles_send (E:=E) fuel data s = (Fault out_of_fuel, s').
Proof.
  intros Hd Hm Hmtu Hwin Hwait Hsend. revert s. induction fuel as [|fuel IH]; intros s.
  - destruct data; [done|]. exists s. done.
  - rewrite (nagles_unfold fuel data Hd).
    rewrite (run_ret _ _ _ _ _ (Hmtu s)), (run_ret _ _ _ _ _ (Hwin s)). cbv zeta.
    rewrite (proj2 (Z.ltb_ge mtu 0)) by done. cbn [andb].
    assert (Z.min mtu (Z.min 0 (Z.of_nat (length data))) = 0) as -> by lia.
    destruct (Hwait s) as (s1&H1). rewrite (run_ret _ _ _ _ _ H1).
    change (take (Z.to_nat 0) data) with (@nil Z). change (drop (Z.to_nat 0) data) with data.
    destruct (Hsend s1) as (e&s2&H2). rewrite (run_ret _ _ _ _ _ H2).
    destruct (IH s2) as (s3&H3). exists s3. rewrite bind_unfold, H3. done.
Qed.

(** ** A link that drops packages, closes its window and records what it takes

    MTU 4, room for 7 bytes, a window of zero until [p_closed] empty packages
    have been sent and of 6 from then on; a package that does not fit is
    dropped, and waiting until the buffer is empty makes room. *)

Record pipe : Type := Pipe { p_room : Z; p_closed : nat; p_sent : list bytes }.

#[export] Instance pipe_controller : NaglesController pipe nat := {|
  output_get_mtu := mret 4;
  output_bounded_win_sz := fun s => (Ret (match p_closed s with O => 6 | _ => 0 end), s);
  output_send_as_single_package := fun d s =>
    if p_room s <? Z.of_nat (length d) then (Throw EDrop, s)
    else (Ret (length (p_sent s)),
          Pipe (p_room s - Z.of_nat (length d))
            (match d with [] => pred (p_closed s) | _ => p_closed s end) (p_sent s ++ [d]));
  output_wait_on_send_buf_empty := fun s => (Ret tt, Pipe 7 (p_closed s) (p_sent s));
|}.

(** A full package is dropped at most once, and not when there is room for it
    now. *)
Definition pipe_idle (data : bytes) (s : pipe) : Z :=
  Z.of_nat (p_closed s) +
  Z.max 0 (Z.of_nat (length data) `div` 4 - (if 4 <=? p_room s then 1 else 0)).

#[export] Instance pipe_laws : NaglesLaws pipe nat.
Proof.
  refine {| nagles_ok := fun b ps _ data s =>
              p_sent s = ps /\ 0 <= p_room s <= 7 /\ pipe_idle data s <= Z.of_nat b;
            link_mtu := 4 |}.
  - lia.
  - done.
  - intros b ps es data s _. eexists. split; [reflexivity|]. destruct (p_closed s); lia.
  - intros b ps es d data s (Hs&Hr&Hb) _ Hd. cbn. unfold pipe_idle in *. rewrite length_app in Hb.
    destruct d as [|x d]; [done|]. destruct (Z.ltb_spec (p_room s) (Z.of_nat (length (x :: d)))) as [Hlt|Hge].
    + right. exists EDrop, s, (Pipe 7 (p_closed s) (p_sent s)), (pred b). cbn [p_room p_closed p_sent].
      rewrite length_app. destruct (Z.leb_spec 4 (p_room s)); [lia|]. cbn match in *.
      change (4 <=? 7) with true. cbn match. split_and!; try done; Z.to_euclidean_division_equations; lia.
    + left. eexists _, _. split; [reflexivity|]. cbn [p_room p_closed p_sent].
      split; [by rewrite Hs|]. split; [lia|].
      destruct (Z.leb_spec 4 (p_room s)), (Z.leb_spec 4 (p_room s - Z.of_nat (length (x :: d))));
        Z.to_euclidean_division_equations; lia.
  - intros b ps es d data s (Hs&Hr&Hb) _ Hd. unfold pipe_idle in *. rewrite length_app in Hb.
    destruct d as [|x d]; [cbn in Hd; lia|]. eexists _, _, _. split; [reflexivity|]. cbn.
    change (Z.of_nat (S (length d))) with (Z.of_nat (length (x :: d))).
    rewrite (proj2 (Z.ltb_ge _ _)) by lia. split; [reflexivity|]. cbn [p_room p_closed p_sent].
    split; [by rewrite Hs|]. split; [lia|].
    destruct (Z.leb_spec 4 (p_room s)), (Z.leb_spec 4 (7 - Z.of_nat (length (x :: d))));
      Z.to_euclidean_division_equations; lia.
  - intros b ps es data s (Hs&Hr&Hb) _ Hw. cbn in Hw. unfold pipe_idle in *.
    destruct (p_closed s) as [|k] eqn:Hk; [done|].
    eexists _, _, _, (pred b). split; [reflexivity|]. cbn. split; [reflexivity|].
    cbn [p_room p_closed p_sent]. rewrite Hk. cbn [pred]. change (4 <=? 7 - Z.of_nat 0) with true. cbn match.
    split; [lia|]. split; [by rewrite Hs|]. split; [lia|].
    destruct (Z.leb_spec 4 (p_room s)); Z.to_euclidean_division_equations; lia.
Defined.

(** Ten bytes with two empty packages first, and the second full package
    dropped once. *)
Lemma nagles_splits_losslessly_witness :
  nagles_send (E:=nat) 14 [1; 2; 3; 4; 5; 6; 7; 8; 9; 10] (Pipe 7 2 []) =
    (Ret [0; 1; 2; 3; 4]%nat, Pipe 5 0 [[]; []; [1; 2; 3; 4]; [5; 6; 7; 8]; [9; 10]]) /\
  exists es s' ps,
    nagles_send (E:=nat) 14 [1; 2; 3; 4; 5; 6; 7; 8; 9; 10] (Pipe 7 2 []) = (Ret es, s') /\
    p_sent s' = [] ++ ps /\
    concat ps = [1; 2; 3; 4; 5; 6; 7; 8; 9; 10] /\ length es = length ps.
Proof.
  split; [vm_compute; reflexivity|].
  destruct (nagles_splits_losslessly (E:=nat) 4 [1; 2; 3; 4; 5; 6; 7; 8; 9; 10] [] [] (Pipe 7 2 []))
    as (es&s'&ps&b'&H1&[H2 _]&_&H3&H4&_);
    [split; [done|split; [simpl; lia|vm_compute; discriminate]]|repeat constructor; unfold is_byte; lia|].
  exists es, s', ps. split; [exact H1|]. split; [exact H2|]. split; [exact H3|exact H4].
Defined.

(** The link of a witness: MTU 1444, and the window given. *)
Definition unit_controller (win : Z) : NaglesController unit unit := {|
  output_get_mtu := mret 1444;
  output_bounded_win_sz := mret win;
  output_send_as_single_package := fun _ => mret tt;
  output_wait_on_send_buf_empty := mret tt;
|}.

Lemma nagles_spins_on_zero_window_witness :
  exists s', @nagles_send unit unit (unit_controller 0) 1000 [1; 2; 3] tt = (Fault out_of_fuel, s').
Proof.
  apply (@nagles_spins_on_zero_window unit unit (unit_controller 0) 1444 1000 [1; 2; 3] tt);
    try done; intros []; repeat eexists.
Defined.
