(* ===== verification/Input.v ===== *)
(** * Input: the receiving side ([src/src/tcp_proto_input.h])

    [receiver_window_processing] (14-121) and [receiver_buffer_processing]
    (123-142).  [InputController] is what the template asks of its controller;
    [InputLock] is the lock that the [mem_ctl] of the area holds, which
    [ctl.call] releases around a call into the controller. *)
From S2P Require Import Prelude Window Message ProtoMem.

Class InputLock (St : Type) : Type := {
  ctl_lock : M St unit;
  ctl_unlock : M St unit;
}.

Class InputController (St : Type) : Type := {
  input_buf_put_data : Z -> bytes -> M St unit;
  input_buf_flush : Z -> Z -> M St bytes;
  input_win_signal_not_empty : M St unit;
  input_win_wait_not_empty : M St unit;
  input_win_signal_completely_flushed : M St unit;
  input_win_wait_completely_flushed : M St unit;
  output_send_ack : Z -> Z -> M St unit;
}.

(** A full expression with a [mem_ctl] of the area in it: the lock is given back
    at its end, also when an exception leaves it ([Locks.mem_ctl]). *)
Definition with_ctl {St A} `{!InputLock St} (m : M St A) : M St A :=
  ctl_lock;;
  finally m ctl_unlock.

Lemma with_ctl_ret {St A} `{!InputLock St} (m : M St A) s s1 a s2 s3 :
  ctl_lock s = (Ret tt, s1) -> m s1 = (Ret a, s2) -> ctl_unlock s2 = (Ret tt, s3) ->
  with_ctl m s = (Ret a, s3).
Proof.
  intros H1 H2 H3. unfold with_ctl. mstep H1. rewrite (finally_ret _ _ _ _ _ H2). mstep H3. done.
Qed.

Lemma with_ctl_fault {St A} `{!InputLock St} (m : M St A) s s1 x s2 :
  ctl_lock s = (Ret tt, s1) -> m s1 = (Fault x, s2) -> with_ctl m s = (Fault x, s2).
Proof. intros H1 H2. unfold with_ctl. mstep H1. unfold finally. by rewrite H2. Qed.

(** ** [receiver_buffer_processing] *)

Section buffer.
Context {St : Type} `{!MemArea St input_buffer_area}.

Definition in_input_buf (p n : Z) : bool := (0 <=? p) && (p + n <=? INPUT_BUF_SZ).

Definition ib_put_data (pos : Z) (data : bytes) : M St unit :=
  a ← mem_get;
  if in_input_buf pos (Z.of_nat (length data))
  then mem_put (InputBufferArea (ib_off a) (store_bytes (ib_buf a) pos data))
  else faults out_of_range.

Definition ib_flush (flushed_off sz : Z) : M St bytes :=
  a ← mem_get;
  if in_input_buf flushed_off sz
  then mret (load_bytes (ib_buf a) flushed_off (Z.to_nat sz))
  else faults out_of_range.

End buffer.

(** ** [receiver_window_processing] *)

Section window.
Context {St : Type} `{!MemArea St input_window_area} `{!InputLock St} `{!InputController St}.

Definition iw_win (a : input_window_area) : receiver_window :=
  Rwin (iw_start a) (iw_off a) (iw_sz a).

Definition iw_setup : M St receiver_window := a ← mem_get; mret (iw_win a).

(** [__flush]: [flushed_off] is not part of [win]. *)
Definition iw_flush (win : receiver_window) : M St unit :=
  a ← mem_get;
  mem_put (InputWindowArea (w_start win) (w_off win) (w_sz win) (iw_flushed_off a)).

Definition set_flushed_off (v : Z) : M St unit :=
  a ← mem_get;
  mem_put (InputWindowArea (iw_start a) (iw_off a) (iw_sz a) v).

Definition get_flushed_off : M St Z := a ← mem_get; mret (iw_flushed_off a).

(** [mem_ctl::call] (tcp_proto_mem.h 236-240) *)
Definition ctl_call (f : M St unit) : M St unit := ctl_unlock;; f;; ctl_lock.

Definition on_buffer_flushed (win : receiver_window) : M St receiver_window :=
  let win := next_window win in
  set_flushed_off 0;;
  iw_flush win;;
  mret win.

Definition wrote_win_sz (win : receiver_window) : M St Z :=
  fo ← get_flushed_off;
  mret (u64 (offset win - fo)).

(** [__move] *)
Definition iw_move (data : bytes) (win : receiver_window) : M St receiver_window :=
  input_buf_put_data (offset win) data;;
  wrote ← wrote_win_sz win;
  let need_not_empty_signal := wrote =? 0 in
  let win := inc (Z.of_nat (length data)) win in
  iw_flush win;;
  win ← (if need_not_empty_signal : bool
         then ctl_call input_win_signal_not_empty;; iw_setup
         else mret win);
  if get_sz win =? 0 then
    ctl_call input_win_wait_completely_flushed;;
    win ← iw_setup;
    on_buffer_flushed win
  else mret win.

Definition iw_on_msg (m : msg) : M St unit :=
  win ← iw_setup;
  let sq := get_seq m in
  win ←
    (if contains win (Rwin sq 0 (get_data_len m)) then
       if sq =? begin win then iw_move (msg_data m) win else mret win
     else mret win);
  output_send_ack (u32 (before_begin win)) (get_sz win).

Definition iw_force_move_start (start_seq : Z) : M St unit :=
  win ← iw_setup;
  set_flushed_off 0;;
  iw_flush (Rwin start_seq 0 (w_sz win)).

(** [client_flush_request]: the bytes copied to the client; their number is
    the code's return value. *)
Definition client_flush_request (req_sz : Z) : M St bytes :=
  win ← iw_setup;
  wrote ← wrote_win_sz win;
  win ← (if wrote =? 0
         then ctl_call input_win_wait_not_empty;; iw_setup
         else mret win);
  wrote ← wrote_win_sz win;
  let sz := Z.min wrote req_sz in
  fo ← get_flushed_off;
  client_data ← input_buf_flush fo sz;
  set_flushed_off (s64 (fo + sz));;
  iw_flush win;;
  wrote ← wrote_win_sz win;
  when ((wrote =? 0) && (get_sz win =? 0)) (ctl_call input_win_signal_completely_flushed);;
  mret client_data.

End window.
