(* ===== verification/InputOps.v ===== *)
(** * InputOps: the receiving window delivers the stream in order

    What [on_msg] and [client_flush_request] of [Input] do to the byte stream
    handed to the client, proved against an interface, [ReceiverLaws], that
    says what the buffer, the locks and the signals promise.
    [ReceiverModel] shows that the socket satisfies it. *)
From S2P Require Import Prelude Window Message ProtoMem Input.

(** ** The interface *)

Section observe.
Context {St : Type} `{!MemArea St input_window_area}.

Definition iwa (s : St) : input_window_area := area_get s.

End observe.

(** What another thread may do to the receiving side while a call has released
    the lock: the client takes some of the data that is there. *)
Record client_takes {St : Type} `{MemArea St input_window_area} (inbuf : St -> mem)
    (delivered : St -> bytes) (acks : St -> list (Z * Z)) (s s' : St) : Prop := {
  ct_start : iw_start (iwa s') = iw_start (iwa s);
  ct_off : iw_off (iwa s') = iw_off (iwa s);
  ct_sz : iw_sz (iwa s') = iw_sz (iwa s);
  ct_buf : inbuf s' = inbuf s;
  ct_acks : acks s' = acks s;
  ct_flushed : iw_flushed_off (iwa s) <= iw_flushed_off (iwa s') <= iw_off (iwa s);
  ct_delivered : delivered s' = delivered s ++
    load_bytes (inbuf s) (iw_flushed_off (iwa s))
      (Z.to_nat (iw_flushed_off (iwa s') - iw_flushed_off (iwa s)));
}.

(** [inbuf]: the bytes of the receiving buffer; [delivered]: what the client
    has been given, in order; [acks]: the acknowledgements sent, number and
    window; [quiet]: what the signals require of the state; [signalled]: the
    client has said that it has read a full window to its end.

    [wait_flushed_law] is the promise a client makes while [on_msg] waits in a
    full window: it reads the window to its end, in whatever requests, and
    makes no further request before [on_msg] goes on.  A client that asks once
    more can end the next wait too early
    ([LostWindow.stale_signal_loses_a_window]). *)
Class ReceiverLaws (St : Type) `{MemArea St input_window_area} `{!InputLock St}
    `{!InputController St} : Type := {
  inbuf : St -> mem;
  delivered : St -> bytes;
  acks : St -> list (Z * Z);
  quiet : St -> Prop;
  signalled : St -> Prop;
  iw_laws :: MemAreaLaws St input_window_area;
  inbuf_iw (a : input_window_area) s : inbuf (area_put a s) = inbuf s;
  delivered_iw (a : input_window_area) s : delivered (area_put a s) = delivered s;
  acks_iw (a : input_window_area) s : acks (area_put a s) = acks s;
  quiet_iw (a : input_window_area) s : quiet s -> quiet (area_put a s);
  put_data_law pos d s :
    0 <= pos -> pos + Z.of_nat (length d) <= INPUT_BUF_SZ ->
    exists s', input_buf_put_data pos d s = (Ret tt, s') /\
      inbuf s' = store_bytes (inbuf s) pos d /\ iwa s' = iwa s /\
      delivered s' = delivered s /\ acks s' = acks s /\ (quiet s -> quiet s');
  flush_data_law pos n s :
    0 <= pos -> 0 <= n -> pos + n <= INPUT_BUF_SZ ->
    exists s', input_buf_flush pos n s = (Ret (load_bytes (inbuf s) pos (Z.to_nat n)), s') /\
      inbuf s' = inbuf s /\ iwa s' = iwa s /\ acks s' = acks s /\
      delivered s' = delivered s ++ load_bytes (inbuf s) pos (Z.to_nat n) /\ (quiet s -> quiet s');
  send_ack_law q w s :
    0 <= q < modulus32 -> 0 <= w < modulus16 ->
    exists s', output_send_ack q w s = (Ret tt, s') /\
      inbuf s' = inbuf s /\ iwa s' = iwa s /\ delivered s' = delivered s /\
      acks s' = acks s ++ [(q, w)] /\ (quiet s -> quiet s');
  signal_not_empty_law s :
    quiet s -> 0 <= iw_flushed_off (iwa s) < iw_off (iwa s) -> iw_off (iwa s) <= INPUT_BUF_SZ ->
    exists s', ctl_call input_win_signal_not_empty s = (Ret tt, s') /\ quiet s' /\
      client_takes inbuf delivered acks s s' /\
      (iw_sz (iwa s) = iw_off (iwa s) -> iw_flushed_off (iwa s') = iw_off (iwa s') -> signalled s');
  wait_not_empty_law s s' :
    quiet s -> ctl_call input_win_wait_not_empty s = (Ret tt, s') ->
    quiet s' /\ iwa s' = iwa s /\ inbuf s' = inbuf s /\ delivered s' = delivered s /\ acks s' = acks s;
  wait_flushed_law s :
    quiet s -> 0 <= iw_flushed_off (iwa s) <= iw_off (iwa s) -> iw_off (iwa s) <= INPUT_BUF_SZ ->
    iw_sz (iwa s) = iw_off (iwa s) ->
    (iw_flushed_off (iwa s) = iw_off (iwa s) -> signalled s) ->
    exists s', ctl_call input_win_wait_completely_flushed s = (Ret tt, s') /\ quiet s' /\
      client_takes inbuf delivered acks s s' /\ iw_flushed_off (iwa s') = iw_off (iwa s');
}.

Section receiver.
Context {St : Type} `{ReceiverLaws St}.
Implicit Types (s : St).

(** Received and not yet given to the client. *)
Definition pending s : bytes :=
  load_bytes (inbuf s) (iw_flushed_off (iwa s))
    (Z.to_nat (iw_off (iwa s) - iw_flushed_off (iwa s))).

(** The stream as it has arrived. *)
Definition received s : bytes := delivered s ++ pending s.

Record receiver_inv s : Prop := {
  ri_quiet : quiet s;
  ri_sz : iw_sz (iwa s) = INPUT_WINDOW_SZ;
  ri_start : 0 <= iw_start (iwa s) /\ iw_start (iwa s) + INPUT_WINDOW_SZ < modulus32;
  ri_off : 0 <= iw_flushed_off (iwa s) <= iw_off (iwa s) /\ iw_off (iwa s) < INPUT_WINDOW_SZ;
}.

(** The next number the receiver expects. *)
Definition expected s : Z := iw_start (iwa s) + iw_off (iwa s).

Lemma iwa_put a s : iwa (area_put a s) = a.
Proof. apply area_get_put. Qed.

Lemma iw_setup_eq s : iw_setup s = (Ret (iw_win (iwa s)), s).
Proof. done. Qed.

Lemma iw_flush_eq w s :
  iw_flush w s = (Ret tt, area_put (InputWindowArea (w_start w) (w_off w) (w_sz w)
                                      (iw_flushed_off (iwa s))) s).
Proof. done. Qed.

Lemma set_flushed_eq v s :
  set_flushed_off v s = (Ret tt, area_put (InputWindowArea (iw_start (iwa s)) (iw_off (iwa s))
                                             (iw_sz (iwa s)) v) s).
Proof. done. Qed.

Lemma wrote_eq w s : wrote_win_sz w s = (Ret (u64 (offset w - iw_flushed_off (iwa s))), s).
Proof. done. Qed.

Lemma receiver_in_space s : receiver_inv s -> in_space (iw_win (iwa s)).
Proof.
  intros [_ Hsz Hst Hoff]. unfold in_space, window_wf, iw_win, INPUT_WINDOW_SZ in *.
  cbn [w_start w_off w_sz]. rewrite Hsz. lia.
Qed.

Lemma receiver_begin s : receiver_inv s -> begin (iw_win (iwa s)) = expected s.
Proof. intros Hi. apply begin_wf, in_space_wf, receiver_in_space. done. Qed.

Lemma receiver_left s : receiver_inv s -> get_sz (iw_win (iwa s)) = INPUT_WINDOW_SZ - iw_off (iwa s).
Proof.
  intros Hi. rewrite get_sz_wf by (apply in_space_wf, receiver_in_space; done).
  cbn [iw_win w_sz w_off]. rewrite (ri_sz s Hi). done.
Qed.

(** *** What the client takes leaves the stream as it is *)

Lemma client_takes_received s s' :
  0 <= iw_flushed_off (iwa s) ->
  client_takes inbuf delivered acks s s' ->
  received s' = received s /\ expected s' = expected s /\ acks s' = acks s.
Proof.
  intros Hf [Hst Ho Hs Hb Ha Hfl Hd]. unfold received, pending, expected.
  rewrite Hd, Hb, Hst, Ho. split_and!; try done. rewrite <- app_assoc. f_equal.
  set (f := iw_flushed_off (iwa s)) in *. set (f' := iw_flushed_off (iwa s')) in *.
  set (o := iw_off (iwa s)) in *.
  replace (Z.to_nat (o - f)) with (Z.to_nat (f' - f) + Z.to_nat (o - f'))%nat by lia.
  rewrite load_bytes_app. do 2 f_equal. lia.
Qed.

(** *** Accepting a segment *)

Lemma contains_segment s q len :
  receiver_inv s -> 0 <= q < modulus32 -> 0 < len < modulus32 ->
  contains (iw_win (iwa s)) (Rwin q 0 len) =
    (expected s <=? q) && (q + len <=? iw_start (iwa s) + INPUT_WINDOW_SZ).
Proof.
  intros Hi Hq Hl. rewrite contains_in_space by (apply receiver_in_space; done).
  rewrite (receiver_begin s Hi).
  assert (end_ (iw_win (iwa s)) = iw_start (iwa s) + INPUT_WINDOW_SZ) as ->.
  { rewrite end_wf by (apply in_space_wf, receiver_in_space; done).
    cbn [iw_win w_start w_sz]. rewrite (ri_sz s Hi). done. }
  unfold begin, end_. cbn [w_start w_off w_sz]. rewrite !u64_small by lia.
  rewrite Z.add_0_r. done.
Qed.

(** The data joins the pending bytes. *)
Lemma stored_pending (b : mem) f o d :
  0 <= f <= o ->
  load_bytes (store_bytes b o d) f (Z.to_nat (o + Z.of_nat (length d) - f)) =
    load_bytes b f (Z.to_nat (o - f)) ++ d.
Proof.
  intros Hf.
  replace (Z.to_nat (o + Z.of_nat (length d) - f)) with (Z.to_nat (o - f) + length d)%nat by lia.
  rewrite load_bytes_app, load_store_disjoint by lia.
  replace (f + Z.of_nat (Z.to_nat (o - f))) with o by lia. rewrite load_store_same. done.
Qed.

Lemma client_takes_refl s :
  iw_flushed_off (iwa s) <= iw_off (iwa s) -> client_takes inbuf delivered acks s s.
Proof.
  intros Hf. split; try done. rewrite Z.sub_diag. cbn. rewrite app_nil_r. done.
Qed.

(** The window and the buffer after a segment has been written, and after the
    client has been told. *)
Record holds_segment (d : bytes) s s' : Prop := {
  hs_quiet : quiet s';
  hs_start : iw_start (iwa s') = iw_start (iwa s);
  hs_off : iw_off (iwa s') = iw_off (iwa s) + Z.of_nat (length d);
  hs_sz : iw_sz (iwa s') = iw_sz (iwa s);
  hs_flushed : 0 <= iw_flushed_off (iwa s') <= iw_off (iwa s');
  hs_received : received s' = received s ++ d;
  hs_acks : acks s' = acks s;
  hs_delivered : delivered s `prefix_of` delivered s';
}.

Lemma holds_segment_takes d s s1 s2 :
  holds_segment d s s1 -> quiet s2 -> client_takes inbuf delivered acks s1 s2 ->
  holds_segment d s s2.
Proof.
  intros [Hq Hst Ho Hs Hf Hr Ha Hd] Hq2 Ht.
  destruct (client_takes_received s1 s2 ltac:(lia) Ht) as (Hr2&_&Ha2).
  destruct Ht as [Hst2 Ho2 Hs2 _ _ Hf2 Hd2].
  split; try congruence; [rewrite Ho2; lia|]. rewrite Hd2. by apply prefix_app_r.
Qed.

(** The first half of [__move]: write, advance, signal if the client may be
    waiting. *)
Lemma write_segment d s :
  receiver_inv s -> (0 < length d)%nat ->
  iw_off (iwa s) + Z.of_nat (length d) <= INPUT_WINDOW_SZ ->
  exists s',
    holds_segment d s s' /\
    (iw_sz (iwa s') = iw_off (iwa s') -> iw_flushed_off (iwa s') = iw_off (iwa s') -> signalled s') /\
    iw_move d (iw_win (iwa s)) s =
      ((if get_sz (iw_win (iwa s')) =? 0 then
          ctl_call input_win_wait_completely_flushed;;
          win ← iw_setup;
          on_buffer_flushed win
        else mret (iw_win (iwa s'))) : M St receiver_window) s'.
Proof.
  intros Hi Hd Hfit. pose proof Hi as [Hq Hsz Hst [Hf Ho]].
  unfold INPUT_WINDOW_SZ in *. unfold iw_move.
  destruct (put_data_law (iw_off (iwa s)) d s) as (s1&Hput&Hb1&Hw1&Hd1&Ha1&Hq1);
    [lia|unfold INPUT_BUF_SZ; lia|].
  change (offset (iw_win (iwa s))) with (iw_off (iwa s)). mstep Hput.
  mstep (wrote_eq (iw_win (iwa s)) s1). rewrite Hw1.
  set (s2 := area_put (InputWindowArea (iw_start (iwa s)) (iw_off (iwa s) + Z.of_nat (length d))
                         (iw_sz (iwa s)) (iw_flushed_off (iwa s))) s1).
  assert (inc (Z.of_nat (length d)) (iw_win (iwa s)) = iw_win (iwa s2)) as Hinc.
  { unfold inc, iw_win, s2. rewrite iwa_put. cbn [w_start w_off w_sz iw_start iw_off iw_sz].
    rewrite s64_small by lia. done. }
  assert (iw_flush (inc (Z.of_nat (length d)) (iw_win (iwa s))) s1 = (Ret tt, s2)) as Hfl.
  { rewrite Hinc, iw_flush_eq, Hw1. unfold s2. rewrite iwa_put. done. }
  mstep Hfl.
  assert (holds_segment d s s2) as H2.
  { unfold s2. split; rewrite ?iwa_put; cbn [iw_start iw_off iw_sz iw_flushed_off]; try done; try lia.
    - apply quiet_iw. auto.
    - unfold received, pending. rewrite !iwa_put, inbuf_iw, delivered_iw, Hd1, Hb1.
      cbn [iw_off iw_flushed_off]. rewrite stored_pending by lia. apply app_assoc.
    - rewrite acks_iw. done.
    - rewrite delivered_iw, Hd1. done. }
  assert (iw_flushed_off (iwa s2) < iw_off (iwa s2)) as Hunread
    by (unfold s2; rewrite iwa_put; cbn [iw_off iw_flushed_off]; lia).
  destruct (u64 (offset (iw_win (iwa s)) - iw_flushed_off (iwa s)) =? 0).
  - destruct (signal_not_empty_law s2) as (s3&Hsig&Hq3&Ht3&Hs3);
      [apply H2|split; [apply H2|exact Hunread]|rewrite (hs_off _ _ _ H2); unfold INPUT_BUF_SZ; lia|].
    exists s3. split; [eapply holds_segment_takes; done|]. split.
    + rewrite (ct_sz _ _ _ _ _ Ht3), (ct_off _ _ _ _ _ Ht3) at 1. exact Hs3.
    + rewrite !bind_unfold, Hsig. rewrite iw_setup_eq. done.
  - exists s2. split; [done|]. split; [lia|]. rewrite bind_unfold, Hinc. done.
Qed.

Lemma move_segment d s :
  receiver_inv s -> (0 < length d)%nat ->
  iw_off (iwa s) + Z.of_nat (length d) <= INPUT_WINDOW_SZ ->
  iw_start (iwa s) + 2 * INPUT_WINDOW_SZ < modulus32 ->
  exists s',
    iw_move d (iw_win (iwa s)) s = (Ret (iw_win (iwa s')), s') /\
    receiver_inv s' /\ received s' = received s ++ d /\
    expected s' = expected s + Z.of_nat (length d) /\ acks s' = acks s /\
    (INPUT_WINDOW_SZ | iw_start (iwa s') - iw_start (iwa s)) /\
    delivered s `prefix_of` delivered s'.
Proof.
  intros Hi Hd Hfit H2w. pose proof Hi as [Hq Hsz Hst [Hf Ho]].
  destruct (write_segment d s Hi Hd Hfit) as (s1&Hs1&Hsig1&Hrun).
  pose proof Hs1 as [Hq1 Hst1 Ho1 Hsz1 Hf1 Hr1 Ha1 Hd1].
  unfold INPUT_WINDOW_SZ in *.
  assert (get_sz (iw_win (iwa s1)) = 1000 - (iw_off (iwa s) + Z.of_nat (length d))) as Hleft.
  { unfold get_sz, iw_win. cbn [w_sz w_off]. rewrite Hsz1, Ho1, Hsz. apply u64_small. lia. }
  rewrite Hrun, Hleft. clear Hrun.
  destruct (Z.eqb_spec (1000 - (iw_off (iwa s) + Z.of_nat (length d))) 0) as [Hfull|Hopen].
  - destruct (wait_flushed_law s1 Hq1 Hf1) as (s2&Hw&Hq2&Ht2&Hall);
      [rewrite Ho1; unfold INPUT_BUF_SZ; lia|rewrite Hsz1, Ho1; lia|apply Hsig1; rewrite Hsz1, Ho1; lia|].
    pose proof (holds_segment_takes d s s1 s2 Hs1 Hq2 Ht2) as [_ Hst2 Ho2 Hsz2 Hf2 Hr2 Ha2 Hd2].
    mstep Hw. mstep (iw_setup_eq s2). unfold on_buffer_flushed.
    mstep (set_flushed_eq 0 s2). rewrite (run_ret _ _ _ _ _ (iw_flush_eq _ _)).
    set (s3 := area_put _ (area_put _ s2)).
    assert (iwa s3 = InputWindowArea (iw_start (iwa s) + 1000) 0 1000 0) as H3.
    { unfold s3. rewrite !iwa_put. cbn [next_window iw_win w_start w_off w_sz iw_flushed_off].
      rewrite Hst2, Hsz2, Hsz, u64_small by lia. done. }
    exists s3. split_and!.
    + rewrite H3. unfold iw_win, next_window, mret, M_ret. cbn [w_start w_off w_sz iw_start iw_off iw_sz].
      rewrite Hst2, Hsz2, Hsz, u64_small by lia. done.
    + split; rewrite ?H3; unfold INPUT_WINDOW_SZ; simpl; try lia. apply quiet_iw, quiet_iw. done.
    + rewrite <- Hr2. unfold received, pending. rewrite H3. unfold s3.
      rewrite !delivered_iw. cbn [iw_off iw_flushed_off]. rewrite Hall, !Z.sub_diag. done.
    + unfold expected. rewrite H3. cbn [iw_start iw_off]. lia.
    + unfold s3. rewrite !acks_iw. done.
    + rewrite H3. exists 1. cbn [iw_start]. lia.
    + unfold s3. rewrite !delivered_iw. done.
  - exists s1. split_and!; try done.
    + split; unfold INPUT_WINDOW_SZ; (done || lia).
    + unfold expected. lia.
    + exists 0. lia.
Qed.

(** A segment that arrives, accepted or not. *)
Lemma iw_on_msg_ok m s :
  receiver_inv s -> 0 <= get_seq m < modulus32 -> 0 < get_data_len m < modulus32 ->
  get_data_len m = Z.of_nat (length (msg_data m)) ->
  iw_start (iwa s) + 2 * INPUT_WINDOW_SZ < modulus32 ->
  exists s' w,
    iw_on_msg m s = (Ret tt, s') /\ receiver_inv s' /\
    (if (get_seq m =? expected s) &&
        (get_seq m + get_data_len m <=? iw_start (iwa s) + INPUT_WINDOW_SZ)
     then received s' = received s ++ msg_data m /\
          expected s' = expected s + get_data_len m
     else received s' = received s /\ expected s' = expected s) /\
    acks s' = acks s ++ [(u32 (expected s' - 1), w)] /\ 1 <= w <= INPUT_WINDOW_SZ /\
    (INPUT_WINDOW_SZ | iw_start (iwa s') - iw_start (iwa s)) /\
    delivered s `prefix_of` delivered s'.
Proof.
  intros Hi Hq Hl Hlen H2w. unfold iw_on_msg. mstep (iw_setup_eq s).
  rewrite contains_segment by done. rewrite (receiver_begin s Hi).
  assert (forall s1, receiver_inv s1 ->
    exists s' w, output_send_ack (u32 (before_begin (iw_win (iwa s1)))) (get_sz (iw_win (iwa s1))) s1
      = (Ret tt, s') /\ receiver_inv s' /\ received s' = received s1 /\ expected s' = expected s1 /\
      acks s' = acks s1 ++ [(u32 (expected s1 - 1), w)] /\ 1 <= w <= INPUT_WINDOW_SZ /\
      iw_start (iwa s') = iw_start (iwa s1) /\ delivered s' = delivered s1) as Hack.
  { intros s1 Hi1. pose proof Hi1 as [Hq1 Hsz1 Hst1 Ho1].
    assert (u32 (before_begin (iw_win (iwa s1))) = u32 (expected s1 - 1)) as ->.
    { unfold before_begin. rewrite (receiver_begin s1 Hi1).
      destruct (Z.eqb_spec (expected s1) 0) as [->|]; done. }
    rewrite (receiver_left s1 Hi1). unfold INPUT_WINDOW_SZ in *.
    destruct (send_ack_law (u32 (expected s1 - 1)) (1000 - iw_off (iwa s1)) s1)
      as (s'&Hs&Hb&Hw&Hd&Ha&Hqq); [apply u32_range|lia|].
    exists s', (1000 - iw_off (iwa s1)). split_and!; try done; try lia.
    - split; rewrite ?Hw; unfold INPUT_WINDOW_SZ; auto.
    - unfold received, pending. rewrite Hb, Hw, Hd. done.
    - unfold expected. rewrite Hw. done.
    - rewrite Hw. done. }
  destruct (Z.eqb_spec (get_seq m) (expected s)) as [He|Hne]; cbn [andb].
  - rewrite (proj2 (Z.leb_le (expected s) (get_seq m))) by lia. cbn [andb].
    destruct (Z.leb_spec (get_seq m + get_data_len m) (iw_start (iwa s) + INPUT_WINDOW_SZ)) as [Hin|Hout].
    + destruct (move_segment (msg_data m) s Hi) as (s1&Hmv&Hi1&Hr1&He1&Ha1&Hal&Hd1);
        [lia|unfold expected in He; lia|done|].
      mstep Hmv. destruct (Hack s1 Hi1) as (s'&w&->&Hi'&Hr'&He'&Ha'&Hw&Hs'&Hd').
      exists s', w. rewrite Hs', Hd'. split_and!; try done; try lia; try congruence.
    + rewrite bind_unfold. cbn [mret M_ret].
      destruct (Hack s Hi) as (s'&w&->&Hi'&Hr'&He'&Ha'&Hw&Hs'&Hd').
      exists s', w. rewrite Hs', Hd', Z.sub_diag. split_and!; try done; try lia; try congruence; apply Z.divide_0_r.
  - assert (forall b, (if (b : bool) then mret (iw_win (iwa s)) else mret (iw_win (iwa s)) : M St _) s
      = (Ret (iw_win (iwa s)), s)) as Hb by (intros []; done).
    rewrite bind_unfold, Hb.
    destruct (Hack s Hi) as (s'&w&->&Hi'&Hr'&He'&Ha'&Hw&Hs'&Hd').
    exists s', w. rewrite Hs', Hd', Z.sub_diag. split_and!; try done; try lia; try congruence; apply Z.divide_0_r.
Qed.

(** ** The client's side *)

Lemma length_pending s :
  receiver_inv s -> Z.of_nat (length (pending s)) = iw_off (iwa s) - iw_flushed_off (iwa s).
Proof. intros [_ _ _ Ho]. unfold pending. rewrite length_load_bytes. lia. Qed.

(** A request for [n] bytes when there is something to give. *)
Lemma client_flush_ok n s :
  receiver_inv s -> pending s <> [] -> 0 <= n ->
  exists s',
    client_flush_request n s = (Ret (take (Z.to_nat n) (pending s)), s') /\ receiver_inv s' /\
    delivered s' = delivered s ++ take (Z.to_nat n) (pending s) /\
    received s' = received s /\ expected s' = expected s /\ acks s' = acks s /\
    iw_start (iwa s') = iw_start (iwa s).
Proof.
  intros Hi Hp Hn. pose proof (length_pending s Hi) as Hlp.
  pose proof Hi as [Hq Hsz Hst [Hf Ho]]. unfold INPUT_WINDOW_SZ in *.
  set (f := iw_flushed_off (iwa s)) in *. set (o := iw_off (iwa s)) in *.
  assert (f < o) as Hfo by (destruct (pending s); [done|simpl in Hlp; lia]).
  assert (forall a, u64 (o - a) = o - a \/ ~ (0 <= a <= o)) as Hu64.
  { intros a. destruct (decide (0 <= a <= o)); [left; apply u64_small; lia|by right]. }
  unfold client_flush_request. mstep (iw_setup_eq s). mstep (wrote_eq (iw_win (iwa s)) s).
  change (offset (iw_win (iwa s))) with o. fold f. rewrite (u64_small (o - f)) by lia.
  rewrite (proj2 (Z.eqb_neq _ _)) by lia. rewrite bind_unfold. cbn [mret M_ret].
  mstep (wrote_eq (iw_win (iwa s)) s).
  change (offset (iw_win (iwa s))) with o. fold f. rewrite (u64_small (o - f)) by lia.
  set (k := Z.min (o - f) n). rewrite bind_unfold. cbn [get_flushed_off mem_get gets].
  assert (get_flushed_off s = (Ret f, s)) as -> by done.
  destruct (flush_data_law f k s) as (s1&Hfd&Hb1&Hw1&Ha1&Hd1&Hq1); [lia|lia|unfold INPUT_BUF_SZ; lia|].
  mstep Hfd.
  assert (load_bytes (inbuf s) f (Z.to_nat k) = take (Z.to_nat n) (pending s)) as Hdata.
  { unfold pending. fold f o. destruct (Z.le_gt_cases n (o - f)) as [Hle|Hgt].
    - rewrite load_bytes_take by lia. f_equal. lia.
    - rewrite take_ge by (rewrite length_load_bytes; lia). f_equal. lia. }
  rewrite Hdata in Hd1 |- *.
  assert (set_flushed_off (s64 (f + k)) s1 =
    (Ret tt, area_put (InputWindowArea (iw_start (iwa s)) o (iw_sz (iwa s)) (f + k)) s1)) as Hset.
  { rewrite set_flushed_eq, Hw1, s64_small by lia. done. }
  mstep Hset. rewrite (run_ret _ _ _ _ _ (iw_flush_eq _ _)), iwa_put. cbn [iw_flushed_off].
  set (s2 := area_put _ (area_put _ s1)).
  assert (iwa s2 = InputWindowArea (iw_start (iwa s)) o (iw_sz (iwa s)) (f + k)) as H2
    by (unfold s2; rewrite iwa_put; done).
  mstep (wrote_eq (iw_win (iwa s)) s2). rewrite H2. cbn [iw_flushed_off].
  change (offset (iw_win (iwa s))) with o.
  rewrite (receiver_left s Hi). fold o. unfold INPUT_WINDOW_SZ.
  rewrite (proj2 (Z.eqb_neq (1000 - o) 0)) by lia. rewrite andb_false_r. cbn [when].
  exists s2. rewrite bind_unfold. cbn [mret M_ret].
  assert (delivered s2 = delivered s ++ take (Z.to_nat n) (pending s)) as Hdel
    by (unfold s2; rewrite !delivered_iw; done).
  split_and!; try done.
  - split; rewrite ?H2; unfold INPUT_WINDOW_SZ; cbn [iw_sz iw_start iw_flushed_off iw_off]; try lia.
    unfold s2. apply quiet_iw, quiet_iw. auto.
  - unfold received at 1. rewrite Hdel, <- app_assoc. unfold received. f_equal.
    rewrite <- Hdata. unfold pending at 1. rewrite H2. cbn [iw_flushed_off iw_off].
    unfold s2. rewrite !inbuf_iw, Hb1. unfold pending. fold f o.
    replace (Z.to_nat (o - f)) with (Z.to_nat k + Z.to_nat (o - (f + k)))%nat by lia.
    rewrite load_bytes_app. do 2 f_equal. lia.
  - unfold expected. rewrite H2. done.
  - unfold s2. rewrite !acks_iw. done.
  - rewrite H2. done.
Qed.

(** A request when there is nothing to give waits for the signal that there is. *)
Lemma client_flush_waits n s :
  receiver_inv s -> pending s = [] ->
  iw_flushed_off (iwa s) = iw_off (iwa s) /\
  client_flush_request n s =
    (ctl_call input_win_wait_not_empty;;
     win ← iw_setup;
     wrote ← wrote_win_sz win;
     let sz := Z.min wrote n in
     fo ← get_flushed_off;
     client_data ← input_buf_flush fo sz;
     set_flushed_off (s64 (fo + sz));;
     iw_flush win;;
     wrote ← wrote_win_sz win;
     when ((wrote =? 0) && (get_sz win =? 0)) (ctl_call input_win_signal_completely_flushed);;
     mret client_data) s.
Proof.
  intros Hi Hp. pose proof (length_pending s Hi) as Hlp. rewrite Hp in Hlp. cbn in Hlp.
  assert (iw_flushed_off (iwa s) = iw_off (iwa s)) as Hfo by (pose proof (ri_off s Hi); lia).
  split; [done|]. unfold client_flush_request.
  rewrite (run_ret _ _ _ _ _ (iw_setup_eq s)), (run_ret _ _ _ _ _ (wrote_eq (iw_win (iwa s)) s)).
  change (offset (iw_win (iwa s))) with (iw_off (iwa s)). rewrite Hfo, Z.sub_diag.
  change (u64 0 =? 0) with true. cbn match.
  unfold mbind, M_bind. destruct (ctl_call input_win_wait_not_empty s) as [[[]| |] s1]; reflexivity.
Qed.

(** Without one it waits on; when the signal is an old one it gets nothing. *)
Lemma client_flush_blocked n s x s' :
  receiver_inv s -> pending s = [] -> ctl_call input_win_wait_not_empty s = (Fault x, s') ->
  client_flush_request n s = (Fault x, s').
Proof.
  intros Hi Hp Hcall. destruct (client_flush_waits n s Hi Hp) as (_&->).
  rewrite bind_unfold, Hcall. done.
Qed.

Lemma client_flush_woken n s s2 :
  receiver_inv s -> pending s = [] -> 0 <= n ->
  ctl_call input_win_wait_not_empty s = (Ret tt, s2) ->
  exists s', client_flush_request n s = (Ret [], s') /\
  receiver_inv s' /\ delivered s' = delivered s /\
  received s' = received s /\ expected s' = expected s /\ acks s' = acks s /\
  iw_start (iwa s') = iw_start (iwa s).
Proof.
  intros Hi Hp Hn Hcall. destruct (client_flush_waits n s Hi Hp) as (Hfo&->).
  pose proof Hi as [Hq Hsz Hst [Hf Ho]]. unfold INPUT_WINDOW_SZ in *.
  set (o := iw_off (iwa s)) in *.
  destruct (wait_not_empty_law s s2 Hq Hcall) as (Hq2&Hw2&Hb2&Hd2&Ha2).
  mstep Hcall. mstep (iw_setup_eq s2). rewrite Hw2.
  mstep (wrote_eq (iw_win (iwa s)) s2). rewrite Hw2.
  change (offset (iw_win (iwa s))) with o. rewrite Hfo, Z.sub_diag.
  change (u64 0) with 0. rewrite Z.min_l by done.
  assert (get_flushed_off s2 = (Ret o, s2)) as Hg
    by (transitivity ((Ret (iw_flushed_off (iwa s2)), s2) : outcome Z * St); [done|by rewrite Hw2, Hfo]).
  mstep Hg.
  destruct (flush_data_law o 0 s2) as (s3&Hfd&Hb3&Hw3&Ha3&Hd3&Hq3); [lia|lia|unfold INPUT_BUF_SZ; lia|].
  mstep Hfd. change (load_bytes (inbuf s2) o (Z.to_nat 0)) with (@nil Z) in *.
  rewrite app_nil_r in Hd3. rewrite Z.add_0_r, s64_small by lia.
  set (a := InputWindowArea (iw_start (iwa s)) o (iw_sz (iwa s)) o).
  assert (set_flushed_off o s3 = (Ret tt, area_put a s3)) as Hset
    by (rewrite set_flushed_eq, Hw3, Hw2; done).
  mstep Hset. rewrite (run_ret _ _ _ _ _ (iw_flush_eq _ _)), iwa_put.
  set (s4 := area_put _ (area_put _ s3)).
  assert (iwa s4 = a) as H4 by (unfold s4; rewrite iwa_put; done).
  mstep (wrote_eq (iw_win (iwa s)) s4). rewrite H4.
  change (offset (iw_win (iwa s))) with o. rewrite (receiver_left s Hi).
  fold o. unfold INPUT_WINDOW_SZ.
  rewrite (proj2 (Z.eqb_neq (1000 - o) 0)), andb_false_r by lia. cbn [when].
  exists s4. rewrite bind_unfold. cbn [mret M_ret].
  assert (delivered s4 = delivered s) as Hdel by (unfold s4; rewrite !delivered_iw, Hd3; done).
  split_and!; try done.
  - split; rewrite ?H4; unfold INPUT_WINDOW_SZ; cbn [a iw_sz iw_start iw_flushed_off iw_off]; try lia.
    unfold s4. apply quiet_iw, quiet_iw. auto.
  - unfold received. rewrite Hdel, Hp. unfold pending. rewrite H4. cbn [a iw_flushed_off iw_off].
    rewrite Z.sub_diag. done.
  - unfold expected. rewrite H4. done.
  - unfold s4. rewrite !acks_iw, Ha3. done.
  - rewrite H4. done.
Qed.

Lemma client_flush_nothing n s d s' :
  receiver_inv s -> pending s = [] -> 0 <= n -> client_flush_request n s = (Ret d, s') ->
  d = [] /\ receiver_inv s' /\ delivered s' = delivered s /\
  received s' = received s /\ expected s' = expected s /\ acks s' = acks s /\
  iw_start (iwa s') = iw_start (iwa s).
Proof.
  intros Hi Hp Hn Hrun. destruct (client_flush_waits n s Hi Hp) as (_&Hr).
  pose proof Hrun as Hrun2. rewrite Hr in Hrun2.
  destruct (bind_ret_inv _ _ _ _ _ Hrun2) as ([]&s2&Hcall&_).
  destruct (client_flush_woken n s s2 Hi Hp Hn Hcall) as (s1&Hrun1&?).
  rewrite Hrun in Hrun1. by injection Hrun1 as -> ->.
Qed.

(** A request that returns, whatever there was. *)
Lemma client_flush_returns n s d s' :
  receiver_inv s -> 0 <= n -> client_flush_request n s = (Ret d, s') ->
  d = take (Z.to_nat n) (pending s) /\ receiver_inv s' /\ delivered s' = delivered s ++ d /\
  received s' = received s /\ expected s' = expected s /\ acks s' = acks s /\
  iw_start (iwa s') = iw_start (iwa s).
Proof.
  intros Hi Hn Hrun. destruct (decide (pending s = [])) as [Hp|Hp].
  - destruct (client_flush_nothing n s d s' Hi Hp Hn Hrun) as (->&Hi'&Hd&?).
    rewrite Hp, take_nil, app_nil_r. done.
  - destruct (client_flush_ok n s Hi Hp Hn) as (s1&Hrun1&?). rewrite Hrun in Hrun1.
    by injection Hrun1 as -> ->.
Qed.

(** ** Properties *)

(** C19: the receiver takes a segment exactly when it begins at the next
    expected byte and ends inside the window; then the stream received grows
    by the segment's data.  In every case it answers with an acknowledgement
    of the last byte received in order, and the window it advertises is never
    zero and never more than the initial size.

    This is of a segment with data whose length field is right, two windows
    below 2^32, and of a client as [ReceiverLaws] describes it: while [on_msg]
    waits in a full window it reads the window to its end and asks for no more
    until [on_msg] goes on.  With one request more in that moment the next
    window is acknowledged and lost
    ([LostWindow.stale_signal_loses_a_window]). *)
Theorem receives_in_order_only m s :
  receiver_inv s -> 0 <= get_seq m < modulus32 -> 0 < get_data_len m < modulus32 ->
  get_data_len m = Z.of_nat (length (msg_data m)) ->
  iw_start (iwa s) + 2 * INPUT_WINDOW_SZ < modulus32 ->
  exists s' w,
    iw_on_msg m s = (Ret tt, s') /\ receiver_inv s' /\
    (if (get_seq m =? expected s) &&
        (get_seq m + get_data_len m <=? iw_start (iwa s) + INPUT_WINDOW_SZ)
     then received s' = received s ++ msg_data m /\
          expected s' = expected s + get_data_len m
     else received s' = received s /\ expected s' = expected s) /\
    acks s' = acks s ++ [(u32 (expected s' - 1), w)] /\ 1 <= w <= INPUT_WINDOW_SZ.
Proof.
  intros Hi Hq Hl Hlen H2w.
  destruct (iw_on_msg_ok m s Hi Hq Hl Hlen H2w) as (s'&w&?&?&?&?&?&_). exists s', w. done.
Qed.

(** A request of the client for [n] bytes, when something is pending,
    returns the next [min n pending] bytes of the stream and loses none of the
    rest. *)
Lemma client_reads_the_stream n s :
  receiver_inv s -> pending s <> [] -> 0 <= n ->
  exists s',
    client_flush_request n s = (Ret (take (Z.to_nat n) (pending s)), s') /\ receiver_inv s' /\
    delivered s' = delivered s ++ take (Z.to_nat n) (pending s) /\
    pending s' = drop (Z.to_nat n) (pending s) /\ received s' = received s.
Proof.
  intros Hi Hp Hn. destruct (client_flush_ok n s Hi Hp Hn) as (s'&H1&H2&H3&H4&_&_).
  exists s'. split_and!; try done.
  apply (app_inv_head (delivered s')). fold (received s').
  rewrite H4, H3, <- app_assoc, take_drop. done.
Qed.

(** Once the window has moved past 2^32 the receiver accepts nothing any
    more: whatever arrives, the window and the data stay as they are, since
    the number of a segment never equals the unreduced beginning of the
    window. *)
Lemma receiver_stalls_past_wrap m s :
  modulus32 <= begin (iw_win (iwa s)) -> 0 <= get_seq m < modulus32 ->
  0 <= get_sz (iw_win (iwa s)) < modulus16 ->
  exists s', iw_on_msg m s = (Ret tt, s') /\ iwa s' = iwa s /\ received s' = received s.
Proof.
  intros Hb Hq Hsz. unfold iw_on_msg. mstep (iw_setup_eq s).
  rewrite (proj2 (Z.eqb_neq (get_seq m) (begin (iw_win (iwa s))))) by lia.
  destruct (send_ack_law (u32 (before_begin (iw_win (iwa s)))) (get_sz (iw_win (iwa s))) s)
    as (s'&Hs&Hbf&Hw&Hd&_); [apply u32_range|done|].
  exists s'. split_and!.
  - destruct (contains _ _); rewrite bind_unfold; cbn [mret M_ret]; exact Hs.
  - done.
  - unfold received, pending. rewrite Hbf, Hw, Hd. done.
Qed.

End receiver.
