(* ===== verification/Handshaker.v ===== *)
(** * Handshaker: opening and closing ([src/src/tcp_proto_handshaker.h])

    [establish_handshaker] (24-69) and [close_handshaker] (72-141).  What the
    templates ask of their controller is split in two classes: what a handler
    does when a message has arrived, and the waits for the next message, which
    call the handlers. *)
From S2P Require Import Prelude Window Message ProtoMem.

(** ** [establish_handshaker] *)

Class EstablishSignals (St : Type) : Type := {
  generate_rand32 : M St Z;
  send_syn : Z -> M St unit;
  send_syn_ack : Z -> Z -> M St unit;
  output_send_hs_ack : Z -> Z -> M St unit;
  recv_established : Z -> M St unit;
  send_established : Z -> M St unit;
}.

Class EstablishWaits (St : Type) : Type := {
  next_ack : M St unit;
  next_syn_ack : M St unit;
}.

Section establish.
Context {St : Type} `{!MemArea St establish_area} `{!EstablishSignals St}.

Definition set_send_seq (v : Z) : M St unit :=
  a ← mem_get;
  mem_put (EstablishArea v (est_recv_remebered_seq a) (est_recv_remebered_ack_seq a)).
Definition set_recv_seq (v : Z) : M St unit :=
  a ← mem_get;
  mem_put (EstablishArea (est_send_remebered_seq a) v (est_recv_remebered_ack_seq a)).
Definition set_recv_ack_seq (v : Z) : M St unit :=
  a ← mem_get;
  mem_put (EstablishArea (est_send_remebered_seq a) (est_recv_remebered_seq a) v).

Definition recv_on_ack (ack : msg) : M St unit :=
  a ← mem_get;
  if (get_seq ack =? est_recv_remebered_ack_seq a) &&
     (get_ack_seq ack =? u32 (est_recv_remebered_seq a + 1))
  then recv_established (get_ack_seq ack)
  else throw EDrop.

Definition send_on_syn_ack (ack : msg) : M St unit :=
  a ← mem_get;
  if get_ack_seq ack =? u32 (est_send_remebered_seq a + 1) then
    output_send_hs_ack (get_ack_seq ack) (u32 (get_seq ack + 1));;
    send_established (u32 (get_seq ack + 1))
  else throw EDrop.

Context `{!EstablishWaits St}.

Definition recv_on_syn (syn : msg) : M St unit :=
  r ← generate_rand32;
  set_recv_seq r;;
  set_recv_ack_seq (u32 (get_seq syn + 1));;
  a ← mem_get;
  send_syn_ack (est_recv_remebered_seq a) (est_recv_remebered_ack_seq a);;
  next_ack.

Definition send_establish : M St unit :=
  r ← generate_rand32;
  set_send_seq r;;
  a ← mem_get;
  send_syn (est_send_remebered_seq a);;
  next_syn_ack.

End establish.

(** ** [close_handshaker] *)

Class CloseSignals (St : Type) : Type := {
  close_rand32 : M St Z;
  close_send_ack : Z -> M St unit;
  send_fin : Z -> M St unit;
  send_fin_ack : Z -> Z -> M St unit;
  send_rst : Z -> M St unit;
  send_rst_ack : Z -> Z -> M St unit;
  recv_direct_closed : M St unit;
  send_direct_closed : M St unit;
  recv_reverse_closed : M St unit;
  send_reverse_closed : M St unit;
}.

Class CloseWaits (St : Type) : Type := {
  recv_next_ack : M St unit;
  send_next_ack : M St unit;
  next_fin_ack : M St unit;
  next_rst_ack : M St unit;
}.

Section close.
Context {St : Type} `{!MemArea St close_area} `{!CloseSignals St}.

Definition set_close_send_seq (v : Z) : M St unit :=
  a ← mem_get; mem_put (CloseArea v (cl_recv_remebered_seq a)).
Definition set_close_recv_seq (v : Z) : M St unit :=
  a ← mem_get; mem_put (CloseArea (cl_send_remebered_seq a) v).

Definition close_recv_on_ack (ack : msg) : M St unit :=
  a ← mem_get;
  if get_seq ack =? cl_recv_remebered_seq a then recv_direct_closed else throw EDrop.

Definition send_on_fin_ack (ack : msg) : M St unit :=
  a ← mem_get;
  if get_ack_seq ack =? cl_send_remebered_seq a then
    close_send_ack (get_seq ack);; send_direct_closed
  else throw EDrop.

Definition send_on_ack (ack : msg) : M St unit :=
  a ← mem_get;
  if get_seq ack =? cl_recv_remebered_seq a then send_reverse_closed else throw EDrop.

Definition recv_on_rst_ack (ack : msg) : M St unit :=
  a ← mem_get;
  if get_ack_seq ack =? cl_send_remebered_seq a then
    close_send_ack (get_seq ack);; send_reverse_closed
  else throw EDrop.

Context `{!CloseWaits St}.

Definition recv_on_fin (fin : msg) : M St unit :=
  r ← close_rand32;
  set_close_recv_seq r;;
  a ← mem_get;
  send_fin_ack (cl_recv_remebered_seq a) (get_seq fin);;
  recv_next_ack.

Definition send_close : M St unit :=
  r ← close_rand32;
  set_close_send_seq r;;
  a ← mem_get;
  send_fin (cl_send_remebered_seq a);;
  next_fin_ack.

Definition send_on_rst (fin : msg) : M St unit :=
  r ← close_rand32;
  set_close_recv_seq r;;
  a ← mem_get;
  send_rst_ack (cl_recv_remebered_seq a) (get_seq fin);;
  send_next_ack.

Definition recv_close : M St unit :=
  r ← close_rand32;
  set_close_send_seq r;;
  a ← mem_get;
  send_rst (cl_send_remebered_seq a);;
  next_rst_ack.

End close.
