(* ===== verification/Socket.v ===== *)
(** * Socket: [socket_full_impl] of [src/src/newimpl.cpp]

    The state of one socket, the shared areas and semaphores of its memory
    among it, and the glue that makes the components of the other files one
    another's controllers (lines 184-686). *)
From S2P Require Import Prelude Window Message Transfer ProtoMem Congestion Timeout.
From S2P Require Import FastRetransmit SendBuffer Inplace Cumulative Nagles Input.

(** ** Semaphores (sock_mem_guard, 184-249)

    Eight semaphores in [locks_shmem]: the first four are locks, created with
    count 1, the others notifications, created with count 0. *)

Inductive sem_name : Type :=
| SEND_LOCK
| RECV_LOCK
| RECV_WORKER_LOCK
| SEND_WORKER_LOCK
| RECV_WORKER_COMPLETE
| RECV_WORKER_BUF_NOT_EMPTY
| SEND_BUF_EMPTY
| SEND_BUF_NOT_EMPTY.

#[export] Instance sem_name_eq_dec : EqDecision sem_name.
Proof. solve_decision. Defined.

Definition sem_init_count (n : sem_name) : Z :=
  match n with
  | SEND_LOCK | RECV_LOCK | RECV_WORKER_LOCK | SEND_WORKER_LOCK => 1
  | _ => 0
  end.

(** ** The state

    The shared areas and semaphores; and, for the outside of the socket, its
    identity, its clock, the messages handed to the kernel, the bytes [recv]
    has written to its callers' buffers and the messages that wait in its
    queue, each in their order. *)

Record sk : Type := Sk {
  k_state : internal_state_area;
  k_wc : window_control_area;
  k_cw : cumulative_area;
  k_sb : send_buffer_area;
  k_to : timeout_area;
  k_fr : fast_retransmit_area;
  k_iw : input_window_area;
  k_ib : input_buffer_area;
  k_fut : futures_area;
  k_sems : sem_name -> Z;
  k_id : socket_identify;
  k_clock : Z;
  k_out : list msg;
  k_user : bytes;
  k_in : list msg;
  k_est : establish_area;
  k_cl : close_area;
}.

(** A socket whose constructor has run, first to attach to its memory. *)
Definition sk_init (id : socket_identify) (mtu : Z) : sk :=
  Sk internal_state_init
    (WindowControlArea (receiver_win_sz window_control_init)
       (congection_win_sz window_control_init) mtu)
    cumulative_init send_buffer_init timeout_init fast_retransmit_init
    input_window_init input_buffer_init (FuturesArea (fun _ => 0))
    sem_init_count id 0 [] [] [] establish_init close_init.

#[export] Instance sk_area_state : MemArea sk internal_state_area := {|
  area_get := k_state;
  area_put := fun a s => Sk a (k_wc s) (k_cw s) (k_sb s) (k_to s) (k_fr s) (k_iw s) (k_ib s)
    (k_fut s) (k_sems s) (k_id s) (k_clock s) (k_out s) (k_user s) (k_in s) (k_est s) (k_cl s) |}.
#[export] Instance sk_area_wc : MemArea sk window_control_area := {|
  area_get := k_wc;
  area_put := fun a s => Sk (k_state s) a (k_cw s) (k_sb s) (k_to s) (k_fr s) (k_iw s) (k_ib s)
    (k_fut s) (k_sems s) (k_id s) (k_clock s) (k_out s) (k_user s) (k_in s) (k_est s) (k_cl s) |}.
#[export] Instance sk_area_cw : MemArea sk cumulative_area := {|
  area_get := k_cw;
  area_put := fun a s => Sk (k_state s) (k_wc s) a (k_sb s) (k_to s) (k_fr s) (k_iw s) (k_ib s)
    (k_fut s) (k_sems s) (k_id s) (k_clock s) (k_out s) (k_user s) (k_in s) (k_est s) (k_cl s) |}.
#[export] Instance sk_area_sb : MemArea sk send_buffer_area := {|
  area_get := k_sb;
  area_put := fun a s => Sk (k_state s) (k_wc s) (k_cw s) a (k_to s) (k_fr s) (k_iw s) (k_ib s)
    (k_fut s) (k_sems s) (k_id s) (k_clock s) (k_out s) (k_user s) (k_in s) (k_est s) (k_cl s) |}.
#[export] Instance sk_area_to : MemArea sk timeout_area := {|
  area_get := k_to;
  area_put := fun a s => Sk (k_state s) (k_wc s) (k_cw s) (k_sb s) a (k_fr s) (k_iw s) (k_ib s)
    (k_fut s) (k_sems s) (k_id s) (k_clock s) (k_out s) (k_user s) (k_in s) (k_est s) (k_cl s) |}.
#[export] Instance sk_area_fr : MemArea sk fast_retransmit_area := {|
  area_get := k_fr;
  area_put := fun a s => Sk (k_state s) (k_wc s) (k_cw s) (k_sb s) (k_to s) a (k_iw s) (k_ib s)
    (k_fut s) (k_sems s) (k_id s) (k_clock s) (k_out s) (k_user s) (k_in s) (k_est s) (k_cl s) |}.
#[export] Instance sk_area_iw : MemArea sk input_window_area := {|
  area_get := k_iw;
  area_put := fun a s => Sk (k_state s) (k_wc s) (k_cw s) (k_sb s) (k_to s) (k_fr s) a (k_ib s)
    (k_fut s) (k_sems s) (k_id s) (k_clock s) (k_out s) (k_user s) (k_in s) (k_est s) (k_cl s) |}.
#[export] Instance sk_area_ib : MemArea sk input_buffer_area := {|
  area_get := k_ib;
  area_put := fun a s => Sk (k_state s) (k_wc s) (k_cw s) (k_sb s) (k_to s) (k_fr s) (k_iw s) a
    (k_fut s) (k_sems s) (k_id s) (k_clock s) (k_out s) (k_user s) (k_in s) (k_est s) (k_cl s) |}.
#[export] Instance sk_area_fut : MemArea sk futures_area := {|
  area_get := k_fut;
  area_put := fun a s => Sk (k_state s) (k_wc s) (k_cw s) (k_sb s) (k_to s) (k_fr s) (k_iw s)
    (k_ib s) a (k_sems s) (k_id s) (k_clock s) (k_out s) (k_user s) (k_in s) (k_est s) (k_cl s) |}.

#[export] Instance sk_area_est : MemArea sk establish_area := {|
  area_get := k_est;
  area_put := fun a s => Sk (k_state s) (k_wc s) (k_cw s) (k_sb s) (k_to s) (k_fr s) (k_iw s)
    (k_ib s) (k_fut s) (k_sems s) (k_id s) (k_clock s) (k_out s) (k_user s) (k_in s) a (k_cl s) |}.
#[export] Instance sk_area_cl : MemArea sk close_area := {|
  area_get := k_cl;
  area_put := fun a s => Sk (k_state s) (k_wc s) (k_cw s) (k_sb s) (k_to s) (k_fr s) (k_iw s)
    (k_ib s) (k_fut s) (k_sems s) (k_id s) (k_clock s) (k_out s) (k_user s) (k_in s) (k_est s) a |}.

Definition set_in (l : list msg) (s : sk) : sk :=
  Sk (k_state s) (k_wc s) (k_cw s) (k_sb s) (k_to s) (k_fr s) (k_iw s) (k_ib s) (k_fut s)
    (k_sems s) (k_id s) (k_clock s) (k_out s) (k_user s) l (k_est s) (k_cl s).

Definition set_sem (n : sem_name) (v : Z) (s : sk) : sk :=
  Sk (k_state s) (k_wc s) (k_cw s) (k_sb s) (k_to s) (k_fr s) (k_iw s) (k_ib s) (k_fut s)
    (fun m => if decide (m = n) then v else k_sems s m) (k_id s) (k_clock s) (k_out s) (k_user s)
    (k_in s) (k_est s) (k_cl s).

Definition add_out (m : msg) (s : sk) : sk :=
  Sk (k_state s) (k_wc s) (k_cw s) (k_sb s) (k_to s) (k_fr s) (k_iw s) (k_ib s) (k_fut s)
    (k_sems s) (k_id s) (k_clock s) (k_out s ++ [m]) (k_user s)
    (k_in s) (k_est s) (k_cl s).

Definition add_user (d : bytes) (s : sk) : sk :=
  Sk (k_state s) (k_wc s) (k_cw s) (k_sb s) (k_to s) (k_fr s) (k_iw s) (k_ib s) (k_fut s)
    (k_sems s) (k_id s) (k_clock s) (k_out s) (k_user s ++ d) (k_in s) (k_est s) (k_cl s).

(** [sem_post] *)
Definition sem_post (n : sem_name) : M sk unit := fun s => (Ret tt, set_sem n (k_sems s n + 1) s).

(** [get_timestamp] *)
Definition get_timestamp : M sk Z := gets k_clock.

(** [internal_state::get_state] and [set_state] (tcp_proto_handshaker.h 6-22).
    [recv_socket_state] and [send_socket_state] are two objects of this class
    over the one area [INTERNAL_STATE]. *)
Definition get_state : M sk tcp_state := a ← mem_get; mret (is_state a).
Definition set_state (v : tcp_state) : M sk unit := mem_put (InternalStateArea v).

(** ** The output side, without waiting (361-407, 560-570, 585-627) *)

#[export] Instance sk_sent_buf : SentBuf sk Z Z := {|
  output_sent_buf_put_msg_at := put_msg_at;
  output_sent_buf_get_msg_at := get_msg_at;
  output_sent_buf_release_range := release_range;
  output_sent_buf_refresh_contents := refresh;
  mark_msg_used := sk_mark_msg_used;
  is_msg_used := sk_is_msg_used;
  get_msg_data_sz := sk_get_msg_data_sz;
|}.

(** The message whose raw block is at [p]. *)
Definition msg_at (p : Z) : M sk msg := a ← mem_get; mret (load_msg (sb_buf a) p).

(** [output_on_retry] (621-627) *)
Definition sk_output_on_retry (m : msg) : M sk unit :=
  cwc_on_retry;;
  cw_retry m.

#[export] Instance sk_retry : RetryController sk := {| output_on_retry := sk_output_on_retry |}.

(** [output_refresh_on_msg_pair] (603-610) *)
Definition sk_output_refresh_on_msg_pair (inplace : Z) (ack : msg) : M sk unit :=
  m ← msg_at inplace;
  now ← get_timestamp;
  timeout_refresh now m ack.

(** [output_refresh_on_msg_pair_prev_window_matched] (612-619) *)
Definition sk_output_refresh_prev (inplace : Z) (ack : msg) : M sk unit :=
  m ← msg_at inplace;
  fr_on_ack ack m.

#[export] Instance sk_send_events : SendEvents sk Z := {|
  output_sent_buf_signal_not_empty := sem_post SEND_BUF_NOT_EMPTY;
  output_refresh_on_msg_pair := sk_output_refresh_on_msg_pair;
  output_refresh_on_msg_pair_prev_window_matched := sk_output_refresh_prev;
  on_sent_buf_empty := sem_post SEND_BUF_EMPTY;
|}.

(** [output_send_as_single_package] (405-410) *)
Definition sk_output_send_as_single_package (data : bytes) : M sk Z :=
  r ← cw_send (tmp_msg data);
  mret (snd r).

(** [output_check_msg_complete] (363-366) *)
Definition sk_output_check_msg_complete (m : msg) : M sk bool := cw_check_msg_complete m.

Section kernel.

(** The kernel's answer to [sendto]. *)
Context (sendto : sockaddr_in -> bytes -> Z).

(** [socket_sock_base::send] (145-160): the message as it went out. *)
Definition base_send (m : msg) : M sk msg := fun s =>
  match socket_send sendto (k_id s) (k_clock s) m with
  | Ret _ => let m' := stamp (k_id s) (k_clock s) m in (Ret m', add_out m' s)
  | Throw e => (Throw e, s)
  | Fault f => (Fault f, s)
  end.

(** The same for a message that lives in the send buffer at [p]: the setters
    write the header there, before the message is handed to the kernel. *)
Definition base_send_inplace (p : Z) : M sk unit :=
  m ← msg_at p;
  id ← gets k_id;
  now ← gets k_clock;
  write_buf p sizeof_raw_msg (fun mm => store_header mm p (stamp id now m));;
  base_send m;;
  mret tt.

(** [output_send_ack] (679-686) *)
Definition sk_output_send_ack (sq winsz : Z) : M sk unit :=
  base_send (set_window_sz winsz (set_seq sq (set_ack (msg_alloc 0))));;
  mret tt.

Section threads.

(** What the other threads do while this one sleeps: in [sem_wait] of a named
    semaphore or of a message's future, or in [sleep_for]. *)
Inductive pause_point : Type := AtSem (n : sem_name) | AtFuture (f : Z) | AtSleep.
Context (others : pause_point -> M sk unit).

(** [sem_wait]: returns with the semaphore's count decremented. *)
Definition sem_wait (n : sem_name) : M sk unit :=
  others (AtSem n);;
  v ← gets (fun s => k_sems s n);
  if 0 <? v then modify (set_sem n (v - 1)) else faults blocked.

(** [sem_timedwait]: the time may run out instead. *)
Definition sem_wait_for (n : sem_name) : M sk unit :=
  others (AtSem n);;
  v ← gets (fun s => k_sems s n);
  when (0 <? v) (modify (set_sem n (v - 1))).

(** [output_wait_on_send_buf_empty] (572-583), [fuel] wake-ups at most. *)
Fixpoint sk_output_wait_on_send_buf_empty (fuel : nat) : M sk unit :=
  empty ← is_sent_buf_empty;
  if empty : bool then mret tt
  else match fuel with
       | O => faults out_of_fuel
       | S fuel =>
           sem_post SEND_WORKER_LOCK;;
           sem_wait SEND_BUF_EMPTY;;
           sem_wait SEND_WORKER_LOCK;;
           sk_output_wait_on_send_buf_empty fuel
       end.

(** [output_sent_buf_wait_not_empty] (590-600).  When the worker has been told
    to stop it throws without having taken the lock back. *)
Fixpoint sk_output_sent_buf_wait_not_empty (active : bool) (fuel : nat) : M sk unit :=
  empty ← is_sent_buf_empty;
  if empty : bool then
    match fuel with
    | O => faults out_of_fuel
    | S fuel =>
        sem_post SEND_WORKER_LOCK;;
        sem_wait_for SEND_BUF_NOT_EMPTY;;
        if active then
          sem_wait SEND_WORKER_LOCK;;
          sk_output_sent_buf_wait_not_empty active fuel
        else throw ETimeout
    end
  else mret tt.

(** [output_send_finally] (414-436): sends, then polls every 100 ms for the
    acknowledgement until the timeout ([size_t] to [milliseconds]: 64 bits signed).  The loop runs at most once per 100 ms
    of the timeout. *)
Fixpoint poll_complete (fuel : nat) (p summary timeout_ : Z) : M sk unit :=
  if summary <? timeout_ then
    m ← msg_at p;
    complete ← sk_output_check_msg_complete m;
    if complete : bool then mret tt
    else match fuel with
         | O => faults out_of_fuel
         | S fuel =>
             sem_post SEND_WORKER_LOCK;;
             others AtSleep;;
             sem_wait SEND_WORKER_LOCK;;
             poll_complete fuel p (summary + 100) timeout_
         end
  else mret tt.

Definition sk_output_send_finally (p : Z) : M sk unit :=
  t ← get_timeout;
  let timeout_ := s64 t in
  sem_post SEND_WORKER_LOCK;;
  base_send_inplace p;;
  sem_wait SEND_WORKER_LOCK;;
  poll_complete (Z.to_nat (timeout_ `div` 100 + 1)) p 0 timeout_.

#[local] Instance sk_send_wait (active : bool) (fuel : nat) : SendWait sk := {|
  output_sent_buf_wait_not_empty := sk_output_sent_buf_wait_not_empty active fuel;
|}.

(** One round of the sending worker (521-558): [catch (...)] catches whatever
    is thrown, unlocks and sleeps. *)
Definition send_worker_round (active : bool) (fuel : nat) : M sk unit :=
  sem_wait SEND_WORKER_LOCK;;
  state ← get_state;
  if decide (state = ESTABLISHED) then
    try_catch
      (p ← @cw_next_msg sk Z Z _ _ (sk_send_wait active fuel) (Z.to_nat OUTPUT_WINDOW_SZ);
       sk_output_send_finally p;;
       m ← msg_at p;
       complete ← sk_output_check_msg_complete m;
       when (negb complete) (sk_output_on_retry m);;
       sem_post SEND_WORKER_LOCK)
      (fun _ => true)
      (sem_post SEND_WORKER_LOCK;; others AtSleep)
  else
    sem_post SEND_WORKER_LOCK;; others AtSleep.

#[export] Instance sk_nagles (fuel : nat) : NaglesController sk Z := {|
  output_get_mtu := get_mtu;
  output_bounded_win_sz := bounded_win_sz;
  output_send_as_single_package := sk_output_send_as_single_package;
  output_wait_on_send_buf_empty := sk_output_wait_on_send_buf_empty fuel;
|}.

(** The wait for the futures in [send] (650-654). *)
Fixpoint wait_futures (fs : list Z) : M sk unit :=
  match fs with
  | [] => mret tt
  | f :: fs =>
      others (AtFuture f);;
      a ← mem_get;
      (if 0 <? futures a f
       then mem_put (FuturesArea (<[f := futures a f - 1]> (futures a)))
       else faults blocked);;
      wait_futures fs
  end.

(** The loop of [send] (630-662) for an established connection: each round
    hands the splitter what fits in the window and waits for it. *)
Fixpoint send_rounds (fuel : nat) (buf : bytes) : M sk unit :=
  match buf with
  | [] => mret tt
  | _ :: _ =>
      match fuel with
      | O => faults out_of_fuel
      | S fuel' =>
          sem_wait SEND_WORKER_LOCK;;
          w ← cw_get_sz;
          let bound := Z.min w (Z.of_nat (length buf)) in
          let chunk := take (Z.to_nat bound) buf in
          fs ← @nagles_send sk Z (sk_nagles fuel) (length chunk) chunk;
          sem_post SEND_WORKER_LOCK;;
          wait_futures fs;;
          send_rounds fuel' (drop (Z.to_nat bound) buf)
      end
  end.

Definition sk_send (fuel : nat) (buf : bytes) : M sk unit :=
  sem_wait SEND_LOCK;;
  send_rounds fuel buf;;
  sem_post SEND_LOCK.

(** [output_on_ack] (666-676) *)
Definition sk_output_on_ack (m : msg) : M sk unit :=
  sem_wait SEND_WORKER_LOCK;;
  state ← get_state;
  (if decide (state = ESTABLISHED) then
     cwc_on_ack m;;
     cw_on_ack m
   else mret tt);;
  sem_post SEND_WORKER_LOCK.

(** ** The input side (294-356) *)

#[export] Instance sk_input_lock : InputLock sk := {|
  ctl_lock := sem_wait RECV_LOCK;
  ctl_unlock := sem_post RECV_LOCK;
|}.

(** [input_buf_flush] (312-317): the copy goes to the client's memory. *)
Definition sk_input_buf_flush (off n : Z) : M sk bytes :=
  data ← ib_flush off n;
  modify (add_user data);;
  mret data.

#[export] Instance sk_input : InputController sk := {|
  input_buf_put_data := ib_put_data;
  input_buf_flush := sk_input_buf_flush;
  input_win_signal_not_empty := sem_post RECV_WORKER_BUF_NOT_EMPTY;
  input_win_wait_not_empty := sem_wait RECV_WORKER_BUF_NOT_EMPTY;
  input_win_signal_completely_flushed := sem_post RECV_WORKER_COMPLETE;
  input_win_wait_completely_flushed := sem_wait RECV_WORKER_COMPLETE;
  output_send_ack := sk_output_send_ack;
|}.

(** [input_on_regular_msg] (295-305); the [mem_ctl] argument holds
    [recv_lock] for the time of the call. *)
Definition input_on_regular_msg (m : msg) : M sk unit :=
  sem_wait RECV_WORKER_LOCK;;
  state ← get_state;
  (if decide (state = ESTABLISHED) then
     with_ctl (iw_on_msg m)
   else mret tt);;
  sem_post RECV_WORKER_LOCK.

(** [recv_proc] (341-350): the bytes written to the client's buffer. *)
Fixpoint recv_proc (fuel : nat) (sz : Z) : M sk bytes :=
  if 0 <? sz then
    match fuel with
    | O => faults out_of_fuel
    | S fuel =>
        data ← with_ctl (client_flush_request sz);
        rest ← recv_proc fuel (sz - Z.of_nat (length data));
        mret (data ++ rest)
    end
  else mret [].

End threads.
End kernel.
