(* ===== verification/Memory.v ===== *)
(** * Memory: the areas as bytes of the shared memory

    [mem_info] and [mem_manager] of [src/src/tcp_proto_mem.h] (185-286) hand a
    component a pointer into the shared memory.  Here the memory is its bytes
    and an area is read and written at the offset [mem_info] computes; the
    class [Area] is the layout of one [mem_area<E>::area].  What is proved is
    what the other files assume, that each area is a record of its own: the
    bytes of the memory represent the areas of [Socket.sk]. *)
From S2P Require Import Prelude Window Message ProtoMem Congestion Timeout FastRetransmit Socket.

(** ** Fields *)

Definition word_at (n : nat) (m : mem) (a : Z) : Z := le_val (load_bytes m a n).

(** [n] bytes of [f] from [a] on, and what they read as. *)
Definition store_block (m : mem) (a n : Z) (f : Z -> Z) : mem :=
  fun x => if (a <=? x) && (x <? a + n) then f (x - a) else m x.
Definition load_block (m : mem) (a n : Z) : mem :=
  fun i => if (0 <=? i) && (i <? n) then m (a + i) else 0.

(** An array of [n] words of 8 bytes. *)
Definition store_words (m : mem) (a n : Z) (f : Z -> Z) : mem :=
  store_block m a (8 * n) (fun i => nth (Z.to_nat (i `mod` 8)) (le_bytes 8 (f (i `div` 8))) 0).
Definition load_words (m : mem) (a n : Z) : Z -> Z :=
  fun i => if (0 <=? i) && (i <? n) then s64 (word_at 8 m (a + 8 * i)) else 0.

Lemma load_in_store m a bs i n :
  (i + n <= length bs)%nat ->
  load_bytes (store_bytes m a bs) (a + Z.of_nat i) n = slice i n bs.
Proof.
  intros H. rewrite <- (slice_load_bytes _ a (length bs)) by done. by rewrite load_store_same.
Qed.

Lemma word_in_store m a bs i n :
  (i + n <= length bs)%nat ->
  word_at n (store_bytes m a bs) (a + Z.of_nat i) = le_val (slice i n bs).
Proof. intros H. unfold word_at. by rewrite load_in_store. Qed.

Lemma word_at_ext n m m' a :
  (forall i, a <= i < a + Z.of_nat n -> m' i = m i) -> word_at n m' a = word_at n m a.
Proof. intros H. unfold word_at. f_equal. apply load_bytes_ext. intros i Hi. apply H. lia. Qed.

Lemma store_block_in m a n f x : a <= x < a + n -> store_block m a n f x = f (x - a).
Proof.
  intros H. unfold store_block. by rewrite (proj2 (Z.leb_le _ _)), (proj2 (Z.ltb_lt _ _)) by lia.
Qed.

Lemma store_block_out m a n f x : x < a \/ a + n <= x -> store_block m a n f x = m x.
Proof.
  intros H. unfold store_block.
  destruct (Z.leb_spec a x), (Z.ltb_spec x (a + n)); simpl; (lia || done).
Qed.

Lemma load_block_at m a n i : 0 <= i < n -> load_block m a n i = m (a + i).
Proof.
  intros H. unfold load_block. by rewrite (proj2 (Z.leb_le _ _)), (proj2 (Z.ltb_lt _ _)) by lia.
Qed.

Lemma s64_unsigned z : s64 (z `mod` modulus8 ^ Z.of_nat 8) = s64 z.
Proof.
  change (modulus8 ^ Z.of_nat 8) with modulus64. unfold s64. by rewrite Zplus_mod_idemp_l.
Qed.

Lemma load_words_at m a n i : 0 <= i < n -> load_words m a n i = s64 (word_at 8 m (a + 8 * i)).
Proof.
  intros H. unfold load_words. by rewrite (proj2 (Z.leb_le _ _)), (proj2 (Z.ltb_lt _ _)) by lia.
Qed.

Lemma load_store_words m a n f i :
  0 <= i < n -> load_words (store_words m a n f) a n i = s64 (f i).
Proof.
  intros H. rewrite load_words_at by done. unfold word_at.
  assert (load_bytes (store_words m a n f) (a + 8 * i) 8 = le_bytes 8 (f i)) as ->.
  { rewrite <- (load_store_same mem_zero 0 (le_bytes 8 (f i))), length_le_bytes.
    apply load_bytes_ext. intros j Hj. unfold store_words.
    rewrite store_block_in, store_bytes_in by (rewrite ?length_le_bytes; lia).
    replace (a + 8 * i + j - a) with (j + i * 8) by lia.
    rewrite Z.mod_add, Z.div_add, Z.mod_small, Z.div_small by lia. by rewrite Z.sub_0_r. }
  by rewrite le_val_le_bytes, s64_unsigned.
Qed.

(** ** Areas

    [place]: the tag; [read_at], [write_at]: the fields of the area that begins
    at an offset; [fits]: every field is in the range of its type; [alike]: the
    arrays agree where they are. *)
Class Area (A : Type) : Type := {
  place : MEM_TAG;
  read_at : mem -> Z -> A;
  write_at : Z -> A -> mem -> mem;
  fits : A -> Prop;
  alike : relation A;
}.

Definition all_bytes (m : mem) : Prop := forall i, is_byte (m i).

Class AreaLaws (A : Type) `{Area A} : Prop := {
  al_equiv :: Equivalence alike;
  al_read_write o (x : A) m : fits x -> alike (read_at (write_at o x m) o) x;
  al_write_out o (x : A) m i : i < o \/ o + mem_sz (place (A:=A)) <= i -> write_at o x m i = m i;
  al_read_ext o m m' : (forall i, o <= i < o + mem_sz (place (A:=A)) -> m' i = m i) ->
    alike (read_at m' o : A) (read_at m o);
  al_read_fits o m : all_bytes m -> fits (read_at m o : A);
  al_write_bytes o (x : A) m : fits x -> all_bytes m -> all_bytes (write_at o x m);
}.

(** [mem_manager::area<E>] (247-251): where the area lies. *)
Definition area_off (A : Type) `{Area A} : Z := summary_prefix_off (place (A:=A)).

#[export] Instance shared_area {A} `{Area A} : MemArea mem A := {|
  area_get := fun m => read_at m (area_off A);
  area_put := fun x m => write_at (area_off A) x m;
|}.

Definition is_u64 (z : Z) : Prop := 0 <= z < modulus64.
Definition is_u32 (z : Z) : Prop := 0 <= z < modulus32.
Definition is_s64 (z : Z) : Prop := -9223372036854775808 <= z < 9223372036854775808.

Definition is_s32 (z : Z) : Prop := -2147483648 <= z < 2147483648.

(** [tcp_state] is four bytes. *)
Definition state_no (x : tcp_state) : Z :=
  match x with CLOSED => 0 | SYN_SENT => 1 | SYN_RECEIVED => 2 | ESTABLISHED => 3 end.
Definition state_of_no (z : Z) : tcp_state :=
  match z with 1 => SYN_SENT | 2 => SYN_RECEIVED | 3 => ESTABLISHED | _ => CLOSED end.

#[export] Instance state_layout : Area internal_state_area := {|
  place := INTERNAL_STATE;
  read_at := fun m o => InternalStateArea (state_of_no (word_at 4 m o));
  write_at := fun o x m => store_bytes m o (le_bytes 4 (state_no (is_state x)));
  fits := fun _ => True;
  alike := eq;
|}.

#[export] Instance window_control_layout : Area window_control_area := {|
  place := OUTPUT_RECEIVER_WINDOW_CONTROL;
  read_at := fun m o => WindowControlArea (word_at 8 m o) (word_at 8 m (o + 8)) (word_at 8 m (o + 16));
  write_at := fun o x m => store_bytes m o
    (le_bytes 8 (receiver_win_sz x) ++ le_bytes 8 (congection_win_sz x) ++ le_bytes 8 (mtu x));
  fits := fun x => is_u64 (receiver_win_sz x) /\ is_u64 (congection_win_sz x) /\ is_u64 (mtu x);
  alike := eq;
|}.

#[export] Instance cumulative_layout : Area cumulative_area := {|
  place := OUTPUT_CUMULATIVE_WINDOW_PROCESSING;
  read_at := fun m o => CumulativeArea (word_at 8 m o) (s64 (word_at 8 m (o + 8)))
    (s64 (word_at 8 m (o + 16))) (word_at 8 m (o + 24));
  write_at := fun o x m => store_bytes m o
    (le_bytes 8 (cw_start x) ++ le_bytes 8 (cw_off x) ++ le_bytes 8 (cw_send_off x) ++
     le_bytes 8 (cw_sz x));
  fits := fun x => is_u64 (cw_start x) /\ is_s64 (cw_off x) /\ is_s64 (cw_send_off x) /\ is_u64 (cw_sz x);
  alike := eq;
|}.

#[export] Instance timeout_layout : Area timeout_area := {|
  place := OUTPUT_TIMEOUT_COMPUTING;
  read_at := fun m o => TimeoutArea (word_at 8 m o) (word_at 8 m (o + 8)) (word_at 8 m (o + 16));
  write_at := fun o x m => store_bytes m o
    (le_bytes 8 (SRTT x) ++ le_bytes 8 (RTTVAR x) ++ le_bytes 8 (nm x));
  fits := fun x => is_u64 (SRTT x) /\ is_u64 (RTTVAR x) /\ is_u64 (nm x);
  alike := eq;
|}.

(** [cnt] is an [int]. *)
Definition s32 (z : Z) : Z := (z + 2147483648) `mod` modulus32 - 2147483648.

#[export] Instance fast_retransmit_layout : Area fast_retransmit_area := {|
  place := OUTPUT_FAST_RETRANSMITION;
  read_at := fun m o => FastRetransmitArea (word_at 4 m o) (s32 (word_at 4 m (o + 4)));
  write_at := fun o x m => store_bytes m o (le_bytes 4 (fr_last x) ++ le_bytes 4 (fr_cnt x));
  fits := fun x => is_u32 (fr_last x) /\ is_s32 (fr_cnt x);
  alike := eq;
|}.

#[export] Instance input_window_layout : Area input_window_area := {|
  place := INPUT_RECEIVER_WINDOW_PROCESSING;
  read_at := fun m o => InputWindowArea (word_at 8 m o) (s64 (word_at 8 m (o + 8)))
    (word_at 8 m (o + 16)) (s64 (word_at 8 m (o + 24)));
  write_at := fun o x m => store_bytes m o
    (le_bytes 8 (iw_start x) ++ le_bytes 8 (iw_off x) ++ le_bytes 8 (iw_sz x) ++
     le_bytes 8 (iw_flushed_off x));
  fits := fun x => is_u64 (iw_start x) /\ is_s64 (iw_off x) /\ is_u64 (iw_sz x) /\ is_s64 (iw_flushed_off x);
  alike := eq;
|}.

#[export] Instance establish_layout : Area establish_area := {|
  place := ESTABLISH_HANDSHAKER;
  read_at := fun m o => EstablishArea (word_at 4 m o) (word_at 4 m (o + 4)) (word_at 4 m (o + 8));
  write_at := fun o x m => store_bytes m o
    (le_bytes 4 (est_send_remebered_seq x) ++ le_bytes 4 (est_recv_remebered_seq x) ++
     le_bytes 4 (est_recv_remebered_ack_seq x));
  fits := fun x => is_u32 (est_send_remebered_seq x) /\ is_u32 (est_recv_remebered_seq x) /\
    is_u32 (est_recv_remebered_ack_seq x);
  alike := eq;
|}.

#[export] Instance close_layout : Area close_area := {|
  place := CLOSE_HANDSHAKER;
  read_at := fun m o => CloseArea (word_at 4 m o) (word_at 4 m (o + 4));
  write_at := fun o x m => store_bytes m o
    (le_bytes 4 (cl_send_remebered_seq x) ++ le_bytes 4 (cl_recv_remebered_seq x));
  fits := fun x => is_u32 (cl_send_remebered_seq x) /\ is_u32 (cl_recv_remebered_seq x);
  alike := eq;
|}.

Definition agree (n : Z) (f g : Z -> Z) : Prop := forall i, 0 <= i < n -> f i = g i.

#[export] Instance input_buffer_layout : Area input_buffer_area := {|
  place := INPUT_RECEIVER_BUFFER_PROCESSING;
  read_at := fun m o => InputBufferArea (s64 (word_at 8 m o)) (load_block m (o + 8) INPUT_BUF_SZ);
  write_at := fun o x m =>
    store_block (store_bytes m o (le_bytes 8 (ib_off x))) (o + 8) INPUT_BUF_SZ (ib_buf x);
  fits := fun x => is_s64 (ib_off x) /\ (forall i, 0 <= i < INPUT_BUF_SZ -> is_byte (ib_buf x i));
  alike := fun x y => ib_off x = ib_off y /\ agree INPUT_BUF_SZ (ib_buf x) (ib_buf y);
|}.

#[export] Instance send_buffer_layout : Area send_buffer_area := {|
  place := OUTPUT_SEND_OUTPUT_BUFFER;
  read_at := fun m o =>
    SendBufferArea (load_block m o OUTPUT_SEND_BUF_SZ)
      (load_words m (o + OUTPUT_SEND_BUF_SZ) OUTPUT_SEND_BUF_SZ)
      (s64 (word_at 8 m (o + 9 * OUTPUT_SEND_BUF_SZ)));
  write_at := fun o x m =>
    store_bytes
      (store_words (store_block m o OUTPUT_SEND_BUF_SZ (sb_buf x))
         (o + OUTPUT_SEND_BUF_SZ) OUTPUT_SEND_BUF_SZ (sb_off_map x))
      (o + 9 * OUTPUT_SEND_BUF_SZ) (le_bytes 8 (sb_end x));
  fits := fun x => (forall i, 0 <= i < OUTPUT_SEND_BUF_SZ -> is_byte (sb_buf x i)) /\
    (forall i, 0 <= i < OUTPUT_SEND_BUF_SZ -> is_s64 (sb_off_map x i)) /\ is_s64 (sb_end x);
  alike := fun x y => agree OUTPUT_SEND_BUF_SZ (sb_buf x) (sb_buf y) /\
    agree OUTPUT_SEND_BUF_SZ (sb_off_map x) (sb_off_map y) /\ sb_end x = sb_end y;
|}.

(** ** The layouts obey the laws *)

#[local] Arguments word_at : simpl never.
#[local] Arguments store_bytes : simpl never.
#[local] Arguments store_block : simpl never.
#[local] Arguments store_words : simpl never.
#[local] Arguments load_words : simpl never.
#[local] Arguments load_block : simpl never.
#[local] Arguments le_bytes : simpl never.
#[local] Arguments app : simpl never.

Lemma word_field m o bs k n v :
  0 <= k -> (Z.to_nat k + n <= length bs)%nat -> slice (Z.to_nat k) n bs = le_bytes n v ->
  word_at n (store_bytes m o bs) (o + k) = v `mod` modulus8 ^ Z.of_nat n.
Proof.
  intros Hk Hl Hs. rewrite <- (Z2Nat.id k) by done.
  by rewrite word_in_store, Hs, le_val_le_bytes.
Qed.

Lemma word_first m o bs n v :
  (n <= length bs)%nat -> slice 0 n bs = le_bytes n v ->
  word_at n (store_bytes m o bs) o = v `mod` modulus8 ^ Z.of_nat n.
Proof. intros Hl Hs. rewrite <- (Z.add_0_r o) at 2. by apply word_field. Qed.

Ltac read_field :=
  match goal with
  | |- context [word_at ?n (store_bytes ?m ?o ?bs) (?o + ?k)] =>
      erewrite (word_field m o bs k n); [|lia|lengths; lia|simpl Z.to_nat; find_slice; reflexivity]
  | |- context [word_at ?n (store_bytes ?m ?o ?bs) ?o] =>
      erewrite (word_first m o bs n); [|lengths; lia|find_slice; reflexivity]
  end.

Lemma s64_range z : is_s64 (s64 z).
Proof. unfold is_s64, s64. pose proof (Z.mod_pos_bound (z + 9223372036854775808) modulus64). lia. Qed.

Lemma s32_range z : is_s32 (s32 z).
Proof. unfold is_s32, s32. pose proof (Z.mod_pos_bound (z + 2147483648) modulus32). lia. Qed.

Lemma s32_small z : -2147483648 <= z < 2147483648 -> s32 z = z.
Proof. intros. unfold s32. rewrite Z.mod_small; lia. Qed.

Lemma s32_unsigned z : s32 (z `mod` modulus8 ^ Z.of_nat 4) = s32 z.
Proof.
  change (modulus8 ^ Z.of_nat 4) with modulus32. unfold s32. by rewrite Zplus_mod_idemp_l.
Qed.

Lemma load_are_bytes m a n : all_bytes m -> Forall is_byte (load_bytes m a n).
Proof. intros H. revert a. induction n; intros a; constructor; auto. Qed.

Lemma word_bound n m a : all_bytes m -> 0 <= word_at n m a < modulus8 ^ Z.of_nat n.
Proof.
  intros H. unfold word_at. rewrite <- (length_load_bytes m a n) at 3.
  by apply le_val_bound, load_are_bytes.
Qed.

Lemma word_u64 m a : all_bytes m -> is_u64 (word_at 8 m a).
Proof. apply (word_bound 8). Qed.
Lemma word_u32 m a : all_bytes m -> is_u32 (word_at 4 m a).
Proof. apply (word_bound 4). Qed.

Lemma store_all_bytes m a bs : all_bytes m -> Forall is_byte bs -> all_bytes (store_bytes m a bs).
Proof.
  intros Hm Hb i. unfold store_bytes.
  destruct (Z.leb_spec a i), (Z.ltb_spec i (a + Z.of_nat (length bs))); cbn [andb]; try apply Hm.
  rewrite Forall_forall in Hb. apply Hb, list_elem_of_In, nth_In. lia.
Qed.

Lemma block_all_bytes m a n f :
  all_bytes m -> (forall i, 0 <= i < n -> is_byte (f i)) -> all_bytes (store_block m a n f).
Proof.
  intros Hm Hf i. unfold store_block.
  destruct (Z.leb_spec a i), (Z.ltb_spec i (a + n)); cbn [andb]; try apply Hm. apply Hf. lia.
Qed.

(** The fields of an area are bytes of the area. *)
Ltac same_words :=
  match goal with
  | H : forall i, _ -> ?m' i = ?m i |- _ =>
      rewrite ?(fun n a => word_at_ext n m m' a) by (intros; apply H; lia)
  end.

(** A structure of fields without arrays. *)
Ltac fields_laws :=
  split;
  [ apply _
  | intros o [] m; cbn; unfold is_u64, is_s64, is_u32, is_s32; intros;
    repeat read_field; rewrite ?s64_unsigned, ?s32_unsigned;
    repeat first [rewrite s64_small by tauto | rewrite s32_small by tauto
                 | rewrite Z.mod_small by (cbn; lia)]; done
  | cbn; intros; apply store_bytes_out; lengths; lia
  | cbn; intros; by same_words
  | intros o m Hm; cbn; split_and!; first [by apply word_u64|by apply word_u32|apply s64_range|apply s32_range]
  | cbn; intros; apply store_all_bytes; [done|]; repeat apply Forall_app_2; auto with net666 ].

#[export] Instance window_control_laws : AreaLaws window_control_area.
Proof. fields_laws. Qed.
#[export] Instance cumulative_laws : AreaLaws cumulative_area.
Proof. fields_laws. Qed.
#[export] Instance timeout_laws : AreaLaws timeout_area.
Proof. fields_laws. Qed.
#[export] Instance fast_retransmit_laws : AreaLaws fast_retransmit_area.
Proof. fields_laws. Qed.
#[export] Instance input_window_laws : AreaLaws input_window_area.
Proof. fields_laws. Qed.
#[export] Instance establish_laws : AreaLaws establish_area.
Proof. fields_laws. Qed.
#[export] Instance close_laws : AreaLaws close_area.
Proof. fields_laws. Qed.

#[export] Instance state_laws : AreaLaws internal_state_area.
Proof.
  split; cbn.
  - apply _.
  - intros o [x] m _. cbn. read_field. by destruct x.
  - intros. apply store_bytes_out. lengths. lia.
  - intros. by same_words.
  - done.
  - intros. apply store_all_bytes; auto with net666.
Qed.

Lemma agree_equiv n : Equivalence (agree n).
Proof.
  split; [by intros f i|by intros f g H i Hi; rewrite H|].
  intros f g h H1 H2 i Hi. by rewrite H1, H2.
Qed.

Lemma load_store_block m a n f : agree n (load_block (store_block m a n f) a n) f.
Proof.
  intros i Hi. rewrite load_block_at, store_block_in by lia. f_equal. lia.
Qed.

Lemma load_block_ext m m' a n :
  (forall i, a <= i < a + n -> m' i = m i) -> agree n (load_block m' a n) (load_block m a n).
Proof. intros H i Hi. rewrite !load_block_at by lia. apply H. lia. Qed.

Lemma load_words_ext m m' a n :
  (forall i, a <= i < a + 8 * n -> m' i = m i) -> agree n (load_words m' a n) (load_words m a n).
Proof.
  intros H i Hi. rewrite !load_words_at by lia. f_equal. apply word_at_ext. intros j Hj. apply H. lia.
Qed.

Lemma word_outside_block m a n f k c :
  c + Z.of_nat k <= a \/ a + n <= c -> word_at k (store_block m a n f) c = word_at k m c.
Proof. intros H. apply word_at_ext. intros i Hi. apply store_block_out. lia. Qed.

#[export] Instance input_buffer_laws : AreaLaws input_buffer_area.
Proof.
  pose proof (agree_equiv INPUT_BUF_SZ) as [? ? ?]. split; cbn.
  - split; [by intros x; split|by intros x y [? ?]; split|].
    intros x y z [? ?] [? ?]; split; [congruence|by etransitivity].
  - intros o x m [Hx _]. split; [|apply load_store_block].
    rewrite word_outside_block by (unfold INPUT_BUF_SZ; lia). read_field. by rewrite s64_unsigned, s64_small.
  - unfold INPUT_BUF_SZ. intros o x m i Hi.
    rewrite store_block_out, store_bytes_out by (lengths; lia). done.
  - unfold INPUT_BUF_SZ. intros o m m' H. split; [by same_words|].
    apply load_block_ext. intros i Hi. apply H. lia.
  - intros o m Hm. split; [apply s64_range|]. intros i Hi. rewrite load_block_at by done. apply Hm.
  - intros o x m [_ Hb] Hm. apply block_all_bytes; [|done]. apply store_all_bytes; auto with net666.
Qed.

#[export] Instance send_buffer_laws : AreaLaws send_buffer_area.
Proof.
  pose proof (agree_equiv OUTPUT_SEND_BUF_SZ) as [? ? ?]. split; cbn.
  - split; [by intros x; split_and!|by intros x y (?&?&?); split_and!|].
    intros x y z (?&?&?) (?&?&?); split_and!; [by etransitivity..|congruence].
  - intros o x m (_&Hx&He). split_and!.
    + intros i Hi. rewrite load_block_at by done. rewrite store_bytes_out by lia. unfold store_words.
      rewrite store_block_out by lia. rewrite <- (load_block_at _ o OUTPUT_SEND_BUF_SZ) by done.
      by apply load_store_block.
    + intros i Hi. etransitivity; [|etransitivity]; [|exact (load_store_words (store_block m o
        OUTPUT_SEND_BUF_SZ (sb_buf x)) (o + OUTPUT_SEND_BUF_SZ) OUTPUT_SEND_BUF_SZ (sb_off_map x) i Hi)|by apply s64_small, Hx].
      apply load_words_ext; [|done]. intros j Hj. apply store_bytes_out. lia.
    + rewrite (word_first _ _ _ _ (sb_end x)); [|lengths; lia|by find_slice].
      by rewrite s64_unsigned, s64_small.
  - unfold OUTPUT_SEND_BUF_SZ. intros o x m i Hi. rewrite store_bytes_out by (lengths; lia).
    unfold store_words. rewrite !store_block_out by lia. done.
  - unfold OUTPUT_SEND_BUF_SZ. intros o m m' H. split_and!; [| |by same_words].
    + apply load_block_ext. intros i Hi. apply H. lia.
    + apply load_words_ext. intros i Hi. apply H. lia.
  - intros o m Hm. split_and!; [| |apply s64_range].
    + intros i Hi. rewrite load_block_at by done. apply Hm.
    + intros i Hi. rewrite load_words_at by done. apply s64_range.
  - intros o x m (Hb&_) Hm. apply store_all_bytes; [|auto with net666]. apply block_all_bytes.
    + by apply block_all_bytes.
    + intros i Hi. pose proof (le_bytes_are_bytes 8 (sb_off_map x (i `div` 8))) as Hbs.
      rewrite Forall_forall in Hbs. apply Hbs, list_elem_of_In, nth_In. rewrite length_le_bytes.
      pose proof (Z.mod_pos_bound i 8). lia.
Qed.

(** ** What [mem_manager::on_init] writes (194-197, 281-283)

    [mem_area<E>::init]; an area without fields to set is left as it is. *)

Definition init_area (E : MEM_TAG) (a : Z) (m : mem) : mem :=
  match E with
  | INPUT_RECEIVER_WINDOW_PROCESSING =>
      let m := store_bytes m (a + 8) (le_bytes 8 0) in
      let m := store_bytes m a (le_bytes 8 0) in
      store_bytes m (a + 16) (le_bytes 8 INPUT_WINDOW_SZ)
  | INPUT_RECEIVER_BUFFER_PROCESSING => store_bytes m a (le_bytes 8 0)
  | OUTPUT_RECEIVER_WINDOW_CONTROL =>
      let m := store_bytes m (a + 16) (le_bytes 8 0) in
      let m := store_bytes m a (le_bytes 8 OUTPUT_WINDOW_SZ) in
      store_bytes m (a + 8) (le_bytes 8 OUTPUT_CONGECTION_START_SZ)
  | OUTPUT_CUMULATIVE_WINDOW_PROCESSING =>
      let m := store_bytes m (a + 16) (le_bytes 8 0) in
      let m := store_bytes m (a + 8) (le_bytes 8 0) in
      let m := store_bytes m a (le_bytes 8 0) in
      store_bytes m (a + 24) (le_bytes 8 OUTPUT_WINDOW_SZ)
  | OUTPUT_FAST_RETRANSMITION => store_bytes m (a + 4) (le_bytes 4 0)
  | INTERNAL_STATE => store_bytes m a (le_bytes 4 (state_no CLOSED))
  | _ => m
  end.

(** [mem_info<E>::init]: the area, then those before it. *)
Fixpoint info_init (n : nat) (m : mem) : mem :=
  match n with
  | O => m
  | S p =>
      info_init p
        (match all_tags !! n with Some E => init_area E (summary_prefix_off E) m | None => m end)
  end.

Definition on_init (m : mem) : mem := info_init (tag_no MEM_TAG_END - 1) m.

(** ** The memory represents the socket's areas *)

Record represents (m : mem) (s : sk) : Prop := {
  rp_state : alike (area_get m) (k_state s);
  rp_wc : alike (area_get m) (k_wc s);
  rp_cw : alike (area_get m) (k_cw s);
  rp_sb : alike (area_get m) (k_sb s);
  rp_to : alike (area_get m) (k_to s);
  rp_fr : alike (area_get m) (k_fr s);
  rp_iw : alike (area_get m) (k_iw s);
  rp_ib : alike (area_get m) (k_ib s);
  rp_est : alike (area_get m) (k_est s);
  rp_cl : alike (area_get m) (k_cl s);
  rp_bytes : all_bytes m;
}.

Section two_areas.
Context {A B : Type} `{HA : AreaLaws A} `{HB : AreaLaws B}.

Lemma shared_get_put (x : A) m : fits x -> alike (area_get (area_put x m)) x.
Proof. apply al_read_write. Qed.

Lemma shared_get_other (y : B) m :
  place (A:=A) <> place (A:=B) -> alike (area_get (A:=A) (area_put y m)) (area_get m).
Proof.
  intros Hne. apply al_read_ext. intros i Hi. apply al_write_out.
  destruct (areas_disjoint_and_inside (place (A:=A)) (place (A:=B))) as [Hd _].
  unfold area_off in *. specialize (Hd Hne). lia.
Qed.

Lemma shared_area_inside :
  place (A:=A) <> MEM_TAG_END -> place (A:=A) <> RESERVED ->
  0 <= area_off A /\ area_off A + mem_sz (place (A:=A)) <= mem_full_sz.
Proof. exact (proj2 (areas_disjoint_and_inside (place (A:=A)) RESERVED)). Qed.
End two_areas.

(** Of one area: what is read from the bytes is the record's, and writing it
    to the bytes is writing it to the record, and touches nothing outside. *)
Definition faithful (A : Type) `{Area A, MemArea sk A} : Prop :=
  forall m s (x : A), represents m s ->
    alike (area_get m) (area_get s : A) /\ fits (area_get m : A) /\
    (fits x -> represents (area_put x m) (area_put x s)) /\
    (forall i, i < area_off A \/ area_off A + mem_sz (place (A:=A)) <= i -> area_put x m i = m i) /\
    0 <= area_off A /\ area_off A + mem_sz (place (A:=A)) <= mem_full_sz.

Ltac area_faithful :=
  intros m s x Hr;
  split_and!;
  [ apply Hr
  | apply al_read_fits, Hr
  | intros Hx; split;
    cbn [area_get area_put sk_area_state sk_area_wc sk_area_cw sk_area_sb sk_area_to sk_area_fr
         sk_area_iw sk_area_ib sk_area_est sk_area_cl
         k_state k_wc k_cw k_sb k_to k_fr k_iw k_ib k_est k_cl];
    first
      [ by apply shared_get_put
      | apply al_write_bytes; [done|apply Hr]
      | etransitivity; [by apply shared_get_other|apply Hr] ]
  | intros i Hi; by apply al_write_out
  | by apply shared_area_inside
  | by apply shared_area_inside ].

Lemma shared_areas_faithful :
  faithful internal_state_area /\ faithful window_control_area /\ faithful cumulative_area /\
  faithful send_buffer_area /\ faithful timeout_area /\ faithful fast_retransmit_area /\
  faithful input_window_area /\ faithful input_buffer_area /\ faithful establish_area /\
  faithful close_area.
Proof. split_and!; area_faithful. Qed.

(** [on_init] in the memory that [ftruncate] has filled with zeros. *)
Lemma on_init_eq m :
  on_init m =
    let st a n v m := store_bytes m a (le_bytes n v) in
    let wc := summary_prefix_off OUTPUT_RECEIVER_WINDOW_CONTROL in
    let cw := summary_prefix_off OUTPUT_CUMULATIVE_WINDOW_PROCESSING in
    let fr := summary_prefix_off OUTPUT_FAST_RETRANSMITION in
    let iw := summary_prefix_off INPUT_RECEIVER_WINDOW_PROCESSING in
    let ib := summary_prefix_off INPUT_RECEIVER_BUFFER_PROCESSING in
    st 0 4%nat 0 (st (wc + 8) 8%nat 100 (st wc 8%nat 1000 (st (wc + 16) 8%nat 0
      (st (cw + 24) 8%nat 1000 (st cw 8%nat 0 (st (cw + 8) 8%nat 0 (st (cw + 16) 8%nat 0
        (st (fr + 4) 4%nat 0 (st (iw + 16) 8%nat 1000 (st iw 8%nat 0 (st (iw + 8) 8%nat 0
          (st ib 8%nat 0 m)))))))))))).
Proof. reflexivity. Qed.

Ltac offsets :=
  unfold area_off;
  repeat match goal with
  | |- context [summary_prefix_off ?E] =>
      let E' := eval cbn in E in
      let v := eval vm_compute in (summary_prefix_off E') in change (summary_prefix_off E) with v
  end.

Lemma on_init_zero_buf i :
  summary_prefix_off OUTPUT_SEND_OUTPUT_BUFFER <= i
    < summary_prefix_off OUTPUT_SEND_OUTPUT_BUFFER + mem_sz OUTPUT_SEND_OUTPUT_BUFFER \/
  summary_prefix_off INPUT_RECEIVER_BUFFER_PROCESSING + 8 <= i
    < summary_prefix_off INPUT_RECEIVER_BUFFER_PROCESSING + 8 + INPUT_BUF_SZ ->
  on_init mem_zero i = 0.
Proof.
  rewrite on_init_eq. cbv zeta. cbn [mem_sz]. offsets. unfold OUTPUT_SEND_BUF_SZ, INPUT_BUF_SZ.
  intros H. by rewrite !store_bytes_out by (lengths; lia).
Qed.

Lemma zero_word n m a : (forall i, 0 <= i < Z.of_nat n -> m (a + i) = 0) -> word_at n m a = 0.
Proof.
  intros H. unfold word_at. rewrite (load_bytes_ext m mem_zero a 0) by exact H.
  assert (forall b, le_val (load_bytes mem_zero b n) = 0) as H0; [|apply H0].
  clear H. induction n as [|n IH]; intros b; cbn [load_bytes le_val]; [done|]. by rewrite IH.
Qed.

Lemma on_init_zero_bytes : all_bytes (on_init mem_zero).
Proof.
  rewrite on_init_eq. cbv zeta. repeat (apply store_all_bytes; [|auto with net666]).
  intros i. change (is_byte 0). unfold is_byte. lia.
Qed.

Lemma on_init_zero_sb : alike (area_get (on_init mem_zero)) send_buffer_init.
Proof.
  assert (forall i, 0 <= i < 9 * OUTPUT_SEND_BUF_SZ + 8 ->
    on_init mem_zero (area_off send_buffer_area + i) = 0) as H.
  { intros i Hi. apply on_init_zero_buf. left. unfold area_off. cbn [mem_sz place send_buffer_layout]. lia. }
  unfold OUTPUT_SEND_BUF_SZ in *.
  cbn [area_get shared_area read_at send_buffer_layout alike sb_buf sb_off_map sb_end].
  unfold OUTPUT_SEND_BUF_SZ. split_and!.
  - intros i Hi. rewrite load_block_at by done. apply H. lia.
  - intros i Hi. rewrite load_words_at by done. rewrite zero_word; [done|].
    intros j Hj. rewrite <- !Z.add_assoc. apply H. lia.
  - rewrite zero_word; [done|]. intros j Hj. rewrite <- !Z.add_assoc. apply H. lia.
Qed.

Lemma on_init_zero_ib : alike (area_get (on_init mem_zero)) input_buffer_init.
Proof.
  split; [vm_compute; reflexivity|]. intros i Hi.
  cbn [area_get shared_area read_at input_buffer_layout ib_buf]. rewrite load_block_at by done.
  apply on_init_zero_buf. right. unfold area_off. cbn [place input_buffer_layout]. lia.
Qed.

Lemma on_init_zero id : represents (on_init mem_zero) (sk_init id 0).
Proof.
  split; first [exact on_init_zero_bytes|exact on_init_zero_sb|exact on_init_zero_ib|vm_compute; reflexivity].
Qed.

(** ** Components over the bytes

    A component's operations are over any state with its area: here over the
    bytes and over the socket's record.  [f] on bytes does what [g] does on the
    record that the bytes represent. *)
Definition simulates {X} (f : M mem X) (g : M sk X) : Prop :=
  forall m s, represents m s -> fst (f m) = fst (g s) /\ represents (snd (f m)) (snd (g s)).

Lemma sim_ret {X} (x : X) : simulates (mret x) (mret x).
Proof. done. Qed.

Lemma sim_bind {X Y} (f : M mem X) g (f' : X -> M mem Y) g' :
  simulates f g -> (forall x, simulates (f' x) (g' x)) -> simulates (f ≫= f') (g ≫= g').
Proof.
  intros H H' m s Hr. destruct (H m s Hr) as [He Hr']. rewrite !bind_unfold.
  destruct (f m) as [o m1], (g s) as [o' s1]. cbn [fst snd] in *. subst o'.
  destruct o; [by apply H'|done..].
Qed.

Lemma sim_get {A} `{Area A, MemArea sk A} {X} (f : A -> M mem X) g :
  faithful A -> (forall x y : A, alike x y -> x = y) ->
  (forall x, fits x -> simulates (f x) (g x)) -> simulates (mem_get ≫= f) (mem_get ≫= g).
Proof.
  intros Hf He Hs m s Hr. destruct (Hf m s (area_get m) Hr) as (Hal&Hfit&_).
  unfold mem_get. rewrite !bind_unfold. cbn [gets]. rewrite <- (He _ _ Hal). by apply Hs.
Qed.

Lemma sim_put {A} `{Area A, MemArea sk A} (x : A) :
  faithful A -> fits x -> simulates (mem_put x) (mem_put x).
Proof. intros Hf Hx m s Hr. destruct (Hf m s x Hr) as (_&_&Hp&_). split; [done|by apply Hp]. Qed.

(** The areas without arrays. *)
Ltac sims :=
  repeat first
    [ apply sim_ret
    | apply sim_get; [apply shared_areas_faithful|done|intros [] ?; cbn in *]
    | apply sim_put; [apply shared_areas_faithful|]
    | apply sim_bind; [|intros ?]
    | lazymatch goal with |- simulates (when ?b _) (when ?b _) => destruct b end
    | case_match ].

Lemma u64_is_u64 z : is_u64 (u64 z).
Proof. apply u64_range. Qed.

Lemma sim_congestion_ack m :
  is_u64 (get_window_sz m) -> simulates (cwc_on_ack m) (cwc_on_ack m).
Proof. intros Hm. unfold cwc_on_ack. sims. cbn. split_and!; [done|apply u64_is_u64|tauto]. Qed.

Lemma sim_congestion_retry : simulates cwc_on_retry cwc_on_retry.
Proof.
  unfold cwc_on_retry, mult_arg. sims. cbn in *. unfold is_u64 in *.
  pose proof (Z.div_le_upper_bound congection_win_sz 2 congection_win_sz). split_and!; lia.
Qed.

Lemma sim_congestion_new mtu_ :
  is_u64 mtu_ -> simulates (congection_window_control mtu_) (congection_window_control mtu_).
Proof. intros H. unfold congection_window_control. sims. cbn. tauto. Qed.

Lemma sim_bounded_win_sz : simulates bounded_win_sz bounded_win_sz.
Proof. unfold bounded_win_sz. sims. Qed.

(** [compute_timeout] and what uses it. *)
Lemma sim_compute_timeout R : is_u64 R -> simulates (compute_timeout R) (compute_timeout R).
Proof.
  intros HR. unfold compute_timeout, clean_compute, noclean_compute. sims; cbn in *;
    split_and!; try apply u64_is_u64; try tauto.
  unfold is_u64 in *. pose proof (Z.div_le_upper_bound R 2 R). pose proof (Z.div_pos R 2). lia.
Qed.

Lemma sim_timeout_refresh now sender ack :
  simulates (timeout_refresh now sender ack) (timeout_refresh now sender ack).
Proof. apply sim_compute_timeout, u64_is_u64. Qed.

Lemma sim_get_timeout : simulates get_timeout get_timeout.
Proof. unfold get_timeout. sims. Qed.

Lemma sim_fast_retransmit `{!RetryController mem} `{!RetryController sk} ack sender :
  is_u32 (get_seq ack) -> simulates (output_on_retry sender) (output_on_retry sender) ->
  simulates (fr_on_ack ack sender) (fr_on_ack ack sender).
Proof.
  intros Hq Hc. unfold fr_on_ack, TCP_FAST_RETRANSMIT_BOUND. sims; try exact Hc; cbn in *; try (split; [tauto|done]).
  destruct (Z.leb_spec 4 (fr_cnt + 1)); [done|]. unfold is_s32 in *. split; [tauto|lia].
Qed.

(** ** Properties *)

(** C36: the shared memory refines the record of areas the other files work on.
    The bytes [on_init] leaves in zero-filled memory represent the areas of a
    new socket; in memory that represents a socket's areas, each area reads as
    the record says, writing one is writing it in the record, touches no byte
    outside of it and stays inside [mem_full_sz]; and so the window control's
    retry and the timeout's computations over the bytes do what they do over
    the record. *)
Theorem shared_memory_refines_areas id :
  represents (on_init mem_zero) (sk_init id 0) /\
  (faithful internal_state_area /\ faithful window_control_area /\ faithful cumulative_area /\
   faithful send_buffer_area /\ faithful timeout_area /\ faithful fast_retransmit_area /\
   faithful input_window_area /\ faithful input_buffer_area /\ faithful establish_area /\
   faithful close_area) /\
  simulates cwc_on_retry cwc_on_retry /\
  (forall now sender ack, simulates (timeout_refresh now sender ack) (timeout_refresh now sender ack)) /\
  simulates get_timeout get_timeout.
Proof.
  split; [apply on_init_zero|]. split; [exact shared_areas_faithful|].
  split; [exact sim_congestion_retry|]. split; [exact sim_timeout_refresh|exact sim_get_timeout].
Qed.
