(* ===== verification/SenderModel.v ===== *)
(** * SenderModel: the socket keeps the promises the sender's window relies on

    The socket's own send buffer, signals and timers satisfy the interface
    [CumulativeOps.SenderLaws]. *)
From S2P Require Import Prelude Window Message Transfer ProtoMem Congestion Timeout.
From S2P Require Import FastRetransmit SendBuffer Inplace Slots SlotOps Cumulative CumulativeOps Socket.

(** ** The areas of a socket are stores of their own *)

Ltac sk_area := split; intros; repeat match goal with s : sk |- _ => destruct s end; done.

#[export] Instance sk_sb_laws : MemAreaLaws sk send_buffer_area.
Proof. sk_area. Qed.
#[export] Instance sk_fut_laws : MemAreaLaws sk futures_area.
Proof. sk_area. Qed.
#[export] Instance sk_cw_laws : MemAreaLaws sk cumulative_area.
Proof. sk_area. Qed.
#[export] Instance sk_sb_fut : MemAreaIndep sk send_buffer_area futures_area.
Proof. done. Qed.
#[export] Instance sk_fut_sb : MemAreaIndep sk futures_area send_buffer_area.
Proof. done. Qed.

(** ** What the sender's operations leave alone *)

(** Retransmissions make the congestion window smaller, but not zero. *)
Definition window_kept (s s' : sk) : Prop :=
  mtu (k_wc s') = mtu (k_wc s) /\ receiver_win_sz (k_wc s') = receiver_win_sz (k_wc s) /\
  (1 <= congection_win_sz (k_wc s) ->
   1 <= congection_win_sz (k_wc s') <= congection_win_sz (k_wc s)).

(** The sender's two signals apart. *)
Definition sems_kept (s s' : sk) : Prop :=
  forall n, n <> SEND_BUF_EMPTY -> n <> SEND_BUF_NOT_EMPTY -> k_sems s' n = k_sems s n.

Definition sk_frame (s s' : sk) : Prop :=
  (window_kept s s' /\ k_state s' = k_state s) /\ k_iw s' = k_iw s /\ k_ib s' = k_ib s /\
  k_id s' = k_id s /\ k_clock s' = k_clock s /\ k_out s' = k_out s /\ sems_kept s s'.

Lemma window_kept_wc (s s' : sk) : k_wc s' = k_wc s -> window_kept s s'.
Proof. intros E. unfold window_kept. rewrite E. split_and!; (done || lia). Qed.

Lemma window_kept_trans s1 s2 s3 : window_kept s1 s2 -> window_kept s2 s3 -> window_kept s1 s3.
Proof. intros (?&?&?) (?&?&?). split_and!; [congruence..|]. lia. Qed.

Lemma retry_window_kept (s : sk) :
  window_kept s (area_put (WindowControlArea (receiver_win_sz (k_wc s))
    (Z.max (congection_win_sz (k_wc s) `div` mult_arg) 1) (mtu (k_wc s))) s).
Proof.
  split; [done|]. split; [done|]. cbn. unfold mult_arg. intros Hc.
  pose proof (Z.div_le_upper_bound (congection_win_sz (k_wc s)) 2 (congection_win_sz (k_wc s))). lia.
Qed.

Lemma sk_frame_trans s1 s2 s3 : sk_frame s1 s2 -> sk_frame s2 s3 -> sk_frame s1 s3.
Proof.
  unfold sk_frame. intros ([Hw1 ?]&?&?&?&?&?&Hn1) ([Hw2 ?]&?&?&?&?&?&Hn2).
  split_and!; try congruence; [eapply window_kept_trans; eauto|].
  intros n Hn Hn'. rewrite Hn2, Hn1; done.
Qed.

(** A change of areas that keeps the semaphores, the congestion window and the
    outside. *)
Lemma sk_frame_wc (s s' : sk) :
  window_kept s s' -> k_state s' = k_state s -> k_iw s' = k_iw s -> k_ib s' = k_ib s ->
  k_id s' = k_id s -> k_clock s' = k_clock s -> k_out s' = k_out s -> k_sems s' = k_sems s ->
  sk_frame s s'.
Proof.
  intros Hw ? ? ? ? ? ? Hs. split; [done|]. repeat (split; [done|]).
  intros n _ _. rewrite Hs. done.
Qed.

Lemma sk_frame_same (s s' : sk) :
  k_wc s' = k_wc s -> k_state s' = k_state s -> k_iw s' = k_iw s -> k_ib s' = k_ib s ->
  k_id s' = k_id s -> k_clock s' = k_clock s -> k_out s' = k_out s -> k_sems s' = k_sems s ->
  sk_frame s s'.
Proof. intros Hw. apply sk_frame_wc, window_kept_wc, Hw. Qed.

(** The futures and the signal of an empty buffer. *)
Definition sk_posted (f : Z) (s : sk) : Z := futs s f.
Definition sk_empties (s : sk) : Z := k_sems s SEND_BUF_EMPTY.

Definition sk_refers (p q : Z) (d : bytes) (s : sk) : Prop :=
  exists ms1 ms2, holds (ms1 ++ (q, d) :: ms2) s /\ p = real_total ms1 + 33.

(** The buffer's memory apart from that of some messages. *)
Definition sk_elsewhere (ms1 ms2 : sent) (s s' : sk) : Prop :=
  same_outside (real_total ms1) (real_total ms2) s s'.

Lemma sk_elsewhere_same ms1 ms2 (s s' : sk) : k_sb s' = k_sb s -> sk_elsewhere ms1 ms2 s s'.
Proof. intros He x _. unfold sbuf. cbn. by rewrite He. Qed.

(** A change within one of the messages. *)
Lemma sk_elsewhere_slot ms1 q d (s s' : sk) :
  same_outside (real_total ms1) (real_total ms1 + inplace_size (Z.of_nat (length d))) s s' ->
  sk_elsewhere ms1 (ms1 ++ [(q, d)]) s s'.
Proof.
  intros H x Hx. apply H. rewrite real_total_app in Hx. cbn [real_total] in Hx. lia.
Qed.

Lemma sk_elsewhere_trans ms1 ms2 s1 s2 s3 :
  sk_elsewhere ms1 ms2 s1 s2 -> sk_elsewhere ms1 ms2 s2 s3 -> sk_elsewhere ms1 ms2 s1 s3.
Proof. intros H1 H2 x Hx. by rewrite H2, H1. Qed.

(** Writes outside the buffer keep what it holds. *)
Lemma holds_same_sb ms (s s' : sk) : k_sb s' = k_sb s -> holds ms s -> holds ms s'.
Proof. intros He [H Ht]. split; [|done]. unfold sbuf in *. cbn in *. rewrite He. done. Qed.

(** The buffer's own operations touch the buffer and the futures only. *)
Lemma same_rest_sk (s s' : sk) :
  same_rest s s' ->
  sk_frame s s' /\ k_cw s' = k_cw s /\ k_wc s' = k_wc s /\ k_to s' = k_to s /\ k_fr s' = k_fr s.
Proof.
  intros H. split.
  - apply sk_frame_same; by apply H.
  - rewrite (H _ k_cw), (H _ k_wc), (H _ k_to), (H _ k_fr) by done. done.
Qed.

Lemma same_rest_sems (s s' : sk) : same_rest s s' -> k_sems s' = k_sems s.
Proof. intros H. by apply H. Qed.

Lemma same_rest_signals (s s' : sk) :
  same_rest s s' -> futs s' = futs s -> same_signals sk_posted sk_empties s s'.
Proof.
  intros H Hf. split; [intros e; unfold sk_posted; rewrite Hf; done|].
  unfold sk_empties. rewrite (same_rest_sems s s' H). done.
Qed.

Lemma compute_timeout_sk R (s : sk) :
  exists a, compute_timeout R s = (Ret tt, area_put (a : timeout_area) s).
Proof.
  unfold compute_timeout. rewrite bind_unfold. cbn [mem_get gets].
  destruct (nm (area_get s) =? 0).
  - eexists. reflexivity.
  - eexists. reflexivity.
Qed.

Lemma holds_first_message ms1 q d ms2 (s : sk) :
  holds (ms1 ++ (q, d) :: ms2) s ->
  exists m, sent_msg q d m /\ msg_at (real_total ms1 + 33) s = (Ret m, s).
Proof.
  intros Hh. destruct (holds_slot _ _ _ _ _ Hh) as (m&Hm&_&Hl&_).
  exists m. split; [done|]. unfold msg_at. rewrite bind_unfold. cbn [mem_get gets].
  change (area_get s) with (sbuf s). rewrite Hl. done.
Qed.

(** Whether a message is marked is a matter of the buffer. *)
Lemma used_same_sb p b (s s' : sk) :
  k_sb s' = k_sb s -> sk_is_msg_used p s = (Ret b, s) -> sk_is_msg_used p s' = (Ret b, s').
Proof.
  intros He. unfold sk_is_msg_used, read_buf. rewrite !bind_unfold. cbn [mem_get gets].
  change (area_get s') with (k_sb s'). change (area_get s) with (k_sb s). rewrite He.
  destruct (in_buf _ _); [|done]. cbn. intros [= <-]. done.
Qed.

(** [retry] of the first outstanding message, with the window in its area. *)
Lemma sk_retry_first start ms1 q d ms2 soff m (s : sk) :
  holds (ms1 ++ (q, d) :: ms2) s ->
  k_cw s = CumulativeArea start (total ms1) soff OUTPUT_WINDOW_SZ ->
  q = start + total ms1 -> 0 <= start /\ start + OUTPUT_WINDOW_SZ < modulus32 ->
  get_seq m = q ->
  exists s', sk_output_on_retry m s = (Ret tt, s') /\
    holds (ms1 ++ (q, d) :: ms2) s' /\ k_cw s' = k_cw s /\ sk_frame s s' /\
    same_signals sk_posted sk_empties s s' /\ sk_elsewhere ms1 (ms1 ++ [(q, d)]) s s' /\
    sk_is_msg_used (real_total ms1 + 33) s' = (Ret false, s').
Proof.
  intros Hh Hcw Hq Hst Hm.
  destruct (holds_split _ _ _ Hh) as (?&Ht2&?&_&_&_).
  destruct (holds_slot _ _ _ _ _ Hh) as (_&_&_&_&?&_).
  cbn [total] in *. unfold OUTPUT_WINDOW_SZ in Hst.
  set (s1 := area_put (WindowControlArea (receiver_win_sz (k_wc s))
               (Z.max (congection_win_sz (k_wc s) `div` mult_arg) 1) (mtu (k_wc s))) s).
  assert (cwc_on_retry s = (Ret tt, s1)) as E1 by done.
  set (w := Swin (Rwin start (total ms1) OUTPUT_WINDOW_SZ) soff).
  assert (setup s1 = (Ret w, s1)) as E2
    by (unfold setup; rewrite bind_unfold; cbn; rewrite Hcw; done).
  assert (holds (ms1 ++ (q, d) :: ms2) s1) as Hh1 by (apply (holds_same_sb _ s); done).
  destruct (mark_msg_used_ok ms1 q d ms2 false s1 Hh1) as (s2&E3&Hh2&Hfu2&Hs2&Hun&Hfrom).
  destruct (same_rest_sk _ _ Hs2) as (Hf2&Hc2&_).
  exists (area_put (k_cw s) s2). split_and!.
  - unfold sk_output_on_retry. mstep E1. unfold cw_retry. mstep E2.
    assert (in_space w) as Hsp.
    { unfold in_space, window_wf, w, OUTPUT_WINDOW_SZ in *. simpl. lia. }
    assert (begin w = start + total ms1) as Hb.
    { unfold begin, w. cbn [w_start w_off sw_win]. apply u64_small. unfold OUTPUT_WINDOW_SZ in *. lia. }
    assert (s64 (u64 (get_in_msg_off (get_seq m) w + offset w)) = total ms1) as Hoff.
    { unfold OUTPUT_WINDOW_SZ in *.
      rewrite get_in_msg_off_distance by lia.
      rewrite seq_distance_in_space by (done || (rewrite Hb; lia)). rewrite Hb, Hm, Hq.
      unfold offset. cbn [w_off sw_win w]. rewrite u64_small, s64_small by lia. lia. }
    rewrite Hoff. cbn [output_sent_buf_get_msg_at mark_msg_used sk_sent_buf].
    mstep (get_msg_at_ok ms1 ((q, d) :: ms2) s1 Hh1).
    change (real_total ms1 + offsetof_msg_data) with (real_total ms1 + 33). mstep E3.
    unfold flush, mem_put, modify. rewrite Hcw. done.
  - apply (holds_same_sb _ s2); done.
  - done.
  - apply (sk_frame_trans _ s1); [|apply (sk_frame_trans _ s2); [done|by apply sk_frame_same]].
    apply sk_frame_wc; try done. apply retry_window_kept.
  - apply (same_rest_signals _ _ Hs2 Hfu2).
  - apply (sk_elsewhere_slot _ _ _ s1 s2), Hfrom.
  - apply (used_same_sb _ _ s2); done.
Qed.

Lemma futures_of_starts dn ms : futures_of real_total dn ms = slot_starts (real_total dn) ms.
Proof.
  revert dn. induction ms as [|[q d] ms IH]; intros dn; cbn [futures_of slot_starts]; [done|].
  rewrite IH, real_total_app. cbn [real_total]. rewrite Z.add_0_r. done.
Qed.

(** ** The laws the window asks of the socket

    A message put behind the others: its future is cleared, and after a put
    with data its view reads back as unused. *)
Lemma sk_put_ok ms sq d m (s : sk) :
  holds ms s -> sent_msg sq d m -> (0 < length d)%nat ->
  total ms + Z.of_nat (length d) <= OUTPUT_WINDOW_SZ ->
  exists s', output_sent_buf_put_msg_at (total ms) m s = (Ret (real_total ms), s') /\
    holds (ms ++ [(sq, d)]) s' /\ k_cw s' = k_cw s /\ sk_frame s s' /\
    sk_posted (real_total ms) s' = 0 /\
    (forall e, e <> real_total ms -> sk_posted e s' = sk_posted e s) /\
    sk_empties s' = sk_empties s /\ sk_elsewhere ms (ms ++ [(sq, d)]) s s' /\
    (daddr (m_iph m) = 0 -> exists v, output_sent_buf_get_msg_at (total ms) s' = (Ret v, s') /\
       is_msg_used v s' = (Ret false, s')).
Proof.
  intros Hh Hm Hd Ht.
  destruct (put_msg_at_ok ms sq d m s Hh Hm Hd Ht) as (s'&H1&H2&Hfu&Hs&Hfrom&Hraw).
  destruct (same_rest_sk _ _ Hs) as (?&?&_). exists s'. split_and!; try done.
  + unfold sk_posted. rewrite Hfu. apply fun_insert_eq.
  + intros e He. unfold sk_posted. rewrite Hfu. by apply fun_insert_ne.
  + unfold sk_empties. rewrite (same_rest_sems _ _ Hs). done.
  + by apply sk_elsewhere_slot.
  + intros Hda. exists (real_total ms + 33). split; [apply (get_msg_at_ok ms [(sq, d)] s' H2)|].
    destruct (holds_slot _ _ _ _ _ H2) as (_&_&_&_&?&?&?&?&?).
    apply (raw_at_unused _ m); [done|apply Hm|done|].
    unfold in_buf, offsetof_used, sizeof_sem_t, OUTPUT_SEND_BUF_SZ. lia.
Qed.

(** Releasing a range posts the future of each of its messages once. *)
Lemma sk_release_ok ms1 rel ms2 (s : sk) :
  holds (ms1 ++ rel ++ ms2) s ->
  exists s', output_sent_buf_release_range (total ms1) (total (ms1 ++ rel) - 1) s = (Ret tt, s') /\
    holds (ms1 ++ rel ++ ms2) s' /\ k_cw s' = k_cw s /\ sk_frame s s' /\
    (forall e, e ∈ futures_of real_total ms1 rel -> sk_posted e s' = sk_posted e s + 1) /\
    (forall e, e ∉ futures_of real_total ms1 rel -> sk_posted e s' = sk_posted e s) /\
    sk_empties s' = sk_empties s /\ sk_elsewhere [] [] s s'.
Proof.
  intros Hh. destruct (release_range_ok ms1 rel ms2 s Hh) as (s'&H1&Hb&Hfu&Hs).
  destruct (same_rest_sk _ _ Hs) as (?&?&_).
  assert (forall e, sk_posted e s' = sk_posted e s +
            (if decide (e ∈ slot_starts (real_total ms1) rel) then 1 else 0)) as Hn
    by (intros e; unfold sk_posted; rewrite Hfu;
        apply notify_all_once, (slot_starts_nodup ms1 rel ms2 s); exact Hh).
  exists s'. split; [exact H1|]. split; [by apply (holds_same_sb _ s)|]. split; [done|].
  split; [done|]. rewrite futures_of_starts. split; [|split; [|split]].
  + intros e He. rewrite Hn, decide_True by done. done.
  + intros e He. rewrite Hn, decide_False by done. lia.
  + unfold sk_empties. rewrite (same_rest_sems _ _ Hs). done.
  + by apply sk_elsewhere_same.
Qed.

(** A buffer semaphore posted: the empty one counts. *)
Lemma sk_signal_ok ms (s : sk) (b : bool) :
  holds ms s ->
  exists s', (if b then output_sent_buf_signal_not_empty else on_sent_buf_empty) s = (Ret tt, s') /\
    holds ms s' /\ k_cw s' = k_cw s /\ sk_frame s s' /\
    (forall e, sk_posted e s' = sk_posted e s) /\
    sk_empties s' = sk_empties s + (if b then 0 else 1) /\ sk_elsewhere [] [] s s'.
Proof.
  intros Hh.
  destruct b; (eexists; split; [reflexivity|]; split; [by apply (holds_same_sb _ s)|];
    split; [done|]; split; [|split; [done|split; [unfold sk_empties; cbn; repeat case_decide; (done || lia)|done]]];
    split; [split; [by apply window_kept_wc|done]|]; repeat (split; [done|]);
    intros n H1 H2; cbn; by rewrite decide_False).
Qed.

(** The round trip of an acknowledged message goes into the timeout. *)
Lemma sk_refresh_ok ms v sq d ack (s : sk) :
  holds ms s -> sk_refers v sq d s ->
  exists s', output_refresh_on_msg_pair v ack s = (Ret tt, s') /\
    holds ms s' /\ k_cw s' = k_cw s /\ sk_frame s s' /\
    same_signals sk_posted sk_empties s s' /\ sk_elsewhere [] [] s s'.
Proof.
  intros Hh (ms1&ms2&Hh2&->).
  destruct (holds_first_message _ _ _ _ _ Hh2) as (m&Hm&Hat).
  cbn [output_refresh_on_msg_pair sk_send_events]. unfold sk_output_refresh_on_msg_pair.
  assert (get_timestamp s = (Ret (k_clock s), s)) as Hts by done.
  destruct (compute_timeout_sk (u64 (s64
    (s64 (s64 (get_recv_timestamp ack) - s64 (get_sender_timestamp ack)) +
     s64 (s64 (k_clock s) - s64 (get_sender_timestamp m))))) s) as (a&Hc).
  exists (area_put a s). split; [mstep Hat; mstep Hts; exact Hc|].
  split; [exact Hh|]. split; [done|]. split; [by apply sk_frame_same|done].
Qed.

(** A repeated acknowledgement is counted, and the last one of a run of
    [TCP_FAST_RETRANSMIT_BOUND] sends the first outstanding message again. *)
Lemma sk_refresh_prev_ok start ms1 sq d ms2 soff v ack (s : sk) :
  holds (ms1 ++ (sq, d) :: ms2) s -> sk_refers v sq d s ->
  k_cw s = CumulativeArea start (total ms1) soff OUTPUT_WINDOW_SZ ->
  sq = start + total ms1 -> 0 <= start /\ start + OUTPUT_WINDOW_SZ < modulus32 ->
  exists s', output_refresh_on_msg_pair_prev_window_matched v ack s = (Ret tt, s') /\
    holds (ms1 ++ (sq, d) :: ms2) s' /\ k_cw s' = k_cw s /\ sk_frame s s' /\
    same_signals sk_posted sk_empties s s' /\ sk_elsewhere ms1 (ms1 ++ [(sq, d)]) s s' /\
    (forall v', output_sent_buf_get_msg_at (total ms1) s = (Ret v', s) ->
      is_msg_used v' s = (Ret false, s) -> is_msg_used v' s' = (Ret false, s')).
Proof.
  intros Hh (ms1'&ms2'&Hh2&->) Hcw Hsq Hst.
  destruct (holds_first_message _ _ _ _ _ Hh2) as (m&Hm&Hat).
  cbn [output_refresh_on_msg_pair_prev_window_matched sk_send_events]. unfold sk_output_refresh_prev.
  rewrite (run_ret _ _ _ _ _ Hat). unfold fr_on_ack. rewrite bind_unfold. cbn [mem_get gets].
  assert (forall a : fast_retransmit_area, exists s', mem_put a s = (Ret tt, s') /\
    holds (ms1 ++ (sq, d) :: ms2) s' /\ area_get s' = (area_get s : cumulative_area) /\
    sk_frame s s' /\ same_signals sk_posted sk_empties s s' /\
    sk_elsewhere ms1 (ms1 ++ [(sq, d)]) s s' /\
    (forall v', output_sent_buf_get_msg_at (total ms1) s = (Ret v', s) ->
      is_msg_used v' s = (Ret false, s) -> is_msg_used v' s' = (Ret false, s'))) as Hput.
  { intros a. exists (area_put a s). split; [done|]. split; [exact Hh|]. split; [done|].
    split; [by apply sk_frame_same|]. split; [done|]. split; [done|].
    intros v' _ Hv'. by apply (used_same_sb _ _ s). }
  destruct (fr_cnt (area_get s) =? 0); [apply Hput|].
  destruct (get_seq ack =? fr_last (area_get s)); [|apply Hput].
  destruct (TCP_FAST_RETRANSMIT_BOUND <=? fr_cnt (area_get s) + 1); [|apply Hput].
  set (s1 := area_put (FastRetransmitArea (fr_last (area_get s)) 0) s).
  rewrite bind_unfold. unfold mem_put, modify. fold s1.
  destruct (sk_retry_first start ms1 sq d ms2 soff m s1) as (s'&Hr&Hh'&Hc&Hf&Hsig&Hbe&Hun).
  + apply (holds_same_sb _ s); done.
  + exact Hcw.
  + done.
  + done.
  + apply Hm.
  + exists s'. split; [done|]. split; [done|]. split; [done|]. split; [|split; [exact Hsig|split; [exact Hbe|]]];
      [|intros v' Hv' _; cbn [output_sent_buf_get_msg_at sk_sent_buf] in Hv';
        rewrite (get_msg_at_ok ms1 ((sq, d) :: ms2) s Hh) in Hv'; injection Hv' as <-; exact Hun].
    apply (sk_frame_trans _ s1); [by apply sk_frame_same|done].
Qed.

#[export] Instance sk_sender_laws : SenderLaws sk Z Z.
Proof.
  refine {|
    stored := fun ms s => holds ms s;
    frame := sk_frame;
    posted := sk_posted;
    empties := sk_empties;
    fut_at := real_total;
    elsewhere := sk_elsewhere;
    refers := sk_refers |}.
  - done.
  - apply sk_elsewhere_trans.
  - intros ms1 ms2 s s' H x _. apply H. cbn. lia.
  - done.
  - intros s. by apply sk_frame_same.
  - apply sk_frame_trans.
  - intros a s. by apply sk_frame_same.
  - intros a s. split; done.
  - intros ms s Hh. rewrite futures_of_starts. apply (slot_starts_nodup [] ms [] s).
    rewrite app_nil_r. exact Hh.
  - intros ms a s. apply holds_same_sb. done.
  - intros ms sq d m s. apply sk_put_ok.
  - intros ms1 sq d ms2 s Hh. exists (real_total ms1 + 33). split.
    + apply (get_msg_at_ok ms1 ((sq, d) :: ms2) s Hh).
    + exists ms1, ms2. done.
  - intros ms1 rel ms2 s. apply sk_release_ok.
  - intros ms s Hh. eexists. split; [reflexivity|]. split; [done|]. split; [done|].
    split; [by apply sk_frame_same|]. done.
  - intros ms s b. apply sk_signal_ok.
  - intros ms v sq d ack s Hh Hv. by apply (sk_refresh_ok ms v sq d).
  - intros start ms1 sq d ms2 soff v ack s Hh Hv Hcw Hsq Hst.
    by apply (sk_refresh_prev_ok start ms1 sq d ms2 soff).
  - intros ms1 sq d ms2 s s' Hh Hh'. exists (real_total ms1 + 33). split.
    + apply (get_msg_at_ok ms1 ((sq, d) :: ms2) s Hh).
    + apply (get_msg_at_ok ms1 ((sq, d) :: ms2) s' Hh').
  - intros v sq d s (ms1&ms2&Hh&->). cbn [is_msg_used sk_sent_buf]. unfold sk_is_msg_used.
    destruct (holds_slot _ _ _ _ _ Hh) as (_&_&_&_&?&?&?&?&?).
    eexists. mstep (read_buf_ok (real_total ms1 + 33 + offsetof_used) 1 s
      ltac:(unfold in_buf, offsetof_used, sizeof_sem_t, OUTPUT_SEND_BUF_SZ; lia)).
    reflexivity.
  - intros ms1 sq d ms2 v b s Hh Hget. cbn [output_sent_buf_get_msg_at sk_sent_buf] in Hget.
    rewrite (get_msg_at_ok ms1 ((sq, d) :: ms2) s Hh) in Hget. injection Hget as <-.
    destruct (mark_msg_used_ok ms1 sq d ms2 b s Hh) as (s'&H1&Hh'&Hfu&Hs&Hu&Hfrom).
    destruct (same_rest_sk _ _ Hs) as (?&?&_). exists s'.
    split; [done|]. split; [done|]. split; [done|]. split; [by exists ms1, ms2|].
    split; [done|]. split; [done|]. split; [by apply same_rest_signals|by apply sk_elsewhere_slot].
  - intros v sq d a s (ms1&ms2&Hh&->). exists ms1, ms2. split; [|done].
    apply (holds_same_sb _ s); done.
  - intros v b a s. by apply used_same_sb.
  - intros v sq d s (ms1&ms2&Hh&->). apply (get_msg_data_sz_ok ms1 sq d ms2 s Hh).
    destruct (holds_slot _ _ _ _ _ Hh) as (m&Hm&_). pose proof (sm_wf _ _ _ Hm) as Hwf.
    rewrite <- (sm_seq _ _ _ Hm). apply Hwf.
Defined.

(** ** A socket with messages on their way *)

Definition peer_a : sockaddr_in := Addr 16777343 53764.
Definition peer_b : sockaddr_in := Addr 16777343 20480.

(** Established for sending, its first byte numbered [start]. *)
Definition sk_established (start : Z) : sk :=
  snd (cw_force_move_start start (set_state ESTABLISHED (sk_init (Ident peer_a peer_b) 1444)).2).

Lemma sk_established_inv start :
  0 <= start /\ start + OUTPUT_WINDOW_SZ < modulus32 -> sender_inv start [] [] (sk_established start).
Proof. intros H. split; try done. Qed.

(** After sending ten and then twenty bytes. *)
Definition sk_sent_two (start : Z) : sk :=
  snd ((cw_send (tmp_msg data10);; cw_send (tmp_msg data20)) (sk_established start)).

Lemma sk_sent_two_inv start :
  0 <= start /\ start + OUTPUT_WINDOW_SZ < modulus32 ->
  sender_inv start [] [(start, data10); (start + 10, data20)] (sk_sent_two start).
Proof.
  intros Hst.
  assert (Forall is_byte data10 /\ Forall is_byte data20) as [Hb1 Hb2]
    by (split; apply replicate_bytes; unfold is_byte; lia).
  destruct (cw_send_ok start [] [] data10 _ (sk_established_inv start Hst)) as (e1&s1&E1&Hi1&_);
    [simpl; lia|done|vm_compute; discriminate|].
  destruct (cw_send_ok start [] _ data20 _ Hi1) as (e2&s2&E2&Hi2&_);
    [simpl; lia|done|vm_compute; discriminate|].
  unfold sk_sent_two. rewrite (run_ret _ _ _ _ _ E1), E2.
  cbn [app total] in Hi2. rewrite !Z.add_0_r in Hi2. exact Hi2.
Qed.

Lemma start_ok : 0 <= 5000000 /\ 5000000 + OUTPUT_WINDOW_SZ < modulus32.
Proof. unfold OUTPUT_WINDOW_SZ. lia. Qed.

Definition ack_of (n : Z) : msg := set_seq n (set_ack (msg_alloc 0)).

Lemma send_numbers_consecutively_witness :
  exists e s',
    cw_send (E:=Z) (tmp_msg data10) (sk_established 5000000) =
      (Ret (set_seq (5000000 + total ([] ++ [])) (tmp_msg data10), e), s') /\
    sender_inv 5000000 [] ([] ++ [(5000000 + total ([] ++ []), data10)]) s' /\
    frame (sk_established 5000000) s'.
Proof.
  apply (send_numbers_consecutively 5000000 [] [] data10 (sk_established 5000000)).
  - apply sk_established_inv, start_ok.
  - simpl. lia.
  - apply replicate_bytes. unfold is_byte. lia.
Defined.

Lemma ack_slides_the_window_witness :
  exists s',
    cw_on_ack (V:=Z) (E:=Z) (ack_of 5000009) (sk_sent_two 5000000) = (Ret tt, s') /\
    frame (sk_sent_two 5000000) s' /\
    sender_inv 5000000 [(5000000, data10)] [(5000010, data20)] s'.
Proof.
  apply (ack_slides_the_window 5000000 [] [(5000000, data10)] [(5000010, data20)]
           (ack_of 5000009) (sk_sent_two 5000000)).
  - apply (sk_sent_two_inv 5000000 start_ok).
  - done.
  - done.
  - unfold OUTPUT_WINDOW_SZ. lia.
Defined.

Lemma other_acks_change_nothing_witness :
  exists s',
    cw_on_ack (V:=Z) (E:=Z) (ack_of 4999999) (sk_sent_two 5000000) = (Ret tt, s') /\
    frame (sk_sent_two 5000000) s' /\
    sender_inv 5000000 [] [(5000000, data10); (5000010, data20)] s'.
Proof.
  apply (other_acks_change_nothing 5000000 [] 5000000 data10 [(5000010, data20)]
           (ack_of 4999999) (sk_sent_two 5000000)).
  - apply (sk_sent_two_inv 5000000 start_ok).
  - vm_compute. intuition discriminate.
  - left. vm_compute. done.
Defined.

Lemma complete_iff_acknowledged_witness :
  exists s',
    cw_check_msg_complete (set_seq 5000010 (tmp_msg data20)) (sk_sent_two 5000000) =
      (Ret (5000010 <? 5000000 + total []), s') /\
    sender_inv 5000000 [] [(5000000, data10); (5000010, data20)] s' /\
    frame (sk_sent_two 5000000) s'.
Proof.
  apply (complete_iff_acknowledged 5000000 [] [(5000000, data10); (5000010, data20)]
           (set_seq 5000010 (tmp_msg data20)) (sk_sent_two 5000000)).
  - apply (sk_sent_two_inv 5000000 start_ok).
  - vm_compute. intuition discriminate.
Defined.

Section idle.
(** Nobody else runs while a thread sleeps. *)
Local Instance idle_wait : SendWait sk :=
  sk_send_wait (fun _ => mret tt) true 0.

Lemma retried_message_is_next_witness :
  exists v s',
    (cw_retry (V:=Z) (E:=Z) (set_seq 5000000 (tmp_msg data10));;
     cw_next_msg (V:=Z) (E:=Z) 1) (sk_sent_two 5000000) = (Ret v, s') /\
    refers v 5000000 data10 s' /\ is_msg_used v s' = (Ret true, s') /\
    sender_inv 5000000 [] [(5000000, data10); (5000010, data20)] s' /\
    frame (sk_sent_two 5000000) s'.
Proof.
  apply (retried_message_is_next 5000000 [] 5000000 data10 [(5000010, data20)]
           (set_seq 5000000 (tmp_msg data10)) 0 (sk_sent_two 5000000)).
  - apply (sk_sent_two_inv 5000000 start_ok).
  - done.
Defined.

(** Two messages outstanding, the first one in use. *)
Lemma sk_first_used start :
  0 <= start /\ start + OUTPUT_WINDOW_SZ < modulus32 ->
  exists v s,
    sender_inv start [] [(start, data10); (start + 10, data20)] s /\
    output_sent_buf_get_msg_at (total []) s = (Ret v, s) /\ is_msg_used v s = (Ret true, s).
Proof.
  intros Hst. pose proof (sk_sent_two_inv start Hst) as [Ha Hs Hsto Hn Hne Hr].
  destruct (get_law [] start data10 [(start + 10, data20)] _ Hsto) as (v&Hg&_).
  destruct (mark_law [] start data10 [(start + 10, data20)] v true _ Hsto Hg)
    as (s'&_&Hsto'&Ha'&_&Hu&_).
  exists v, s'. split; [|split; [|exact Hu]].
  - split; done.
  - destruct (place_law [] start data10 [(start + 10, data20)] _ _ Hsto Hsto') as (v2&?&?).
    congruence.
Qed.

Lemma scan_never_passes_first_witness :
  (exists s, forall fuel, cw_next_msg (V:=Z) (E:=Z) (S fuel) s = (Throw ETimeout, s)) /\
  (exists s, forall fuel, cw_next_msg (V:=Z) (E:=Z) fuel s = (Fault out_of_fuel, s)).
Proof.
  split.
  - destruct (sk_first_used 5000000 start_ok) as (v&s&Hi&Hg&Hu). exists s.
    apply (scan_never_passes_first _ _ _ _ _ _ _ Hi Hg Hu). lia.
  - assert (0 <= 0 /\ 0 + OUTPUT_WINDOW_SZ < modulus32) as H0 by (unfold OUTPUT_WINDOW_SZ; lia).
    destruct (sk_first_used 0 H0) as (v&s&Hi&Hg&Hu). exists s.
    apply (scan_never_passes_first _ _ _ _ _ _ _ Hi Hg Hu). simpl. lia.
Defined.

End idle.

(** ** Repeated acknowledgements with nothing outstanding *)

Fixpoint on_acks (n : nat) (ack : msg) : M sk unit :=
  match n with
  | O => mret tt
  | S n => cw_on_ack (V:=Z) (E:=Z) ack;; on_acks n ack
  end.

(** The place behind the last message of an unused buffer reads as a message
    numbered 0. *)
Lemma msg_at_unused (s : sk) :
  k_sb s = send_buffer_init -> msg_at 33 s = (Ret (msg_alloc 0), s).
Proof. intros Hs. unfold msg_at. rewrite bind_unfold. cbn. rewrite Hs. vm_compute. done. Qed.

Lemma dup_ack_branch start ack (s : sk) :
  1 <= start < modulus32 - OUTPUT_SEND_BUF_SZ ->
  get_seq ack = start - 1 -> k_cw s = area_of (sender_win start [] []) -> k_sb s = send_buffer_init ->
  cw_on_ack (V:=Z) (E:=Z) ack s =
    (fr_on_ack ack (msg_alloc 0);; flush (sender_win start [] [])) s.
Proof.
  intros Hst Hq Hcw Hsb. unfold OUTPUT_SEND_BUF_SZ in Hst.
  assert (in_space (sender_win start [] [])) as Hsp
    by (unfold in_space, window_wf, OUTPUT_WINDOW_SZ; simpl; unfold OUTPUT_WINDOW_SZ; lia).
  assert (begin (sender_win start [] []) = start) as Hb
    by (unfold begin; simpl; rewrite Z.add_0_r; apply u64_small; lia).
  assert (end_ (sender_win start [] []) = start + OUTPUT_WINDOW_SZ) as He
    by (apply u64_small; unfold OUTPUT_WINDOW_SZ; simpl; unfold OUTPUT_WINDOW_SZ; lia).
  unfold cw_on_ack. assert (setup s = (Ret (sender_win start [] []), s)) as Hset
    by (unfold setup; rewrite bind_unfold; cbn; rewrite Hcw; done).
  mstep Hset.
  assert (msg_in_win (sender_win start [] []) ack = false) as ->.
  { unfold msg_in_win. rewrite contains_single_in_space, Hb by (done || lia). lia. }
  assert (msg_in_prev_win (sender_win start [] []) ack = true) as ->.
  { unfold msg_in_prev_win. rewrite contains_in_space, Hb, He by done.
    unfold SINGLE_WINDOW, begin, end_, OUTPUT_WINDOW_SZ. cbn [w_start w_off w_sz].
    rewrite (u64_small (get_seq ack + 1)), !u64_small by lia. lia. }
  rewrite !bind_unfold. cbn [output_sent_buf_get_msg_at sk_sent_buf].
  change (offset (sender_win start [] [])) with 0.
  assert (get_msg_at (V:=Z) (E:=Z) 0 s = (Ret 33, s)) as ->.
  { unfold get_msg_at. rewrite (run_ret _ _ _ _ _ (real_off_ok 0 s eq_refl)).
    change (sbuf s) with (k_sb s). rewrite Hsb. done. }
  rewrite bind_unfold.
  cbn [output_refresh_on_msg_pair_prev_window_matched sk_send_events]. unfold sk_output_refresh_prev.
  rewrite (run_ret _ _ _ _ _ (msg_at_unused s Hsb)).
  destruct (fr_on_ack ack (msg_alloc 0) s) as [[[]|e|f] s1]; done.
Qed.

Lemma retry_of_nothing start (s : sk) :
  1 <= start < modulus32 - OUTPUT_SEND_BUF_SZ -> k_cw s = area_of (sender_win start [] []) ->
  exists s', sk_output_on_retry (msg_alloc 0) s = (Fault out_of_range, s').
Proof.
  intros Hst Hcw. unfold OUTPUT_SEND_BUF_SZ in Hst.
  unfold sk_output_on_retry. rewrite bind_unfold. unfold cwc_on_retry. rewrite bind_unfold.
  cbn [mem_get gets mem_put modify]. set (s1 := area_put _ s).
  unfold cw_retry. rewrite bind_unfold.
  assert (setup s1 = (Ret (sender_win start [] []), s1)) as ->
    by (unfold setup; rewrite bind_unfold; cbn; rewrite Hcw; done).
  rewrite bind_unfold.
  assert (s64 (u64 (get_in_msg_off (get_seq (msg_alloc 0)) (sender_win start [] []) +
            offset (sender_win start [] []))) = modulus32 - start) as ->.
  { change (get_seq (msg_alloc 0)) with 0. change (offset _) with 0.
    rewrite get_in_msg_off_distance by lia. unfold seq_distance.
    assert (begin (sender_win start [] []) = start) as ->
      by (unfold begin; simpl; rewrite Z.add_0_r; apply u64_small; lia).
    rewrite Z.add_0_r. assert (u32 (0 - start) = modulus32 - start) as -> by wrap_lia.
    rewrite u64_small, s64_small by lia. done. }
  cbn [output_sent_buf_get_msg_at sk_sent_buf]. unfold get_msg_at. rewrite bind_unfold.
  unfold real_off. rewrite bind_unfold. cbn [mem_get gets].
  assert (in_off_map (modulus32 - start) = false) as ->
    by (unfold in_off_map, OUTPUT_SEND_BUF_SZ; lia).
  eexists. done.
Qed.

(** The [c+1]-th acknowledgement of that kind in a row. *)
Lemma dup_ack_counted start ack c (s : sk) :
  1 <= start < modulus32 - OUTPUT_SEND_BUF_SZ -> get_seq ack = start - 1 ->
  k_cw s = area_of (sender_win start [] []) -> k_sb s = send_buffer_init ->
  k_fr s = FastRetransmitArea (if c =? 0 then 0 else start - 1) c -> 0 <= c <= 3 ->
  if c =? 3 then exists s', cw_on_ack (V:=Z) (E:=Z) ack s = (Fault out_of_range, s')
  else exists s', cw_on_ack (V:=Z) (E:=Z) ack s = (Ret tt, s') /\
    k_cw s' = area_of (sender_win start [] []) /\ k_sb s' = send_buffer_init /\
    k_fr s' = FastRetransmitArea (start - 1) (c + 1).
Proof.
  intros Hst Hq Hcw Hsb Hfr Hc. rewrite (dup_ack_branch start) by done.
  rewrite bind_unfold. unfold fr_on_ack. rewrite bind_unfold.
  cbn [mem_get gets area_get sk_area_fr]. rewrite Hfr, Hq. cbn [fr_cnt fr_last].
  assert (c = 0 \/ c = 1 \/ c = 2 \/ c = 3) as [->|[->|[->| ->]]] by lia;
    cbn -[Z.sub Z.add mem_put output_on_retry]; rewrite ?Z.eqb_refl;
    try (eexists; split; [reflexivity|]; done).
  change (TCP_FAST_RETRANSMIT_BOUND <=? 3 + 1) with true. cbv iota.
  rewrite bind_unfold. cbn [mem_put modify].
  destruct (retry_of_nothing start (area_put (FastRetransmitArea (start - 1) 0) s) Hst)
    as (s'&Hr); [cbn; exact Hcw|].
  exists s'. cbn [output_on_retry sk_retry]. rewrite Hr. done.
Qed.

(** Duplicate acknowledgements with nothing to retransmit: the fourth
    acknowledgement in a row of the byte before the window makes a sender with
    an empty buffer retry the message it finds behind the end of the buffer,
    which is none, and look up that message's number outside [off_map]. *)
Lemma duplicate_acks_on_empty_buffer start ack :
  1 <= start < modulus32 - OUTPUT_SEND_BUF_SZ -> get_seq ack = start - 1 ->
  fst (on_acks 3 ack (sk_established start)) = Ret tt /\
  fst (on_acks 4 ack (sk_established start)) = Fault out_of_range.
Proof.
  intros Hst Hq. pose proof (fun c s => dup_ack_counted start ack c s Hst Hq) as Hstep.
  destruct (Hstep 0 (sk_established start)) as (s1&H1&Hc1&Hb1&Hf1); [done..|lia|].
  destruct (Hstep 1 s1) as (s2&H2&Hc2&Hb2&Hf2); [done..|lia|].
  destruct (Hstep 2 s2) as (s3&H3&Hc3&Hb3&Hf3); [done..|lia|].
  destruct (Hstep 3 s3) as (s4&H4); [done..|lia|].
  cbn [on_acks]. rewrite !(run_ret _ _ _ _ _ H1), !(run_ret _ _ _ _ _ H2), !(run_ret _ _ _ _ _ H3).
  split; [done|]. rewrite bind_unfold, H4. done.
Qed.

Lemma duplicate_acks_on_empty_buffer_witness :
  fst (on_acks 3 (ack_of 4999999) (sk_established 5000000)) = Ret tt /\
  fst (on_acks 4 (ack_of 4999999) (sk_established 5000000)) = Fault out_of_range.
Proof.
  apply duplicate_acks_on_empty_buffer; [unfold OUTPUT_SEND_BUF_SZ; lia|done].
Defined.
