(* ===== verification/ReceiverModel.v ===== *)
(** * ReceiverModel: the socket keeps the promises the receiving window relies on

    The socket's input side, its lock and its signals satisfy the interface
    [InputOps.ReceiverLaws] when the kernel takes every segment and a client
    reads what is there while the receiving worker waits for it. *)
From S2P Require Import Prelude Window Message Transfer ProtoMem Input InputOps Socket.

#[export] Instance sk_iw_laws : MemAreaLaws sk input_window_area.
Proof. split; intros; destruct s; done. Qed.

(** ** The other threads *)

(** A thread that runs alone. *)
Definition alone : pause_point -> M sk unit := fun _ => mret tt.

(** How much the client asks for next: any positive size, which may depend on
    all that has happened, as the socket and what the client has been given so
    far record it. *)
Class Client : Type := {
  asks : sk -> Z;
  asks_something s : 0 < asks s;
}.

Section model.
Context (sendto : sockaddr_in -> bytes -> Z) {client : Client}.
Hypothesis sendto_takes_all : forall a d, sendto a d = Z.of_nat (length d).

(** One round of [recv_proc] that asks for [n] bytes. *)
Definition read_once (n : Z) : M sk bytes :=
  @with_ctl sk _ (sk_input_lock alone)
    (@client_flush_request sk _ (sk_input_lock alone) (sk_input sendto alone) n).

(** The client's thread while the receiving worker waits in a full window: it
    reads, as much at a time as it likes, until it has read everything. *)
Fixpoint read_rest (fuel : nat) : M sk unit :=
  a ← gets k_iw;
  if iw_flushed_off a =? iw_off a then mret tt
  else
    match fuel with
    | O => faults out_of_fuel
    | S fuel => n ← gets asks; read_once n;; read_rest fuel
    end.

Definition reader (p : pause_point) : M sk unit :=
  match p with
  | AtSem RECV_WORKER_COMPLETE => read_rest (Z.to_nat INPUT_BUF_SZ)
  | _ => mret tt
  end.

#[local] Existing Instance sk_input_lock.
#[local] Existing Instance sk_input.

Definition sk_quiet (s : sk) : Prop := k_sems s RECV_LOCK = 0 /\ 0 <= k_sems s RECV_WORKER_COMPLETE.

Definition sk_acks (s : sk) : list (Z * Z) :=
  map (fun m => (get_seq m, get_window_sz m)) (k_out s).

(** ** Steps of the semaphores *)

Lemma sem_wait_alone n s :
  0 < k_sems s n -> sem_wait alone n s = (Ret tt, set_sem n (k_sems s n - 1) s).
Proof.
  intros H. unfold sem_wait, alone.
  rewrite bind_unfold. cbn [mret M_ret]. rewrite bind_unfold. unfold gets.
  rewrite (proj2 (Z.ltb_lt _ _) H). done.
Qed.

Lemma sems_same n v s : k_sems (set_sem n v s) n = v.
Proof. cbn. apply decide_True. done. Qed.

Lemma sems_other n m v s : m <> n -> k_sems (set_sem n v s) m = k_sems s m.
Proof. intros H. cbn. apply decide_False. done. Qed.

(** A request for [n] bytes in a full window that has not been read to its end:
    the client gets what there is of them, and signals that the window is
    flushed if that was the rest. *)
Lemma flush_full_ok n (s : sk) :
  k_sems s RECV_LOCK = 0 -> 0 <= iw_flushed_off (k_iw s) < iw_off (k_iw s) ->
  iw_off (k_iw s) <= INPUT_BUF_SZ -> iw_sz (k_iw s) = iw_off (k_iw s) -> 0 < n ->
  let f' := Z.min (iw_off (k_iw s)) (iw_flushed_off (k_iw s) + n) in
  exists d s',
    @client_flush_request sk _ (sk_input_lock alone) (sk_input sendto alone) n s = (Ret d, s') /\
    (forall m, m <> RECV_WORKER_COMPLETE -> k_sems s' m = k_sems s m) /\
    k_sems s' RECV_WORKER_COMPLETE =
      k_sems s RECV_WORKER_COMPLETE + (if f' =? iw_off (k_iw s) then 1 else 0) /\
    k_state s' = k_state s /\
    k_iw s' = InputWindowArea (iw_start (k_iw s)) (iw_off (k_iw s)) (iw_sz (k_iw s)) f' /\
    k_ib s' = k_ib s /\ k_out s' = k_out s /\
    k_user s' = k_user s ++ load_bytes (ib_buf (k_ib s)) (iw_flushed_off (k_iw s))
                  (Z.to_nat (f' - iw_flushed_off (k_iw s))).
Proof.
  intros Hl Hf Ho Hsz Hn. unfold INPUT_BUF_SZ in Ho.
  set (f := iw_flushed_off (k_iw s)) in *. set (o := iw_off (k_iw s)) in *. intros f'.
  assert (f < f' <= o) as Hf' by (unfold f'; lia).
  set (w := iw_win (k_iw s)).
  assert (forall a t, k_iw t = a -> 0 <= iw_flushed_off a <= o ->
    wrote_win_sz w t = (Ret (o - iw_flushed_off a), t)) as E2.
  { intros a t Ht Ha. transitivity ((Ret (u64 (o - iw_flushed_off (k_iw t))), t) : outcome Z * sk); [done|].
    rewrite Ht. rewrite u64_small by lia. done. }
  pose proof (E2 _ s eq_refl ltac:(fold f; lia)) as E1'. fold f in E1'.
  set (d := load_bytes (ib_buf (k_ib s)) f (Z.to_nat (f' - f))).
  assert (sk_input_buf_flush f (f' - f) s = (Ret d, add_user d s)) as E3.
  { unfold sk_input_buf_flush.
    assert (ib_flush f (f' - f) s = (Ret d, s)) as E.
    { unfold ib_flush. rewrite bind_unfold. cbn [mem_get gets].
      assert (in_input_buf f (f' - f) = true) as -> by (unfold in_input_buf, INPUT_BUF_SZ; lia). done. }
    mstep E. done. }
  set (a3 := InputWindowArea (iw_start (k_iw s)) o (iw_sz (k_iw s)) f').
  set (s3 := area_put a3 (area_put a3 (add_user d s))).
  assert (get_sz w = 0) as E5.
  { unfold get_sz, w. cbn [iw_win w_sz w_off]. fold o. rewrite Hsz, Z.sub_diag. done. }
  unfold client_flush_request.
  assert (iw_setup s = (Ret w, s)) as E1 by done. mstep E1.
  mstep E1'. rewrite (proj2 (Z.eqb_neq (o - f) 0)) by lia.
  rewrite bind_unfold. cbn [mret M_ret]. mstep E1'.
  replace (Z.min (o - f) n) with (f' - f) by (unfold f'; lia).
  assert (get_flushed_off s = (Ret f, s)) as E6 by done. mstep E6.
  cbn [input_buf_flush sk_input]. mstep E3. rewrite s64_small by lia.
  replace (f + (f' - f)) with f' by lia.
  assert (set_flushed_off f' (add_user d s) = (Ret tt, area_put a3 (add_user d s))) as E7 by done.
  mstep E7.
  assert (iw_flush w (area_put a3 (add_user d s)) = (Ret tt, s3)) as E8 by done. mstep E8.
  mstep (E2 a3 s3 eq_refl ltac:(cbn; lia)). rewrite E5, andb_true_r. cbn [a3 iw_flushed_off].
  replace (o - f' =? 0) with (f' =? o) by lia.
  destruct (f' =? o); cbn [when].
  2:{ eexists d, s3. split; [done|]. rewrite Z.add_0_r. done. }
  set (s4 := set_sem RECV_LOCK (k_sems s3 RECV_LOCK + 1) s3).
  set (s5 := set_sem RECV_WORKER_COMPLETE (k_sems s4 RECV_WORKER_COMPLETE + 1) s4).
  assert (@ctl_call sk (sk_input_lock alone) (sem_post RECV_WORKER_COMPLETE) s3 =
    (Ret tt, set_sem RECV_LOCK (k_sems s5 RECV_LOCK - 1) s5)) as E9.
  { unfold ctl_call. cbn [ctl_unlock ctl_lock sk_input_lock].
    assert (sem_post RECV_LOCK s3 = (Ret tt, s4)) as F1 by done. mstep F1.
    assert (sem_post RECV_WORKER_COMPLETE s4 = (Ret tt, s5)) as F2 by done. mstep F2.
    apply sem_wait_alone. unfold s5. rewrite sems_other by done. unfold s4. rewrite sems_same.
    change (k_sems s3 RECV_LOCK) with (k_sems s RECV_LOCK). lia. }
  cbn [input_win_signal_completely_flushed sk_input]. mstep E9.
  eexists d, _. split; [reflexivity|]. split_and!; try done.
  intros m Hm. destruct (decide (m = RECV_LOCK)) as [->|Hm'].
  - rewrite sems_same. unfold s5. rewrite sems_other by done. unfold s4. rewrite sems_same.
    change (k_sems s3 RECV_LOCK) with (k_sems s RECV_LOCK). lia.
  - rewrite sems_other by done. unfold s5. rewrite sems_other by done. unfold s4. by rewrite sems_other.
Qed.

Abbreviation takes := (client_takes (fun s : sk => ib_buf (k_ib s)) k_user sk_acks).

(** Taking back the receiving lock. *)
Lemma reader_lock s :
  k_sems s RECV_LOCK = 1 ->
  sem_wait reader RECV_LOCK s = (Ret tt, set_sem RECV_LOCK 0 s).
Proof.
  intros Hl. unfold sem_wait, reader.
  rewrite bind_unfold. cbn [mret M_ret]. rewrite bind_unfold. unfold gets. rewrite Hl. done.
Qed.

Lemma takes_sem n v s s' : takes s s' -> takes s (set_sem n v s').
Proof. intros []. split; done. Qed.

Lemma takes_from_sem n v s s' : takes (set_sem n v s) s' -> takes s s'.
Proof. intros []. split; done. Qed.

Lemma takes_trans s1 s2 s3 :
  iw_flushed_off (k_iw s1) <= iw_flushed_off (k_iw s2) -> 0 <= iw_flushed_off (k_iw s1) ->
  takes s1 s2 -> takes s2 s3 -> takes s1 s3.
Proof.
  intros H0 H00 [Ha1 Hb1 Hc1 Hd1 He1 Hf1 Hg1] [Ha2 Hb2 Hc2 Hd2 He2 Hf2 Hg2]. unfold iwa in *. cbn in *.
  split; unfold iwa; cbn; try congruence; [lia|].
  rewrite Hg2, Hg1, Hd1, <- app_assoc. f_equal.
  set (f1 := iw_flushed_off (k_iw s1)) in *. set (f2 := iw_flushed_off (k_iw s2)) in *.
  set (f3 := iw_flushed_off (k_iw s3)) in *.
  replace (Z.to_nat (f3 - f1)) with (Z.to_nat (f2 - f1) + Z.to_nat (f3 - f2))%nat by lia.
  rewrite load_bytes_app. do 2 f_equal. lia.
Qed.

(** One request. *)
Lemma read_once_ok n s :
  k_sems s RECV_LOCK = 1 -> 0 <= iw_flushed_off (k_iw s) < iw_off (k_iw s) ->
  iw_off (k_iw s) <= INPUT_BUF_SZ -> iw_sz (k_iw s) = iw_off (k_iw s) -> 0 < n ->
  let f' := Z.min (iw_off (k_iw s)) (iw_flushed_off (k_iw s) + n) in
  exists d s', read_once n s = (Ret d, s') /\
    (forall m, m <> RECV_WORKER_COMPLETE -> k_sems s' m = k_sems s m) /\
    k_sems s' RECV_WORKER_COMPLETE =
      k_sems s RECV_WORKER_COMPLETE + (if f' =? iw_off (k_iw s) then 1 else 0) /\
    takes s s' /\ iw_flushed_off (k_iw s') = f' /\ k_state s' = k_state s /\ k_out s' = k_out s.
Proof.
  intros Hl Hf Ho Hsz Hn f'. unfold read_once.
  destruct (flush_full_ok n (set_sem RECV_LOCK (k_sems s RECV_LOCK - 1) s))
    as (d&s'&Hr&Hl'&Hc'&Hst'&Hw'&Hb'&Ho'&Hu'); [rewrite sems_same; lia|cbn; lia|done|done|done|].
  rewrite sems_other in Hc' by done.
  change (k_iw (set_sem RECV_LOCK _ s)) with (k_iw s) in *. fold f' in Hc', Hw', Hu'.
  exists d, (set_sem RECV_LOCK (k_sems s' RECV_LOCK + 1) s').
  pose proof (sem_wait_alone RECV_LOCK s ltac:(lia)) as Hlock.
  split; [exact (@with_ctl_ret sk _ (sk_input_lock alone) _ _ _ _ _ _ Hlock Hr eq_refl)|].
  split_and!; [|by rewrite sems_other| |cbn; by rewrite Hw'|exact Hst'|exact Ho'].
  { intros m Hm. destruct (decide (m = RECV_LOCK)) as [->|Hm'].
    - rewrite sems_same, Hl', sems_same by done. lia.
    - rewrite sems_other, Hl', sems_other by done. done. }
  split; unfold iwa; cbn in *; rewrite ?Hw', ?Hb', ?Ho', ?Hu'; cbn; try done. unfold f'. lia.
Qed.

(** The rest of a full window, in requests of any sizes. *)
Lemma read_rest_ok fuel s :
  k_sems s RECV_LOCK = 1 -> 0 <= iw_flushed_off (k_iw s) < iw_off (k_iw s) ->
  iw_off (k_iw s) <= INPUT_BUF_SZ -> iw_sz (k_iw s) = iw_off (k_iw s) ->
  iw_off (k_iw s) - iw_flushed_off (k_iw s) <= Z.of_nat fuel ->
  exists s', read_rest fuel s = (Ret tt, s') /\
    k_sems s' RECV_LOCK = 1 /\ k_sems s' RECV_WORKER_COMPLETE = k_sems s RECV_WORKER_COMPLETE + 1 /\
    takes s s' /\ iw_flushed_off (k_iw s') = iw_off (k_iw s').
Proof.
  revert s. induction fuel as [|fuel IH]; intros s Hl Hf Ho Hsz Hfuel; [lia|].
  cbn [read_rest]. rewrite (run_ret (gets k_iw) _ s (k_iw s) s eq_refl).
  rewrite (proj2 (Z.eqb_neq _ _)) by lia.
  rewrite (run_ret (gets asks) _ s (asks s) s eq_refl). pose proof (asks_something s) as Hn.
  destruct (read_once_ok (asks s) s Hl Hf Ho Hsz Hn) as (d&s1&Hr1&Hsem1&Hc1&Ht1&Hf1&_).
  pose proof (Hsem1 RECV_LOCK ltac:(done)) as Hl1. rewrite Hl in Hl1.
  rewrite (run_ret _ _ _ _ _ Hr1). pose proof (ct_off _ _ _ _ _ Ht1) as Ho1.
  pose proof (ct_sz _ _ _ _ _ Ht1) as Hsz1. unfold iwa in Ho1, Hsz1. cbn in Ho1, Hsz1.
  destruct (Z.eqb_spec (Z.min (iw_off (k_iw s)) (iw_flushed_off (k_iw s) + asks s)) (iw_off (k_iw s)))
    as [He|Hne].
  - exists s1. rewrite Hf1, He, Ho1. split_and!; try done.
    destruct fuel; cbn [read_rest]; rewrite (run_ret (gets k_iw) _ s1 (k_iw s1) s1 eq_refl);
      by rewrite Hf1, He, Ho1, Z.eqb_refl.
  - destruct (IH s1) as (s2&Hr2&Hl2&Hc2&Ht2&Hf2); [done|rewrite Hf1, Ho1; lia|by rewrite Ho1|
      by rewrite Hsz1, Ho1|rewrite Hf1, Ho1; lia|].
    exists s2. split; [done|]. split; [done|]. split; [lia|]. split; [|done].
    apply (takes_trans s s1 s2); [rewrite Hf1; lia|lia|done|done].
Qed.

Lemma wait_flushed_ok s :
  sk_quiet s -> 0 <= iw_flushed_off (k_iw s) <= iw_off (k_iw s) -> iw_off (k_iw s) <= INPUT_BUF_SZ ->
  iw_sz (k_iw s) = iw_off (k_iw s) ->
  (iw_flushed_off (k_iw s) = iw_off (k_iw s) -> 0 < k_sems s RECV_WORKER_COMPLETE) ->
  exists s', @ctl_call sk (sk_input_lock reader) (sem_wait reader RECV_WORKER_COMPLETE) s = (Ret tt, s') /\
    sk_quiet s' /\ takes s s' /\ iw_flushed_off (k_iw s') = iw_off (k_iw s').
Proof.
  intros [Hl Hc] Hf Ho Hsz Hsig. unfold ctl_call. cbn [ctl_unlock ctl_lock sk_input_lock].
  set (s1 := set_sem RECV_LOCK (k_sems s RECV_LOCK + 1) s).
  assert (sem_post RECV_LOCK s = (Ret tt, s1)) as E1 by done. mstep E1.
  assert (k_sems s1 RECV_LOCK = 1) as Hl1 by (unfold s1; rewrite sems_same; lia).
  assert (k_sems s1 RECV_WORKER_COMPLETE = k_sems s RECV_WORKER_COMPLETE) as Hc1
    by (unfold s1; by rewrite sems_other).
  assert (exists s2, reader (AtSem RECV_WORKER_COMPLETE) s1 = (Ret tt, s2) /\
    k_sems s2 RECV_LOCK = 1 /\ 0 < k_sems s2 RECV_WORKER_COMPLETE /\ takes s1 s2 /\
    iw_flushed_off (k_iw s2) = iw_off (k_iw s2)) as (s2&Hr&Hl2&Hc2&Ht2&Hall2).
  { cbn [reader]. destruct (Z.eq_dec (iw_flushed_off (k_iw s)) (iw_off (k_iw s))) as [He|Hne].
    - exists s1. rewrite Hc1. split_and!; auto.
      + change (Z.to_nat INPUT_BUF_SZ) with (S (Z.to_nat (INPUT_BUF_SZ - 1))). cbn [read_rest].
        rewrite (run_ret (gets k_iw) _ s1 (k_iw s1) s1 eq_refl).
        change (k_iw s1) with (k_iw s). by rewrite He, Z.eqb_refl.
      + split; try done; [change (iwa s1) with (k_iw s); lia|].
        rewrite Z.sub_diag. cbn. by rewrite app_nil_r.
    - destruct (read_rest_ok (Z.to_nat INPUT_BUF_SZ) s1) as (s2&?&?&Hc2&?&?);
        [done|change (k_iw s1) with (k_iw s); lia|done|done|change (k_iw s1) with (k_iw s); lia|].
      exists s2. rewrite Hc2, Hc1. split_and!; (done || lia). }
  assert (sem_wait reader RECV_WORKER_COMPLETE s1 =
    (Ret tt, set_sem RECV_WORKER_COMPLETE (k_sems s2 RECV_WORKER_COMPLETE - 1) s2)) as E2.
  { unfold sem_wait. mstep Hr. rewrite bind_unfold. unfold gets.
    rewrite (proj2 (Z.ltb_lt _ _) Hc2). done. }
  mstep E2. rewrite reader_lock by (rewrite sems_other by done; done).
  eexists. split; [reflexivity|]. split_and!.
  - split; [apply sems_same|]. rewrite sems_other, sems_same by done. lia.
  - apply takes_sem, takes_sem. eapply takes_from_sem. exact Ht2.
  - exact Hall2.
Qed.

Lemma sk_send_ack_ok q w s :
  0 <= q < modulus32 -> 0 <= w < modulus16 ->
  exists m, sk_output_send_ack sendto q w s = (Ret tt, add_out m s) /\
    get_seq m = q /\ get_window_sz m = w /\ is_ack m = true /\ is_syn m = false /\
    is_fin m = false /\ is_rst m = false.
Proof.
  intros Hq Hw. set (m := set_window_sz w (set_seq q (set_ack (msg_alloc 0)))).
  exists (stamp (k_id s) (k_clock s) m). split.
  - unfold sk_output_send_ack. fold m.
    assert (base_send sendto m s = (Ret (stamp (k_id s) (k_clock s) m),
              add_out (stamp (k_id s) (k_clock s) m) s)) as E.
    { unfold base_send, socket_send, transfer_send_to. rewrite sendto_takes_all.
      assert (Z.of_nat (length (tcp_region (stamp (k_id s) (k_clock s) m))) =
              tcp_data_sz (stamp (k_id s) (k_clock s) m)) as ->.
      { rewrite tcp_region_sized by done. rewrite length_app, length_encode_TCPHDR. done. }
      rewrite Z.eqb_refl. done. }
    mstep E. done.
  - split_and!; try done; cbn; [apply u32_small; done|apply u16_small; done].
Qed.

(** [input_on_regular_msg] of a socket whose locks are free. *)
Lemma regular_msg_run p m (s s1 : sk) :
  (forall n t, n = RECV_WORKER_LOCK \/ n = RECV_LOCK -> p (AtSem n) t = (Ret tt, t)) ->
  is_state (k_state s) = ESTABLISHED -> k_sems s RECV_WORKER_LOCK = 1 -> k_sems s RECV_LOCK = 1 ->
  @iw_on_msg sk _ (sk_input_lock p) (sk_input sendto p) m
    (set_sem RECV_LOCK 0 (set_sem RECV_WORKER_LOCK 0 s)) = (Ret tt, s1) ->
  k_sems s1 RECV_LOCK = 0 ->
  input_on_regular_msg sendto p m s =
    (Ret tt, set_sem RECV_WORKER_LOCK (k_sems s1 RECV_WORKER_LOCK + 1) (set_sem RECV_LOCK 1 s1)).
Proof.
  intros Hp Hst Hrw Hr Hrun Hq. unfold input_on_regular_msg.
  assert (forall n (t : sk), n = RECV_WORKER_LOCK \/ n = RECV_LOCK -> k_sems t n = 1 ->
    sem_wait p n t = (Ret tt, set_sem n 0 t)) as Hw.
  { intros n t Hn Ht. unfold sem_wait. mstep (Hp n t Hn). rewrite bind_unfold. unfold gets. by rewrite Ht. }
  mstep (Hw RECV_WORKER_LOCK s ltac:(tauto) Hrw). set (s0 := set_sem RECV_WORKER_LOCK 0 s).
  assert (get_state s0 = (Ret ESTABLISHED, s0)) as E2 by (rewrite <- Hst; done).
  mstep E2. rewrite decide_True by done.
  rewrite (run_ret _ _ _ tt (set_sem RECV_LOCK 1 s1)); [done|].
  apply (@with_ctl_ret sk _ (sk_input_lock p) _ _ _ _ _ _ (Hw RECV_LOCK s0 ltac:(tauto) Hr) Hrun).
  cbn [ctl_unlock sk_input_lock]. unfold sem_post. by rewrite Hq.
Qed.

#[export] Instance sk_receiver_laws :
  @ReceiverLaws sk _ (sk_input_lock reader) (sk_input sendto reader).
Proof.
  refine {| inbuf := fun s : sk => ib_buf (k_ib s); delivered := k_user; acks := sk_acks;
            quiet := sk_quiet; signalled := fun s => 0 < k_sems s RECV_WORKER_COMPLETE |}; try done.
  - intros pos d s Hp Hd.
    exists (area_put (InputBufferArea (ib_off (k_ib s)) (store_bytes (ib_buf (k_ib s)) pos d)) s).
    split; [|done]. cbn [input_buf_put_data sk_input]. unfold ib_put_data. rewrite bind_unfold.
    cbn [mem_get gets].
    assert (in_input_buf pos (Z.of_nat (length d)) = true) as -> by (unfold in_input_buf; lia). done.
  - intros pos n s Hp Hn Hl. eexists (add_user _ s). split; [|done].
    cbn [input_buf_flush sk_input]. unfold sk_input_buf_flush, ib_flush. rewrite !bind_unfold.
    cbn [mem_get gets].
    assert (in_input_buf pos n = true) as -> by (unfold in_input_buf; lia). done.
  - intros q w s Hq Hw. destruct (sk_send_ack_ok q w s Hq Hw) as (m&Hs&Hms&Hmw&_).
    exists (add_out m s). split; [exact Hs|]. split_and!; try done.
    unfold sk_acks. cbn [k_out add_out]. rewrite map_app. cbn [map]. rewrite Hms, Hmw. done.
  - intros s [Hl Hc] Hf Ho. cbn [input_win_signal_not_empty sk_input].
    unfold ctl_call. cbn [ctl_unlock ctl_lock sk_input_lock].
    set (s1 := set_sem RECV_LOCK (k_sems s RECV_LOCK + 1) s).
    assert (sem_post RECV_LOCK s = (Ret tt, s1)) as E1 by done. mstep E1.
    set (s2 := set_sem RECV_WORKER_BUF_NOT_EMPTY (k_sems s1 RECV_WORKER_BUF_NOT_EMPTY + 1) s1).
    assert (sem_post RECV_WORKER_BUF_NOT_EMPTY s1 = (Ret tt, s2)) as E2 by done. mstep E2.
    rewrite reader_lock by (unfold s2, s1; rewrite sems_other, sems_same by done; lia).
    eexists. split; [reflexivity|]. split; [|split].
    + split; [apply sems_same|]. unfold s2, s1. rewrite !sems_other by done. done.
    + apply takes_sem. unfold s2, s1. apply takes_sem, takes_sem.
      split; try done; [cbn; unfold iwa in *; cbn in *; lia|].
      rewrite Z.sub_diag. cbn. rewrite app_nil_r. done.
    + intros _ He. change (iwa (set_sem _ _ s2)) with (iwa s) in He. lia.
  - intros s s' [Hl Hc] Hrun. cbn [input_win_wait_not_empty sk_input] in Hrun.
    unfold ctl_call in Hrun. cbn [ctl_unlock ctl_lock sk_input_lock] in Hrun.
    set (s1 := set_sem RECV_LOCK (k_sems s RECV_LOCK + 1) s) in *.
    rewrite (run_ret (sem_post RECV_LOCK) _ s tt s1 eq_refl) in Hrun.
    destruct (bind_ret_inv _ _ _ _ _ Hrun) as ([]&s2&Hw&Hlk). clear Hrun.
    unfold sem_wait in Hw. rewrite bind_unfold in Hw. cbn [reader mret M_ret] in Hw.
    rewrite bind_unfold in Hw. unfold gets in Hw. destruct (0 <? _) in Hw; [|done].
    injection Hw as <-. rewrite reader_lock in Hlk
      by (unfold s1; rewrite sems_other, sems_same by done; lia). injection Hlk as <-.
    split; [|done]. split; [apply sems_same|]. unfold s1. rewrite !sems_other by done. done.
  - intros s Hq Hf Ho Hsz Hsig. by apply wait_flushed_ok.
Defined.

End model.

(** ** A receiving socket *)

(** A kernel that takes every segment. *)
Definition kernel_takes_all (_ : sockaddr_in) (d : bytes) : Z := Z.of_nat (length d).

(** Established for receiving, the first byte expected numbered [start]; the
    receiving lock is free. *)
Definition sk_listening (start : Z) : sk :=
  snd (iw_force_move_start start
         (set_state ESTABLISHED (sk_init (Ident (Addr 16777343 20480) (Addr 16777343 53764)) 1444)).2).

Definition held (s : sk) : sk := set_sem RECV_LOCK 0 s.

Definition data_msg (q : Z) (d : bytes) : msg := set_seq q (msg_of d).

(** A client that reads 300 bytes at a time. *)
Definition sipping : Client := {| asks := fun _ => 300; asks_something := fun _ => eq_refl |}.

Section witnesses.
#[local] Existing Instance sipping.
Abbreviation client := (reader kernel_takes_all).
#[local] Instance client_lock : InputLock sk := sk_input_lock client.
#[local] Instance client_input : InputController sk := sk_input kernel_takes_all client.
#[local] Instance client_laws : ReceiverLaws sk :=
  sk_receiver_laws kernel_takes_all (fun _ _ => eq_refl).

Lemma sk_listening_inv start :
  0 <= start -> start + INPUT_WINDOW_SZ < modulus32 -> receiver_inv (held (sk_listening start)).
Proof. intros H1 H2. split; try done; cbn; unfold INPUT_WINDOW_SZ in *; lia. Qed.

Lemma receives_in_order_only_witness :
  exists s' w,
    @iw_on_msg sk _ (sk_input_lock client) (sk_input kernel_takes_all client)
      (data_msg 5000000 [1; 2; 3]) (held (sk_listening 5000000)) = (Ret tt, s') /\
    receiver_inv s' /\
    (received s' = received (held (sk_listening 5000000)) ++ [1; 2; 3] /\
     expected s' = expected (held (sk_listening 5000000)) + 3) /\
    acks s' = acks (held (sk_listening 5000000)) ++ [(u32 (expected s' - 1), w)] /\
    1 <= w <= INPUT_WINDOW_SZ.
Proof.
  destruct (receives_in_order_only (data_msg 5000000 [1; 2; 3]) (held (sk_listening 5000000)))
    as (s'&w&H1&H2&H3&H4&H5);
    [apply sk_listening_inv; unfold INPUT_WINDOW_SZ; lia|vm_compute; (done || intuition discriminate)..|].
  exists s', w. split; [exact H1|]. split; [exact H2|]. split; [exact H3|]. split; [exact H4|exact H5].
Defined.

(** Three bytes have arrived. *)
Definition three_bytes : sk :=
  area_put (InputWindowArea 5000000 3 INPUT_WINDOW_SZ 0)
    (area_put (InputBufferArea 0 (store_bytes mem_zero 0 [1; 2; 3])) (held (sk_listening 5000000))).

Lemma three_bytes_arrived : exists s, receiver_inv s /\ pending s = [1; 2; 3].
Proof. exists three_bytes. split; [split; done|done]. Qed.

Lemma client_reads_the_stream_witness :
  exists s s',
    @client_flush_request sk _ (sk_input_lock client) (sk_input kernel_takes_all client) 2 s
      = (Ret [1; 2], s') /\ receiver_inv s' /\
    delivered s' = delivered s ++ [1; 2] /\ pending s' = [3] /\ received s' = received s.
Proof.
  destruct three_bytes_arrived as (s&Hi&Hp). exists s.
  assert (pending s <> []) as Hne by (rewrite Hp; done).
  destruct (client_reads_the_stream 2 s Hi Hne ltac:(lia)) as (s'&H1&H2&H3&H4&H5).
  rewrite Hp in H1, H3, H4. exists s'. split_and!; done.
Defined.

Lemma receiver_stalls_past_wrap_witness :
  exists s',
    @iw_on_msg sk _ (sk_input_lock client) (sk_input kernel_takes_all client)
      (data_msg 4 [1; 2; 3]) (held (sk_listening (modulus32 + 4))) = (Ret tt, s') /\
    iwa s' = iwa (held (sk_listening (modulus32 + 4))) /\
    received s' = received (held (sk_listening (modulus32 + 4))).
Proof.
  apply (receiver_stalls_past_wrap (data_msg 4 [1; 2; 3]) (held (sk_listening (modulus32 + 4))));
    vm_compute; intuition discriminate.
Defined.

End witnesses.
