(* ===== verification/LostWindow.v ===== *)
(** * LostWindow: a client that asks once more

    Why [InputOps.ReceiverLaws] asks the client not to read on while [on_msg]
    waits in a full window that has been read to its end.  The signal that
    there is data is given for the first byte of a window and taken only by a
    request that has to wait; a request that found data leaves it behind.  A
    client that has read all of a full window, and asks once more before the
    receiving worker runs again, finds that signal, finds nothing to take in a
    window that is still full, and signals a second time that it has read it:
    the next full window is acknowledged and thrown away. *)
From S2P Require Import Prelude Window Message Transfer ProtoMem Input InputOps Socket ReceiverModel.

Section lost_window.
Context (sendto : sockaddr_in -> bytes -> Z).
Hypothesis sendto_takes_all : forall a d, sendto a d = Z.of_nat (length d).

(** While [on_msg] waits in the full window the client asks for [n] bytes, and
    then for [n'] more. *)
Definition eager_client (n n' : Z) (p : pause_point) : M sk unit :=
  match p with
  | AtSem RECV_WORKER_COMPLETE => read_once sendto n;; read_once sendto n';; mret tt
  | _ => mret tt
  end.

(** [m1] arrives while the client is eager; when [m2] arrives it does not run. *)
Definition two_windows (n n' : Z) (m1 m2 : msg) : M sk unit :=
  input_on_regular_msg sendto (eager_client n n') m1;;
  input_on_regular_msg sendto alone m2.

(** A socket ready to receive, whose client has read all there was: the window
    begins at [st], [o] bytes of it are there. *)
Record all_read (st o : Z) (s : sk) : Prop := {
  ar_state : is_state (k_state s) = ESTABLISHED;
  ar_worker : k_sems s RECV_WORKER_LOCK = 1;
  ar_lock : k_sems s RECV_LOCK = 1;
  ar_signal : 0 <= k_sems s RECV_WORKER_BUF_NOT_EMPTY;
  ar_complete : 0 <= k_sems s RECV_WORKER_COMPLETE;
  ar_window : k_iw s = InputWindowArea st o INPUT_WINDOW_SZ o;
  ar_off : 0 <= o < INPUT_WINDOW_SZ;
  ar_start : 0 <= st /\ st + 2 * INPUT_WINDOW_SZ < modulus32;
}.

(** The segment that fills the rest of the window. *)
Definition fills (m : msg) (st o : Z) : Prop :=
  get_seq m = st + o /\ get_data_len m = INPUT_WINDOW_SZ - o /\
  Z.of_nat (length (msg_data m)) = INPUT_WINDOW_SZ - o.

(** What [on_msg] does after its wait. *)
Definition next_and_ack (p : pause_point -> M sk unit) : M sk unit :=
  win ← iw_setup;
  win ← on_buffer_flushed win;
  sk_output_send_ack sendto (u32 (before_begin win)) (get_sz win).

(** Up to its wait. *)
Lemma on_msg_fills p m st o (s : sk) :
  (forall t, p (AtSem RECV_LOCK) t = (Ret tt, t)) -> k_sems s RECV_LOCK = 0 ->
  k_iw s = InputWindowArea st o INPUT_WINDOW_SZ o -> 0 <= o < INPUT_WINDOW_SZ ->
  0 <= st /\ st + 2 * INPUT_WINDOW_SZ < modulus32 -> fills m st o ->
  exists s1,
    @iw_on_msg sk _ (sk_input_lock p) (sk_input sendto p) m s =
      (@ctl_call sk (sk_input_lock p) (sem_wait p RECV_WORKER_COMPLETE);; next_and_ack p) s1 /\
    k_iw s1 = InputWindowArea st INPUT_WINDOW_SZ INPUT_WINDOW_SZ o /\
    load_bytes (ib_buf (k_ib s1)) o (length (msg_data m)) = msg_data m /\
    k_sems s1 RECV_WORKER_BUF_NOT_EMPTY = k_sems s RECV_WORKER_BUF_NOT_EMPTY + 1 /\
    (forall n, n <> RECV_WORKER_BUF_NOT_EMPTY -> k_sems s1 n = k_sems s n) /\
    k_state s1 = k_state s /\ k_out s1 = k_out s /\ k_user s1 = k_user s.
Proof.
  intros Hp Hl Hw Ho Hst (Hq&Hlen&Hdl). unfold INPUT_WINDOW_SZ in *.
  set (w := Rwin st o 1000).
  set (s1 := area_put (InputBufferArea (ib_off (k_ib s)) (store_bytes (ib_buf (k_ib s)) o (msg_data m))) s).
  set (s2 := area_put (InputWindowArea st 1000 1000 o) s1).
  set (s3 := set_sem RECV_LOCK (k_sems s2 RECV_LOCK + 1) s2).
  set (s4 := set_sem RECV_WORKER_BUF_NOT_EMPTY (k_sems s3 RECV_WORKER_BUF_NOT_EMPTY + 1) s3).
  set (s5 := set_sem RECV_LOCK (k_sems s4 RECV_LOCK - 1) s4).
  assert (k_sems s4 RECV_LOCK = 1) as Hl4.
  { unfold s4. rewrite sems_other by done. unfold s3. rewrite sems_same.
    change (k_sems s2 RECV_LOCK) with (k_sems s RECV_LOCK). lia. }
  exists s5. split; [|split_and!; try done].
  - unfold iw_on_msg.
    assert (iw_setup s = (Ret w, s)) as E1
      by (transitivity ((Ret (iw_win (k_iw s)), s) : outcome receiver_window * sk); [done|by rewrite Hw]).
    mstep E1. assert (in_space w) as Hsp by (unfold in_space, window_wf, w; cbn; lia).
    assert (begin w = st + o) as Hb by (rewrite begin_wf by (by apply in_space_wf); done).
    assert (contains w (Rwin (get_seq m) 0 (get_data_len m)) = true) as ->.
    { rewrite contains_in_space, Hb, (end_wf w) by (done || by apply in_space_wf).
      unfold begin, end_. cbn [w w_start w_off w_sz]. rewrite !u64_small by lia. lia. }
    rewrite Hb, (proj2 (Z.eqb_eq _ _) Hq). unfold iw_move.
    assert (ib_put_data (offset w) (msg_data m) s = (Ret tt, s1)) as E2.
    { unfold ib_put_data. rewrite bind_unfold. cbn [mem_get gets].
      assert (in_input_buf (offset w) (Z.of_nat (length (msg_data m))) = true) as ->
        by (unfold in_input_buf, INPUT_BUF_SZ, offset; cbn [w w_off]; lia). done. }
    assert (wrote_win_sz w s1 = (Ret 0, s1)) as E3.
    { transitivity ((Ret (u64 (o - iw_flushed_off (k_iw s))), s1) : outcome Z * sk); [done|].
      rewrite Hw. cbn [iw_flushed_off]. by rewrite Z.sub_diag. }
    assert (inc (Z.of_nat (length (msg_data m))) w = Rwin st 1000 1000) as Hinc
      by (unfold inc, w; cbn [w_start w_off w_sz]; rewrite s64_small by lia; f_equal; lia).
    assert (iw_flush (Rwin st 1000 1000) s1 = (Ret tt, s2)) as E4.
    { transitivity ((Ret tt, area_put (InputWindowArea st 1000 1000 (iw_flushed_off (k_iw s))) s1)
        : outcome unit * sk); [done|]. by rewrite Hw. }
    assert (@ctl_call sk (sk_input_lock p) (sem_post RECV_WORKER_BUF_NOT_EMPTY) s2 = (Ret tt, s5)) as E5.
    { unfold ctl_call. cbn [ctl_unlock ctl_lock sk_input_lock].
      assert (sem_post RECV_LOCK s2 = (Ret tt, s3)) as F1 by done. mstep F1.
      assert (sem_post RECV_WORKER_BUF_NOT_EMPTY s3 = (Ret tt, s4)) as F2 by done. mstep F2.
      unfold sem_wait. mstep (Hp s4). rewrite bind_unfold. unfold gets. rewrite (proj2 (Z.ltb_lt _ _)) by lia. done. }
    cbn [input_buf_put_data input_win_signal_not_empty input_win_wait_completely_flushed
         output_send_ack sk_input]. cbv zeta.
    rewrite !bind_unfold, E2. rewrite bind_unfold, E3, Hinc, bind_unfold, E4.
    change (0 =? 0) with true. cbn match. rewrite !bind_unfold, E5.
    assert (iw_setup s5 = (Ret (Rwin st 1000 1000), s5)) as -> by done.
    change (get_sz (Rwin st 1000 1000) =? 0) with true. cbn match. rewrite !bind_unfold.
    destruct (@ctl_call sk (sk_input_lock p) (sem_wait p RECV_WORKER_COMPLETE) s5) as [[[]|e|x] s6]; [|done..].
    unfold next_and_ack. rewrite !bind_unfold. destruct (iw_setup s6) as [[w6|e|x] s7]; [|done..].
    by rewrite bind_unfold.
  - change (ib_buf (k_ib s5)) with (store_bytes (ib_buf (k_ib s)) o (msg_data m)). apply load_store_same.
  - intros n Hn. unfold s5. destruct (decide (n = RECV_LOCK)) as [->|Hn'].
    + rewrite sems_same. lia.
    + rewrite sems_other by done. unfold s4. rewrite sems_other by done. unfold s3. by rewrite sems_other.
Qed.

(** And after it: whatever has been read, the window is left behind. *)
Lemma next_and_ack_ok p st f (s : sk) :
  k_iw s = InputWindowArea st INPUT_WINDOW_SZ INPUT_WINDOW_SZ f ->
  0 <= st /\ st + 2 * INPUT_WINDOW_SZ < modulus32 ->
  exists ack s', next_and_ack p s = (Ret tt, s') /\
    k_iw s' = InputWindowArea (st + INPUT_WINDOW_SZ) 0 INPUT_WINDOW_SZ 0 /\
    k_out s' = k_out s ++ [ack] /\ get_seq ack = st + INPUT_WINDOW_SZ - 1 /\
    k_sems s' = k_sems s /\ k_state s' = k_state s /\ k_user s' = k_user s.
Proof.
  intros Hw Hst. unfold INPUT_WINDOW_SZ in *.
  set (w := Rwin (st + 1000) 0 1000).
  set (s1 := area_put (InputWindowArea (st + 1000) 0 1000 0) (area_put (InputWindowArea st 1000 1000 0) s)).
  assert (next_and_ack p s = sk_output_send_ack sendto (u32 (before_begin w)) (get_sz w) s1) as Hrun.
  { unfold next_and_ack.
    assert (iw_setup s = (Ret (Rwin st 1000 1000), s)) as E1
      by (transitivity ((Ret (iw_win (k_iw s)), s) : outcome receiver_window * sk); [done|by rewrite Hw]).
    mstep E1. unfold on_buffer_flushed.
    assert (next_window (Rwin st 1000 1000) = w) as -> by (unfold next_window, w; cbn; by rewrite u64_small by lia).
    assert (set_flushed_off 0 s = (Ret tt, area_put (InputWindowArea st 1000 1000 0) s)) as E2
      by (rewrite set_flushed_eq; unfold iwa; cbn [area_get sk_area_iw]; by rewrite Hw).
    rewrite !bind_unfold, E2, bind_unfold.
    by assert (iw_flush w (area_put (InputWindowArea st 1000 1000 0) s) = (Ret tt, s1)) as -> by done. }
  assert (begin w = st + 1000) as Hb
    by (rewrite begin_wf by (apply in_space_wf; unfold in_space, window_wf, w; cbn; lia); cbn; lia).
  assert (u32 (before_begin w) = st + 999) as Hq.
  { unfold before_begin. rewrite Hb, (proj2 (Z.eqb_neq _ _)) by lia. rewrite u32_small by lia. lia. }
  rewrite Hq in Hrun. change (get_sz w) with (u64 (1000 - 0)) in Hrun.
  destruct (sk_send_ack_ok sendto sendto_takes_all (st + 999) (u64 (1000 - 0)) s1) as (m&Hs&Hms&_);
    [lia|change (u64 (1000 - 0)) with 1000; lia|].
  exists m, (add_out m s1). rewrite Hrun. split_and!; try done. rewrite Hms. lia.
Qed.

(** A request in a full window that has been read to its end takes the old
    signal, gets nothing, and signals once more that the window is read. *)
Lemma read_nothing n st (s : sk) :
  k_sems s RECV_LOCK = 1 -> 0 < k_sems s RECV_WORKER_BUF_NOT_EMPTY -> 0 <= n ->
  k_iw s = InputWindowArea st INPUT_WINDOW_SZ INPUT_WINDOW_SZ INPUT_WINDOW_SZ ->
  exists s', read_once sendto n s = (Ret [], s') /\
    k_sems s' RECV_WORKER_COMPLETE = k_sems s RECV_WORKER_COMPLETE + 1 /\
    k_sems s' RECV_WORKER_BUF_NOT_EMPTY = k_sems s RECV_WORKER_BUF_NOT_EMPTY - 1 /\
    (forall m, m <> RECV_WORKER_COMPLETE -> m <> RECV_WORKER_BUF_NOT_EMPTY -> k_sems s' m = k_sems s m) /\
    k_iw s' = k_iw s /\ k_state s' = k_state s /\ k_out s' = k_out s /\ k_user s' = k_user s.
Proof.
  intros Hl Hne Hn Hw. unfold INPUT_WINDOW_SZ in *. set (w := Rwin st 1000 1000).
  assert (forall t, k_iw t = k_iw s -> iw_setup t = (Ret w, t) /\ wrote_win_sz w t = (Ret 0, t) /\
    get_flushed_off t = (Ret 1000, t)) as Hread.
  { intros t Ht. assert (k_iw t = InputWindowArea st 1000 1000 1000) as Hwt by congruence. split_and!.
    - transitivity ((Ret (iw_win (k_iw t)), t) : outcome receiver_window * sk); [done|by rewrite Hwt].
    - transitivity ((Ret (u64 (1000 - iw_flushed_off (k_iw t))), t) : outcome Z * sk); [done|by rewrite Hwt].
    - transitivity ((Ret (iw_flushed_off (k_iw t)), t) : outcome Z * sk); [done|by rewrite Hwt]. }
  set (unlocked := fun t : sk => set_sem RECV_LOCK (k_sems t RECV_LOCK + 1) t).
  set (relocked := fun t : sk => set_sem RECV_LOCK (k_sems t RECV_LOCK - 1) t).
  assert (forall f t t', f (unlocked t) = (Ret tt, t') -> k_sems t' RECV_LOCK = 1 ->
    @ctl_call sk (sk_input_lock alone) f t = (Ret tt, relocked t')) as Hcall.
  { intros f t t' Hf Ht'. unfold ctl_call. cbn [ctl_unlock ctl_lock sk_input_lock].
    mstep (eq_refl : sem_post RECV_LOCK t = (Ret tt, unlocked t)). mstep Hf. apply sem_wait_alone. lia. }
  set (s1 := relocked s).
  set (s2 := relocked (set_sem RECV_WORKER_BUF_NOT_EMPTY
    (k_sems (unlocked s1) RECV_WORKER_BUF_NOT_EMPTY - 1) (unlocked s1))).
  set (s3 := area_put (InputWindowArea st 1000 1000 1000) (area_put (InputWindowArea st 1000 1000 1000)
    (add_user [] s2))).
  set (s4 := relocked (set_sem RECV_WORKER_COMPLETE
    (k_sems (unlocked s3) RECV_WORKER_COMPLETE + 1) (unlocked s3))).
  assert (k_sems s1 RECV_LOCK = 0) as Hl1 by (unfold s1, relocked; rewrite sems_same; lia).
  assert (k_sems s2 RECV_LOCK = 0) as Hl2.
  { unfold s2, relocked. rewrite sems_same, sems_other by done. unfold unlocked. rewrite sems_same. lia. }
  assert (k_sems s4 RECV_LOCK = 0) as Hl4.
  { unfold s4, relocked. rewrite sems_same, sems_other by done. unfold unlocked. rewrite sems_same.
    change (k_sems s3 RECV_LOCK) with (k_sems s2 RECV_LOCK). lia. }
  assert (@client_flush_request sk _ (sk_input_lock alone) (sk_input sendto alone) n s1 = (Ret [], s4)) as Hrun.
  { unfold client_flush_request. destruct (Hread s1 eq_refl) as (R1&R2&_). mstep R1. mstep R2.
    change (0 =? 0) with true. cbn match. cbn [input_win_wait_not_empty sk_input].
    assert (@ctl_call sk (sk_input_lock alone) (sem_wait alone RECV_WORKER_BUF_NOT_EMPTY) s1 = (Ret tt, s2)) as Hc1.
    { apply Hcall; [apply sem_wait_alone; unfold unlocked, s1, relocked; by rewrite !sems_other|].
      rewrite sems_other by done. unfold unlocked. rewrite sems_same. lia. }
    destruct (Hread s2 eq_refl) as (Q1&Q2&Q3). rewrite !bind_unfold, Hc1, Q1. mstep Q2.
    rewrite Z.min_l by done. mstep Q3. cbn [input_buf_flush sk_input].
    assert (sk_input_buf_flush 1000 0 s2 = (Ret [], add_user [] s2)) as E3 by done. mstep E3.
    change (s64 (1000 + 0)) with 1000.
    assert (set_flushed_off 1000 (add_user [] s2) = (Ret tt, area_put (InputWindowArea st 1000 1000 1000) (add_user [] s2))) as E4.
    { rewrite set_flushed_eq. change (iwa (add_user [] s2)) with (k_iw s). by rewrite Hw. }
    mstep E4.
    assert (iw_flush w (area_put (InputWindowArea st 1000 1000 1000) (add_user [] s2)) = (Ret tt, s3)) as E5 by done.
    mstep E5. destruct (Hread s3 (eq_sym Hw)) as (_&P2&_). mstep P2.
    change ((0 =? 0) && (get_sz w =? 0)) with true. cbn [when input_win_signal_completely_flushed sk_input].
    assert (@ctl_call sk (sk_input_lock alone) (sem_post RECV_WORKER_COMPLETE) s3 = (Ret tt, s4)) as Hc2.
    { apply Hcall; [done|]. rewrite sems_other by done. unfold unlocked. rewrite sems_same.
      change (k_sems s3 RECV_LOCK) with (k_sems s2 RECV_LOCK). lia. }
    mstep Hc2. done. }
  exists (unlocked s4). split.
  { exact (@with_ctl_ret sk _ (sk_input_lock alone) _ _ _ _ _ _ (sem_wait_alone RECV_LOCK s ltac:(lia)) Hrun eq_refl). }
  split_and!; try done; [|exact (app_nil_r _)].
  intros m H1 H2. destruct (decide (m = RECV_LOCK)) as [->|H3].
  - unfold unlocked. rewrite sems_same. lia.
  - cbn. by rewrite !decide_False.
Qed.

(** What the eager client does while [on_msg] waits: it reads the window to its
    end, takes the signal left over, and leaves one that it has read it. *)
Lemma eager_wait n n' st o (s : sk) :
  k_sems s RECV_LOCK = 0 -> 0 < k_sems s RECV_WORKER_BUF_NOT_EMPTY ->
  0 <= k_sems s RECV_WORKER_COMPLETE ->
  k_iw s = InputWindowArea st INPUT_WINDOW_SZ INPUT_WINDOW_SZ o -> 0 <= o < INPUT_WINDOW_SZ ->
  INPUT_WINDOW_SZ - o <= n -> 0 <= n' ->
  exists s', @ctl_call sk (sk_input_lock (eager_client n n'))
      (sem_wait (eager_client n n') RECV_WORKER_COMPLETE) s = (Ret tt, s') /\
    k_iw s' = InputWindowArea st INPUT_WINDOW_SZ INPUT_WINDOW_SZ INPUT_WINDOW_SZ /\
    k_user s' = k_user s ++ load_bytes (ib_buf (k_ib s)) o (Z.to_nat (INPUT_WINDOW_SZ - o)) /\
    k_sems s' RECV_LOCK = 0 /\ 0 < k_sems s' RECV_WORKER_COMPLETE /\
    0 <= k_sems s' RECV_WORKER_BUF_NOT_EMPTY /\
    k_sems s' RECV_WORKER_LOCK = k_sems s RECV_WORKER_LOCK /\
    k_state s' = k_state s /\ k_out s' = k_out s.
Proof.
  intros Hl Hne Hc Hw Ho Hn Hn'. set (p := eager_client n n').
  set (s2 := set_sem RECV_LOCK (k_sems s RECV_LOCK + 1) s).
  assert (k_iw s2 = InputWindowArea st INPUT_WINDOW_SZ INPUT_WINDOW_SZ o) as Hw2 by exact Hw.
  destruct (read_once_ok sendto n s2) as (d&s3&Hr3&Hsem3&Hc3&Ht3&Hf3&Hst3&Ho3); rewrite ?Hw2;
    cbn [iw_off iw_sz iw_flushed_off]; [unfold s2; rewrite sems_same; lia|lia|done|done|lia|].
  rewrite Hw2 in Hc3, Hf3. cbn [iw_off iw_flushed_off] in Hc3, Hf3.
  rewrite Z.min_l in Hc3, Hf3 by lia. rewrite Z.eqb_refl in Hc3.
  assert (k_sems s3 RECV_LOCK = 1 /\ k_sems s3 RECV_WORKER_BUF_NOT_EMPTY =
    k_sems s RECV_WORKER_BUF_NOT_EMPTY) as [Hl3 Hne3].
  { rewrite !Hsem3 by done. unfold s2. rewrite sems_same, sems_other, Hl by done. done. }
  destruct Ht3 as [T1 T2 T3 _ _ _ T]. unfold iwa in *. cbn in T1, T2, T3, T.
  change (k_iw s2) with (k_iw s) in *. rewrite Hw in T1, T2, T3, T.
  assert (k_iw s3 = InputWindowArea st INPUT_WINDOW_SZ INPUT_WINDOW_SZ INPUT_WINDOW_SZ) as Hw3
    by (destruct (k_iw s3); cbn in *; congruence).
  destruct (read_nothing n' st s3 Hl3 ltac:(lia) Hn' Hw3) as (s4&Hr4&Hc4&Hne4&Hsem4&Hw4&Hst4&Ho4&Hu4).
  assert (0 <= k_sems s2 RECV_WORKER_COMPLETE) as Hc2 by (unfold s2; by rewrite sems_other).
  set (s5 := set_sem RECV_WORKER_COMPLETE (k_sems s4 RECV_WORKER_COMPLETE - 1) s4).
  assert (k_sems s5 RECV_LOCK = 1) as Hl5 by (unfold s5; rewrite sems_other, Hsem4 by done; exact Hl3).
  exists (set_sem RECV_LOCK 0 s5). split_and!; [|change (k_iw s4 = InputWindowArea st INPUT_WINDOW_SZ INPUT_WINDOW_SZ INPUT_WINDOW_SZ); congruence|..].
  - unfold ctl_call. cbn [ctl_unlock ctl_lock sk_input_lock].
    mstep (eq_refl : sem_post RECV_LOCK s = (Ret tt, s2)).
    assert (p (AtSem RECV_WORKER_COMPLETE) s2 = (Ret tt, s4)) as Hpause
      by (cbn [p eager_client]; mstep Hr3; mstep Hr4; done).
    rewrite bind_unfold. unfold sem_wait at 1. rewrite (run_ret _ _ _ _ _ Hpause), bind_unfold. unfold gets.
    rewrite (proj2 (Z.ltb_lt _ _)) by lia. fold s5. unfold modify, sem_wait.
    rewrite (run_ret _ _ _ _ _ (eq_refl : p (AtSem RECV_LOCK) s5 = (Ret tt, s5))), bind_unfold.
    unfold gets. by rewrite Hl5.
  - change (k_user s4 = k_user s ++ load_bytes (ib_buf (k_ib s)) o (Z.to_nat (INPUT_WINDOW_SZ - o))).
    rewrite Hu4. rewrite Hf3 in T. exact T.
  - apply sems_same.
  - rewrite sems_other by done. unfold s5. rewrite sems_same. lia.
  - rewrite sems_other by done. unfold s5. rewrite sems_other, Hne4 by done. lia.
  - rewrite sems_other by done. unfold s5. rewrite sems_other, Hsem4, Hsem3 by done.
    unfold s2. by rewrite sems_other.
  - change (k_state s4 = k_state s). by rewrite Hst4, Hst3.
  - change (k_out s4 = k_out s). by rewrite Ho4, Ho3.
Qed.

(** [m1] fills the window, and the eager client has its way. *)
Lemma first_window n n' m1 st o (s : sk) :
  all_read st o s -> fills m1 st o -> st + 3 * INPUT_WINDOW_SZ < modulus32 ->
  INPUT_WINDOW_SZ - o <= n -> 0 <= n' ->
  exists ack s', input_on_regular_msg sendto (eager_client n n') m1 s = (Ret tt, s') /\
    all_read (st + INPUT_WINDOW_SZ) 0 s' /\ 0 < k_sems s' RECV_WORKER_COMPLETE /\
    k_out s' = k_out s ++ [ack] /\ get_seq ack = st + INPUT_WINDOW_SZ - 1 /\
    k_user s' = k_user s ++ msg_data m1.
Proof.
  intros [Hst Hw Hl Hne Hc Hwin Ho Hs] Hf H3w Hn Hn'. set (p := eager_client n n').
  assert (forall k t, k = RECV_WORKER_LOCK \/ k = RECV_LOCK -> p (AtSem k) t = (Ret tt, t)) as Hp
    by (by intros k t [->| ->]).
  set (s0 := set_sem RECV_LOCK 0 (set_sem RECV_WORKER_LOCK 0 s)).
  destruct (on_msg_fills p m1 st o s0) as (s1&Hrun&Hw1&Hb1&Hne1&Hsem1&Hst1&Ho1&Hu1);
    [intros t; apply Hp; tauto|done|done|done|done|done|].
  change (k_sems s0 RECV_WORKER_BUF_NOT_EMPTY) with (k_sems s RECV_WORKER_BUF_NOT_EMPTY) in Hne1.
  destruct (eager_wait n n' st o s1) as (s6&Hcall&Hw6&Hu6&Hl6&Hc6&Hne6&Hk6&Hst6&Ho6);
    [by rewrite Hsem1|lia|by rewrite Hsem1|done..|].
  fold p in Hcall. rewrite (run_ret _ _ _ _ _ Hcall) in Hrun.
  destruct (next_and_ack_ok p st INPUT_WINDOW_SZ s6 Hw6 Hs) as (ack&s7&Hr7&Hw7&Ho7&Hq7&Hsem7&Hst7&Hu7).
  rewrite Hr7 in Hrun. destruct Hf as (_&_&Hlen).
  exists ack. eexists. split.
  { apply regular_msg_run; [exact Hp|exact Hst|exact Hw|exact Hl|exact Hrun|by rewrite Hsem7]. }
  split_and!.
  - split; rewrite ?sems_same; try done; unfold INPUT_WINDOW_SZ in *; try lia.
    + change (is_state (k_state s7) = ESTABLISHED). by rewrite Hst7, Hst6, Hst1.
    + assert (k_sems s7 RECV_WORKER_LOCK = 0) as ->; [|done]. by rewrite Hsem7, Hk6, Hsem1.
    + by rewrite !sems_other, Hsem7.
    + rewrite !sems_other, Hsem7 by done. lia.
  - by rewrite !sems_other, Hsem7.
  - change (k_out s7 = k_out s ++ [ack]). by rewrite Ho7, Ho6, Ho1.
  - exact Hq7.
  - change (k_user s7 = k_user s ++ msg_data m1). rewrite Hu7, Hu6, Hu1. f_equal.
    rewrite <- Hb1. f_equal. lia.
Qed.

(** [m2] fills the next one: the signal that is left over ends the wait. *)
Lemma second_window m2 st (s : sk) :
  all_read st 0 s -> 0 < k_sems s RECV_WORKER_COMPLETE -> fills m2 st 0 ->
  exists ack s', input_on_regular_msg sendto alone m2 s = (Ret tt, s') /\
    k_iw s' = InputWindowArea (st + INPUT_WINDOW_SZ) 0 INPUT_WINDOW_SZ 0 /\
    k_out s' = k_out s ++ [ack] /\ get_seq ack = st + INPUT_WINDOW_SZ - 1 /\ k_user s' = k_user s.
Proof.
  intros [Hst Hw Hl Hne _ Hwin Ho Hs] Hc Hf.
  set (s0 := set_sem RECV_LOCK 0 (set_sem RECV_WORKER_LOCK 0 s)).
  destruct (on_msg_fills alone m2 st 0 s0) as (s1&Hrun&Hw1&_&_&Hsem1&Hst1&Ho1&Hu1); try done.
  set (s2 := set_sem RECV_LOCK (k_sems s1 RECV_LOCK + 1) s1).
  set (s3 := set_sem RECV_WORKER_COMPLETE (k_sems s2 RECV_WORKER_COMPLETE - 1) s2).
  set (s4 := set_sem RECV_LOCK (k_sems s3 RECV_LOCK - 1) s3).
  assert (k_sems s1 RECV_LOCK = 0) as Hl1 by (by rewrite Hsem1).
  assert (k_sems s3 RECV_LOCK = 1) as Hl3
    by (unfold s3; rewrite sems_other by done; unfold s2; rewrite sems_same; lia).
  assert (@ctl_call sk (sk_input_lock alone) (sem_wait alone RECV_WORKER_COMPLETE) s1 = (Ret tt, s4)) as Hcall.
  { unfold ctl_call. cbn [ctl_unlock ctl_lock sk_input_lock].
    mstep (eq_refl : sem_post RECV_LOCK s1 = (Ret tt, s2)).
    assert (0 < k_sems s2 RECV_WORKER_COMPLETE) as Hc2
      by (unfold s2; rewrite sems_other, Hsem1 by done; exact Hc).
    mstep (sem_wait_alone _ _ Hc2). apply sem_wait_alone. fold s3. lia. }
  rewrite (run_ret _ _ _ _ _ Hcall) in Hrun.
  destruct (next_and_ack_ok alone st 0 s4 Hw1 Hs) as (ack&s5&Hr5&Hw5&Ho5&Hq5&Hsem5&Hst5&Hu5).
  rewrite Hr5 in Hrun. exists ack. eexists. split.
  { apply regular_msg_run; [done|exact Hst|exact Hw|exact Hl|exact Hrun|].
    rewrite Hsem5. unfold s4. rewrite sems_same. lia. }
  split_and!; [exact Hw5| |exact Hq5|].
  - change (k_out s5 = k_out s ++ [ack]). rewrite Ho5. exact (f_equal (fun l => l ++ [ack]) Ho1).
  - change (k_user s5 = k_user s). rewrite Hu5. exact Hu1.
Qed.

(** C40: a full window can be acknowledged and thrown away.  On any socket
    whose client has read all that has come, let a segment arrive that fills
    the rest of the window, of any length, let the client read all of it while
    [on_msg] waits for that, in one request, and then ask for anything more
    before [on_msg] goes on; and let one segment arrive that fills the next
    window.  Both are acknowledged, the receiver goes on to the window after
    the two, and the client has been given the first segment only: the whole
    second window is lost. *)
Theorem stale_signal_loses_a_window n n' m1 m2 st o s :
  all_read st o s -> fills m1 st o -> fills m2 (st + INPUT_WINDOW_SZ) 0 ->
  st + 3 * INPUT_WINDOW_SZ < modulus32 -> INPUT_WINDOW_SZ - o <= n -> 0 <= n' ->
  exists a1 a2 s', two_windows n n' m1 m2 s = (Ret tt, s') /\
    k_out s' = k_out s ++ [a1; a2] /\
    get_seq a1 = get_seq m1 + get_data_len m1 - 1 /\ get_seq a2 = get_seq m2 + get_data_len m2 - 1 /\
    k_iw s' = InputWindowArea (get_seq m2 + get_data_len m2) 0 INPUT_WINDOW_SZ 0 /\
    k_user s' = k_user s ++ msg_data m1.
Proof.
  intros Hs Hf1 Hf2 Hst Hn Hn'.
  destruct (first_window n n' m1 st o s Hs Hf1 Hst Hn Hn') as (a1&s1&Hr1&Hs1&Hc1&Ho1&Hq1&Hu1).
  destruct (second_window m2 _ s1 Hs1 Hc1 Hf2) as (a2&s2&Hr2&Hw2&Ho2&Hq2&Hu2).
  destruct Hf1 as (E1&E2&_), Hf2 as (E3&E4&_).
  exists a1, a2, s2. split_and!.
  - unfold two_windows. rewrite (run_ret _ _ _ _ _ Hr1). exact Hr2.
  - by rewrite Ho2, Ho1, <- app_assoc.
  - lia.
  - lia.
  - rewrite Hw2. f_equal. lia.
  - congruence.
Qed.

End lost_window.

Lemma stale_signal_loses_a_window_witness :
  exists s', two_windows kernel_takes_all 1000 1 (data_msg 5000000 (replicate 1000 7))
      (data_msg 5001000 (replicate 1000 9)) (sk_listening 5000000) = (Ret tt, s') /\
    k_user s' = replicate 1000 7.
Proof.
  destruct (stale_signal_loses_a_window kernel_takes_all (fun _ _ => eq_refl) 1000 1
    (data_msg 5000000 (replicate 1000 7)) (data_msg 5001000 (replicate 1000 9)) 5000000 0
    (sk_listening 5000000)) as (a1&a2&s'&Hr&_&_&_&_&Hu).
  - split; vm_compute; intuition discriminate.
  - vm_compute. intuition discriminate.
  - vm_compute. intuition discriminate.
  - unfold INPUT_WINDOW_SZ. lia.
  - unfold INPUT_WINDOW_SZ. lia.
  - lia.
  - exists s'. split; [exact Hr|exact Hu].
Defined.
