(* ===== verification/Frames.v ===== *)
(** * Frames: what the two sides of a socket leave each other

    A connection carries a stream each way, and one socket's memory holds the
    sender's areas of one and the receiver's areas of the other.  The
    operations of either side leave the areas of the other side as they are:
    by the rules of [Prelude.preserves], from the operations' own code. *)
From S2P Require Import Prelude Window Message Transfer ProtoMem Congestion Timeout FastRetransmit.
From S2P Require Import SendBuffer Inplace Slots SlotOps Cumulative CumulativeOps Input InputOps.
From S2P Require Import Socket SenderModel ReceiverModel.

(** ** The two relations *)

(** An acknowledgement and nothing else. *)
Definition pure_ack (m : msg) : Prop :=
  is_ack m = true /\ is_syn m = false /\ is_fin m = false /\ is_rst m = false.

(** The semaphores each side counts up and down outside of its lock. *)
Definition receiving_sem (n : sem_name) : bool :=
  match n with
  | RECV_LOCK | RECV_WORKER_COMPLETE | RECV_WORKER_BUF_NOT_EMPTY => true
  | _ => false
  end.

Definition sending_sem (n : sem_name) : bool :=
  match n with
  | SEND_BUF_EMPTY | SEND_BUF_NOT_EMPTY => true
  | _ => false
  end.

(** The receiving side has run: of the sender's areas nothing has changed, and
    what has been sent are acknowledgements. *)
Record sender_kept (s s' : sk) : Prop := {
  sk_wc : k_wc s' = k_wc s;
  sk_cw : k_cw s' = k_cw s;
  sk_sb : k_sb s' = k_sb s;
  sk_to : k_to s' = k_to s;
  sk_fr : k_fr s' = k_fr s;
  sk_fut : k_fut s' = k_fut s;
  sk_sems : forall n, receiving_sem n = false -> k_sems s' n = k_sems s n;
  sk_outside : k_state s' = k_state s /\ k_id s' = k_id s /\ k_clock s' = k_clock s;
  sk_acks_only : exists l, k_out s' = k_out s ++ l /\ Forall pure_ack l;
}.

(** The sending side has run: of the receiver's areas nothing has changed. *)
Record receiver_kept (s s' : sk) : Prop := {
  rk_iw : k_iw s' = k_iw s;
  rk_ib : k_ib s' = k_ib s;
  rk_user : k_user s' = k_user s;
  rk_sems : forall n, sending_sem n = false -> k_sems s' n = k_sems s n;
  rk_outside : k_state s' = k_state s /\ k_id s' = k_id s /\ k_clock s' = k_clock s;
}.

#[export] Instance sender_kept_preorder : PreOrder sender_kept.
Proof.
  split.
  - intros s. split; try done. exists []. by rewrite app_nil_r.
  - intros s1 s2 s3 [? ? ? ? ? ? Hs1 (?&?&?) (l1&Ho1&Hl1)] [? ? ? ? ? ? Hs2 (?&?&?) (l2&Ho2&Hl2)].
    split; try congruence.
    + intros n Hn. rewrite Hs2, Hs1; done.
    + split_and!; congruence.
    + exists (l1 ++ l2). rewrite Ho2, Ho1, app_assoc. split; [done|by apply Forall_app].
Qed.

#[export] Instance receiver_kept_preorder : PreOrder receiver_kept.
Proof.
  split.
  - intros s. split; done.
  - intros s1 s2 s3 [? ? ? Hs1 (?&?&?)] [? ? ? Hs2 (?&?&?)]. split; try congruence.
    + intros n Hn. rewrite Hs2, Hs1; done.
    + split_and!; congruence.
Qed.

(** ** The receiving side *)

Section receiving.
Context (sendto : sockaddr_in -> bytes -> Z) {client : Client}.

Lemma sender_kept_sem n v s : receiving_sem n = true -> sender_kept s (set_sem n v s).
Proof.
  intros Hn. split; try done; [|exists []; by rewrite app_nil_r].
  intros m Hm. apply sems_other. intros ->. congruence.
Qed.

Lemma sender_kept_iw (a : input_window_area) s : sender_kept s (area_put a s).
Proof. split; try done. exists []. by rewrite app_nil_r. Qed.

Lemma sender_kept_ib (a : input_buffer_area) s : sender_kept s (area_put a s).
Proof. split; try done. exists []. by rewrite app_nil_r. Qed.

Lemma sender_kept_user d s : sender_kept s (add_user d s).
Proof. split; try done. exists []. by rewrite app_nil_r. Qed.

Lemma keeps_sem_post n : receiving_sem n = true -> preserves sender_kept (sem_post n).
Proof. intros Hn s. by apply sender_kept_sem. Qed.

Lemma keeps_put_iw (a : input_window_area) : preserves sender_kept (mem_put a).
Proof. intros s; apply sender_kept_iw. Qed.

Lemma keeps_put_ib (a : input_buffer_area) : preserves sender_kept (mem_put a).
Proof. intros s; apply sender_kept_ib. Qed.

Lemma keeps_user d : preserves sender_kept (modify (add_user d)).
Proof. intros s; apply sender_kept_user. Qed.

Lemma keeps_send_ack q w : preserves sender_kept (sk_output_send_ack sendto q w).
Proof.
  intros s. unfold sk_output_send_ack. rewrite bind_unfold. unfold base_send.
  destruct (socket_send _ _ _ _); cbn [snd]; [|done..].
  unfold mret, M_ret; cbn [snd]. split; try done. eexists. split; [done|]. repeat constructor.
Qed.

Section waiting.
Context (others : pause_point -> M sk unit).
Hypothesis others_keep : forall p, preserves sender_kept (others p).

Lemma keeps_sem_wait n : receiving_sem n = true -> preserves sender_kept (sem_wait others n).
Proof.
  intros Hn. unfold sem_wait. keeps. intros s. by apply sender_kept_sem.
Qed.

#[local] Instance keep_lock : InputLock sk := sk_input_lock others.
#[local] Instance keep_input : InputController sk := sk_input sendto others.

Hint Resolve keeps_put_iw keeps_put_ib keeps_user keeps_send_ack keeps_sem_wait
  keeps_sem_post : frames.

Lemma keeps_ctl_call f : preserves sender_kept f -> preserves sender_kept (ctl_call f).
Proof.
  intros Hf. unfold ctl_call. cbn [ctl_lock ctl_unlock keep_lock sk_input_lock].
  keeps.
Qed.

Hint Resolve keeps_ctl_call : frames.

Lemma keeps_on_msg m : preserves sender_kept (iw_on_msg m).
Proof.
  unfold iw_on_msg, iw_move, on_buffer_flushed, iw_flush, wrote_win_sz, get_flushed_off,
    set_flushed_off, iw_setup.
  cbn [input_buf_put_data input_win_signal_not_empty input_win_wait_completely_flushed
       output_send_ack keep_input sk_input].
  unfold ib_put_data, mem_get. keeps.
Qed.

Lemma keeps_client_flush n : preserves sender_kept (client_flush_request n).
Proof.
  unfold client_flush_request, iw_flush, wrote_win_sz, get_flushed_off, set_flushed_off, iw_setup.
  cbn [input_buf_flush input_win_wait_not_empty input_win_signal_completely_flushed keep_input sk_input].
  unfold sk_input_buf_flush, ib_flush, mem_get. keeps.
Qed.

End waiting.

(** The client's thread that answers the receiving worker's wait. *)
Lemma keeps_alone p : preserves sender_kept (alone p).
Proof. apply preserves_ret, _. Qed.

Lemma keeps_read_once n : preserves sender_kept (read_once sendto n).
Proof.
  unfold read_once, with_ctl. cbn [ctl_lock ctl_unlock sk_input_lock]. keeps;
    [by apply keeps_sem_wait; [apply keeps_alone|]|apply keeps_client_flush, keeps_alone
    |by apply keeps_sem_post].
Qed.

Lemma keeps_read_rest fuel : preserves sender_kept (read_rest sendto fuel).
Proof. induction fuel as [|fuel IH]; cbn [read_rest]; keeps. apply keeps_read_once. Qed.

Lemma keeps_reader p : preserves sender_kept (reader sendto p).
Proof. destruct p as [[]| |]; try apply preserves_ret, _. apply keeps_read_rest. Qed.

End receiving.

(** ** The sending side

    [SenderFrame R]: the buffer, the window and a retry keep [R], and so do the
    sections of a sending worker; [SenderSignals R]: so do the areas an
    acknowledgement and a [send] change besides. *)
Class SenderFrame (R : sk -> sk -> Prop) : Prop := {
  sf_preorder : PreOrder R;
  sf_put_sb (a : send_buffer_area) : preserves R (mem_put a);
  sf_put_cw (a : cumulative_area) : preserves R (mem_put a);
  sf_cwc_on_retry : preserves R cwc_on_retry;
  sf_base_send sendto m : preserves R (base_send sendto m);
}.

Class SenderSignals (R : sk -> sk -> Prop) : Prop := {
  ss_frame : SenderFrame R;
  ss_put_to (a : timeout_area) : preserves R (mem_put a);
  ss_put_fr (a : fast_retransmit_area) : preserves R (mem_put a);
  ss_put_fut (a : futures_area) : preserves R (mem_put a);
  ss_post n : sending_sem n = true -> preserves R (sem_post n);
}.

Section sender_frame.
Context {R : sk -> sk -> Prop} `{!SenderFrame R}.

#[local] Existing Instance sf_preorder.
Hint Resolve sf_put_sb sf_put_cw sf_cwc_on_retry sf_base_send : frames.

Lemma keeps_read_buf p n : preserves R (read_buf p n).
Proof. unfold read_buf, mem_get. keeps. Qed.

Lemma keeps_write_buf p n f : preserves R (write_buf p n f).
Proof. unfold write_buf, mem_get. keeps. Qed.

Lemma keeps_put_real_off i r : preserves R (put_real_off i r).
Proof. unfold put_real_off, mem_get. keeps. Qed.

Lemma keeps_real_off i : preserves R (real_off i).
Proof. unfold real_off, mem_get. keeps. Qed.

Hint Resolve keeps_read_buf keeps_write_buf keeps_put_real_off keeps_real_off : frames.

Lemma keeps_get_msg_at off : preserves R (get_msg_at (V:=Z) (E:=Z) off).
Proof. unfold get_msg_at. cbn [get_msg_inplace sk_inplace_controller]. unfold sk_get_msg_inplace. keeps. Qed.

Lemma keeps_refresh : preserves R (refresh (St:=sk)).
Proof. unfold refresh, mem_get. keeps. Qed.

Lemma keeps_mark p b : preserves R (sk_mark_msg_used p b).
Proof. unfold sk_mark_msg_used. keeps. Qed.

Lemma keeps_msg_at p : preserves R (msg_at p).
Proof. unfold msg_at, mem_get. keeps. Qed.

Hint Resolve keeps_get_msg_at keeps_refresh keeps_mark keeps_msg_at : frames.

Lemma keeps_cw_retry m : preserves R (cw_retry (V:=Z) (E:=Z) m).
Proof.
  unfold cw_retry, setup, flush, mem_get.
  cbn [output_sent_buf_get_msg_at mark_msg_used sk_sent_buf]. keeps.
Qed.

Hint Resolve keeps_cw_retry : frames.

Lemma keeps_on_retry m : preserves R (sk_output_on_retry m).
Proof. unfold sk_output_on_retry. keeps. Qed.

Lemma keeps_check m : preserves R (sk_output_check_msg_complete m).
Proof. unfold sk_output_check_msg_complete, cw_check_msg_complete, setup, flush, mem_get. keeps. Qed.

Lemma keeps_next_msg `{!SendWait sk} fuel :
  preserves R output_sent_buf_wait_not_empty ->
  preserves R (cw_next_msg (V:=Z) (E:=Z) fuel).
Proof.
  intros Hw. unfold cw_next_msg, setup, mem_get. keeps.
  match goal with |- preserves _ (next_msg_loop _ _ ?o) => generalize o end.
  induction fuel as [|fuel IH]; intros off;
    cbn [next_msg_loop output_sent_buf_get_msg_at is_msg_used get_msg_data_sz mark_msg_used sk_sent_buf];
    unfold sk_is_msg_used, sk_get_msg_data_sz, flush; keeps.
Qed.

Lemma keeps_base_send_inplace sendto p : preserves R (base_send_inplace sendto p).
Proof. unfold base_send_inplace. keeps. Qed.

End sender_frame.

Section sender_signals.
Context {R : sk -> sk -> Prop} `{!SenderSignals R}.

#[local] Existing Instance ss_frame.
#[local] Existing Instance sf_preorder.
Hint Resolve ss_frame sf_put_sb sf_put_cw sf_cwc_on_retry ss_put_to ss_put_fr ss_put_fut ss_post : frames.
Hint Resolve keeps_read_buf keeps_write_buf keeps_put_real_off keeps_real_off keeps_get_msg_at
  keeps_refresh keeps_mark keeps_msg_at keeps_on_retry : frames.

Lemma keeps_put_msg_at off m : preserves R (put_msg_at (V:=Z) (E:=Z) off m).
Proof.
  unfold put_msg_at. cbn [put_msg_inplace get_msg_inplace_future sk_inplace_controller].
  unfold sk_put_msg_inplace, sk_get_msg_inplace_future, future_init, get_inplace_msg_size, mem_get. keeps.
Qed.

Lemma keeps_release_loop fuel off e : preserves R (release_loop (V:=Z) (E:=Z) fuel off e).
Proof.
  revert off. induction fuel as [|fuel IH]; intros off; cbn [release_loop]; keeps.
  cbn [release_inplace_msg sk_inplace_controller].
  unfold sk_release_inplace_msg, sk_get_msg_inplace, output_signal_msg_complete, future_notify,
    get_inplace_msg_size, mem_get. keeps.
Qed.

Lemma keeps_release_range b e : preserves R (release_range (V:=Z) (E:=Z) b e).
Proof. unfold release_range. keeps. apply keeps_release_loop. Qed.

Lemma keeps_compute_timeout T : preserves R (compute_timeout (St:=sk) T).
Proof. unfold compute_timeout, clean_compute, noclean_compute, mem_get. keeps. Qed.

Hint Resolve keeps_put_msg_at keeps_release_range keeps_compute_timeout : frames.

Lemma keeps_cw_send m : preserves R (cw_send (E:=Z) m).
Proof.
  unfold cw_send, setup, flush, mem_get.
  cbn [output_sent_buf_signal_not_empty output_sent_buf_put_msg_at sk_sent_buf sk_send_events]. keeps.
Qed.

Lemma keeps_cw_on_ack m : preserves R (cw_on_ack (V:=Z) (E:=Z) m).
Proof.
  unfold cw_on_ack, setup, flush, mem_get.
  cbn [output_sent_buf_get_msg_at output_sent_buf_release_range output_sent_buf_refresh_contents
       output_refresh_on_msg_pair output_refresh_on_msg_pair_prev_window_matched on_sent_buf_empty
       sk_sent_buf sk_send_events].
  unfold sk_output_refresh_on_msg_pair, sk_output_refresh_prev, get_timestamp, timeout_refresh,
    fr_on_ack, mem_get.
  cbn [output_on_retry sk_retry]. keeps.
Qed.

End sender_signals.

(** What the receiving side reads is kept. *)
Lemma receiver_kept_sem n v s : sending_sem n = true -> receiver_kept s (set_sem n v s).
Proof. intros Hn. split; try done. intros m Hm. apply sems_other. intros ->. congruence. Qed.

#[export] Instance receiver_kept_frame : SenderFrame receiver_kept.
Proof.
  split; [apply _|by intros ? s; split|by intros ? s; split|by intros s; split|].
  intros sendto m s. unfold base_send. destruct (socket_send _ _ _ _); by split.
Qed.

#[export] Instance receiver_kept_signals : SenderSignals receiver_kept.
Proof.
  split; [apply _|by intros ? s; split..|]. intros n Hn s. by apply receiver_kept_sem.
Qed.

Lemma keeps_cwc_on_ack m : preserves receiver_kept (cwc_on_ack m).
Proof. intros s. by split. Qed.
