(* ===== verification/Handshake.v ===== *)
(** * Handshake: [handshake] and [disconnect] of [src/src/newimpl.cpp]

    Lines 689-1042: the controllers of the two handshakers over the socket,
    and the calls that run them under the socket's locks.  The messages that
    wait in the socket's queue are [k_in]; a wait that finds none times out
    and is repeated, [fuel] times at most. *)
From S2P Require Import Prelude Window Message Transfer ProtoMem.
From S2P Require Import Cumulative Input Handshaker Socket.

Definition is_timeout (e : exn) : bool := match e with ETimeout => true | _ => false end.

Section handshake.
Context (sendto : sockaddr_in -> bytes -> Z) (rand32 : M sk Z).

(** [socket_sock_base::next_msg], from the queue. *)
Definition base_next_msg : M sk msg := fun s =>
  match k_in s with
  | [] => (Throw ETimeout, s)
  | m :: rest => (Ret m, set_in rest s)
  end.

(** [__next_msg] (732-739, 897-904) *)
Fixpoint go_next_msg (fuel : nat) : M sk msg :=
  try_catch base_next_msg is_timeout
    (match fuel with O => faults out_of_fuel | S fuel => go_next_msg fuel end).

(** The loops of [next_syn_ack], [next_syn], [next_ack] (740-792) and of
    [close_hadnshaker_keeper::next_msg] (908-923): skip messages until one
    satisfies the predicate and its handler does not drop it. *)
Fixpoint next_matching (fuel : nat) (pred : msg -> bool) (next : msg -> M sk unit) : M sk unit :=
  m ← go_next_msg fuel;
  match fuel with
  | O => faults out_of_fuel
  | S fuel =>
      if pred m then try_catch (next m) is_drop (next_matching fuel pred next)
      else next_matching fuel pred next
  end.

(** ** The controller of [handshake] (690-815) *)

Definition go_send (m : msg) : M sk unit := base_send sendto m;; mret tt.

#[export] Instance go_signals : EstablishSignals sk := {|
  generate_rand32 := rand32;
  output_send_hs_ack := fun sq ack_sq =>
    go_send (set_window_sz OUTPUT_WINDOW_SZ (set_ack_seq ack_sq (set_seq sq (set_ack (msg_alloc 0)))));
  send_syn_ack := fun sq ack_sq =>
    go_send (set_window_sz INPUT_WINDOW_SZ
      (set_ack_seq ack_sq (set_seq sq (set_ack (set_syn (msg_alloc 0))))));
  send_syn := fun sq => go_send (set_seq sq (set_syn (msg_alloc 0)));
  recv_established := fun input => iw_force_move_start input;; set_state ESTABLISHED;
  send_established := fun output => cw_force_move_start output;; set_state ESTABLISHED;
|}.

Definition go_next_ack (fuel : nat) : M sk unit :=
  next_matching fuel (fun m => is_ack m && negb (is_syn m)) recv_on_ack.
Definition go_next_syn_ack (fuel : nat) : M sk unit :=
  next_matching fuel (fun m => is_syn m && is_ack m) send_on_syn_ack.

#[export] Instance go_waits (fuel : nat) : EstablishWaits sk := {|
  next_ack := go_next_ack fuel;
  next_syn_ack := go_next_syn_ack fuel;
|}.

Definition go_next_syn (fuel : nat) : M sk unit :=
  next_matching fuel (fun m => is_syn m && negb (is_ack m))
    (@recv_on_syn sk _ go_signals (go_waits fuel)).

Section locks.
Context (others : pause_point -> M sk unit).

(** [handshake] (689-836) *)
Definition handshake (fuel : nat) (recv : bool) : M sk unit :=
  when (negb recv)
    (sem_wait others SEND_LOCK;;
     sem_wait others SEND_WORKER_LOCK;;
     st ← get_state;
     (if decide (st = CLOSED) then @send_establish sk _ go_signals (go_waits fuel) else mret tt);;
     sem_post SEND_WORKER_LOCK;;
     sem_post SEND_LOCK);;
  when recv
    (sem_wait others RECV_LOCK;;
     sem_wait others RECV_WORKER_LOCK;;
     st ← get_state;
     (if decide (st = CLOSED) then go_next_syn fuel else mret tt);;
     sem_post RECV_WORKER_LOCK;;
     sem_post RECV_LOCK).

End locks.

(** ** [close_hadnshaker_keeper] (838-998) *)

Fixpoint send_times (n : nat) (m : msg) : M sk unit :=
  match n with
  | O => mret tt
  | S n => m' ← base_send sendto m; send_times n m'
  end.

#[export] Instance keeper_signals : CloseSignals sk := {|
  close_rand32 := rand32;
  close_send_ack := fun sq => go_send (set_seq sq (set_ack (msg_alloc 0)));
  send_fin_ack := fun sq ack_sq =>
    go_send (set_ack_seq ack_sq (set_seq sq (set_ack (set_fin (msg_alloc 0)))));
  send_fin := fun sq => send_times 10 (set_seq sq (set_fin (msg_alloc 0)));
  send_rst := fun sq => go_send (set_seq sq (set_rst (msg_alloc 0)));
  send_rst_ack := fun sq ack_sq =>
    go_send (set_ack_seq ack_sq (set_seq sq (set_ack (set_rst (msg_alloc 0)))));
  recv_direct_closed := set_state CLOSED;
  send_direct_closed := set_state CLOSED;
  recv_reverse_closed := set_state CLOSED;
  send_reverse_closed := set_state CLOSED;
|}.

#[export] Instance keeper_waits (fuel : nat) : CloseWaits sk := {|
  next_fin_ack := next_matching fuel (fun m => is_fin m && is_ack m) send_on_fin_ack;
  recv_next_ack := next_matching fuel
    (fun m => negb (is_rst m) && negb (is_fin m) && is_ack m) close_recv_on_ack;
  send_next_ack := next_matching fuel
    (fun m => negb (is_rst m) && negb (is_fin m) && is_ack m) send_on_ack;
  next_rst_ack := next_matching fuel (fun m => negb (is_fin m) && is_ack m) recv_on_rst_ack;
|}.

Section disconnect.
Context (others : pause_point -> M sk unit).

(** The lock pairs of [disconnect], around an action for an established
    connection. *)
Definition under_recv_locks (f : M sk unit) : M sk unit :=
  sem_wait others RECV_LOCK;;
  sem_wait others RECV_WORKER_LOCK;;
  st ← get_state;
  (if decide (st = ESTABLISHED) then f else mret tt);;
  sem_post RECV_WORKER_LOCK;;
  sem_post RECV_LOCK.

Definition under_send_locks (f : M sk unit) : M sk unit :=
  sem_wait others SEND_LOCK;;
  sem_wait others SEND_WORKER_LOCK;;
  st ← get_state;
  (if decide (st = ESTABLISHED) then f else mret tt);;
  sem_post SEND_WORKER_LOCK;;
  sem_post SEND_LOCK.

(** [disconnect] (1001-1042) *)
Definition disconnect (fuel : nat) (recv : bool) (input : option msg) : M sk unit :=
  let sig := keeper_signals in
  let waits := keeper_waits fuel in
  match input with
  | Some m =>
      when (is_fin m && negb (is_ack m)) (under_recv_locks (@recv_on_fin sk _ sig waits m));;
      when (is_rst m && negb (is_ack m)) (under_send_locks (@send_on_rst sk _ sig waits m))
  | None =>
      if recv then under_recv_locks (@recv_close sk _ sig waits)
      else under_send_locks (@send_close sk _ sig waits)
  end.

(** One message in [input_recv_worker::do_job] (265-292); [fuel] is for the
    waits of a close handshake. *)
Definition recv_worker_dispatch (fuel : nat) (m : msg) : M sk unit :=
  if is_usual m then input_on_regular_msg sendto others m
  else if is_fin m || is_rst m then disconnect fuel false (Some m)
  else if is_ack m then sk_output_on_ack others m
  else fun s => (Ret tt, set_in (k_in s ++ [m]) s).

(** One round of the worker: nothing happens when the wait times out. *)
Definition recv_worker_round (fuel : nat) : M sk unit :=
  try_catch (m ← base_next_msg; recv_worker_dispatch fuel m) is_timeout (mret tt).

End disconnect.

(** ** The calls of the stream interface

    [send] (630-662), [recv] (352-356) and [socket_client::connect]
    (1115-1118): the handshake, which does nothing once the connection is
    established, before the data.  The threads the code starts on the way are
    [others]. *)
Section calls.
Context (others : pause_point -> M sk unit).

Definition stream_send (fuel : nat) (buf : bytes) : M sk unit :=
  handshake others fuel false;;
  sk_send others fuel buf.

Definition stream_recv (fuel : nat) (sz : Z) : M sk bytes :=
  handshake others fuel true;;
  recv_proc sendto others fuel sz.

Definition connect (fuel : nat) : M sk unit := handshake others fuel false.

End calls.
End handshake.
