(* ===== verification/HandshakeOps.v ===== *)
(** * HandshakeOps: what the handshakes achieve

    Properties of [handshake] and [disconnect] ([Handshake]): the messages of
    an orderly exchange establish both ends with the same first number, other
    messages in the queues do not matter, nothing short of the exchange
    establishes a connection, and closing. *)
From S2P Require Import Prelude Window Message Transfer ProtoMem.
From S2P Require Import Cumulative Input Handshaker Socket ReceiverModel Handshake.

(** ** Waiting for a message *)

Lemma set_in_in l s : k_in (set_in l s) = l.
Proof. done. Qed.

Lemma set_in_twice l l' s : set_in l (set_in l' s) = set_in l s.
Proof. done. Qed.

Lemma go_next_msg_cons m rest fuel s :
  k_in s = m :: rest -> go_next_msg fuel s = (Ret m, set_in rest s).
Proof. intros H. destruct fuel; unfold go_next_msg, try_catch, base_next_msg; rewrite H; done. Qed.

Lemma go_next_msg_nil fuel s : k_in s = [] -> go_next_msg fuel s = (Fault out_of_fuel, s).
Proof.
  intros H. induction fuel as [|fuel IH]; cbn [go_next_msg];
    unfold try_catch at 1, base_next_msg at 1; rewrite H; cbn; [done|exact IH].
Qed.

(** Messages that do not match, and messages whose handler drops them, are
    taken from the queue and change nothing else. *)
Lemma next_matching_finds pred next junk m rest s s' fuel :
  (forall j l, j ∈ junk -> pred j = true -> next j (set_in l s) = (Throw EDrop, set_in l s)) ->
  pred m = true -> (length junk < fuel)%nat -> k_in s = junk ++ m :: rest ->
  next m (set_in rest s) = (Ret tt, s') ->
  next_matching fuel pred next s = (Ret tt, s').
Proof.
  revert s fuel. induction junk as [|j junk IH]; intros s fuel Hj Hp Hf Hin Hnext;
    (destruct fuel as [|fuel]; [simpl in Hf; lia|]); cbn [app] in Hin; cbn [next_matching];
    mstep (go_next_msg_cons _ _ (S fuel) s Hin).
  - rewrite Hp. unfold try_catch. rewrite Hnext. done.
  - assert (next_matching fuel pred next (set_in (junk ++ m :: rest) s) = (Ret tt, s')) as IH'.
    { apply IH; try done; [|simpl in Hf; lia].
      intros j' l Hj'. apply Hj. right. done. }
    destruct (pred j) eqn:Hpj; [|exact IH'].
    unfold try_catch. rewrite (Hj j _ ltac:(left) Hpj). exact IH'.
Qed.

(** A wait that returns has found such a message, in a state that differs
    from the first one by what handlers that dropped theirs left. *)
Lemma next_matching_inv (I : sk -> Prop) pred next fuel s s' :
  next_matching fuel pred next s = (Ret tt, s') -> I s ->
  (forall l s, I s -> I (set_in l s)) ->
  (forall m s s', I s -> next m s = (Throw EDrop, s') -> I s' /\ k_in s' ⊆ k_in s) ->
  exists m s0, m ∈ k_in s /\ pred m = true /\ I s0 /\ k_in s0 ⊆ k_in s /\ next m s0 = (Ret tt, s').
Proof.
  intros Hrun HI Hset Hdrop. revert s HI Hrun.
  induction fuel as [|fuel IH]; intros s HI Hrun; cbn [next_matching] in Hrun;
    rewrite bind_unfold in Hrun;
    (destruct (k_in s) as [|j rest] eqn:Hin;
       [rewrite (go_next_msg_nil _ s Hin) in Hrun; discriminate|
        rewrite (go_next_msg_cons _ _ _ s Hin) in Hrun]); [discriminate|].
  pose proof (Hset rest s HI) as HI1.
  assert (forall s1, I s1 -> k_in s1 ⊆ rest ->
            next_matching fuel pred next s1 = (Ret tt, s') ->
            exists m s0, m ∈ j :: rest /\ pred m = true /\ I s0 /\ k_in s0 ⊆ j :: rest /\
              next m s0 = (Ret tt, s')) as Hrec.
  { intros s1 Hs1 Hsub Hrun1. destruct (IH s1 Hs1 Hrun1) as (m&s0&Hm&Hp&H0&Hs0&Hn).
    exists m, s0. set_solver. }
  destruct (pred j) eqn:Hp; [|apply (Hrec _ HI1); done].
  unfold try_catch in Hrun. destruct (next j (set_in rest s)) as [[[]|e|f] s1] eqn:Hn.
  - injection Hrun as <-. exists j, (set_in rest s). split_and!; try done; set_solver.
  - destruct e; [|discriminate..]. cbn [is_drop] in Hrun.
    destruct (Hdrop _ _ _ HI1 Hn) as [HI2 Hsub]. apply (Hrec s1 HI2); done.
  - discriminate.
Qed.

(** A wait handles its own drops. *)
Lemma next_matching_no_drop pred next fuel s s' :
  next_matching fuel pred next s <> (Throw EDrop, s').
Proof.
  revert s. induction fuel as [|fuel IH]; intros s; cbn [next_matching]; rewrite bind_unfold;
    (destruct (k_in s) as [|j rest] eqn:Hin;
       [rewrite (go_next_msg_nil _ s Hin); discriminate|
        rewrite (go_next_msg_cons _ _ _ s Hin)]); [discriminate|].
  destruct (pred j); [|apply IH].
  unfold try_catch. destruct (next j (set_in rest s)) as [[[]|[]|f] s1]; try discriminate. apply IH.
Qed.

(** ** Sending *)

(** What a message says in a handshake. *)
Definition says (m : msg) : bool * bool * bool * bool * Z * Z :=
  (is_syn m, is_fin m, is_rst m, is_ack m, get_seq m, get_ack_seq m).

Definition SYN (q : Z) := (true, false, false, false, q, 0).
Definition SYN_ACK (q a : Z) := (true, false, false, true, q, a).
Definition ACK (q a : Z) := (false, false, false, true, q, a).
Definition FIN (q : Z) := (false, true, false, false, q, 0).
Definition FIN_ACK (q a : Z) := (false, true, false, true, q, a).

(** The acknowledgement the server waits for, the answer the client waits for,
    and the request a server answers. *)
Definition ack_for (x y : Z) (m : msg) : bool :=
  is_ack m && negb (is_syn m) && (get_seq m =? x) && (get_ack_seq m =? y).
Definition syn_ack_for (y : Z) (m : msg) : bool :=
  is_syn m && is_ack m && (get_ack_seq m =? y).
Definition plain_syn (m : msg) : bool := is_syn m && negb (is_ack m).

Definition fin_ack_for (r : Z) (m : msg) : bool :=
  is_fin m && is_ack m && (get_ack_seq m =? r).
Definition close_ack_for (r : Z) (m : msg) : bool :=
  negb (is_rst m) && negb (is_fin m) && is_ack m && (get_seq m =? r).

Section ops.
Context (sendto : sockaddr_in -> bytes -> Z).

Lemma base_send_frame m s o s' :
  base_send sendto m s = (o, s') ->
  (exists m', says m' = says m /\ s' = add_out m' s) \/ (s' = s /\ forall a, o <> Ret a).
Proof.
  unfold base_send. destruct (socket_send _ _ _ _); intros [= <- <-].
  - left. eexists. split; [|reflexivity]. done.
  - right. done.
  - right. done.
Qed.

Lemma go_send_frame m s o s' :
  go_send sendto m s = (o, s') ->
  (exists m', says m' = says m /\ s' = add_out m' s) \/ (s' = s /\ forall a, o <> Ret a).
Proof.
  unfold go_send. rewrite bind_unfold. destruct (base_send sendto m s) as [o1 s1] eqn:E.
  destruct (base_send_frame _ _ _ _ E) as [H|[H1 H2]]; destruct o1; cbn; intros [= <- <-]; auto.
  exfalso. exact (H2 a eq_refl).
Qed.

Lemma go_send_no_drop m s s' : go_send sendto m s <> (Throw EDrop, s').
Proof.
  unfold go_send, base_send, socket_send, transfer_send_to. rewrite bind_unfold.
  destruct (negb _); discriminate.
Qed.

(** The handlers up to their first message. *)
Lemma recv_on_syn_eq b fuel syn s :
  @recv_on_syn sk _ (go_signals sendto (mret b)) (go_waits sendto (mret b) fuel) syn s =
  (go_send sendto (set_window_sz INPUT_WINDOW_SZ (set_ack_seq (u32 (get_seq syn + 1))
     (set_seq b (set_ack (set_syn (msg_alloc 0))))));;
   go_next_ack sendto (mret b) fuel)
    (area_put (EstablishArea (est_send_remebered_seq (k_est s)) b (u32 (get_seq syn + 1))) s).
Proof. reflexivity. Qed.

Lemma send_establish_eq a fuel c :
  @send_establish sk _ (go_signals sendto (mret a)) (go_waits sendto (mret a) fuel) c =
  (go_send sendto (set_seq a (set_syn (msg_alloc 0)));; go_next_syn_ack sendto (mret a) fuel)
    (area_put (EstablishArea a (est_recv_remebered_seq (k_est c))
                 (est_recv_remebered_ack_seq (k_est c))) c).
Proof. reflexivity. Qed.

(** *** What a handshake that returned has seen *)

Lemma recv_on_ack_inv rand ack s o s' :
  @recv_on_ack sk _ (go_signals sendto rand) ack s = (o, s') ->
  (o = Throw EDrop /\ s' = s) \/
  (o = Ret tt /\ get_seq ack = est_recv_remebered_ack_seq (k_est s) /\
   get_ack_seq ack = u32 (est_recv_remebered_seq (k_est s) + 1) /\
   k_state s' = InternalStateArea ESTABLISHED /\
   k_iw s' = InputWindowArea (get_ack_seq ack) 0 (iw_sz (k_iw s)) 0 /\ k_out s' = k_out s).
Proof.
  unfold recv_on_ack. rewrite bind_unfold. cbn [mem_get gets].
  change (area_get s) with (k_est s).
  destruct (_ && _) eqn:E; intros [= <- <-]; [right|left; done].
  apply andb_true_iff in E as [E1 E2]. apply Z.eqb_eq in E1, E2. done.
Qed.

Lemma send_on_syn_ack_inv rand m s o s' :
  @send_on_syn_ack sk _ (go_signals sendto rand) m s = (o, s') ->
  (o = Throw EDrop -> s' = s) /\
  (o = Ret tt -> get_ack_seq m = u32 (est_send_remebered_seq (k_est s) + 1) /\
   k_state s' = InternalStateArea ESTABLISHED /\
   k_cw s' = CumulativeArea (u32 (get_seq m + 1)) 0 0 (cw_sz (k_cw s)) /\
   exists m', k_out s' = k_out s ++ [m'] /\
     says m' = ACK (u32 (get_ack_seq m)) (u32 (get_seq m + 1))).
Proof.
  unfold send_on_syn_ack. rewrite bind_unfold. cbn [mem_get gets].
  change (area_get s) with (k_est s).
  destruct (get_ack_seq m =? _) eqn:E; [|intros [= <- <-]; done].
  apply Z.eqb_eq in E. rewrite bind_unfold. cbn [output_send_hs_ack go_signals].
  destruct (go_send sendto _ s) as [o1 s1] eqn:Es.
  destruct (go_send_frame _ _ _ _ Es) as [(m'&Hm'&->)|[-> Hno]].
  - destruct o1 as [[]|e|f]; intros [= <- <-]; split; try done.
    + intros _. split_and!; try done. exists m'. split; [done|].
      rewrite Hm'. unfold says, ACK. cbn. rewrite u32_idem. done.
    + intros [= ->]. destruct (go_send_no_drop _ _ _ Es).
  - destruct o1 as [[]|e|f]; [destruct (Hno tt eq_refl)|..]; intros [= <- <-]; done.
Qed.

Lemma recv_on_syn_no_drop b fuel syn s s' :
  @recv_on_syn sk _ (go_signals sendto (mret b)) (go_waits sendto (mret b) fuel) syn s
    <> (Throw EDrop, s').
Proof.
  rewrite recv_on_syn_eq, bind_unfold.
  destruct (go_send sendto _ _) as [[[]|e|f] s1] eqn:E; [apply next_matching_no_drop| |discriminate].
  intros [= -> _]. exact (go_send_no_drop _ _ _ E).
Qed.

Lemma recv_on_syn_inv b fuel syn s s' :
  @recv_on_syn sk _ (go_signals sendto (mret b)) (go_waits sendto (mret b) fuel) syn s
    = (Ret tt, s') ->
  exists ack, ack ∈ k_in s /\ ack_for (u32 (get_seq syn + 1)) (u32 (b + 1)) ack = true /\
    k_state s' = InternalStateArea ESTABLISHED /\
    k_iw s' = InputWindowArea (u32 (b + 1)) 0 (iw_sz (k_iw s)) 0.
Proof.
  intros H. rewrite recv_on_syn_eq in H.
  set (a1 := EstablishArea (est_send_remebered_seq (k_est s)) b (u32 (get_seq syn + 1))) in H.
  apply bind_ret_inv in H as ([]&s2&Hsend&Hn).
  apply go_send_frame in Hsend as [(m&_&->)|[_ Hno]]; [|destruct (Hno tt eq_refl)].
  apply (next_matching_inv (fun t => k_est t = a1 /\ k_iw t = k_iw s)) in Hn; [|done..|].
  2:{ intros m' t t' HI Hr. apply recv_on_ack_inv in Hr as [[_ ->]|[? _]]; [done|discriminate]. }
  destruct Hn as (ack&s0&Hack&Hp&[Hest Hiw]&_&Hr).
  apply recv_on_ack_inv in Hr as [[? _]|(_&Hsq&Hak&Hst&Hiw'&_)]; [discriminate|].
  rewrite Hest in Hsq, Hak. cbn in Hsq, Hak. exists ack. split; [exact Hack|].
  split; [unfold ack_for; rewrite Hp, Hsq, Hak, !Z.eqb_refl; done|].
  split; [exact Hst|]. rewrite Hiw', Hiw, Hak. done.
Qed.

Lemma send_establish_inv a fuel c c' :
  @send_establish sk _ (go_signals sendto (mret a)) (go_waits sendto (mret a) fuel) c
    = (Ret tt, c') ->
  exists m ack, m ∈ k_in c /\ syn_ack_for (u32 (a + 1)) m = true /\
    ack ∈ k_out c' /\ says ack = ACK (u32 (a + 1)) (u32 (get_seq m + 1)) /\
    k_state c' = InternalStateArea ESTABLISHED /\
    k_cw c' = CumulativeArea (u32 (get_seq m + 1)) 0 0 (cw_sz (k_cw c)).
Proof.
  intros H. rewrite send_establish_eq in H.
  set (a1 := EstablishArea a _ _) in H.
  apply bind_ret_inv in H as ([]&c2&Hsend&Hn).
  apply go_send_frame in Hsend as [(m1&_&->)|[_ Hno]]; [|destruct (Hno tt eq_refl)].
  apply (next_matching_inv (fun t => k_est t = a1 /\ k_cw t = k_cw c)) in Hn; [|done..|].
  2:{ intros m' t t' HI Hr. apply send_on_syn_ack_inv in Hr as [Hr _]. rewrite (Hr eq_refl). done. }
  destruct Hn as (m&c0&Hm&Hp&[Hest Hcw]&_&Hr).
  apply send_on_syn_ack_inv in Hr as [_ Hr].
  destruct (Hr eq_refl) as (Hak&Hst&Hcw'&m2&Hout&Hm2). rewrite Hest in Hak. cbn in Hak.
  exists m, m2. split; [exact Hm|].
  split; [unfold syn_ack_for; rewrite Hp, Hak, Z.eqb_refl; done|].
  split; [rewrite Hout; set_solver|].
  split; [rewrite Hm2, Hak, u32_idem; done|]. split; [exact Hst|]. rewrite Hcw', Hcw. done.
Qed.

Section quiet.
Hypothesis sendto_takes_all : forall a d, sendto a d = Z.of_nat (length d).

Lemma base_send_ok m s :
  m_data_len m = 0 -> m_data m = [] ->
  base_send sendto m s =
    (Ret (stamp (k_id s) (k_clock s) m), add_out (stamp (k_id s) (k_clock s) m) s).
Proof.
  intros Hl Hd. unfold base_send, socket_send, transfer_send_to. rewrite sendto_takes_all.
  assert (Z.of_nat (length (tcp_region (stamp (k_id s) (k_clock s) m))) =
          tcp_data_sz (stamp (k_id s) (k_clock s) m)) as ->.
  { rewrite tcp_region_sized by (split; cbn; rewrite Hl, ?Hd; cbn; lia).
    rewrite length_app, length_encode_TCPHDR. unfold tcp_data_sz. cbn [m_data_len m_data stamp set_chsum upd_hdr
      upd_tcph set_sender_timestamp set_recv_timestamp set_dest_addr upd_iph set_src_addr].
    rewrite Hl, Hd. done. }
  rewrite Z.eqb_refl. done.
Qed.

Lemma go_send_ok m s :
  m_data_len m = 0 -> m_data m = [] ->
  exists m', go_send sendto m s = (Ret tt, add_out m' s) /\ says m' = says m.
Proof.
  intros Hl Hd. exists (stamp (k_id s) (k_clock s) m). split; [|done].
  unfold go_send. rewrite (run_ret _ _ _ _ _ (base_send_ok m s Hl Hd)). done.
Qed.


(** ** Establishing *)

(** What a handshake has nothing to do with. *)
Definition untouched (s s' : sk) : Prop :=
  k_wc s' = k_wc s /\ k_sb s' = k_sb s /\ k_to s' = k_to s /\ k_fr s' = k_fr s /\
  k_ib s' = k_ib s /\ k_fut s' = k_fut s /\ k_id s' = k_id s /\ k_clock s' = k_clock s /\
  k_user s' = k_user s /\ k_cl s' = k_cl s /\ forall n, k_sems s' n = k_sems s n.

(** The client when it has answered with [m] and counts itself established. *)
Definition client_up (s : sk) (start : Z) (m : msg) : sk :=
  area_put (InternalStateArea ESTABLISHED)
    (area_put (CumulativeArea start 0 0 (cw_sz (k_cw s))) (add_out m s)).

Lemma go_next_ack_ok r junk ack rest fuel s :
  let x := est_recv_remebered_ack_seq (k_est s) in
  let y := u32 (est_recv_remebered_seq (k_est s) + 1) in
  k_in s = junk ++ ack :: rest -> (length junk < fuel)%nat ->
  Forall (fun j => ack_for x y j = false) junk -> ack_for x y ack = true ->
  exists s', go_next_ack sendto (mret r) fuel s = (Ret tt, s') /\
    k_state s' = InternalStateArea ESTABLISHED /\
    k_iw s' = InputWindowArea y 0 (iw_sz (k_iw s)) 0 /\ k_in s' = rest /\ k_out s' = k_out s /\
    k_cw s' = k_cw s /\ untouched s s'.
Proof.
  intros x y Hin Hf Hj Ha. eexists. split; [|split; [|split; [|split; [|split; [|split]]]]].
  - unfold go_next_ack. eapply next_matching_finds; [|..|exact Hf|exact Hin|].
    + intros j l Hjin Hp. rewrite Forall_forall in Hj. specialize (Hj j Hjin).
      unfold ack_for in Hj. apply andb_true_iff in Hp as [Hp1 Hp2].
      rewrite Hp1, Hp2 in Hj. cbn [andb] in Hj.
      unfold recv_on_ack. rewrite bind_unfold. cbn [mem_get gets].
      change (area_get (set_in l s)) with (k_est s). fold x y. rewrite Hj. done.
    + unfold ack_for in Ha. destruct (is_ack ack), (is_syn ack); done.
    + unfold recv_on_ack. rewrite bind_unfold. cbn [mem_get gets].
      change (area_get (set_in rest s)) with (k_est s). fold x y.
      assert ((get_seq ack =? x) && (get_ack_seq ack =? y) = true) as ->
        by (unfold ack_for in Ha; destruct (is_ack ack), (is_syn ack); done).
      assert (get_ack_seq ack = y) as ->
        by (unfold ack_for in Ha; rewrite !andb_true_iff in Ha; apply Z.eqb_eq, Ha).
      cbn [recv_established go_signals]. reflexivity.
  - done.
  - done.
  - done.
  - done.
  - done.
  - done.
Qed.

Lemma go_next_syn_ok b js syn js2 ack rs fuel s :
  let x := u32 (get_seq syn + 1) in
  let y := u32 (b + 1) in
  0 <= b < modulus32 ->
  k_in s = js ++ syn :: js2 ++ ack :: rs -> (length js < fuel)%nat -> (length js2 < fuel)%nat ->
  Forall (fun j => plain_syn j = false) js -> plain_syn syn = true ->
  Forall (fun j => ack_for x y j = false) js2 -> ack_for x y ack = true ->
  exists s' m, go_next_syn sendto (mret b) fuel s = (Ret tt, s') /\
    k_state s' = InternalStateArea ESTABLISHED /\
    k_iw s' = InputWindowArea y 0 (iw_sz (k_iw s)) 0 /\ k_in s' = rs /\
    k_out s' = k_out s ++ [m] /\ says m = SYN_ACK b x /\ k_cw s' = k_cw s /\ untouched s s'.
Proof.
  intros x y Hb Hin Hf Hf2 Hjs Hsyn Hj2 Ha.
  set (s1 := area_put (EstablishArea (est_send_remebered_seq (k_est s)) b x)
               (set_in (js2 ++ ack :: rs) s)).
  destruct (go_send_ok
    (set_window_sz INPUT_WINDOW_SZ (set_ack_seq x (set_seq b (set_ack (set_syn (msg_alloc 0))))))
    s1 eq_refl eq_refl) as (m&Hsend&Hm).
  destruct (go_next_ack_ok b js2 ack rs fuel (add_out m s1)) as (s'&Hn&Hst&Hiw&Hi&Ho&Hcw&Hu);
    [done|done|exact Hj2|exact Ha|].
  exists s', m. split.
  - unfold go_next_syn. eapply next_matching_finds; [|exact Hsyn|exact Hf|exact Hin|].
    + intros j l Hjin Hp. rewrite Forall_forall in Hjs. specialize (Hjs j Hjin).
      unfold plain_syn in Hjs. congruence.
    + rewrite recv_on_syn_eq. fold x.
      mstep Hsend. exact Hn.
  - split; [exact Hst|]. split; [exact Hiw|]. split; [exact Hi|]. split; [exact Ho|].
    split; [|split; [exact Hcw|exact Hu]]. rewrite Hm.
    unfold says, SYN_ACK. cbn. unfold x. rewrite u32_idem, u32_small by done. done.
Qed.

Lemma send_establish_ok a jc synack rc fuel c :
  let x := u32 (a + 1) in
  let y := u32 (get_seq synack + 1) in
  0 <= a < modulus32 ->
  k_in c = jc ++ synack :: rc -> (length jc < fuel)%nat ->
  Forall (fun j => syn_ack_for x j = false) jc -> syn_ack_for x synack = true ->
  exists c' m1 m2,
    @send_establish sk _ (go_signals sendto (mret a)) (go_waits sendto (mret a) fuel) c
      = (Ret tt, c') /\
    k_state c' = InternalStateArea ESTABLISHED /\
    k_cw c' = CumulativeArea y 0 0 (cw_sz (k_cw c)) /\ k_in c' = rc /\
    k_out c' = k_out c ++ [m1; m2] /\ says m1 = SYN a /\ says m2 = ACK x y /\
    k_iw c' = k_iw c /\ untouched c c'.
Proof.
  intros x y Ha Hin Hf Hj Hs.
  set (c1 := area_put (EstablishArea a (est_recv_remebered_seq (k_est c))
               (est_recv_remebered_ack_seq (k_est c))) c).
  destruct (go_send_ok (set_seq a (set_syn (msg_alloc 0)))
    c1 eq_refl eq_refl) as (m1&Hsend1&Hm1).
  set (c2 := set_in rc (add_out m1 c1)).
  destruct (go_send_ok
    (set_window_sz OUTPUT_WINDOW_SZ (set_ack_seq y (set_seq x (set_ack (msg_alloc 0)))))
    c2 eq_refl eq_refl) as (m2&Hsend2&Hm2).
  assert (get_ack_seq synack = x /\ is_syn synack && is_ack synack = true) as [Hx Hp].
  { unfold syn_ack_for in Hs. apply andb_true_iff in Hs as [? ?]. split; [apply Z.eqb_eq; done|done]. }
  set (c' := client_up c2 y m2).
  exists c', m1, m2. split.
  - rewrite send_establish_eq. fold c1.
    mstep Hsend1. unfold go_next_syn_ack.
    eapply next_matching_finds; [|exact Hp|exact Hf|exact Hin|].
    + intros j l Hjin Hpj. rewrite Forall_forall in Hj. specialize (Hj j Hjin).
      unfold syn_ack_for in Hj. rewrite Hpj in Hj. cbn [andb] in Hj.
      unfold send_on_syn_ack. rewrite bind_unfold. cbn [mem_get gets].
      change (get_ack_seq j =? u32 (est_send_remebered_seq _ + 1)) with (get_ack_seq j =? x).
      rewrite Hj. done.
    + unfold send_on_syn_ack. rewrite bind_unfold. cbn [mem_get gets].
      change (get_ack_seq synack =? u32 (est_send_remebered_seq _ + 1)) with (get_ack_seq synack =? x).
      rewrite Hx, Z.eqb_refl. cbn [output_send_hs_ack go_signals]. fold y c2.
      mstep Hsend2. reflexivity.
  - split; [done|]. split; [done|]. split; [done|].
    split; [cbn; rewrite <- app_assoc; done|].
    split; [rewrite Hm1|split; [rewrite Hm2|split; [reflexivity|repeat split]]];
      unfold says, SYN, ACK, x, y; cbn; rewrite ?u32_idem, ?u32_small by done; done.
Qed.

(** ** Closing *)

Lemma send_times_ok n m s :
  m_data_len m = 0 -> m_data m = [] ->
  exists ms s', send_times sendto n m s = (Ret tt, s') /\ length ms = n /\
    Forall (fun m' => says m' = says m) ms /\ k_out s' = k_out s ++ ms /\
    k_in s' = k_in s /\ k_cl s' = k_cl s /\ k_sems s' = k_sems s.
Proof.
  revert m s. induction n as [|n IH]; intros m s Hl Hd; cbn [send_times].
  - exists [], s. rewrite app_nil_r. done.
  - mstep (base_send_ok m s Hl Hd). set (m1 := stamp (k_id s) (k_clock s) m).
    destruct (IH m1 (add_out m1 s)) as (ms&s'&Hr&Hn&Hs&Ho&Hi&Hc&Hse); [done..|].
    exists (m1 :: ms), s'. split; [exact Hr|]. split; [simpl; congruence|].
    split; [constructor; [done|exact Hs]|]. rewrite Ho. cbn. rewrite <- app_assoc. done.
Qed.

Lemma send_close_ok r jc finack rc fuel c :
  0 <= r < modulus32 -> 0 <= get_seq finack < modulus32 ->
  k_in c = jc ++ finack :: rc -> (length jc < fuel)%nat ->
  Forall (fun j => fin_ack_for r j = false) jc -> fin_ack_for r finack = true ->
  exists c' fins m,
    @send_close sk _ (keeper_signals sendto (mret r)) (keeper_waits sendto (mret r) fuel) c
      = (Ret tt, c') /\
    k_state c' = InternalStateArea CLOSED /\ k_in c' = rc /\
    k_out c' = k_out c ++ fins ++ [m] /\ length fins = 10%nat /\
    Forall (fun m => says m = FIN r) fins /\ says m = ACK (get_seq finack) 0.
Proof.
  intros Hr Hq Hin Hf Hj Ha.
  set (c1 := area_put (CloseArea r (cl_recv_remebered_seq (k_cl c))) c).
  destruct (send_times_ok 10 (set_seq r (set_fin (msg_alloc 0))) c1)
    as (fins&c2&Hs&Hn&Hall&Ho&Hi&Hcl&_); [done..|].
  destruct (go_send_ok (set_seq (get_seq finack) (set_ack (msg_alloc 0))) (set_in rc c2))
    as (m&Hm&Hsm); [done..|].
  exists (area_put (InternalStateArea CLOSED) (add_out m (set_in rc c2))), fins, m.
  split; [|split; [done|]; split; [done|]].
  - change (_ = (Ret tt, ?x)) with
      ((send_times sendto 10 (set_seq r (set_fin (msg_alloc 0)));;
        next_matching fuel (fun m => is_fin m && is_ack m)
          (@send_on_fin_ack sk _ (keeper_signals sendto (mret r)))) c1 = (Ret tt, x)).
    mstep Hs. change (k_in c1) with (k_in c) in Hi.
    unfold fin_ack_for in Ha. apply andb_true_iff in Ha as [Hp Ha].
    eapply next_matching_finds; [|exact Hp|exact Hf|rewrite Hi; exact Hin|].
    + intros j l Hjin Hpj. rewrite Forall_forall in Hj. specialize (Hj j Hjin).
      unfold fin_ack_for in Hj. rewrite Hpj in Hj. cbn [andb] in Hj.
      unfold send_on_fin_ack. rewrite bind_unfold. cbn [mem_get gets].
      change (area_get (set_in l c2)) with (k_cl c2). rewrite Hcl.
      cbn [c1 k_cl area_put sk_area_cl cl_send_remebered_seq]. rewrite Hj. done.
    + unfold send_on_fin_ack. rewrite bind_unfold. cbn [mem_get gets].
      change (area_get (set_in rc c2)) with (k_cl c2). rewrite Hcl.
      cbn [c1 k_cl area_put sk_area_cl cl_send_remebered_seq]. rewrite Ha.
      cbn [close_send_ack keeper_signals]. mstep Hm. done.
  - split; [cbn; rewrite Ho, <- app_assoc; done|]. split; [done|].
    split; [|rewrite Hsm; unfold says, ACK; cbn; rewrite u32_small by done; done].
    eapply Forall_impl; [exact Hall|]. intros x ->. unfold says, FIN. cbn.
    rewrite u32_small by done. done.
Qed.

Lemma recv_on_fin_ok r fin js ack rs fuel s :
  0 <= r < modulus32 -> 0 <= get_seq fin < modulus32 ->
  k_in s = js ++ ack :: rs -> (length js < fuel)%nat ->
  Forall (fun j => close_ack_for r j = false) js -> close_ack_for r ack = true ->
  exists s' m,
    @recv_on_fin sk _ (keeper_signals sendto (mret r)) (keeper_waits sendto (mret r) fuel) fin s
      = (Ret tt, s') /\
    k_state s' = InternalStateArea CLOSED /\ k_in s' = rs /\ k_out s' = k_out s ++ [m] /\
    says m = FIN_ACK r (get_seq fin).
Proof.
  intros Hr Hq Hin Hf Hj Ha.
  set (s1 := area_put (CloseArea (cl_send_remebered_seq (k_cl s)) r) s).
  destruct (go_send_ok (set_ack_seq (get_seq fin) (set_seq r (set_ack (set_fin (msg_alloc 0))))) s1)
    as (m&Hm&Hsm); [done..|].
  exists (area_put (InternalStateArea CLOSED) (set_in rs (add_out m s1))), m.
  split; [|split; [done|]; split; [done|]; split; [done|]].
  - change (_ = (Ret tt, ?x)) with
      ((go_send sendto (set_ack_seq (get_seq fin) (set_seq r (set_ack (set_fin (msg_alloc 0)))));;
        next_matching fuel (fun m => negb (is_rst m) && negb (is_fin m) && is_ack m)
          (@close_recv_on_ack sk _ (keeper_signals sendto (mret r)))) s1 = (Ret tt, x)).
    mstep Hm. unfold close_ack_for in Ha. apply andb_true_iff in Ha as [Hp Ha].
    eapply next_matching_finds; [|exact Hp|exact Hf|exact Hin|].
    + intros j l Hjin Hpj. rewrite Forall_forall in Hj. specialize (Hj j Hjin).
      unfold close_ack_for in Hj. rewrite Hpj in Hj. cbn [andb] in Hj.
      unfold close_recv_on_ack. rewrite bind_unfold. cbn [mem_get gets].
      change (get_seq j =? cl_recv_remebered_seq _) with (get_seq j =? r). rewrite Hj. done.
    + unfold close_recv_on_ack. rewrite bind_unfold. cbn [mem_get gets].
      change (get_seq ack =? cl_recv_remebered_seq _) with (get_seq ack =? r). rewrite Ha. done.
  - rewrite Hsm. unfold says, FIN_ACK. cbn. rewrite !u32_small by done. done.
Qed.

(** ** Under the locks *)

(** Both locks taken. *)
Definition locked (n1 n2 : sem_name) (s : sk) : sk :=
  set_sem n2 (k_sems s n2 - 1) (set_sem n1 (k_sems s n1 - 1) s).

(** All but the semaphores. *)
Definition same_but_sems (s s' : sk) : Prop := exists f, s' =
  Sk (k_state s) (k_wc s) (k_cw s) (k_sb s) (k_to s) (k_fr s) (k_iw s) (k_ib s) (k_fut s)
    f (k_id s) (k_clock s) (k_out s) (k_user s) (k_in s) (k_est s) (k_cl s).

Lemma run_locked n1 n2 want f s s' :
  n1 <> n2 -> 0 < k_sems s n1 -> 0 < k_sems s n2 -> k_state s = InternalStateArea want ->
  f (locked n1 n2 s) = (Ret tt, s') ->
  exists s'',
    (sem_wait alone n1;; sem_wait alone n2;;
     st ← get_state; (if decide (st = want) then f else mret tt);;
     sem_post n2;; sem_post n1) s = (Ret tt, s'') /\ same_but_sems s' s'' /\
    (untouched (locked n1 n2 s) s' -> untouched s s'').
Proof.
  intros Hne H1 H2 Hst Hf. eexists. split.
  - mstep (sem_wait_alone n1 s H1).
    assert (0 < k_sems (set_sem n1 (k_sems s n1 - 1) s) n2) as H2'
      by (rewrite sems_other by done; done).
    mstep (sem_wait_alone n2 _ H2'). rewrite sems_other by done. fold (locked n1 n2 s).
    rewrite bind_unfold. unfold get_state at 1. rewrite bind_unfold. cbn [mem_get gets mret M_ret].
    change (area_get (locked n1 n2 s)) with (k_state s). rewrite Hst. cbn [is_state].
    rewrite decide_True by done. mstep Hf. reflexivity.
  - split; [by eexists|]. intros (?&?&?&?&?&?&?&?&?&?&Hsems).
    repeat (split; [done|]). intros n. cbn. unfold locked in Hsems. cbn in Hsems.
    destruct (decide (n = n1)) as [->|]; [|destruct (decide (n = n2)) as [->|]];
      rewrite ?Hsems; repeat (destruct (decide _)); try done; lia.
Qed.

End quiet.
End ops.

(** ** Properties *)

Section properties.
Context (sendto : sockaddr_in -> bytes -> Z).
Hypothesis sendto_takes_all : forall a d, sendto a d = Z.of_nat (length d).

(** What the queues of a client and of a server hold: the client's request
    SYN(a), the server's answer SYN-ACK(b, a+1) and the client's ACK(a+1, b+1),
    after messages that are no answers to them; and what follows. *)
Inductive exchange (a b : Z) (fuel : nat) : list msg -> list msg -> list msg -> list msg -> Prop :=
| an_exchange jc synack rc js syn js2 ack rs q0 :
    0 <= a < modulus32 -> 0 <= b < modulus32 ->
    Forall (fun j => syn_ack_for (u32 (a + 1)) j = false) jc ->
    Forall (fun j => plain_syn j = false) js ->
    Forall (fun j => ack_for (u32 (a + 1)) (u32 (b + 1)) j = false) js2 ->
    says syn = (true, false, false, false, a, q0) ->
    says synack = SYN_ACK b (u32 (a + 1)) -> says ack = ACK (u32 (a + 1)) (u32 (b + 1)) ->
    (length jc < fuel)%nat -> (length js < fuel)%nat -> (length js2 < fuel)%nat ->
    exchange a b fuel (jc ++ synack :: rc) (js ++ syn :: js2 ++ ack :: rs) rc rs.

(** Closed, and the locks of both handshakes are free. *)
Definition closed_and_free (s : sk) : Prop :=
  k_state s = InternalStateArea CLOSED /\ 0 < k_sems s SEND_LOCK /\ 0 < k_sems s SEND_WORKER_LOCK /\
  0 < k_sems s RECV_LOCK /\ 0 < k_sems s RECV_WORKER_LOCK.

Lemma both_established c s a b rc rs fuel :
  closed_and_free c -> closed_and_free s -> exchange a b fuel (k_in c) (k_in s) rc rs ->
  exists c' s' m1 m2 m3,
    handshake sendto (mret a) alone fuel false c = (Ret tt, c') /\
    handshake sendto (mret b) alone fuel true s = (Ret tt, s') /\
    (k_out c' = k_out c ++ [m1; m3] /\ k_out s' = k_out s ++ [m2] /\
     says m1 = SYN a /\ says m2 = SYN_ACK b (u32 (a + 1)) /\
     says m3 = ACK (u32 (a + 1)) (u32 (b + 1))) /\
    (k_state c' = InternalStateArea ESTABLISHED /\ k_state s' = InternalStateArea ESTABLISHED) /\
    (k_cw c' = CumulativeArea (u32 (b + 1)) 0 0 (cw_sz (k_cw c)) /\
     k_iw s' = InputWindowArea (u32 (b + 1)) 0 (iw_sz (k_iw s)) 0) /\
    (k_in c' = rc /\ k_in s' = rs) /\
    (k_iw c' = k_iw c /\ untouched c c') /\ k_cw s' = k_cw s /\ untouched s s'.
Proof.
  intros (Hc&Hl1&Hl2&_&_) (Hs&_&_&Hl3&Hl4).
  remember (k_in c) as inc eqn:Hic. remember (k_in s) as ins eqn:His. intros He.
  symmetry in Hic, His. revert Hic His.
  destruct He as [jc synack rc0 js syn js2 ack rs0 q0 Ha Hb Hjc Hjs Hj2 Hsyn Hsa Hack Hf1 Hf2 Hf3].
  intros Hic His.
  assert (get_seq syn = a /\ plain_syn syn = true) as [Ea Hp]
    by (unfold says in Hsyn; injection Hsyn; unfold plain_syn; intros _ -> -> _ _ ->; done).
  assert (get_seq synack = b /\ syn_ack_for (u32 (a + 1)) synack = true) as [Eb Hsa'].
  { unfold says, SYN_ACK in Hsa. injection Hsa. unfold syn_ack_for. intros -> -> -> _ _ ->.
    rewrite Z.eqb_refl. done. }
  assert (ack_for (u32 (a + 1)) (u32 (b + 1)) ack = true) as Ha'.
  { unfold says, ACK in Hack. injection Hack. unfold ack_for. intros -> -> -> _ _ ->.
    rewrite !Z.eqb_refl. done. }
  destruct (send_establish_ok sendto sendto_takes_all a jc synack rc0 fuel
    (locked SEND_LOCK SEND_WORKER_LOCK c))
    as (c1&m1&m3&Hrc&Hcst&Hcw&Hci&Hco&Hm1&Hm3&Hciw&Hcu); [done..|].
  destruct (go_next_syn_ok sendto sendto_takes_all b js syn js2 ack rs0 fuel
    (locked RECV_LOCK RECV_WORKER_LOCK s)) as (s1&m2&Hrs&Hsst&Hiw&Hsi&Hso&Hm2&Hscw&Hsu);
    rewrite ?Ea; try done.
  destruct (run_locked SEND_LOCK SEND_WORKER_LOCK CLOSED _ c c1 ltac:(done) Hl1 Hl2 Hc Hrc)
    as (c'&Hc'&(fc&->)&Huc).
  destruct (run_locked RECV_LOCK RECV_WORKER_LOCK CLOSED _ s s1 ltac:(done) Hl3 Hl4 Hs Hrs)
    as (s'&Hs'&(fs&->)&Hus).
  rewrite Ea in Hm2. rewrite Eb in Hcw, Hm3.
  do 2 eexists. exists m1, m2, m3. split.
  { unfold handshake. cbn [negb when]. rewrite (run_ret _ _ _ _ _ Hc'). reflexivity. }
  split.
  { unfold handshake. cbn [negb when]. rewrite bind_unfold. cbn [mret M_ret]. exact Hs'. }
  split; [done|]. split; [done|]. split; [done|]. split; [done|].
  split; [split; [exact Hciw|exact (Huc Hcu)]|]. split; [exact Hscw|exact (Hus Hsu)].
Qed.

(** C9: the handshake establishes both ends and they agree.  The queues of the
    client and of the server may hold anything that is not an answer to this
    exchange, before and between its messages: such messages are discarded.
    If the messages of the exchange are among them ([exchange]), both calls of
    [handshake] return, each side has sent exactly the messages the other
    waited for, both are [ESTABLISHED], and the number of the first byte the
    client will send, b+1 modulo 2^32, is the one the server expects, at the
    start of an empty window. *)
Theorem handshake_establishes_both c s a b rc rs fuel :
  closed_and_free c -> closed_and_free s -> exchange a b fuel (k_in c) (k_in s) rc rs ->
  exists c' s' m1 m2 m3,
    handshake sendto (mret a) alone fuel false c = (Ret tt, c') /\
    handshake sendto (mret b) alone fuel true s = (Ret tt, s') /\
    k_out c' = k_out c ++ [m1; m3] /\ k_out s' = k_out s ++ [m2] /\
    says m1 = SYN a /\ says m2 = SYN_ACK b (u32 (a + 1)) /\
    says m3 = ACK (u32 (a + 1)) (u32 (b + 1)) /\
    k_state c' = InternalStateArea ESTABLISHED /\ k_state s' = InternalStateArea ESTABLISHED /\
    k_cw c' = CumulativeArea (u32 (b + 1)) 0 0 (cw_sz (k_cw c)) /\
    k_iw s' = InputWindowArea (u32 (b + 1)) 0 (iw_sz (k_iw s)) 0 /\
    k_in c' = rc /\ k_in s' = rs.
Proof.
  intros Hc Hs He. destruct (both_established _ _ _ _ _ _ _ Hc Hs He)
    as (c'&s'&m1&m2&m3&H1&H2&(?&?&?&?&?)&[]&[]&[]&_).
  exists c', s', m1, m2, m3. split_and!; done.
Qed.

End properties.

(** C10: nothing else establishes a connection.  Whatever the queues hold and
    whatever the kernel answers, a server's handshake that returns has taken a
    SYN and, after it, an ACK whose two numbers follow the SYN's number and the
    server's own random number; the stream it then expects starts after its own
    number.  A client's handshake that returns has taken a SYN-ACK that
    acknowledges the client's own random number; the client's stream starts
    after the server's number, and the client has sent the ACK that says so. *)
Theorem establishes_only_after_exchange (sendto : sockaddr_in -> bytes -> Z) fuel :
  (forall b s s', go_next_syn sendto (mret b) fuel s = (Ret tt, s') ->
     exists syn ack, syn ∈ k_in s /\ plain_syn syn = true /\ ack ∈ k_in s /\
       ack_for (u32 (get_seq syn + 1)) (u32 (b + 1)) ack = true /\
       k_state s' = InternalStateArea ESTABLISHED /\
       iw_start (k_iw s') = u32 (b + 1) /\ iw_off (k_iw s') = 0) /\
  (forall a c c',
     @send_establish sk _ (go_signals sendto (mret a)) (go_waits sendto (mret a) fuel) c
       = (Ret tt, c') ->
     exists synack ack, synack ∈ k_in c /\ syn_ack_for (u32 (a + 1)) synack = true /\
       ack ∈ k_out c' /\ says ack = ACK (u32 (a + 1)) (u32 (get_seq synack + 1)) /\
       k_state c' = InternalStateArea ESTABLISHED /\
       cw_start (k_cw c') = u32 (get_seq synack + 1) /\ cw_off (k_cw c') = 0).
Proof.
  split.
  - intros b s s' Hrun. apply (next_matching_inv (fun _ => True)) in Hrun; [|done..|].
    2:{ intros m t t' _ H. exfalso. revert H. apply recv_on_syn_no_drop. }
    destruct Hrun as (syn&s0&Hsyn&Hp&_&Hsub&Hrun).
    destruct (recv_on_syn_inv _ _ _ _ _ _ Hrun) as (ack&Hack&Ha&Hst&Hiw).
    exists syn, ack. rewrite Hiw. cbn [iw_start iw_off]. split_and!; try done; set_solver.
  - intros a c c' Hrun. apply (send_establish_inv sendto) in Hrun.
    destruct Hrun as (m&ack&Hm&Hp&Hack&Hsays&Hst&Hcw).
    exists m, ack. rewrite Hcw. done.
Qed.

Section closing.
Context (sendto : sockaddr_in -> bytes -> Z).
Hypothesis sendto_takes_all : forall a d, sendto a d = Z.of_nat (length d).

(** C22: an orderly close closes both ends.  [disconnect] of the sending side
    sends its FIN ten times, waits for the FIN-ACK that carries its number and
    acknowledges it; the other side's receiving worker, handed the FIN, answers
    with a FIN-ACK and waits for the acknowledgement of its own number.  What
    else is in the queues is discarded.  Both calls return, each side has sent
    what the other waited for, and both sockets are [CLOSED]. *)
Theorem close_closes_both_ends c s r r' jc finack rc fin js ack rs q0 a0 fuel :
  k_state c = InternalStateArea ESTABLISHED -> k_state s = InternalStateArea ESTABLISHED ->
  0 < k_sems c SEND_LOCK -> 0 < k_sems c SEND_WORKER_LOCK ->
  0 < k_sems s RECV_LOCK -> 0 < k_sems s RECV_WORKER_LOCK ->
  0 <= r < modulus32 -> 0 <= r' < modulus32 ->
  k_in c = jc ++ finack :: rc -> k_in s = js ++ ack :: rs ->
  Forall (fun j => fin_ack_for r j = false) jc -> Forall (fun j => close_ack_for r' j = false) js ->
  says fin = (false, true, false, false, r, q0) ->
  says finack = FIN_ACK r' r -> says ack = ACK r' a0 ->
  (length jc < fuel)%nat -> (length js < fuel)%nat ->
  exists c' s' fins m2 m3,
    disconnect sendto (mret r) alone fuel false None c = (Ret tt, c') /\
    recv_worker_dispatch sendto (mret r') alone fuel fin s = (Ret tt, s') /\
    k_out c' = k_out c ++ fins ++ [m3] /\ k_out s' = k_out s ++ [m2] /\
    length fins = 10%nat /\ Forall (fun m => says m = FIN r) fins /\
    says m2 = FIN_ACK r' r /\ says m3 = ACK r' 0 /\
    k_state c' = InternalStateArea CLOSED /\ k_state s' = InternalStateArea CLOSED /\
    k_in c' = rc /\ k_in s' = rs.
Proof.
  intros Hc Hs Hl1 Hl2 Hl3 Hl4 Hr Hr' Hic His Hjc Hjs Hfin Hfa Hack Hf1 Hf2.
  assert (is_usual fin = false /\ is_fin fin = true /\ is_ack fin = false /\
          is_rst fin = false /\ get_seq fin = r) as (Eu&Ef&Ea&Er&Eq)
    by (unfold says in Hfin; injection Hfin; unfold is_usual; intros _ -> -> -> -> ->; done).
  assert (get_seq finack = r' /\ fin_ack_for r finack = true) as [Eq' Hfa'].
  { unfold says, FIN_ACK in Hfa. injection Hfa. unfold fin_ack_for. intros -> -> -> _ -> _.
    rewrite Z.eqb_refl. done. }
  assert (close_ack_for r' ack = true) as Ha'.
  { unfold says, ACK in Hack. injection Hack. unfold close_ack_for. intros _ -> -> -> -> _.
    rewrite Z.eqb_refl. done. }
  destruct (send_close_ok sendto sendto_takes_all r jc finack rc fuel
    (locked SEND_LOCK SEND_WORKER_LOCK c))
    as (c1&fins&m3&Hrc&Hcst&Hci&Hco&Hn&Hall&Hm3); [done|congruence|done..|].
  destruct (recv_on_fin_ok sendto sendto_takes_all r' fin js ack rs fuel
    (locked RECV_LOCK RECV_WORKER_LOCK s)) as (s1&m2&Hrs&Hsst&Hsi&Hso&Hm2);
    [done|congruence|done..|].
  destruct (run_locked SEND_LOCK SEND_WORKER_LOCK ESTABLISHED _ c c1 ltac:(done) Hl1 Hl2 Hc Hrc)
    as (c'&Hc'&(fc&->)&_).
  destruct (run_locked RECV_LOCK RECV_WORKER_LOCK ESTABLISHED _ s s1 ltac:(done) Hl3 Hl4 Hs Hrs)
    as (s'&Hs'&(fs&->)&_).
  rewrite Eq in Hm2. rewrite Eq' in Hm3.
  do 2 eexists. exists fins, m2, m3. split; [exact Hc'|]. split.
  { unfold recv_worker_dispatch. rewrite Eu, Ef. cbn [orb]. unfold disconnect.
    rewrite Ef, Ea, Er. cbn [negb andb when]. unfold under_recv_locks.
    rewrite (run_ret _ _ _ _ _ Hs'). reflexivity. }
  cbn. split_and!; done.
Qed.

End closing.

(** ** A handshake with noise in the queues *)

Definition closed_client : sk :=
  set_in [set_syn (msg_alloc 0);
          set_ack_seq 78 (set_seq 900 (set_ack (set_syn (msg_alloc 0))));
          set_ack_seq 71 (set_seq 900 (set_ack (set_syn (msg_alloc 0))))]
    (sk_init (Ident (Addr 16777343 53764) (Addr 16777343 20480)) 1444).

Definition closed_server : sk :=
  set_in [set_ack (msg_alloc 0); set_seq 70 (set_syn (msg_alloc 0));
          set_ack_seq 5 (set_seq 71 (set_ack (msg_alloc 0)));
          set_ack_seq 901 (set_seq 71 (set_ack (msg_alloc 0)))]
    (sk_init (Ident (Addr 16777343 20480) (Addr 16777343 53764)) 1444).

Lemma the_exchange : exchange 70 900 4 (k_in closed_client) (k_in closed_server) [] [].
Proof.
  apply (an_exchange 70 900 4
    [set_syn (msg_alloc 0); set_ack_seq 78 (set_seq 900 (set_ack (set_syn (msg_alloc 0))))]
    (set_ack_seq 71 (set_seq 900 (set_ack (set_syn (msg_alloc 0))))) []
    [set_ack (msg_alloc 0)] (set_seq 70 (set_syn (msg_alloc 0)))
    [set_ack_seq 5 (set_seq 71 (set_ack (msg_alloc 0)))]
    (set_ack_seq 901 (set_seq 71 (set_ack (msg_alloc 0)))) [] 0);
    vm_compute; repeat constructor; done.
Qed.

Lemma handshake_establishes_both_witness :
  exists c' s',
    handshake kernel_takes_all (mret 70) alone 4 false closed_client = (Ret tt, c') /\
    handshake kernel_takes_all (mret 900) alone 4 true closed_server = (Ret tt, s') /\
    k_cw c' = CumulativeArea 901 0 0 1000 /\ k_iw s' = InputWindowArea 901 0 1000 0.
Proof.
  destruct (handshake_establishes_both kernel_takes_all (fun _ _ => eq_refl)
    closed_client closed_server 70 900 [] [] 4)
    as (c'&s'&m1&m2&m3&Hc&Hs&_&_&_&_&_&_&_&Hcw&Hiw&_);
    [repeat split..|exact the_exchange|].
  exists c', s'. split; [exact Hc|]. split; [exact Hs|]. split; [exact Hcw|exact Hiw].
Defined.

Lemma establishes_only_after_exchange_witness :
  exists synack, synack ∈ k_in closed_client /\ syn_ack_for 71 synack = true.
Proof.
  destruct (@send_establish sk _ (go_signals kernel_takes_all (mret 70))
    (go_waits kernel_takes_all (mret 70) 4) closed_client) as [[[]|e|f] c'] eqn:E;
    [|vm_compute in E; discriminate..].
  destruct (proj2 (establishes_only_after_exchange kernel_takes_all 4) 70 closed_client c' E)
    as (m&_&Hm&Hp&_).
  exists m. split; [exact Hm|exact Hp].
Defined.

Definition up (s : sk) (l : list msg) : sk :=
  set_in l (area_put (InternalStateArea ESTABLISHED) s).

Lemma close_closes_both_ends_witness :
  exists c' s',
    disconnect kernel_takes_all (mret 7) alone 2 false None
      (up closed_client [msg_alloc 3; set_ack_seq 7 (set_seq 9 (set_ack (set_fin (msg_alloc 0))))])
      = (Ret tt, c') /\
    recv_worker_dispatch kernel_takes_all (mret 9) alone 2 (set_seq 7 (set_fin (msg_alloc 0)))
      (up closed_server [set_seq 9 (set_ack (msg_alloc 0))]) = (Ret tt, s') /\
    k_state c' = InternalStateArea CLOSED /\ k_state s' = InternalStateArea CLOSED.
Proof.
  destruct (close_closes_both_ends kernel_takes_all (fun _ _ => eq_refl)
    (up closed_client [msg_alloc 3; set_ack_seq 7 (set_seq 9 (set_ack (set_fin (msg_alloc 0))))])
    (up closed_server [set_seq 9 (set_ack (msg_alloc 0))]) 7 9
    [msg_alloc 3] (set_ack_seq 7 (set_seq 9 (set_ack (set_fin (msg_alloc 0))))) []
    (set_seq 7 (set_fin (msg_alloc 0))) [] (set_seq 9 (set_ack (msg_alloc 0))) [] 0 0 2)
    as (c'&s'&fins&m2&m3&Hc&Hs&_&_&_&_&_&_&H1&H2&_);
    [vm_compute; repeat constructor; done..|].
  exists c', s'. split; [exact Hc|]. split; [exact Hs|]. split; [exact H1|exact H2].
Defined.
