(* ===== verification/Channel.v ===== *)
(** * Channel: one direction of a connection

    The sender of one socket and the receiver of the other, the messages on
    their way between them, and what a transmission, a timeout and a repeated
    acknowledgement do to the sender.  [Net] has the steps of both sides. *)
From S2P Require Import Prelude Window Message Transfer ProtoMem Congestion FastRetransmit.
From S2P Require Import SendBuffer Inplace Slots SlotOps Cumulative CumulativeOps Input InputOps.
From S2P Require Import Socket SenderModel ReceiverModel.

(** ** Lists of messages *)

Definition flat (ms : sent) : bytes := concat (map snd ms).

Definition nonempty_msgs (ms : sent) : Prop :=
  Forall (fun m : Z * bytes => (0 < length (snd m))%nat) ms.

Lemma flat_app x y : flat (x ++ y) = flat x ++ flat y.
Proof. unfold flat. rewrite map_app, concat_app. done. Qed.

Lemma length_flat ms : Z.of_nat (length (flat ms)) = total ms.
Proof.
  induction ms as [|[q d] ms IH]; [done|].
  change (flat ((q, d) :: ms)) with (d ++ flat ms). rewrite length_app. cbn [total]. lia.
Qed.

Lemma total_pos x : nonempty_msgs x -> x <> [] -> 0 < total x.
Proof.
  intros Hn Hx. destruct x as [|[q d] x]; [done|]. inversion Hn; subst. simpl in *.
  pose proof (total_nonneg x). lia.
Qed.

(** Two ways to cut a list of messages. *)
Lemma split_le x y x' y' :
  nonempty_msgs (x ++ y) -> x ++ y = x' ++ y' -> total x <= total x' ->
  exists z, x' = x ++ z /\ y = z ++ y'.
Proof.
  intros Hn He Hle. destruct (app_eq_app _ _ _ _ He) as (z&[[-> ->]|[-> ->]]); [|eauto].
  rewrite total_app in Hle. rewrite <- app_assoc in Hn.
  apply Forall_app in Hn as [_ Hn]. apply Forall_app in Hn as [Hn _].
  destruct z as [|m z]; [exists []; rewrite !app_nil_r; done|].
  pose proof (total_pos (m :: z) Hn ltac:(done)). lia.
Qed.

Lemma split_eq x y x' y' :
  nonempty_msgs (x ++ y) -> x ++ y = x' ++ y' -> total x = total x' -> x = x' /\ y = y'.
Proof.
  intros Hn He Ht. destruct (split_le x y x' y' Hn He) as (z&->&->); [lia|].
  destruct z as [|m z]; [rewrite app_nil_r; done|].
  apply Forall_app in Hn as [_ Hn]. apply Forall_app in Hn as [Hn _].
  pose proof (total_pos (m :: z) Hn ltac:(done)). rewrite total_app in Ht. lia.
Qed.

(** ** One direction *)

(** [c_sent]: the pieces of data the sender has taken, in order. *)
Record channel : Type := Channel {
  c_snd : sk;
  c_rcv : sk;
  c_sent : list bytes;
}.

(** What reaches the other side when [m0] has been sent: the header and the
    data, by [Transfer.stamped_arrives]. *)
Definition arrives (m0 m : msg) : Prop :=
  m_tcph m = m_tcph m0 /\ m_data_len m = m_data_len m0 /\ msg_data m = msg_data m0.

(** The acknowledgement that makes a sender with nothing outstanding retry
    ([SenderModel.duplicate_acks_on_empty_buffer]). *)
Definition fourth_duplicate (m : msg) (s : sk) : bool :=
  sent_buf_empty (win_of (k_cw s)) && (fr_last (k_fr s) =? get_seq m) && (3 <=? fr_cnt (k_fr s)).

Definition set_clock (t : Z) (s : sk) : sk :=
  Sk (k_state s) (k_wc s) (k_cw s) (k_sb s) (k_to s) (k_fr s) (k_iw s) (k_ib s) (k_fut s)
    (k_sems s) (k_id s) t (k_out s) (k_user s) (k_in s) (k_est s) (k_cl s).

Section channel.
Context (sendto : sockaddr_in -> bytes -> Z) {client : Client}.
Hypothesis sendto_takes_all : forall a d, sendto a d = Z.of_nat (length d).

#[local] Instance chan_lock : InputLock sk := sk_input_lock (reader sendto).
#[local] Instance chan_input : InputController sk := sk_input sendto (reader sendto).
#[local] Instance chan_laws : ReceiverLaws sk := sk_receiver_laws sendto sendto_takes_all.
#[local] Instance chan_wait : SendWait sk := sk_send_wait alone true 0.

(** The sending worker takes a message and sends it. *)
Definition transmit_next : M sk unit :=
  p ← cw_next_msg (V:=Z) (E:=Z) (Z.to_nat OUTPUT_WINDOW_SZ);
  base_send_inplace sendto p.

(** The worker's wait for the first outstanding message has timed out. *)
Definition timeout_expires : M sk unit :=
  empty ← is_sent_buf_empty;
  when (negb empty)
    (win ← setup;
     p ← output_sent_buf_get_msg_at (V:=Z) (E:=Z) (offset (sw_win win));
     m ← msg_at p;
     complete ← sk_output_check_msg_complete m;
     when (negb complete) (sk_output_on_retry m)).

(** ** The sender's steps *)

Lemma sender_inv_other base dn op (s s' : sk) :
  k_cw s' = k_cw s -> k_sb s' = k_sb s -> sender_inv base dn op s -> sender_inv base dn op s'.
Proof.
  intros Hc Hs [Ha Hst Hsto Hn Hne Hr]. split; try done.
  - unfold cwa in *. cbn in *. congruence.
  - apply (holds_same_sb _ s); done.
Qed.

Lemma stamp_sent_msg id ts q d m :
  ident_wf id -> 0 <= ts < modulus64 -> sent_msg q d m -> sent_msg q d (stamp id ts m).
Proof. intros Hid Hts []. split; try done. apply stamp_wf; done. Qed.

(** A message of the stream, as it is on its way. *)
Record carries (q : Z) (d : bytes) (m : msg) : Prop := {
  ca_seq : get_seq m = q;
  ca_len : m_data_len m = Z.of_nat (length d);
  ca_data : msg_data m = d;
  ca_usual : is_usual m = true;
}.

Lemma sent_msg_carries q d m : sent_msg q d m -> carries q d m.
Proof.
  intros [? ? ? ? Hl Hd Hs _ _ ?]. split; try done.
  unfold msg_data. rewrite Hl, Hd, Nat2Z.id. apply firstn_all.
Qed.

Lemma arrives_seq m0 m : arrives m0 m -> get_seq m = get_seq m0.
Proof. intros [Ht _]. unfold get_seq, m_hdr. by rewrite Ht. Qed.

Lemma arrives_usual m0 m : arrives m0 m -> is_usual m = is_usual m0.
Proof. intros [Ht _]. unfold is_usual, is_ack, is_syn, is_fin, is_rst, m_hdr. by rewrite Ht. Qed.

Lemma arrives_carries q d m0 m : carries q d m0 -> arrives m0 m -> carries q d m.
Proof.
  intros [Hs Hl Hd Hu] Ha. pose proof Ha as (_&Hl'&Hd').
  split; [rewrite (arrives_seq _ _ Ha)| | |rewrite (arrives_usual _ _ Ha)]; congruence.
Qed.

Lemma base_send_data_ok q d m (s : sk) :
  sent_msg q d m ->
  base_send sendto m s =
    (Ret (stamp (k_id s) (k_clock s) m), add_out (stamp (k_id s) (k_clock s) m) s).
Proof.
  intros [? ? Hsm ? Hl Hd _ _ _ _]. unfold base_send, socket_send, transfer_send_to.
  rewrite sendto_takes_all. set (m' := stamp (k_id s) (k_clock s) m).
  assert (Z.of_nat (length (tcp_region m')) = tcp_data_sz m') as ->.
  { change (m_data_len m) with (m_data_len m') in Hl. change (m_data m) with (m_data m') in Hd.
    rewrite tcp_region_sized by (split; rewrite Hl, ?Hd; lia).
    rewrite length_app, length_encode_TCPHDR, Hd. unfold tcp_data_sz, sizeof_TCPHDR, sizeof_tcphdr.
    rewrite Hl, u64_small by lia. lia. }
  rewrite Z.eqb_refl. done.
Qed.

Definition clocked (s : sk) : Prop := ident_wf (k_id s) /\ 0 <= k_clock s < modulus64.

Lemma base_send_inplace_eq p m (s : sk) :
  msg_at p s = (Ret m, s) ->
  base_send_inplace sendto p s =
    (write_buf p sizeof_raw_msg (fun mm => store_header mm p (stamp (k_id s) (k_clock s) m));;
     base_send sendto m;;
     mret tt) s.
Proof. intros Hm. unfold base_send_inplace. mstep Hm. done. Qed.

(** The sender keeps its signals, and its congestion window above zero. *)
Record kept (s s' : sk) : Prop := {
  kp_window : window_kept s s';
  kp_futs : forall f, futs s' f = futs s f;
  kp_sems : forall n, n <> SEND_BUF_NOT_EMPTY -> k_sems s' n = k_sems s n;
}.

Lemma kept_trans s1 s2 s3 : kept s1 s2 -> kept s2 s3 -> kept s1 s3.
Proof.
  intros [Hw1 Hf1 Hs1] [Hw2 Hf2 Hs2]. split.
  - eapply window_kept_trans; eauto.
  - intros f. rewrite Hf2. apply Hf1.
  - intros n Hn. rewrite Hs2 by done. by apply Hs1.
Qed.

Lemma still_kept (s s' : sk) : still s s' -> kept s s'.
Proof.
  intros [([Hw _]&_&_&_&_&_&Hs) [Hp He]]. split; [done|exact Hp|].
  intros n Hn. destruct (decide (n = SEND_BUF_EMPTY)) as [->|]; [exact He|by apply Hs].
Qed.

Lemma kept_same (s s' : sk) :
  window_kept s s' -> k_fut s' = k_fut s -> k_sems s' = k_sems s -> kept s s'.
Proof.
  intros Hw Hf Hs. split; [done|intros f; unfold futs; cbn; by rewrite Hf|intros n _; by rewrite Hs].
Qed.

Lemma futs_kept (s s' : sk) : k_wc s' = k_wc s -> futs s' = futs s -> k_sems s' = k_sems s -> kept s s'.
Proof.
  intros Hw Hf Hs. split; [by apply window_kept_wc|intros f; by rewrite Hf|intros n _; by rewrite Hs].
Qed.

(** The message at the place [next_msg] answers goes out as it is stored. *)
Lemma base_send_inplace_ok base dn q d op (s : sk) :
  sender_inv base dn ((q, d) :: op) s -> clocked s ->
  exists m s', base_send_inplace sendto (real_total dn + 33) s = (Ret tt, s') /\
    sender_inv base dn ((q, d) :: op) s' /\ clocked s' /\
    k_out s' = k_out s ++ [m] /\ carries q d m /\ kept s s'.
Proof.
  intros Hi [Hid Hts]. pose proof Hi as [Ha Hst Hsto Hn Hne Hr].
  destruct (holds_first_message dn q d op s Hsto) as (m&Hm&Hat).
  set (m' := stamp (k_id s) (k_clock s) m).
  pose proof (stamp_sent_msg _ _ _ _ _ Hid Hts Hm) as Hm'. fold m' in Hm'.
  destruct (store_header_ok dn q d op m' s Hsto Hm') as (s1&Hw&Hh'&Hfu&Hs&Hfrom).
  destruct (same_rest_sk _ _ Hs) as ((_&_&_&Hid'&Hcl'&Hout'&_)&Hcw'&Hwc'&_).
  exists m', (add_out m' s1). split; [|split; [|split; [|split; [|split]]]].
  - rewrite (base_send_inplace_eq _ m s Hat). change (_ + offsetof_msg_data) with
      (real_total dn + 33) in Hw. mstep Hw. mstep (base_send_data_ok q d m s1 Hm).
    rewrite Hid', Hcl'. done.
  - apply (sender_inv_other _ _ _ s1); try done. split; try done. unfold cwa in *. cbn in *. congruence.
  - unfold clocked. cbn. rewrite Hid', Hcl'. done.
  - cbn. rewrite Hout'. done.
  - apply sent_msg_carries. done.
  - apply futs_kept; [exact Hwc'|exact Hfu|apply (same_rest_sems _ _ Hs)].
Qed.

Lemma frame_clocked (s s' : sk) : frame s s' -> clocked s -> clocked s' /\ k_out s' = k_out s.
Proof. intros (_&_&_&Hi&Hc&Ho&_) [? ?]. unfold clocked. rewrite Hi, Hc. done. Qed.

(** [transmit_next] sends the first outstanding message, if it is not in use. *)
Lemma transmit_next_run base dn q d op (s : sk) :
  sender_inv base dn ((q, d) :: op) s -> clocked s ->
  256000 <= base \/ is_msg_used (St:=sk) (V:=Z) (real_total dn + 33) s = (Ret false, s) ->
  (exists m s', transmit_next s = (Ret tt, s') /\ sender_inv base dn ((q, d) :: op) s' /\
     clocked s' /\ k_out s' = k_out s ++ [m] /\ carries q d m /\ kept s s') \/
  (transmit_next s = (Throw ETimeout, s) /\
   is_msg_used (St:=sk) (V:=Z) (real_total dn + 33) s = (Ret true, s)).
Proof.
  intros Hi Hcl Hb. pose proof Hi as [_ _ Hsto _ _ Hr].
  destruct (cw_next_msg_first_still base dn q d op s Hi) as (v&b&Hg&_&Hu&Hrun).
  specialize (Hrun 999%nat).
  cbn [output_sent_buf_get_msg_at sk_sent_buf] in Hg.
  rewrite (get_msg_at_ok dn ((q, d) :: op) s Hsto) in Hg. injection Hg as <-.
  change (Z.to_nat OUTPUT_WINDOW_SZ) with 1000%nat. destruct b.
  - right. split; [|exact Hu]. unfold transmit_next. apply run_throw.
    destruct Hb as [Hb|Hb]; [|change (real_total dn + offsetof_msg_data) with (real_total dn + 33) in Hu; congruence].
    change (Z.to_nat OUTPUT_WINDOW_SZ) with 1000%nat. rewrite Hrun. apply next_msg_loop_past.
    cbn [w_sent_off sender_win]. pose proof (total_nonneg dn). unfold OUTPUT_WINDOW_SZ in Hr.
    Z.to_euclidean_division_equations. lia.
  - left. destruct Hrun as (s1&Hn&Hst&Hi1&_).
    destruct (frame_clocked _ _ (proj1 Hst) Hcl) as [Hcl1 Ho1].
    destruct (base_send_inplace_ok base dn q d op s1 Hi1 Hcl1) as (m&s'&Hs&Hi'&Hcl'&Ho'&Hm&Hk).
    pose proof (kept_trans _ _ _ (still_kept _ _ Hst) Hk) as Hk'.
    exists m, s'. split; [|rewrite Ho', Ho1; done].
    unfold transmit_next. change (Z.to_nat OUTPUT_WINDOW_SZ) with 1000%nat. mstep Hn. exact Hs.
Qed.

Lemma transmit_next_ok base dn q d op (s : sk) :
  sender_inv base dn ((q, d) :: op) s -> clocked s ->
  256000 <= base \/ is_msg_used (St:=sk) (V:=Z) (real_total dn + 33) s = (Ret false, s) ->
  (exists m s', transmit_next s = (Ret tt, s') /\ sender_inv base dn ((q, d) :: op) s' /\
     clocked s' /\ k_out s' = k_out s ++ [m] /\ carries q d m) \/
  (transmit_next s = (Throw ETimeout, s) /\
   is_msg_used (St:=sk) (V:=Z) (real_total dn + 33) s = (Ret true, s)).
Proof.
  intros H1 H2 H3. destruct (transmit_next_run _ _ _ _ _ _ H1 H2 H3) as [(m&s'&?&?&?&?&?&_)|H].
  - left. by exists m, s'.
  - by right.
Qed.

(** With nothing outstanding the worker waits. *)
Lemma transmit_next_empty base dn (s s' : sk) :
  sender_inv base dn [] s -> transmit_next s <> (Ret tt, s').
Proof.
  intros [Ha _ _ _ _ _]. unfold transmit_next. rewrite bind_unfold.
  unfold cw_next_msg. rewrite (run_ret _ _ _ _ _ (setup_eq s)), Ha, win_area.
  rewrite (sender_empty base dn []) by constructor. cbn [when].
  rewrite bind_unfold. cbn [output_sent_buf_wait_not_empty chan_wait sk_send_wait].
  unfold sk_output_sent_buf_wait_not_empty. rewrite bind_unfold.
  unfold is_sent_buf_empty. rewrite (run_ret _ _ _ _ _ (setup_eq s)), Ha, win_area.
  rewrite (sender_empty base dn []) by constructor. done.
Qed.

(** The wait that times out with a message outstanding makes it unused. *)
Lemma retry_halves (s s1 s2 s3 : sk) :
  window_kept s s1 ->
  congection_win_sz (k_wc s2) = Z.max (congection_win_sz (k_wc s1) `div` mult_arg) 1 ->
  window_kept s2 s3 -> 1 <= congection_win_sz (k_wc s) ->
  2 * congection_win_sz (k_wc s3) <= Z.max 2 (congection_win_sz (k_wc s)).
Proof.
  intros (_&_&H1) H2 (_&_&H3) Hc. specialize (H1 Hc). rewrite H2 in H3. unfold mult_arg in H3.
  pose proof (Z.mul_div_le (congection_win_sz (k_wc s1)) 2 ltac:(lia)). lia.
Qed.

Lemma timeout_expires_run base dn q d op (s : sk) :
  sender_inv base dn ((q, d) :: op) s -> clocked s ->
  exists s', timeout_expires s = (Ret tt, s') /\ sender_inv base dn ((q, d) :: op) s' /\
    clocked s' /\ k_out s' = k_out s /\
    is_msg_used (St:=sk) (V:=Z) (real_total dn + 33) s' = (Ret false, s') /\
    kept s s' /\
    (1 <= congection_win_sz (k_wc s) ->
     2 * congection_win_sz (k_wc s') <= Z.max 2 (congection_win_sz (k_wc s))).
Proof.
  intros Hi Hcl. pose proof Hi as [Ha Hst Hsto Hn Hne Hr].
  destruct (holds_first_message dn q d op s Hsto) as (m&Hm&Hat).
  pose proof (sm_seq _ _ _ Hm) as Hmq. apply numbered_app in Hn as [_ [Hq _]].
  pose proof (total_nonneg dn).
  destruct (cw_check_still base dn ((q, d) :: op) m s Hi) as (s1&Hc&Hi1&Hf1&_); [lia|].
  rewrite Hmq, Hq, Z.ltb_irrefl in Hc.
  destruct (frame_clocked _ _ (proj1 Hf1) Hcl) as [Hcl1 Ho1].
  set (s2 := area_put (WindowControlArea (receiver_win_sz (k_wc s1))
               (Z.max (congection_win_sz (k_wc s1) `div` mult_arg) 1) (mtu (k_wc s1))) s1).
  assert (sender_inv base dn ((q, d) :: op) s2) as Hi2
    by (apply (sender_inv_other _ _ _ s1); done).
  destruct (cw_retry_still base dn [] q d op m s2 Hi2 Hmq) as (v&s3&Hg&Hret&Hf3&Hi3&_&Hu&_).
  cbn [app] in *. rewrite app_nil_r in Hg.
  assert (v = real_total dn + 33) as ->.
  { destruct Hi2 as [_ _ Hsto2 _ _ _]. cbn [output_sent_buf_get_msg_at sk_sent_buf] in Hg.
    rewrite (get_msg_at_ok dn ((q, d) :: op) s2 Hsto2) in Hg. injection Hg as <-. done. }
  assert (clocked s2) as Hcl2 by done.
  destruct (frame_clocked _ _ (proj1 Hf3) Hcl2) as [Hcl3 Ho3].
  assert (kept s1 s2) as Hk2.
  { apply kept_same; try done. apply retry_window_kept. }
  exists s3. split; [|split; [exact Hi3|split; [exact Hcl3|split; [rewrite Ho3; exact Ho1|]]]];
    [|split; [exact Hu|split; [eauto using kept_trans, still_kept|]]];
    [|intros Hcong; apply (retry_halves s s1 s2 s3); try done; by apply still_kept].
  unfold timeout_expires.
  assert (is_sent_buf_empty s = (Ret false, s)) as E.
  { unfold is_sent_buf_empty. mstep (setup_eq s). rewrite Ha, win_area, sender_empty; [done|].
    apply Forall_app in Hne as [_ ?]. done. }
  mstep E. cbn [negb when]. mstep (setup_eq s). rewrite Ha, win_area.
  change (offset (sender_win base dn ((q, d) :: op))) with (total dn).
  cbn [output_sent_buf_get_msg_at sk_sent_buf].
  mstep (get_msg_at_ok dn ((q, d) :: op) s Hsto).
  change (real_total dn + offsetof_msg_data) with (real_total dn + 33). mstep Hat.
  unfold sk_output_check_msg_complete. mstep Hc. cbn [negb when].
  unfold sk_output_on_retry. assert (cwc_on_retry s1 = (Ret tt, s2)) as E2 by done.
  mstep E2. exact Hret.
Qed.

Lemma timeout_expires_ok base dn q d op (s : sk) :
  sender_inv base dn ((q, d) :: op) s -> clocked s ->
  exists s', timeout_expires s = (Ret tt, s') /\ sender_inv base dn ((q, d) :: op) s' /\
    clocked s' /\ k_out s' = k_out s /\
    is_msg_used (St:=sk) (V:=Z) (real_total dn + 33) s' = (Ret false, s').
Proof.
  intros H1 H2. destruct (timeout_expires_run _ _ _ _ _ _ H1 H2) as (s'&?&?&?&?&?&_). by exists s'.
Qed.

Lemma timeout_expires_empty base dn (s : sk) :
  sender_inv base dn [] s -> timeout_expires s = (Ret tt, s).
Proof.
  intros [Ha _ _ _ _ _]. unfold timeout_expires.
  assert (is_sent_buf_empty s = (Ret true, s)) as E.
  { unfold is_sent_buf_empty. mstep (setup_eq s). rewrite Ha, win_area, sender_empty; done. }
  mstep E. done.
Qed.

(** A repeated acknowledgement of everything sent only counts. *)
Lemma ack_after_everything_still base dn ack (s : sk) :
  sender_inv base dn [] s -> get_seq ack + 1 = base + total dn -> 0 <= get_seq ack ->
  fourth_duplicate ack s = false ->
  exists s', cw_on_ack (V:=Z) (E:=Z) ack s = (Ret tt, s') /\ still s s' /\
    sender_inv base dn [] s' /\ k_sb s' = k_sb s.
Proof.
  intros Hi Hq Hq0 Hfd. pose proof Hi as [Ha Hst Hsto Hnum Hne Hroom].
  pose proof (sender_win_in_space _ _ _ _ Hi) as Hsp.
  pose proof (sender_win_begin _ _ _ _ Hi) as Hbeg. pose proof (sender_win_end _ _ _ _ Hi) as Hend.
  pose proof (total_nonneg dn). unfold OUTPUT_WINDOW_SZ in Hroom.
  assert (fr_last (k_fr s) = get_seq ack -> fr_cnt (k_fr s) < 3) as Hcnt.
  { intros Hl. unfold fourth_duplicate in Hfd. unfold cwa in Ha. cbn in Ha.
    rewrite Ha, win_area, sender_empty, Hl, Z.eqb_refl in Hfd by constructor.
    cbn [andb] in Hfd. lia. }
  set (w := sender_win base dn []) in *.
  assert (exists a, cw_on_ack (V:=Z) (E:=Z) ack s =
            (Ret tt, area_put (area_of w) (area_put (a : fast_retransmit_area) s))) as (a&Hrun).
  { unfold cw_on_ack. mstep (setup_eq s). rewrite Ha, win_area. fold w.
    assert (msg_in_win w ack = false) as ->.
    { unfold msg_in_win.
      rewrite contains_single_in_space by (done || (unfold OUTPUT_WINDOW_SZ in *; lia)).
      rewrite Hbeg. apply andb_false_iff. lia. }
    assert (msg_in_prev_win w ack = true) as ->.
    { unfold msg_in_prev_win. rewrite contains_in_space by done. rewrite Hbeg, Hend.
      unfold SINGLE_WINDOW, begin, end_, OUTPUT_WINDOW_SZ in *. cbn [w_start w_off w_sz].
      rewrite (u64_small (get_seq ack + 1)), !u64_small by lia. lia. }
    rewrite !bind_unfold. change (offset w) with (total dn).
    cbn [output_sent_buf_get_msg_at sk_sent_buf]. rewrite (get_msg_at_ok dn [] s Hsto).
    rewrite bind_unfold.
    cbn [output_refresh_on_msg_pair_prev_window_matched sk_send_events].
    unfold sk_output_refresh_prev, msg_at. rewrite !bind_unfold. cbn [mem_get gets mret M_ret].
    unfold fr_on_ack. rewrite bind_unfold. cbn [mem_get gets].
    change (@area_get sk fast_retransmit_area _ s) with (k_fr s). unfold TCP_FAST_RETRANSMIT_BOUND.
    destruct (fr_cnt (k_fr s) =? 0); [eexists; reflexivity|].
    destruct (Z.eqb_spec (get_seq ack) (fr_last (k_fr s))) as [He|_]; [|eexists; reflexivity].
    rewrite (proj2 (Z.leb_gt _ _)) by (specialize (Hcnt (eq_sym He)); lia).
    eexists; reflexivity. }
  eexists. split; [exact Hrun|]. split; [done|]. split; [|done]. split; try done.
Qed.

Lemma ack_after_everything base dn ack (s : sk) :
  sender_inv base dn [] s -> get_seq ack + 1 = base + total dn -> 0 <= get_seq ack ->
  fourth_duplicate ack s = false ->
  exists s', cw_on_ack (V:=Z) (E:=Z) ack s = (Ret tt, s') /\ frame s s' /\ sender_inv base dn [] s'.
Proof.
  intros H1 H2 H3 H4. destruct (ack_after_everything_still _ _ _ _ H1 H2 H3 H4) as (s'&?&[? _]&?&_).
  by exists s'.
Qed.

End channel.
