(* ===== verification/Places.v ===== *)
(** * Places: the messages the sending workers hold

    A worker takes the address of a message under [send_worker_lock], releases
    the lock, and later sends what is there, looks whether it has been
    acknowledged and retries it ([output_send_buf_worker::do_job] and
    [output_send_finally] of [src/src/newimpl.cpp]).  Meanwhile the message may
    be acknowledged and the buffer be used again from its beginning.  This file
    says when the address still has a whole message, and that the sender's
    operations keep it so. *)
From S2P Require Import Prelude Window Message Transfer ProtoMem Congestion FastRetransmit.
From S2P Require Import SendBuffer Inplace Slots SlotOps Cumulative CumulativeOps Input.
From S2P Require Import Socket SenderModel ReceiverModel Frames Channel.

(** ** Positions in the buffer *)

(** The message [(q, d)] is the one at [r]. *)
Definition in_slots (ms : sent) (r q : Z) (d : bytes) : Prop :=
  exists ms1 ms2, ms = ms1 ++ (q, d) :: ms2 /\ r = real_total ms1.

Lemma in_slots_end ms r q d :
  in_slots ms r q d -> r + inplace_size (Z.of_nat (length d)) <= real_total ms.
Proof.
  intros (ms1&ms2&->&->). rewrite real_total_app. cbn [real_total].
  pose proof (real_total_nonneg ms2). lia.
Qed.

Lemma in_slots_app ms x r q d : in_slots ms r q d -> in_slots (ms ++ x) r q d.
Proof. intros (ms1&ms2&->&->). exists ms1, (ms2 ++ x). by rewrite <- app_assoc. Qed.

(** A message that starts before another ends before it. *)
Lemma in_slots_apart ms r1 q1 d1 r2 q2 d2 :
  in_slots ms r1 q1 d1 -> in_slots ms r2 q2 d2 -> r1 < r2 ->
  r1 + inplace_size (Z.of_nat (length d1)) <= r2.
Proof.
  intros (a1&b1&->&->) (a2&b2&He&->) Hlt.
  destruct (app_eq_app _ _ _ _ He) as (z&[[-> Hz]|[-> Hz]]).
  - rewrite real_total_app in Hlt. pose proof (real_total_nonneg z). lia.
  - destruct z as [|[q d] z]; [rewrite app_nil_r in Hlt; lia|].
    injection Hz as <- <- _. rewrite real_total_app. cbn [real_total].
    pose proof (real_total_nonneg z). lia.
Qed.

(** ** A place *)

(** At [p], the address of a message as [get_msg_at] answers it, is [(q, d)]:
    one of the messages [ms] of the buffer, or one behind them that has been
    left there. *)
Record place_ok (ms : sent) (s : sk) (p q : Z) (d : bytes) : Prop := {
  pl_slot : slot_at (sb_buf (k_sb s)) (p - 33) q d;
  pl_len : (0 < length d)%nat /\ Z.of_nat (length d) <= 1000;
  pl_in : 0 <= p - 33 /\ p - 33 + inplace_size (Z.of_nat (length d)) <= 120000;
  pl_where : in_slots ms (p - 33) q d \/ real_total ms <= p - 33;
}.

(** All the places in use: each has one of the messages [all], and none begins
    inside another. *)
Record places_ok (all ms : sent) (s : sk) (P : Z -> Prop) : Prop := {
  ps_ok p : P p -> exists q d, (q, d) ∈ all /\ place_ok ms s p q d;
  ps_apart p1 p2 q d : P p1 -> P p2 -> p1 < p2 -> slot_at (sb_buf (k_sb s)) (p1 - 33) q d ->
    p1 - 33 + inplace_size (Z.of_nat (length d)) <= p2 - 33;
}.

Lemma places_fewer all ms s (P P' : Z -> Prop) :
  (forall p, P' p -> P p) -> places_ok all ms s P -> places_ok all ms s P'.
Proof. intros H [H1 H2]. split; eauto. Qed.

Lemma places_none all ms s : places_ok all ms s (fun _ => False).
Proof. split; done. Qed.

Lemma places_more all x ms s P : places_ok all ms s P -> places_ok (all ++ x) ms s P.
Proof.
  intros [H1 H2]. split; [|done]. intros p Hp. destruct (H1 p Hp) as (q&d&?&?).
  exists q, d. split; [apply elem_of_app; by left|done].
Qed.

(** Every slot in use is as before, and what is in the buffer has changed from
    [ms] to [ms']. *)
Lemma places_move all ms ms' s s' P :
  places_ok all ms s P ->
  (forall p q d, P p -> place_ok ms s p q d -> place_ok ms' s' p q d) ->
  places_ok all ms' s' P.
Proof.
  intros [H1 H2] Hm. split.
  - intros p Hp. destruct (H1 p Hp) as (q&d&?&?). exists q, d. split; [done|by apply Hm].
  - intros p1 p2 q d Hp1 Hp2 Hlt Hs. destruct (H1 p1 Hp1) as (q1&d1&_&Hok).
    destruct (slot_at_unique _ _ _ _ _ _ Hs (pl_slot _ _ _ _ _ (Hm _ _ _ Hp1 Hok))) as [-> ->].
    apply (H2 p1 p2 q1 d1); [done..|]. apply Hok.
Qed.

Lemma holds_in_slots ms (s : sk) r q d :
  holds ms s -> in_slots ms r q d ->
  slot_at (sb_buf (k_sb s)) r q d /\ (0 < length d)%nat /\ Z.of_nat (length d) <= 1000 /\ 0 <= r /\
  r + inplace_size (Z.of_nat (length d)) <= 120000.
Proof.
  intros Hh (ms1&ms2&->&->). destruct (holds_slot _ _ _ _ _ Hh) as (m&_&_&_&?&?&?&?&_).
  destruct Hh as [Hs _]. destruct (slots_slot _ _ _ _ _ _ _ Hs) as [Hsl _].
  rewrite Z.add_0_l in Hsl. done.
Qed.

Lemma place_size ms s p q d :
  place_ok ms s p q d -> 112 + Z.of_nat (length d) < inplace_size (Z.of_nat (length d)).
Proof. intros [_ [? ?] _ _]. apply inplace_size_bounds. lia. Qed.

(** The sender's operations on the buffer *)
Lemma places_kept all ms lo hi s s' P :
  places_ok all ms s P -> holds ms s' -> same_outside lo hi s s' -> hi <= real_total ms ->
  places_ok all ms s' P.
Proof.
  intros HP Hh Hb Hle. apply (places_move _ _ _ _ _ _ HP). intros p q d _ Hok.
  pose proof (place_size _ _ _ _ _ Hok). destruct Hok as [Hs Hl Hi Hw]. split; try done.
  destruct Hw as [Hw|Hw]; [by apply (holds_in_slots _ s' _ _ _ Hh)|].
  apply (slot_at_ext _ _ _ _ _ Hs). intros x Hx. apply Hb. lia.
Qed.

(** The buffer is used again from its beginning. *)
Lemma places_refresh all ms s s' P :
  places_ok all ms s P -> sk_elsewhere [] [] s s' -> places_ok all [] s' P.
Proof.
  intros HP Hb. apply (places_move _ _ _ _ _ _ HP). intros p q d _ Hok.
  pose proof (place_size _ _ _ _ _ Hok). destruct Hok as [Hs Hl Hi _].
  split; try done; [|right; cbn; lia].
  apply (slot_at_ext _ _ _ _ _ Hs). intros x Hx. apply Hb. cbn. lia.
Qed.

(** A message is stored behind the others, and no place in use begins inside
    of it. *)
Lemma places_send all ms q d s s' P :
  places_ok all ms s P -> holds (ms ++ [(q, d)]) s' -> sk_elsewhere ms (ms ++ [(q, d)]) s s' ->
  (forall p, P p -> p - 33 <= real_total ms \/ real_total (ms ++ [(q, d)]) <= p - 33) ->
  places_ok (all ++ [(q, d)]) (ms ++ [(q, d)]) s' P.
Proof.
  intros HP Hh Hb Hfree. set (ms' := ms ++ [(q, d)]) in *.
  assert (in_slots ms' (real_total ms) q d) as Hnew by (exists ms, []; done).
  assert (forall p q0 d0, P p -> place_ok ms s p q0 d0 ->
    place_ok ms' s' p q0 d0 \/ p - 33 = real_total ms) as Hold.
  { intros p q0 d0 Hp Hok. pose proof (place_size _ _ _ _ _ Hok). destruct Hok as [Hs Hl Hi Hw].
    destruct Hw as [Hw|Hw].
    - left. split; try done; [|left; by apply in_slots_app].
      apply (holds_in_slots ms' s'); [done|by apply in_slots_app].
    - destruct (Hfree p Hp) as [Hle|Hge]; [right; lia|left]. split; try done; [|by right].
      apply (slot_at_ext _ _ _ _ _ Hs). intros x Hx. apply Hb. lia. }
  assert (forall p, p - 33 = real_total ms -> place_ok ms' s' p q d) as Hat.
  { intros p Hp. destruct (holds_in_slots _ _ _ _ _ Hh Hnew) as (?&?&?&?&?).
    split; rewrite ?Hp; try done. by left. }
  destruct HP as [H1 H2]. split.
  - intros p Hp. destruct (H1 p Hp) as (q0&d0&Hin&Hok).
    destruct (Hold p q0 d0 Hp Hok) as [Hok'|He].
    + exists q0, d0. split; [apply elem_of_app; by left|done].
    + exists q, d. split; [apply elem_of_app; right; by left|by apply Hat].
  - intros p1 p2 q1 d1 Hp1 Hp2 Hlt Hs1.
    destruct (H1 p1 Hp1) as (q0&d0&_&Hok1). destruct (H1 p2 Hp2) as (q2&d2&_&Hok2).
    destruct (Hold p1 q0 d0 Hp1 Hok1) as [Hok1'|He1].
    + destruct (slot_at_unique _ _ _ _ _ _ Hs1 (pl_slot _ _ _ _ _ Hok1')) as [-> ->].
      apply (H2 p1 p2 q0 d0); [done..|]. apply Hok1.
    + destruct (slot_at_unique _ _ _ _ _ _ Hs1 (pl_slot _ _ _ _ _ (Hat p1 He1))) as [-> ->].
      destruct (pl_where _ _ _ _ _ Hok2) as [Hw|Hw].
      * pose proof (in_slots_end _ _ _ _ Hw). pose proof (place_size _ _ _ _ _ Hok2). lia.
      * destruct (Hfree p2 Hp2) as [Hle|Hge]; [lia|].
        pose proof (in_slots_end _ _ _ _ Hnew). lia.
Qed.

(** One more place is in use: that of a message of the buffer. *)
Lemma places_take all ms1 q d ms2 s P :
  places_ok all (ms1 ++ (q, d) :: ms2) s P -> holds (ms1 ++ (q, d) :: ms2) s -> (q, d) ∈ all ->
  places_ok all (ms1 ++ (q, d) :: ms2) s (fun p => p = real_total ms1 + 33 \/ P p).
Proof.
  intros [H1 H2] Hh Hin. set (ms := ms1 ++ (q, d) :: ms2) in *.
  assert (in_slots ms (real_total ms1) q d) as Hnew by (exists ms1, ms2; done).
  assert (forall p, p = real_total ms1 + 33 -> place_ok ms s p q d) as Hat.
  { intros p ->. replace (real_total ms1 + 33) with (33 + real_total ms1) by lia.
    destruct (holds_in_slots _ _ _ _ _ Hh Hnew) as (?&?&?&?&?).
    split; replace (33 + real_total ms1 - 33) with (real_total ms1) by lia; try done. by left. }
  pose proof (in_slots_end _ _ _ _ Hnew). split.
  - intros p [->|Hp]; [exists q, d; auto|by apply H1].
  - intros p1 p2 q1 d1 [->|Hp1] [->|Hp2] Hlt Hs; [lia| | |by apply (H2 p1 p2 q1 d1)].
    + destruct (slot_at_unique _ _ _ _ _ _ Hs (pl_slot _ _ _ _ _ (Hat _ eq_refl))) as [-> ->].
      destruct (H1 p2 Hp2) as (q2&d2&_&Hok). destruct (pl_where _ _ _ _ _ Hok) as [Hw|Hw].
      * replace (real_total ms1 + 33 - 33) with (real_total ms1) by lia.
        eapply in_slots_apart; [exact Hnew|exact Hw|lia].
      * lia.
    + destruct (H1 p1 Hp1) as (q0&d0&_&Hok).
      destruct (slot_at_unique _ _ _ _ _ _ Hs (pl_slot _ _ _ _ _ Hok)) as [-> ->].
      pose proof (place_size _ _ _ _ _ (Hat _ eq_refl)).
      destruct (pl_where _ _ _ _ _ Hok) as [Hw|Hw]; [|lia].
      replace (real_total ms1 + 33 - 33) with (real_total ms1) by lia.
      eapply in_slots_apart; [exact Hw|exact Hnew|lia].
Qed.

(** ** Sending what is at a place *)

(** The number of a message, by its place in the list. *)
Lemma numbered_before sq x y q d :
  numbered sq (x ++ y) -> (q, d) ∈ x -> q + Z.of_nat (length d) <= sq + total x.
Proof.
  intros Hn Hin. apply list_elem_of_split in Hin as (x1&x2&->).
  apply numbered_app in Hn as [Hn _]. apply numbered_app in Hn as [_ [-> _]].
  rewrite total_app. cbn [total]. pose proof (total_nonneg x2). lia.
Qed.

Lemma numbered_from sq x y q d : numbered sq (x ++ y) -> (q, d) ∈ y -> sq + total x <= q.
Proof.
  intros Hn Hin. apply list_elem_of_split in Hin as (y1&y2&->).
  apply numbered_app in Hn as [_ Hn]. apply numbered_app in Hn as [_ [-> _]].
  pose proof (total_nonneg y1). lia.
Qed.

Lemma place_msg ms s p q d :
  place_ok ms s p q d -> exists m, sent_msg q d m /\ raw_at (sb_buf (k_sb s)) p m /\
    msg_at p s = (Ret m, s).
Proof.
  intros [(m&Hm&Hr) _ _ _].
  assert (p - 33 + offsetof_msg_data = p) as Hp by (change offsetof_msg_data with 33; lia).
  rewrite Hp in Hr. exists m. split_and!; [done..|]. unfold msg_at. rewrite bind_unfold.
  cbn [mem_get gets]. change (area_get s) with (k_sb s).
  rewrite (raw_at_load _ _ m); [done|apply Hm| |done].
  by rewrite (sm_data _ _ _ Hm), (sm_buf_len _ _ _ Hm).
Qed.

(** ** Marks

    [next_msg] passes over a message whose mark is set; the one who sets it is
    the worker that takes the message. *)
Definition unmarked (p : Z) (s : sk) : Prop := sb_buf (k_sb s) (p + 32) = 0.

Lemma is_used_eq p s :
  0 <= p -> p + 33 <= 120000 ->
  is_msg_used (St:=sk) (V:=Z) p s = (Ret (negb (sb_buf (k_sb s) (p + 32) =? 0)), s).
Proof.
  intros H1 H2. cbn [is_msg_used sk_sent_buf]. unfold sk_is_msg_used.
  mstep (read_buf_ok (p + offsetof_used) 1 s
    ltac:(unfold in_buf, offsetof_used, sizeof_sem_t, OUTPUT_SEND_BUF_SZ; lia)).
  change (p + offsetof_used) with (p + 32). change (sbuf s) with (k_sb s).
  change (load_bytes (sb_buf (k_sb s)) (p + 32) (Z.to_nat 1)) with [sb_buf (k_sb s) (p + 32)].
  cbn [le_val]. rewrite Z.mul_0_r, Z.add_0_r. done.
Qed.

Lemma unmarked_used p s :
  0 <= p -> p + 33 <= 120000 ->
  is_msg_used (St:=sk) (V:=Z) p s = (Ret false, s) <-> unmarked p s.
Proof.
  intros H1 H2. rewrite is_used_eq by done. unfold unmarked.
  destruct (Z.eqb_spec (sb_buf (k_sb s) (p + 32)) 0); cbn [negb]; split; intros; (done || congruence).
Qed.

(** Every outstanding message that is marked is held by a worker. *)
Definition marks_held (dn op : sent) (s : sk) (P : Z -> Prop) : Prop :=
  forall o1 m o2, op = o1 ++ m :: o2 ->
    P (real_total (dn ++ o1) + 33) \/ unmarked (real_total (dn ++ o1) + 33) s.

(** The sender with its workers: all messages so far are [old ++ dn ++ op],
    the first byte numbered [start]; [P]: the places in use. *)
Record sending (start : Z) (old dn op : sent) (s : sk) (P : Z -> Prop) : Prop := {
  sn_start : 0 <= start;
  sn_inv : sender_inv (start + total old) dn op s;
  sn_clocked : clocked s;
  sn_numbered : numbered start (old ++ dn ++ op);
  sn_nonempty : nonempty_msgs (old ++ dn ++ op);
  sn_aligned : (OUTPUT_WINDOW_SZ | total old);
  sn_places : places_ok (old ++ dn ++ op) (dn ++ op) s P;
  sn_marks : marks_held dn op s P;
}.

(** The memory of an outstanding message. *)
Lemma holds_split_at dn o1 q d o2 (s : sk) :
  holds (dn ++ o1 ++ (q, d) :: o2) s ->
  0 <= real_total (dn ++ o1) /\ 112 + Z.of_nat (length d) < inplace_size (Z.of_nat (length d)) /\
  real_total (dn ++ o1) + inplace_size (Z.of_nat (length d)) <= 120000.
Proof.
  intros Hh. assert (in_slots (dn ++ o1 ++ (q, d) :: o2) (real_total (dn ++ o1)) q d) as Hin
    by (exists (dn ++ o1), o2; by rewrite <- app_assoc).
  destruct (holds_in_slots _ _ _ _ _ Hh Hin) as (_&?&?&?&?).
  pose proof (inplace_size_bounds (Z.of_nat (length d))). lia.
Qed.

(** The marks of the messages outside of [lo .. hi] are as before. *)
Lemma marks_outside dn op lo hi s s' P P' :
  marks_held dn op s P -> holds (dn ++ op) s -> same_outside lo hi s s' ->
  (forall o1 q d o2, op = o1 ++ (q, d) :: o2 ->
     let r := real_total (dn ++ o1) in
     r + inplace_size (Z.of_nat (length d)) <= lo \/ hi <= r \/
     (unmarked (r + 33) s -> P' (r + 33) \/ unmarked (r + 33) s')) ->
  (forall o1 q d o2, op = o1 ++ (q, d) :: o2 -> P (real_total (dn ++ o1) + 33) ->
     P' (real_total (dn ++ o1) + 33) \/ unmarked (real_total (dn ++ o1) + 33) s') ->
  marks_held dn op s' P'.
Proof.
  intros Hm Hh Hs Hout Hin o1 [q d] o2 He. destruct (Hm _ _ _ He) as [Hp|Hu]; [by eapply Hin|].
  rewrite He in Hh. destruct (holds_split_at _ _ _ _ _ _ Hh) as (?&?&?).
  destruct (Hout _ _ _ _ He) as [Hlo|[Hhi|H2]]; [right..|by apply H2];
    (unfold unmarked in *; change (k_sb s') with (sbuf s'); rewrite Hs by lia; exact Hu).
Qed.

(** Two outstanding messages are apart. *)
Lemma outstanding_apart dn op o1 q d o2 o1' q' d' o2' :
  op = o1 ++ (q, d) :: o2 -> op = o1' ++ (q', d') :: o2' ->
  o1 = o1' \/
  real_total (dn ++ o1) + inplace_size (Z.of_nat (length d)) <= real_total (dn ++ o1') \/
  real_total (dn ++ o1') + inplace_size (Z.of_nat (length d')) <= real_total (dn ++ o1).
Proof.
  intros -> He. destruct (app_eq_app _ _ _ _ He) as (z&[[-> Hz]|[-> Hz]]);
    (destruct z as [|[q0 d0] z]; [left; by rewrite app_nil_r|]; injection Hz as <- <- _;
     right; rewrite !app_assoc, !(real_total_app (dn ++ _)), ?(real_total_app dn); cbn [real_total];
     pose proof (real_total_nonneg z); lia).
Qed.

(** The number of an outstanding message says which one it is. *)
Lemma outstanding_number sq o1 q d o2 o1' d' o2' :
  numbered sq (o1 ++ (q, d) :: o2) -> nonempty_msgs (o1 ++ (q, d) :: o2) ->
  o1 ++ (q, d) :: o2 = o1' ++ (q, d') :: o2' -> o1 = o1'.
Proof.
  intros Hn Hne He. pose proof Hn as Hn'. rewrite He in Hn'.
  apply numbered_app in Hn as [_ [H1 _]]. apply numbered_app in Hn' as [_ [H2 _]].
  by destruct (split_eq _ _ _ _ Hne He ltac:(lia)).
Qed.

(** ** The sender's operations, with its workers *)

(** Nothing in the buffer has changed. *)
Lemma sending_same start old dn op s s' P :
  sending start old dn op s P -> k_cw s' = k_cw s -> k_sb s' = k_sb s -> clocked s' ->
  sending start old dn op s' P.
Proof.
  intros [] Hc Hs Hcl. split; try done.
  - by apply (sender_inv_other _ _ _ s).
  - apply (places_kept _ _ 0 0 s); [done|apply (holds_same_sb _ s); [done|apply sn_inv0]|
      intros x _; unfold sbuf; cbn; by rewrite Hs|apply real_total_nonneg].
  - intros o1 m o2 He. unfold unmarked. rewrite Hs. by eapply sn_marks0.
Qed.

(** An operation that writes inside of an outstanding message or nowhere. *)
Lemma sending_slot start old dn o1 q d o2 s s' P P' :
  sending start old dn (o1 ++ (q, d) :: o2) s P ->
  sender_inv (start + total old) dn (o1 ++ (q, d) :: o2) s' -> clocked s' ->
  sk_elsewhere (dn ++ o1) ((dn ++ o1) ++ [(q, d)]) s s' ->
  (forall p, P' p -> P p \/ p = real_total (dn ++ o1) + 33) ->
  (forall p, P p -> P' p \/ (p = real_total (dn ++ o1) + 33 /\ unmarked p s')) ->
  (unmarked (real_total (dn ++ o1) + 33) s ->
     P' (real_total (dn ++ o1) + 33) \/ unmarked (real_total (dn ++ o1) + 33) s') ->
  sending start old dn (o1 ++ (q, d) :: o2) s' P'.
Proof.
  intros [? Hi ? ? ? ? HP Hm] Hi' Hcl Hs H1 H2 H3. split; try done.
  - pose proof (si_stored _ _ _ _ Hi') as Hh.
    apply (places_fewer _ _ _ (fun p => p = real_total (dn ++ o1) + 33 \/ P p));
      [intros p Hp; destruct (H1 p Hp); auto|].
    pose proof (places_kept _ _ _ _ _ _ _ HP Hh Hs) as HP'.
    rewrite !app_assoc in *. rewrite <- !app_assoc with (l := old) in *.
    apply places_take; [apply HP'|done|set_solver].
    rewrite !real_total_app. cbn [real_total]. pose proof (real_total_nonneg o2). lia.
  - eapply (marks_outside _ _ _ _ s s' P P'); [done|apply Hi|exact Hs|..].
    + intros o1' q' d' o2' He.
      destruct (outstanding_apart dn _ _ _ _ _ _ _ _ _ eq_refl He) as [<-|[Hle|Hle]].
      * right. right. exact H3.
      * right. left. rewrite real_total_app. cbn [real_total]. lia.
      * left. lia.
    + intros o1' q' d' o2' He Hp. destruct (H2 _ Hp) as [?|[_ ?]]; auto.
Qed.

Lemma sending_end start old dn op s P :
  sending start old dn op s P -> sb_end (k_sb s) = real_total (dn ++ op).
Proof.
  intros Hs. pose proof (si_stored _ _ _ _ (sn_inv _ _ _ _ _ _ Hs)) as [Hsl _].
  exact (slots_end _ _ _ _ Hsl).
Qed.

(** [send], where no place in use begins inside of the new message. *)
Lemma sending_send start old dn op s P d r s' :
  sending start old dn op s P -> (0 < length d)%nat -> Forall is_byte d ->
  (forall p, P p -> p - 33 <= sb_end (k_sb s) \/
     sb_end (k_sb s) + inplace_size (Z.of_nat (length d)) <= p - 33) ->
  cw_send (E:=Z) (tmp_msg d) s = (Ret r, s') ->
  sending start old dn (op ++ [(start + total (old ++ dn ++ op), d)]) s' P /\ k_out s' = k_out s.
Proof.
  intros Hs Hd Hb Hfree Hrun. rewrite (sending_end _ _ _ _ _ _ Hs) in Hfree.
  destruct Hs as [H0 Hi Hcl Hn Hne Hal HP Hm].
  destruct (Z.le_gt_cases (total (dn ++ op) + Z.of_nat (length d)) OUTPUT_WINDOW_SZ) as [Hfit|Hfit].
  2:{ rewrite (cw_send_drops _ _ _ _ _ Hi) in Hrun by lia. done. }
  destruct (cw_send_run _ _ _ _ _ Hi Hd Hb Hfit) as (s1&Hrun'&Hi'&Hf&_&_&_&He&v&Hg&Hu).
  rewrite Hrun in Hrun'. injection Hrun' as _ ->.
  destruct (frame_clocked _ _ Hf Hcl) as [Hcl' Ho']. split; [|exact Ho'].
  assert (start + total old + total (dn ++ op) = start + total (old ++ dn ++ op)) as Hq
    by (rewrite (total_app old); lia).
  rewrite Hq in *. set (q := start + total (old ++ dn ++ op)) in *.
  pose proof (si_stored _ _ _ _ Hi') as Hh. rewrite app_assoc in Hh.
  assert (old ++ dn ++ op ++ [(q, d)] = (old ++ dn ++ op) ++ [(q, d)]) as Ha by (by rewrite <- !app_assoc).
  split; rewrite ?Ha; try done.
  - apply numbered_app. split; [done|]. cbn. done.
  - apply Forall_app. split; [done|]. by repeat constructor.
  - rewrite (app_assoc dn op). apply (places_send _ _ _ _ s); try done. intros p Hp.
    destruct (Hfree p Hp); [by left|right]. rewrite real_total_app. cbn [real_total]. lia.
  - intros o1 [q1 d1] o2 Heq. destruct o2 as [|[q3 d3] o3 _] using rev_ind.
    + apply app_inj_tail in Heq as [<- [= <- <-]]. right.
      cbn [output_sent_buf_get_msg_at sk_sent_buf] in Hg.
      rewrite (get_msg_at_ok (dn ++ op) [(q, d)] s1 Hh) in Hg. injection Hg as <-.
      rewrite <- app_assoc in Hh. destruct (holds_split_at _ _ _ _ _ _ Hh) as (?&?&?).
      apply unmarked_used; [lia|lia|exact Hu].
    + rewrite app_comm_cons, app_assoc in Heq. apply app_inj_tail in Heq as [-> _].
      destruct (Hm _ _ _ eq_refl) as [Hp|Hun]; [by left|right].
      pose proof (si_stored _ _ _ _ Hi) as Hh0. destruct (holds_split_at _ _ _ _ _ _ Hh0) as (?&?&?).
      unfold unmarked in *. change (k_sb s1) with (sbuf s1). rewrite He; [exact Hun|left].
      rewrite (app_assoc dn), (real_total_app (dn ++ o1)). cbn [real_total].
      pose proof (real_total_nonneg o3). lia.
Qed.

Section workers.
Context (sendto : sockaddr_in -> bytes -> Z).
Hypothesis sendto_takes_all : forall a d, sendto a d = Z.of_nat (length d).

#[local] Instance places_wait : SendWait sk := sk_send_wait alone true 0.

(** With nothing outstanding the worker waits. *)
Lemma next_msg_empty base dn fuel (s s' : sk) p :
  sender_inv base dn [] s -> cw_next_msg (V:=Z) (E:=Z) fuel s <> (Ret p, s').
Proof.
  intros [Ha _ _ _ _ _]. unfold cw_next_msg. rewrite (run_ret _ _ _ _ _ (setup_eq s)), Ha, win_area.
  rewrite (sender_empty base dn []) by constructor. cbn [when].
  rewrite bind_unfold. cbn [output_sent_buf_wait_not_empty places_wait sk_send_wait].
  unfold sk_output_sent_buf_wait_not_empty. rewrite bind_unfold.
  unfold is_sent_buf_empty. rewrite (run_ret _ _ _ _ _ (setup_eq s)), Ha, win_area.
  rewrite (sender_empty base dn []) by constructor. done.
Qed.

(** A worker takes the first outstanding message, when it is not marked. *)
Lemma sending_take_run start old dn q d op s P :
  sending start old dn ((q, d) :: op) s P ->
  (forall p, ~ P p) \/ 256000 <= start + total old ->
  (exists s', cw_next_msg (V:=Z) (E:=Z) (Z.to_nat OUTPUT_WINDOW_SZ) s = (Ret (real_total dn + 33), s') /\
     k_out s' = k_out s /\
     sending start old dn ((q, d) :: op) s' (fun p => p = real_total dn + 33 \/ P p)) \/
  (cw_next_msg (V:=Z) (E:=Z) (Z.to_nat OUTPUT_WINDOW_SZ) s = (Throw ETimeout, s) /\
   ~ unmarked (real_total dn + 33) s).
Proof.
  intros Hs Hst. pose proof (sn_inv _ _ _ _ _ _ Hs) as Hi.
  pose proof (total_nonneg old). pose proof (si_stored _ _ _ _ Hi) as Hh.
  destruct (holds_split_at dn [] q d op s Hh) as (Hr0&Hr1&Hr2). rewrite app_nil_r in *.
  destruct (cw_next_msg_first_still _ _ _ _ _ _ Hi) as (v&b&Hg&_&Hu&Hrun). specialize (Hrun 999%nat).
  cbn [output_sent_buf_get_msg_at sk_sent_buf] in Hg.
  rewrite (get_msg_at_ok dn ((q, d) :: op) s Hh) in Hg. injection Hg as <-.
  change (Z.to_nat OUTPUT_WINDOW_SZ) with 1000%nat.
  change (real_total dn + offsetof_msg_data) with (real_total dn + 33) in *. destruct b.
  - assert (~ unmarked (real_total dn + 33) s) as Hm
      by (rewrite <- unmarked_used by lia; congruence).
    destruct Hst as [Hst|Hst].
    { destruct (sn_marks _ _ _ _ _ _ Hs [] (q, d) op eq_refl) as [Hp|Hp]; rewrite app_nil_r in Hp;
        [by destruct (Hst _ Hp)|done]. }
    right. split; [|done].
    rewrite Hrun. apply next_msg_loop_past. cbn [w_sent_off sender_win].
    pose proof (si_room _ _ _ _ Hi) as [_ Hr]. pose proof (total_nonneg dn).
    unfold OUTPUT_WINDOW_SZ in Hr. Z.to_euclidean_division_equations. lia.
  - left. destruct Hrun as (s'&Hn&[Hf _]&Hi'&_&_&He).
    destruct (frame_clocked _ _ Hf (sn_clocked _ _ _ _ _ _ Hs)) as [Hcl' Ho'].
    exists s'. split; [exact Hn|]. split; [exact Ho'|].
    apply (sending_slot start old dn [] q d op s s' P); try done; rewrite ?app_nil_r; auto.
    intros p [->|?]; auto.
Qed.

Lemma sending_take start old dn op s P p s' :
  sending start old dn op s P -> (forall p, ~ P p) \/ 256000 <= start + total old ->
  cw_next_msg (V:=Z) (E:=Z) (Z.to_nat OUTPUT_WINDOW_SZ) s = (Ret p, s') ->
  sending start old dn op s' (fun p' => p' = p \/ P p') /\ k_out s' = k_out s.
Proof.
  intros Hs Hst Hrun. destruct op as [|[q d] op].
  - destruct (next_msg_empty _ _ _ _ _ _ (sn_inv _ _ _ _ _ _ Hs) Hrun).
  - destruct (sending_take_run _ _ _ _ _ _ _ _ Hs Hst) as [(s1&Hr&Ho&Hs1)|[Hr _]]; [|congruence].
    rewrite Hrun in Hr. injection Hr as -> ->. done.
Qed.

(** Writing the header of the message at [p] back changes no other message. *)
Lemma sending_store start old dn op s P p q d m' :
  sending start old dn op s P -> P p -> place_ok (dn ++ op) s p q d -> sent_msg q d m' ->
  exists s', write_buf p sizeof_raw_msg (fun mm => store_header mm p m') s = (Ret tt, s') /\
    sending start old dn op s' P /\ same_rest s s'.
Proof.
  intros Hs Hp Hok Hm'. pose proof Hs as [H0 Hi Hcl Hn Hne Hal HP Hm].
  pose proof (si_stored _ _ _ _ Hi) as [Hsl Htot]. unfold OUTPUT_WINDOW_SZ in Htot.
  pose proof (place_size _ _ _ _ _ Hok) as Hsz. pose proof Hok as [_ [Hl0 Hl] [Hi0 Hi1] Hw].
  destruct (place_msg _ _ _ _ _ Hok) as (m&Hmm&Hraw&_).
  pose proof (length_encode_header m' (proj1 (proj2 (proj2 (sm_wf _ _ _ Hm'))))) as Hlen.
  set (a' := SendBufferArea (store_header (sb_buf (k_sb s)) p m') (sb_off_map (k_sb s)) (sb_end (k_sb s))).
  set (s1 := area_put a' s).
  assert (same_rest s s1) as Hsame by (apply same_rest_sb; done).
  assert (slot_at (sb_buf a') (p - 33) q d) as Hslot.
  { exists m'. split; [done|]. change offsetof_msg_data with 33.
    replace (p - 33 + 33) with p by lia.
    apply (raw_at_store_header _ _ m); [apply Hmm|apply Hm'| |done].
    by rewrite (sm_data _ _ _ Hmm), (sm_data _ _ _ Hm'). }
  assert (same_outside p (p + 72) s s1) as Hout.
  { intros x Hx. apply store_bytes_out. lia. }
  assert (holds (dn ++ op) s1) as Hh'.
  { split; [|done]. change (sbuf s1) with a'. destruct Hw as [(ms1&ms2&He&Hp1)|Hw].
    - rewrite He in *. apply (slots_rewrite (k_sb s)); try done; [lia|..].
      + intros x Hx. apply Hout. lia.
      + rewrite Z.add_0_l, <- Hp1. done.
    - apply (slots_ext (k_sb s)); try done; [lia|]. intros x Hx. apply Hout. lia. }
  exists s1. split; [|split; [|done]].
  - rewrite write_buf_ok; [done|].
    unfold in_buf. change sizeof_raw_msg with 72. unfold OUTPUT_SEND_BUF_SZ. lia.
  - split; try done; [by destruct Hi|..].
    + apply (places_move _ _ _ _ _ _ HP). intros p2 q2 d2 Hp2 Hok2.
      pose proof (place_size _ _ _ _ _ Hok2) as Hsz2. pose proof Hok2 as [Hs2 Hl2 Hi2 Hw2].
      split; try done. change (k_sb s1) with a'.
      destruct (Z.lt_trichotomy p2 p) as [Hlt|[->|Hgt]].
      * pose proof (ps_apart _ _ _ _ HP p2 p q2 d2 Hp2 Hp Hlt Hs2).
        apply (slot_at_ext _ _ _ _ _ Hs2). intros x Hx. apply Hout. lia.
      * destruct (slot_at_unique _ _ _ _ _ _ Hs2 (pl_slot _ _ _ _ _ Hok)) as [-> ->]. done.
      * pose proof (ps_apart _ _ _ _ HP p p2 q d Hp Hp2 Hgt (pl_slot _ _ _ _ _ Hok)).
        apply (slot_at_ext _ _ _ _ _ Hs2). intros x Hx. apply Hout. lia.
    + apply (marks_outside _ _ _ _ s s1 P P Hm (si_stored _ _ _ _ Hi) Hout); [|auto].
      intros o1 q1 d1 o2 He. cbn. set (r := real_total (dn ++ o1)).
      assert (in_slots (dn ++ op) r q1 d1) as Hin
        by (exists (dn ++ o1), o2; rewrite He, <- app_assoc; done).
      destruct Hw as [Hw|Hw]; [|pose proof (in_slots_end _ _ _ _ Hin); lia].
      destruct (Z.lt_trichotomy r (p - 33)) as [Hlt|[Heq|Hgt]].
      * pose proof (in_slots_apart _ _ _ _ _ _ _ Hin Hw Hlt). lia.
      * right. right. intros _. left. replace (r + 33) with p by lia. done.
      * pose proof (in_slots_apart _ _ _ _ _ _ _ Hw Hin Hgt). lia.
Qed.

(** What goes out is the message that is at the place. *)
Lemma sending_transmit start old dn op s P p :
  sending start old dn op s P -> P p ->
  exists q d m s', base_send_inplace sendto p s = (Ret tt, s') /\
    (q, d) ∈ old ++ dn ++ op /\ carries q d m /\ k_out s' = k_out s ++ [m] /\
    sending start old dn op s' P /\ place_ok (dn ++ op) s p q d.
Proof.
  intros Hs Hp. destruct (sn_clocked _ _ _ _ _ _ Hs) as [Hid Hts].
  destruct (ps_ok _ _ _ _ (sn_places _ _ _ _ _ _ Hs) p Hp) as (q&d&Hin&Hok).
  destruct (place_msg _ _ _ _ _ Hok) as (m&Hm&Hraw&Hat).
  set (m' := stamp (k_id s) (k_clock s) m).
  pose proof (stamp_sent_msg _ _ _ _ _ Hid Hts Hm) as Hm'. fold m' in Hm'.
  destruct (sending_store _ _ _ _ _ _ _ _ _ _ Hs Hp Hok Hm') as (s1&Hw&Hs1&Hsame).
  destruct (same_rest_sk _ _ Hsame) as ((_&_&_&Hid'&Hcl'&Hout'&_)&_).
  exists q, d, m', (add_out m' s1). split_and!.
  - rewrite (base_send_inplace_eq sendto _ m s Hat). mstep Hw.
    mstep (base_send_data_ok sendto sendto_takes_all q d m s1 Hm).
    rewrite Hid', Hcl'. done.
  - done.
  - by apply sent_msg_carries.
  - cbn. by rewrite Hout'.
  - apply (sending_same _ _ _ _ s1); try done. unfold clocked. cbn. by rewrite Hid', Hcl'.
  - done.
Qed.

End workers.

(** ** What the worker does when its wait is over *)

(** A poll of [output_send_finally] (429-430). *)
Definition worker_poll (p : Z) : M sk bool :=
  m ← msg_at p;
  sk_output_check_msg_complete m.

(** After the last poll (539-545). *)
Definition worker_finish (p : Z) : M sk unit :=
  m ← msg_at p;
  complete ← sk_output_check_msg_complete m;
  when (negb complete) (sk_output_on_retry m).

(** The check says whether the message at the place has been acknowledged. *)
Lemma sending_check start old dn op s P p :
  sending start old dn op s P -> P p ->
  exists q d m s', (q, d) ∈ old ++ dn ++ op /\ place_ok (dn ++ op) s p q d /\ sent_msg q d m /\
    msg_at p s = (Ret m, s) /\
    sk_output_check_msg_complete m s = (Ret (q <? start + total (old ++ dn)), s') /\
    sending start old dn op s' P /\ k_out s' = k_out s.
Proof.
  intros Hs Hp. pose proof Hs as [H0 Hi Hcl Hn Hne Hal HP Hm].
  destruct (ps_ok _ _ _ _ HP p Hp) as (q&d&Hin&Hok).
  destruct (place_msg _ _ _ _ _ Hok) as (m&Hmm&_&Hat).
  pose proof (si_room _ _ _ _ Hi) as [_ Hroom].
  pose proof (numbered_from start [] (old ++ dn ++ op) q d Hn Hin) as Hge. cbn [total] in Hge.
  assert (q + Z.of_nat (length d) <= start + total (old ++ dn ++ op)) as Hle
    by (apply (numbered_before start _ [] q d); [by rewrite app_nil_r|done]).
  rewrite total_app in Hle. pose proof Hok as [_ [Hl _] _ _].
  destruct (cw_check_still (start + total old) dn op m s Hi) as (s'&Hc&Hi'&Hst'&Hb');
    [rewrite (sm_seq _ _ _ Hmm); lia|].
  destruct (frame_clocked _ _ (proj1 Hst') Hcl) as [Hcl' Ho'].
  exists q, d, m, s'. split_and!; try done.
  - rewrite (sm_seq _ _ _ Hmm) in Hc. by rewrite (total_app old), Z.add_assoc.
  - split; try done.
    + apply (places_kept _ _ 0 0 s); [done|apply Hi'|exact Hb'|apply real_total_nonneg].
    + apply (marks_outside _ _ 0 0 s s' P P Hm (si_stored _ _ _ _ Hi) Hb'); [|auto].
      intros o1 q1 d1 o2 _. right. left. apply real_total_nonneg.
Qed.

Lemma sending_poll start old dn op s P p :
  sending start old dn op s P -> P p ->
  exists b s', worker_poll p s = (Ret b, s') /\ sending start old dn op s' P /\ k_out s' = k_out s.
Proof.
  intros Hs Hp. destruct (sending_check _ _ _ _ _ _ _ Hs Hp) as (q&d&m&s'&_&_&_&Hat&Hc&Hs').
  eexists _, s'. split; [|exact Hs']. unfold worker_poll. mstep Hat. exact Hc.
Qed.

(** A retry of an outstanding message. *)
Lemma sending_retry start old dn o1 q d o2 m s P P' :
  sending start old dn (o1 ++ (q, d) :: o2) s P -> get_seq m = q ->
  (forall p, P' p -> P p) -> (forall p, P p -> P' p \/ p = real_total (dn ++ o1) + 33) ->
  exists s', sk_output_on_retry m s = (Ret tt, s') /\
    sending start old dn (o1 ++ (q, d) :: o2) s' P' /\ k_out s' = k_out s /\
    unmarked (real_total (dn ++ o1) + 33) s'.
Proof.
  intros Hs Hq H1 H2.
  set (s1 := area_put (WindowControlArea (receiver_win_sz (k_wc s))
               (Z.max (congection_win_sz (k_wc s) `div` mult_arg) 1) (mtu (k_wc s))) s).
  assert (cwc_on_retry s = (Ret tt, s1)) as E1 by done.
  assert (sending start old dn (o1 ++ (q, d) :: o2) s1 P) as Hs1
    by (apply (sending_same _ _ _ _ s); try done; apply Hs).
  pose proof (sn_inv _ _ _ _ _ _ Hs1) as Hi1.
  destruct (cw_retry_still _ dn o1 q d o2 m s1 Hi1 Hq) as (v&s'&Hg&Hr&Hst&Hi'&_&Hu&Hb).
  pose proof (si_stored _ _ _ _ Hi1) as Hh. destruct (holds_split_at _ _ _ _ _ _ Hh) as (?&?&?).
  assert (v = real_total (dn ++ o1) + 33) as ->.
  { rewrite app_assoc in Hh. cbn [output_sent_buf_get_msg_at sk_sent_buf] in Hg.
    rewrite (get_msg_at_ok (dn ++ o1) ((q, d) :: o2) s1 Hh) in Hg. by injection Hg as <-. }
  destruct (frame_clocked _ _ (proj1 Hst) (sn_clocked _ _ _ _ _ _ Hs1)) as [Hcl' Ho'].
  assert (unmarked (real_total (dn ++ o1) + 33) s') as Hun by (apply unmarked_used; [lia|lia|exact Hu]).
  exists s'. split_and!; [|apply (sending_slot start old dn o1 q d o2 s1 s' P P'); auto|exact Ho'|exact Hun].
  - unfold sk_output_on_retry. mstep E1. exact Hr.
  - intros p Hp. destruct (H2 p Hp) as [?| ->]; auto.
Qed.

(** The worker gives its place up. *)
Lemma sending_finish start old dn op s P P' p :
  sending start old dn op s P -> P p ->
  (forall p', P' p' -> P p') -> (forall p', P p' -> P' p' \/ p' = p) ->
  exists s', worker_finish p s = (Ret tt, s') /\ sending start old dn op s' P' /\ k_out s' = k_out s.
Proof.
  intros Hs Hp H1 H2. pose proof Hs as [_ Hi _ Hn _ _ _ _].
  destruct (sending_check _ _ _ _ _ _ _ Hs Hp) as (q&d&m&s1&Hin&Hok&Hm&Hat&Hc&Hs1&Ho1).
  unfold worker_finish. rewrite (run_ret _ _ _ _ _ Hat), (run_ret _ _ _ _ _ Hc).
  pose proof (pl_len _ _ _ _ _ Hok) as [Hl _]. rewrite app_assoc in Hin, Hn.
  assert (forall o1 q' d' o2, op = o1 ++ (q', d') :: o2 -> p = real_total (dn ++ o1) + 33 -> q' = q)
    as Hat_op.
  { intros o1 q' d' o2 He ->. pose proof (si_stored _ _ _ _ Hi) as Hh.
    destruct (holds_in_slots (dn ++ op) s (real_total (dn ++ o1)) q' d' Hh) as (Hsl&_).
    { exists (dn ++ o1), o2. by rewrite He, <- app_assoc. }
    pose proof (pl_slot _ _ _ _ _ Hok) as Hsl2. rewrite Z.add_simpl_r in Hsl2.
    by destruct (slot_at_unique _ _ _ _ _ _ Hsl Hsl2). }
  destruct (Z.ltb_spec q (start + total (old ++ dn))) as [Hlt|Hge]; cbn [negb when].
  - exists s1. split; [done|]. split; [|done]. destruct Hs1 as [? ? ? ? ? ? HP1 Hm1].
    split; try done; [by apply (places_fewer _ _ _ P)|].
    intros o1 [q' d'] o2 He. destruct (Hm1 _ _ _ He) as [Hp'|?]; [|by right].
    destruct (H2 _ Hp') as [?|Heq]; [by left|exfalso].
    pose proof (Hat_op _ _ _ _ He (eq_sym Heq)) as ->.
    pose proof (numbered_from start _ op q d' Hn ltac:(rewrite He; set_solver)). lia.
  - assert ((q, d) ∈ op) as Hop.
    { apply elem_of_app in Hin as [Hin|Hin]; [|done]. exfalso.
      pose proof (numbered_before start _ op q d Hn Hin). lia. }
    apply list_elem_of_split in Hop as (o1&o2&->).
    destruct (decide (p = real_total (dn ++ o1) + 33)) as [Heq|Hneq].
    + destruct (sending_retry start old dn o1 q d o2 m s1 P P' Hs1 (sm_seq _ _ _ Hm) H1)
        as (s'&Hr&Hs'&Ho'&_); [intros p' Hp'; rewrite <- Heq; auto|].
      exists s'. split; [exact Hr|]. split; [done|congruence].
    + destruct (sending_retry start old dn o1 q d o2 m s1 P P Hs1 (sm_seq _ _ _ Hm))
        as (s'&Hr&Hs'&Ho'&_); [auto..|].
      exists s'. split; [exact Hr|]. split; [|congruence]. destruct Hs' as [? Hi' ? ? ? ? HP' Hm'].
      split; try done; [by apply (places_fewer _ _ _ P)|].
      intros o3 [q' d'] o4 He. destruct (Hm' _ _ _ He) as [Hp'|?]; [|by right].
      destruct (H2 _ Hp') as [?|He2]; [by left|exfalso]. apply Hneq.
      pose proof (Hat_op _ _ _ _ He (eq_sym He2)) as ->.
      rewrite (outstanding_number (start + total (old ++ dn)) o1 q d o2 o3 d' o4); [done|..|done].
      * apply numbered_app in Hn. apply Hn.
      * pose proof (sn_nonempty _ _ _ _ _ _ Hs) as Hne. rewrite app_assoc in Hne.
        by apply Forall_app in Hne as [_ Hne].
Qed.

(** ** Acknowledgements *)

(** Nothing is written, and the messages may have been acknowledged. *)
Lemma sending_advance start old dn now op s s' P :
  sending start old dn (now ++ op) s P -> sender_inv (start + total old) (dn ++ now) op s' ->
  clocked s' -> sk_elsewhere [] [] s s' -> sending start old (dn ++ now) op s' P.
Proof.
  intros [? Hi ? ? ? ? HP Hm] Hi' Hcl Hs. rewrite !app_assoc in *.
  split; rewrite <- ?app_assoc in *; try done.
  - apply (places_kept _ _ 0 0 s); [done| |exact Hs|apply real_total_nonneg].
    pose proof (si_stored _ _ _ _ Hi') as Hh. by rewrite <- app_assoc in Hh.
  - intros o1 [q d] o2 He. specialize (Hm (now ++ o1) (q, d) o2).
    rewrite <- app_assoc. unfold unmarked in *. change (k_sb s') with (sbuf s'). rewrite Hs by (cbn; lia).
    apply Hm. by rewrite He, app_assoc.
Qed.

Lemma sending_still start old dn op s s' P :
  sending start old dn op s P -> sender_inv (start + total old) dn op s' ->
  clocked s' -> sk_elsewhere [] [] s s' -> sending start old dn op s' P.
Proof.
  intros Hs Hi. rewrite <- (app_nil_r dn) in Hi. intros Hcl He.
  rewrite <- (app_nil_r dn). by apply (sending_advance start old dn [] op s).
Qed.

(** The window has been acknowledged: the buffer is used again from its
    beginning. *)
Lemma sending_refresh start old dn now s s' P :
  sending start old dn now s P -> sender_inv (start + total old + OUTPUT_WINDOW_SZ) [] [] s' ->
  total (dn ++ now) = OUTPUT_WINDOW_SZ -> clocked s' -> sk_elsewhere [] [] s s' ->
  sending start (old ++ dn ++ now) [] [] s' P.
Proof.
  intros [? Hi ? ? ? ? HP Hm] Hi' Ht Hcl Hs.
  split; rewrite ?app_nil_r; try done.
  - by rewrite (total_app old), Ht, Z.add_assoc.
  - rewrite (total_app old), Ht. apply Z.divide_add_r; [done|apply Z.divide_refl].
  - apply (places_refresh _ (dn ++ now) s); done.
  - intros o1 m o2 He. by destruct o1.
Qed.

(** The number of an acknowledgement: of the last byte acknowledged, or of the
    byte before the first number. *)
Lemma ack_number q n :
  q = u32 (n - 1) -> 0 <= n < modulus32 -> n = 0 /\ q = modulus32 - 1 \/ 1 <= n /\ q = n - 1.
Proof.
  intros -> Hn. destruct (Z.eq_dec n 0) as [->|?]; [by left|right].
  split; [lia|]. apply u32_small. lia.
Qed.

(** An acknowledgement of no byte that was still outstanding leaves the
    messages as they are, and a slot in use stays in use. *)
Lemma sending_ack_old start old dn op s P m x :
  sending start old dn op s P -> fourth_duplicate m s = false ->
  total x <= total (old ++ dn) -> start + total (old ++ dn ++ op) + 2000 < modulus32 ->
  start + total x = 0 /\ get_seq m = modulus32 - 1 \/
    1 <= start + total x /\ get_seq m = start + total x - 1 ->
  exists s', cw_on_ack (V:=Z) (E:=Z) m s = (Ret tt, s') /\ frame s s' /\
    sending start old dn op s' P.
Proof.
  intros Hs Hfd Hold Hwrap Hqs. pose proof (sn_start _ _ _ _ _ _ Hs) as Hst.
  pose proof (sn_inv _ _ _ _ _ _ Hs) as Hi. pose proof (sn_clocked _ _ _ _ _ _ Hs) as Hcl.
  pose proof (total_nonneg old). pose proof (total_nonneg dn). pose proof (total_nonneg x).
  pose proof (total_nonneg op). pose proof (total_app old (dn ++ op)) as Ht1.
  pose proof (total_app dn op) as Ht2. pose proof (total_app old dn) as Ht3.
  assert (exists s', cw_on_ack (V:=Z) (E:=Z) m s = (Ret tt, s') /\ frame s s' /\
    (clocked s' -> sending start old dn op s' P)) as (s'&Hr&Hf&Hs').
  { destruct (decide (total x = total (old ++ dn) /\ 1 <= start + total x)) as [[He Hpos]|Hneq].
    - destruct op as [|[q d] op].
      + destruct (ack_after_everything_still (start + total old) dn m s Hi) as (s'&?&[? _]&?&Hsb);
          [lia|lia|done|].
        exists s'. split_and!; [done..|]. intros Hcl'. apply (sending_still _ _ _ _ s); try done.
        by apply sk_elsewhere_same.
      + destruct (cw_on_ack_duplicate_still _ _ _ _ _ m s Hi) as (s'&?&[? _]&?&Hel&Hk); [lia|lia|].
        exists s'. split_and!; [done..|]. intros Hcl'.
        pose proof (si_stored _ _ _ _ Hi) as Hh.
        destruct (holds_split_at dn [] q d op s Hh) as (Hr0&Hr1&Hr2).
        apply (sending_slot start old dn [] q d op s s' P P); rewrite ?app_nil_r in *; auto.
        rewrite <- !unmarked_used by lia. intros Hu. right. apply Hk; [|done].
        cbn [output_sent_buf_get_msg_at sk_sent_buf].
        by rewrite (get_msg_at_ok dn ((q, d) :: op) s Hh).
    - destruct (cw_on_ack_ignored_still (start + total old) dn op m s Hi) as (s'&?&[? _]&?&?);
        [lia|unfold OUTPUT_WINDOW_SZ; lia|].
      exists s'. split_and!; [done..|]. intros Hcl'. by apply (sending_still _ _ _ _ s). }
  exists s'. split_and!; auto. apply Hs', (frame_clocked _ _ Hf Hcl).
Qed.

(** An acknowledgement of [now], the first messages outstanding: they are
    done, and a full window is left for the next one. *)
Lemma sending_ack_new start old dn now y s P m :
  sending start old dn (now ++ y) s P -> now <> [] ->
  get_seq m = start + total old + total (dn ++ now) - 1 ->
  start + total (old ++ dn ++ now ++ y) + 2000 < modulus32 ->
  exists s' old' dn' op',
    cw_on_ack (V:=Z) (E:=Z) m s = (Ret tt, s') /\ frame s s' /\
    sending start old' dn' op' s' P /\ old' ++ dn' ++ op' = old ++ dn ++ now ++ y /\
    old' ++ dn' = old ++ dn ++ now.
Proof.
  intros Hs Hnow Hq Hwrap.
  pose proof (sn_inv _ _ _ _ _ _ Hs) as Hi. pose proof (sn_clocked _ _ _ _ _ _ Hs) as Hcl.
  pose proof (total_nonneg dn). pose proof (total_nonneg (now ++ y)).
  pose proof (total_app old (dn ++ now ++ y)) as Ht1. pose proof (total_app dn (now ++ y)) as Ht2.
  destruct (cw_on_ack_run (start + total old) dn now y m s Hi Hnow)
    as (s'&Hr&Hf&Hi'&_&_&_&Hel); [lia|unfold OUTPUT_WINDOW_SZ; lia|].
  destruct (frame_clocked _ _ Hf Hcl) as [Hcl' Ho'].
  destruct (Z.eqb_spec (total (dn ++ now)) OUTPUT_WINDOW_SZ) as [Hfull|_].
  - destruct Hi' as [Hi' ->]. rewrite !app_nil_r in *.
    exists s', (old ++ dn ++ now), [], []. rewrite !app_nil_r. split_and!; auto.
    by apply (sending_refresh _ _ _ _ s).
  - exists s', old, (dn ++ now), y. split_and!; auto; [|by rewrite <- app_assoc].
    by apply (sending_advance _ _ _ _ _ s).
Qed.

(** The acknowledgement of everything up to [x]. *)
Lemma sending_ack start old dn op s P m x y :
  sending start old dn op s P -> fourth_duplicate m s = false ->
  old ++ dn ++ op = x ++ y -> get_seq m = u32 (start + total x - 1) ->
  start + total (old ++ dn ++ op) + 2000 < modulus32 ->
  exists s' old' dn' op',
    (cwc_on_ack m;; cw_on_ack (V:=Z) (E:=Z) m) s = (Ret tt, s') /\
    sending start old' dn' op' s' P /\ old' ++ dn' ++ op' = old ++ dn ++ op /\
    total (old' ++ dn') = Z.max (total x) (total (old ++ dn)) /\ k_out s' = k_out s.
Proof.
  intros Hs Hfd Hx Hq Hwrap. pose proof (sn_start _ _ _ _ _ _ Hs) as Hst.
  set (s1 := area_put (WindowControlArea (get_window_sz m)
    (u64 (congection_win_sz (k_wc s) + u64 (add_arg * mtu (k_wc s)))) (mtu (k_wc s))) s).
  assert (cwc_on_ack m s = (Ret tt, s1)) as E by done.
  assert (sending start old dn op s1 P) as Hs1 by (apply (sending_same _ _ _ _ s); try done; apply Hs).
  assert (forall s', cw_on_ack (V:=Z) (E:=Z) m s1 = (Ret tt, s') ->
    (cwc_on_ack m;; cw_on_ack (V:=Z) (E:=Z) m) s = (Ret tt, s')) as Hrun
    by (intros s' H'; mstep E; exact H').
  change (k_out s) with (k_out s1). change (fourth_duplicate m s1 = false) in Hfd.
  pose proof (sn_clocked _ _ _ _ _ _ Hs1) as Hcl.
  pose proof (sn_nonempty _ _ _ _ _ _ Hs1) as Hne.
  clearbody s1. clear E Hs.
  pose proof (total_nonneg old). pose proof (total_nonneg x). pose proof (total_nonneg (old ++ dn)).
  assert (total x <= total (old ++ dn ++ op)) as Hxle
    by (rewrite Hx, (total_app x); pose proof (total_nonneg y); lia).
  assert (start + total x = 0 /\ get_seq m = modulus32 - 1 \/
    1 <= start + total x /\ get_seq m = start + total x - 1) as Hqs by (apply ack_number; [done|lia]).
  clear Hq. destruct (Z.le_gt_cases (total x) (total (old ++ dn))) as [Hold|Hnew].
  - destruct (sending_ack_old start old dn op s1 P m x Hs1 Hfd Hold Hwrap Hqs) as (s'&Hr&Hf&Hs').
    destruct (frame_clocked _ _ Hf Hcl) as [_ Ho'].
    exists s', old, dn, op. split_and!; auto. lia.
  - rewrite app_assoc in Hx, Hne.
    destruct (split_le (old ++ dn) op x y Hne Hx ltac:(lia)) as (now&->&->).
    assert (now <> []) as Hnow by (intros ->; rewrite app_nil_r in Hnew; lia).
    destruct Hqs as [[? _]|[_ Hq]]; [lia|].
    destruct (sending_ack_new start old dn now y s1 P m Hs1 Hnow) as (s'&old'&dn'&op'&Hr&Hf&Hs'&Happ&Hdone);
      [rewrite !total_app in *; lia|done|].
    destruct (frame_clocked _ _ Hf Hcl) as [_ Ho'].
    exists s', old', dn', op'. split_and!; auto. rewrite Hdone, app_assoc. lia.
Qed.

(** Every sender, with the places of its outstanding messages for those in
    use. *)
Definition outstanding (dn op : sent) (p : Z) : Prop :=
  exists o1 m o2, op = o1 ++ m :: o2 /\ p = real_total (dn ++ o1) + 33.

Lemma sending_outstanding start old dn op s :
  0 <= start -> sender_inv (start + total old) dn op s -> clocked s ->
  numbered start (old ++ dn ++ op) -> nonempty_msgs (old ++ dn ++ op) ->
  (OUTPUT_WINDOW_SZ | total old) -> sending start old dn op s (outstanding dn op).
Proof.
  intros H0 Hi Hcl Hn Hne Hal. pose proof (si_stored _ _ _ _ Hi) as Hh.
  assert (forall p, outstanding dn op p -> exists q d, (q, d) ∈ old ++ dn ++ op /\
    in_slots (dn ++ op) (p - 33) q d) as Hslots.
  { intros p (o1&[q d]&o2&->&->). exists q, d. split; [set_solver|].
    exists (dn ++ o1), o2. split; [by rewrite <- app_assoc|lia]. }
  split; try done.
  - split.
    + intros p Hp. destruct (Hslots p Hp) as (q&d&Hin&Hsl). exists q, d. split; [done|].
      destruct (holds_in_slots _ _ _ _ _ Hh Hsl) as (?&?&?&?&?). split; auto.
    + intros p1 p2 q d Hp1 Hp2 Hlt Hs.
      destruct (Hslots p1 Hp1) as (q1&d1&_&Hsl1). destruct (Hslots p2 Hp2) as (q2&d2&_&Hsl2).
      destruct (holds_in_slots _ _ _ _ _ Hh Hsl1) as (Hs1&_).
      destruct (slot_at_unique _ _ _ _ _ _ Hs Hs1) as [-> ->].
      eapply in_slots_apart; [exact Hsl1|exact Hsl2|lia].
  - intros o1 m o2 He. left. by exists o1, m, o2.
Qed.
