(* ===== verification/ChannelOps.v ===== *)
(** * ChannelOps: one direction of a connection keeps its stream

    The invariant of one direction - the sender's window, what is on its way,
    the receiver's window, all pieces of one list of numbered messages - and
    the operations of either side that keep it.  [NetOps] puts two directions
    together. *)
From S2P Require Import Prelude Window Message Transfer ProtoMem Congestion FastRetransmit.
From S2P Require Import SendBuffer Inplace Slots SlotOps Cumulative CumulativeOps Input InputOps.
From S2P Require Import Socket SenderModel ReceiverModel Frames Channel Places.

Section ops.
Context (sendto : sockaddr_in -> bytes -> Z) {client : Client}.
Hypothesis sendto_takes_all : forall a d, sendto a d = Z.of_nat (length d).

#[local] Instance ops_lock : InputLock sk := chan_lock sendto.
#[local] Instance ops_input : InputController sk := chan_input sendto.
#[local] Instance ops_laws : ReceiverLaws sk := chan_laws sendto sendto_takes_all.

(** ** The invariant

    All messages so far are [old ++ dn ++ op]: those of windows left behind,
    and the acknowledged and the outstanding ones of the sender's window, the
    first byte numbered [start].  The receiver has the messages [got]. *)
Record link (start : Z) (old dn op got rest : sent) (c : channel) : Prop := {
  li_sent : map snd (old ++ dn ++ op) = c_sent c;
  li_numbered : numbered start (old ++ dn ++ op);
  li_nonempty : nonempty_msgs (old ++ dn ++ op);
  li_snd : sender_inv (start + total old) dn op (c_snd c);
  li_clocked : clocked (c_snd c);
  li_split : old ++ dn ++ op = got ++ rest;
  li_rcv : receiver_inv (c_rcv c);
  li_expected : expected (c_rcv c) = start + total got;
  li_received : received (c_rcv c) = flat got;
  li_acked : total (old ++ dn) <= total got;
  li_out : forall m, m ∈ k_out (c_snd c) -> is_usual m = true ->
    exists x q d y, old ++ dn ++ op = x ++ (q, d) :: y /\ carries q d m;
  li_acks : forall m, m ∈ k_out (c_rcv c) -> is_usual m = false ->
    pure_ack m /\ exists x y, old ++ dn ++ op = x ++ y /\ total x <= total got /\
      get_seq m = u32 (start + total x - 1);
  li_snd_aligned : (OUTPUT_WINDOW_SZ | total old);
  li_rcv_aligned : (INPUT_WINDOW_SZ | iw_start (k_iw (c_rcv c)) - start);
}.

(** Established, with nothing sent yet; the sender's first byte is the one the
    receiver expects. *)
Record connected (start : Z) (c : channel) : Prop := {
  co_snd : sender_inv start [] [] (c_snd c);
  co_clocked : clocked (c_snd c);
  co_rcv : receiver_inv (c_rcv c);
  co_start : iw_start (k_iw (c_rcv c)) = start;
  co_expected : expected (c_rcv c) = start;
  co_received : received (c_rcv c) = [];
  co_out : k_out (c_snd c) = [] /\ k_out (c_rcv c) = [];
  co_sent : c_sent c = [];
}.

Lemma connected_link start c : connected start c -> link start [] [] [] [] [] c.
Proof.
  intros [? ? ? Hs He Hr [Ho Hi] Hsent]. split; cbn [app map]; try done.
  - constructor.
  - cbn [total]. rewrite Z.add_0_r. done.
  - rewrite He. cbn. lia.
  - rewrite Ho. intros m Hm. inversion Hm.
  - rewrite Hi. intros m Hm. inversion Hm.
  - apply Z.divide_0_r.
  - rewrite Hs, Z.sub_diag. apply Z.divide_0_r.
Qed.

(** No number has reached the end of the number space, with room for two
    windows. *)
Definition in_space (start : Z) (c : channel) : Prop :=
  0 <= start /\ start + Z.of_nat (length (concat (c_sent c))) + 2000 < modulus32.

Lemma link_total start old dn op got rest c :
  link start old dn op got rest c ->
  total (old ++ dn ++ op) = Z.of_nat (length (concat (c_sent c))).
Proof. intros Hl. rewrite <- (li_sent _ _ _ _ _ _ _ Hl), <- length_flat. done. Qed.

Lemma link_got start old dn op got rest c :
  link start old dn op got rest c ->
  total got + total rest = Z.of_nat (length (concat (c_sent c))) /\ 0 <= total got /\ 0 <= total rest.
Proof.
  intros Hl. rewrite <- (link_total _ _ _ _ _ _ _ Hl), (li_split _ _ _ _ _ _ _ Hl), total_app.
  pose proof (total_nonneg got). pose proof (total_nonneg rest). lia.
Qed.

(** ** The sender's steps *)

(** A step of the sender after which all messages so far are the same. *)
Lemma link_resplit start old dn op old' dn' op' got rest c s' :
  link start old dn op got rest c -> sender_inv (start + total old') dn' op' s' -> clocked s' ->
  old' ++ dn' ++ op' = old ++ dn ++ op -> (OUTPUT_WINDOW_SZ | total old') ->
  total (old' ++ dn') <= total got ->
  (forall m, m ∈ k_out s' -> is_usual m = true -> m ∈ k_out (c_snd c) \/
     exists x q d y, old ++ dn ++ op = x ++ (q, d) :: y /\ carries q d m) ->
  link start old' dn' op' got rest (Channel s' (c_rcv c) (c_sent c)).
Proof.
  intros [] Hi Hcl He Hal Hle Ho. split; cbn [c_snd c_rcv c_sent]; rewrite ?He; try done.
  intros m Hm Hu. destruct (Ho m Hm Hu); eauto.
Qed.

(** One that leaves its messages as they are. *)
Lemma link_snd start old dn op got rest c s' :
  link start old dn op got rest c -> sender_inv (start + total old) dn op s' -> clocked s' ->
  (forall m, m ∈ k_out s' -> is_usual m = true -> m ∈ k_out (c_snd c) \/
     exists x q d y, old ++ dn ++ op = x ++ (q, d) :: y /\ carries q d m) ->
  link start old dn op got rest (Channel s' (c_rcv c) (c_sent c)).
Proof. intros Hl Hi Hcl Ho. by apply (link_resplit start old dn op); try apply Hl. Qed.

Lemma link_send start old dn op got rest c d r s' :
  link start old dn op got rest c -> (0 < length d)%nat -> Forall is_byte d ->
  cw_send (E:=Z) (tmp_msg d) (c_snd c) = (Ret r, s') ->
  let m := (start + total (old ++ dn ++ op), d) in
  link start old dn (op ++ [m]) got (rest ++ [m]) (Channel s' (c_rcv c) (c_sent c ++ [d])).
Proof.
  intros Hl Hd Hb Hrun. pose proof Hl as [H1 H2 H3 H4 H5 H6 H7 H8 H9 H10 H11 H12 H13 H14].
  destruct (Z.le_gt_cases (total (dn ++ op) + Z.of_nat (length d)) OUTPUT_WINDOW_SZ) as [Hfit|Hfit].
  2:{ rewrite (cw_send_drops _ _ _ _ _ H4) in Hrun by lia. done. }
  destruct (cw_send_ok _ _ _ _ _ H4 Hd Hb Hfit) as (e&s1&Hrun'&Hi'&Hf).
  rewrite Hrun in Hrun'. injection Hrun' as _ ->.
  destruct (frame_clocked _ _ Hf H5) as [Hcl' Ho'].
  cbn zeta. replace (start + total (old ++ dn ++ op)) with (start + total old + total (dn ++ op))
    by (rewrite (total_app old); lia).
  set (m := (start + total old + total (dn ++ op), d)) in *.
  assert (old ++ dn ++ op ++ [m] = (old ++ dn ++ op) ++ [m]) as Happ by (rewrite <- !app_assoc; done).
  split; cbn [c_snd c_rcv c_sent]; rewrite ?Happ; try done.
  - rewrite map_app, H1. done.
  - apply numbered_app. split; [done|]. cbn. rewrite (total_app old). split; [lia|done].
  - apply Forall_app. split; [done|]. constructor; [done|constructor].
  - rewrite H6, <- app_assoc. done.
  - intros m' Hm' Hu. rewrite Ho' in Hm'. destruct (H11 m' Hm' Hu) as (x&q&d'&y&He&Hc).
    exists x, q, d', (y ++ [m]). rewrite He, <- app_assoc. done.
  - intros m' Hm' Hu. destruct (H12 m' Hm' Hu) as (Hpa&x&y&He&Hx&Hq). split; [done|].
    exists x, (y ++ [m]). rewrite He, <- app_assoc. done.
Qed.

(** ** The receiver's steps *)

(** A step of the receiver after which it has [got']. *)
Lemma link_rcv start old dn op got rest got' rest' c r' :
  link start old dn op got rest c -> receiver_inv r' ->
  old ++ dn ++ op = got' ++ rest' -> total got <= total got' ->
  expected r' = start + total got' -> received r' = flat got' ->
  (forall m, m ∈ k_out r' -> is_usual m = false ->
     m ∈ k_out (c_rcv c) \/ (pure_ack m /\ get_seq m = u32 (start + total got' - 1))) ->
  (INPUT_WINDOW_SZ | iw_start (k_iw r') - iw_start (k_iw (c_rcv c))) ->
  link start old dn op got' rest' (Channel (c_snd c) r' (c_sent c)).
Proof.
  intros [] Hi Hs Hg He Hr Ho Hal. split; cbn [c_snd c_rcv c_sent]; try done.
  - lia.
  - intros m Hm Hu. destruct (Ho m Hm Hu) as [Hm1|[Hpa Hq]].
    + destruct (li_acks0 m Hm1 Hu) as (Hpa&x&y&?&?&?). split; [done|].
      exists x, y. split_and!; [done|lia|lia].
    + split; [done|]. exists got', rest'. split_and!; [done|lia|done].
  - replace (iw_start (k_iw r') - start) with
      (iw_start (k_iw r') - iw_start (k_iw (c_rcv c)) + (iw_start (k_iw (c_rcv c)) - start)) by lia.
    apply Z.divide_add_r; done.
Qed.

(** The receiver's number space is not used up. *)
Lemma link_rcv_room start old dn op got rest c :
  link start old dn op got rest c -> in_space start c ->
  iw_start (k_iw (c_rcv c)) + 2 * INPUT_WINDOW_SZ < modulus32.
Proof.
  intros Hl [_ Hw]. pose proof (link_got _ _ _ _ _ _ _ Hl) as (?&?&?).
  pose proof (li_expected _ _ _ _ _ _ _ Hl) as He. unfold expected, iwa in He. cbn in He.
  pose proof (ri_off _ (li_rcv _ _ _ _ _ _ _ Hl)) as [[? ?] _]. unfold iwa in *. cbn in *.
  unfold INPUT_WINDOW_SZ. lia.
Qed.

Lemma keeps_acks (s s' : sk) l :
  sender_kept s s' -> acks s' = acks s ++ l ->
  exists out, k_out s' = k_out s ++ out /\ Forall pure_ack out /\
    map (fun m => (get_seq m, get_window_sz m)) out = l.
Proof.
  intros Hk Ha. destruct (sk_acks_only _ _ Hk) as (out&Ho&Hp). exists out.
  split_and!; [done..|]. cbn in Ha. unfold sk_acks in Ha. rewrite Ho, map_app in Ha.
  by apply app_inv_head in Ha.
Qed.

Lemma acks_member (s s' : sk) q w m :
  sender_kept s s' -> acks s' = acks s ++ [(q, w)] -> m ∈ k_out s' ->
  m ∈ k_out s \/ (pure_ack m /\ get_seq m = q).
Proof.
  intros Hk Ha Hm. destruct (keeps_acks _ _ _ Hk Ha) as (out&Ho&Hp&Hq).
  rewrite Ho in Hm. apply elem_of_app in Hm as [Hm|Hm]; [by left|right].
  destruct out as [|m1 [|]]; [done| |done]. injection Hq as Hq _.
  apply list_elem_of_singleton in Hm as ->. split; [by apply Forall_inv in Hp|done].
Qed.

Lemma deliver_keeps m (s s' : sk) : iw_on_msg m s = (Ret tt, s') -> sender_kept s s'.
Proof. apply preserves_run, keeps_on_msg, keeps_reader. Qed.

Lemma read_keeps n d (s s' : sk) : client_flush_request n s = (Ret d, s') -> sender_kept s s'.
Proof. apply preserves_run, keeps_client_flush, keeps_reader. Qed.

Lemma link_deliver_run start old dn op got rest c m x q d y :
  link start old dn op got rest c -> in_space start c ->
  old ++ dn ++ op = x ++ (q, d) :: y -> carries q d m ->
  exists r' got' rest' w,
    iw_on_msg m (c_rcv c) = (Ret tt, r') /\
    link start old dn op got' rest' (Channel (c_snd c) r' (c_sent c)) /\
    acks r' = acks (c_rcv c) ++ [(u32 (start + total got' - 1), w)] /\
    (if (total x =? total got) &&
        (q + Z.of_nat (length d) <=? iw_start (k_iw (c_rcv c)) + INPUT_WINDOW_SZ)
     then got' = got ++ [(q, d)] else got' = got) /\
    k_user (c_rcv c) `prefix_of` k_user r' /\ sender_kept (c_rcv c) r' /\ 1 <= w.
Proof.
  intros Hl Hw Hx [Hq Hlen Hd _]. pose proof (link_got _ _ _ _ _ _ _ Hl) as (Hgr&Hg0&Hr0).
  pose proof (link_total _ _ _ _ _ _ _ Hl) as Htot. pose proof (total_nonneg x).
  pose proof Hw as [Hst Hwr]. pose proof (li_numbered _ _ _ _ _ _ _ Hl) as Hnum.
  pose proof (li_nonempty _ _ _ _ _ _ _ Hl) as Hne. rewrite Hx in Hnum, Hne.
  apply numbered_app in Hnum as [_ [Hqx _]]. rewrite Hx, total_app in Htot. cbn [total] in Htot.
  assert (0 < length d)%nat as Hd0
    by (apply Forall_app in Hne as [_ Hne]; inversion Hne; done).
  pose proof (total_nonneg y).
  assert (get_data_len m = Z.of_nat (length d)) as Hgl by done.
  destruct (iw_on_msg_ok m (c_rcv c) (li_rcv _ _ _ _ _ _ _ Hl)) as (r'&w&Hrun&Hi'&Hacc&Ha&[Hw1 _]&Hal&Hpre);
    [lia|lia|congruence|eapply link_rcv_room; done|].
  rewrite Hq, Hgl, (li_expected _ _ _ _ _ _ _ Hl) in Hacc.
  pose proof (deliver_keeps _ _ _ Hrun) as Hk.
  assert ((q =? start + total got) = (total x =? total got)) as Heqb by lia. rewrite Heqb in Hacc.
  change (iw_start (iwa (c_rcv c))) with (iw_start (k_iw (c_rcv c))) in Hacc.
  destruct (_ && _) eqn:Hfit in Hacc; rewrite Hfit; destruct Hacc as [Hr' He'].
  - apply andb_true_iff in Hfit as [Hxg _]. apply Z.eqb_eq in Hxg.
    rewrite <- Hx in Hne. pose proof (li_split _ _ _ _ _ _ _ Hl) as Hsp. pose proof Hne as Hne2.
    rewrite Hsp in Hne2. rewrite Hx in Hsp. symmetry in Hsp.
    destruct (split_eq _ _ _ _ Hne2 Hsp ltac:(lia)) as [<- ->].
    assert (total (got ++ [(q, d)]) = total got + Z.of_nat (length d)) as Ht'
      by (rewrite total_app; cbn; lia).
    assert (u32 (expected r' - 1) = u32 (start + total (got ++ [(q, d)]) - 1)) as Hack
      by (f_equal; rewrite He', Ht'; lia).
    rewrite Hack in Ha.
    exists r', (got ++ [(q, d)]), y, w. split; [exact Hrun|]. split; [|done].
    apply (link_rcv _ _ _ _ _ _ _ _ _ _ Hl Hi').
    + rewrite Hx, <- app_assoc. done.
    + lia.
    + lia.
    + rewrite Hr', (li_received _ _ _ _ _ _ _ Hl), flat_app, Hd. unfold flat at 3. cbn.
      rewrite app_nil_r. done.
    + intros m' Hm' _. exact (acks_member _ _ _ _ _ Hk Ha Hm').
    + exact Hal.
  - assert (u32 (expected r' - 1) = u32 (start + total got - 1)) as Hack
      by (by rewrite He').
    rewrite Hack in Ha.
    exists r', got, rest, w. split; [exact Hrun|]. split; [|done].
    apply (link_rcv _ _ _ _ _ _ _ _ _ _ Hl Hi'); try apply Hl; try lia; try done.
    + rewrite Hr'. apply Hl.
    + intros m' Hm' _. exact (acks_member _ _ _ _ _ Hk Ha Hm').
Qed.

Lemma pending_nonempty (s : sk) :
  receiver_inv s -> iw_flushed_off (k_iw s) < iw_off (k_iw s) -> pending s <> [].
Proof.
  intros Hi Hlt He. pose proof (length_pending s Hi) as Hl. rewrite He in Hl.
  unfold iwa in Hl. cbn in Hl. lia.
Qed.

(** The client's request, whether anything is pending or not. *)
Lemma link_read start old dn op got rest c n d r' :
  link start old dn op got rest c -> 0 <= n ->
  client_flush_request n (c_rcv c) = (Ret d, r') ->
  link start old dn op got rest (Channel (c_snd c) r' (c_sent c)).
Proof.
  intros Hl Hn Hrun.
  destruct (client_flush_returns n (c_rcv c) d r' (li_rcv _ _ _ _ _ _ _ Hl) Hn Hrun)
    as (_&Hi'&_&Hr'&He'&Ha'&Hst').
  apply (link_rcv _ _ _ _ _ _ _ _ _ _ Hl Hi'); try apply Hl; try lia.
  - rewrite He'. apply Hl.
  - rewrite Hr'. apply Hl.
  - intros m Hm _. left. rewrite <- (app_nil_r (acks (c_rcv c))) in Ha'.
    destruct (keeps_acks _ _ _ (read_keeps _ _ _ _ Hrun) Ha') as ([|]&Ho&_&?); [|done].
    by rewrite Ho, app_nil_r in Hm.
  - unfold iwa in Hst'. cbn in Hst'. rewrite Hst', Z.sub_diag. apply Z.divide_0_r.
Qed.

(** ** Progress *)

(** The receiver's window and the sender's have the same bounds, so that the
    first outstanding message, when it is the next one expected, fits. *)
Lemma link_fits start old dn q d op got rest c :
  link start old dn ((q, d) :: op) got rest c -> total (old ++ dn) = total got ->
  q + Z.of_nat (length d) <= iw_start (k_iw (c_rcv c)) + INPUT_WINDOW_SZ.
Proof.
  intros Hl He. pose proof (li_snd _ _ _ _ _ _ _ Hl) as [_ _ _ Hn _ [Hd Hr]].
  destruct (li_snd_aligned _ _ _ _ _ _ _ Hl) as [k Hk].
  destruct (li_rcv_aligned _ _ _ _ _ _ _ Hl) as [j Hj].
  pose proof (li_expected _ _ _ _ _ _ _ Hl) as Hex.
  pose proof (li_rcv _ _ _ _ _ _ _ Hl) as [_ _ _ [? ?]].
  unfold expected, iwa in *. cbn in Hex, H, H0.
  apply numbered_app in Hn as [_ [Hq _]]. rewrite total_app in He. rewrite total_app in Hr.
  cbn [total] in Hr. pose proof (total_nonneg dn). pose proof (total_nonneg op).
  unfold INPUT_WINDOW_SZ, OUTPUT_WINDOW_SZ in *. nia.
Qed.

Lemma link_all_got start old dn got rest c :
  link start old dn [] got rest c -> received (c_rcv c) = concat (c_sent c).
Proof.
  intros Hl. pose proof (li_split _ _ _ _ _ _ _ Hl) as Hs. rewrite app_nil_r in Hs.
  pose proof (li_nonempty _ _ _ _ _ _ _ Hl) as Hn. rewrite app_nil_r, Hs in Hn.
  pose proof (li_acked _ _ _ _ _ _ _ Hl) as Ha. rewrite Hs, total_app in Ha.
  rewrite (li_received _ _ _ _ _ _ _ Hl), <- (li_sent _ _ _ _ _ _ _ Hl), app_nil_r, Hs.
  destruct rest as [|m rest]; [rewrite app_nil_r; done|].
  apply Forall_app in Hn as [_ Hn]. pose proof (total_pos (m :: rest) Hn ltac:(done)). lia.
Qed.

End ops.
