(* ===== verification/WorkerOps.v ===== *)
(** * WorkerOps: a round of the sending worker

    [output_send_buf_worker::do_job] and [output_send_finally] of
    [src/src/newimpl.cpp] when no other thread moves the window meanwhile: the
    message goes out once, the polling ends, and the message is left to be
    sent again. *)
From S2P Require Import Prelude Window Message Transfer ProtoMem Congestion Timeout.
From S2P Require Import SendBuffer Inplace Slots SlotOps Cumulative CumulativeOps.
From S2P Require Import Socket SenderModel ReceiverModel Channel.

(** The same socket with other semaphore counts. *)
Definition with_sems (f : sem_name -> Z) (s : sk) : sk :=
  Sk (k_state s) (k_wc s) (k_cw s) (k_sb s) (k_to s) (k_fr s) (k_iw s) (k_ib s) (k_fut s)
    f (k_id s) (k_clock s) (k_out s) (k_user s) (k_in s) (k_est s) (k_cl s).

(** The message at [p] is there and is not marked used. *)
Definition left_unused (p : Z) (s : sk) : Prop := is_msg_used (St:=sk) (V:=Z) p s = (Ret false, s).

Lemma with_sems_self s : with_sems (k_sems s) s = s.
Proof. destruct s; done. Qed.

Lemma flush_same w (s : sk) : k_cw s = area_of w -> flush w s = (Ret tt, s).
Proof. intros H. unfold flush, mem_put, modify. rewrite <- H. destruct s; done. Qed.

(** The first outstanding message is not complete. *)
Lemma first_not_complete base dn q d op m (s s' : sk) :
  sender_inv base dn ((q, d) :: op) s -> get_seq m = q -> k_cw s' = k_cw s ->
  sk_output_check_msg_complete m s' = (Ret false, s').
Proof.
  intros Hi Hm Hcw. pose proof Hi as [Ha Hst Hsto Hn Hne Hr].
  apply numbered_app in Hn as [_ [Hq _]]. pose proof (total_nonneg dn).
  unfold cwa in Ha. cbn in Ha. rewrite <- Hcw in Ha.
  unfold sk_output_check_msg_complete, cw_check_msg_complete.
  assert (setup s' = (Ret (sender_win base dn ((q, d) :: op)), s')) as Hset
    by (unfold setup; rewrite bind_unfold; cbn; rewrite Ha; done).
  mstep Hset. mstep (flush_same _ s' Ha). unfold msg_in_win.
  rewrite contains_single_in_space
    by (try (eapply sender_win_in_space; exact Hi); lia).
  rewrite (sender_win_begin _ _ _ _ Hi), (sender_win_end _ _ _ _ Hi).
  unfold mret, M_ret. do 2 f_equal. unfold OUTPUT_WINDOW_SZ in *. lia.
Qed.

Lemma msg_at_eq p (s : sk) : msg_at p s = (Ret (load_msg (sb_buf (k_sb s)) p), s).
Proof. done. Qed.

(** The polling loop ends, at the latest when its time is up. *)
Lemma poll_times_out p m fuel summary timeout_ (s : sk) :
  (forall s', k_sb s' = k_sb s -> msg_at p s' = (Ret m, s')) ->
  (forall s', k_cw s' = k_cw s -> sk_output_check_msg_complete m s' = (Ret false, s')) ->
  0 <= k_sems s SEND_WORKER_LOCK -> timeout_ - summary <= 100 * Z.of_nat fuel ->
  exists f, poll_complete alone fuel p summary timeout_ s = (Ret tt, with_sems f s) /\
    f SEND_WORKER_LOCK = k_sems s SEND_WORKER_LOCK.
Proof.
  intros Hm Hc Hl Hf. revert summary s Hm Hc Hl Hf.
  induction fuel as [|fuel IH]; intros summary s Hm Hc Hl Hf; cbn [poll_complete].
  - rewrite (proj2 (Z.ltb_ge _ _)) by lia. exists (k_sems s). rewrite with_sems_self. done.
  - destruct (Z.ltb_spec summary timeout_) as [Hlt|Hge];
      [|exists (k_sems s); rewrite with_sems_self; done].
    mstep (Hm s eq_refl). mstep (Hc s eq_refl).
    set (s1 := set_sem SEND_WORKER_LOCK (k_sems s SEND_WORKER_LOCK + 1) s).
    assert (sem_post SEND_WORKER_LOCK s = (Ret tt, s1)) as E1 by done. mstep E1.
    assert (alone AtSleep s1 = (Ret tt, s1)) as E2 by done. mstep E2.
    assert (k_sems s1 SEND_WORKER_LOCK = k_sems s SEND_WORKER_LOCK + 1) as Hs1 by apply sems_same.
    mstep (sem_wait_alone SEND_WORKER_LOCK s1 ltac:(lia)).
    set (s2 := set_sem _ _ s1).
    assert (k_sems s2 SEND_WORKER_LOCK = k_sems s SEND_WORKER_LOCK) as Hs2
      by (unfold s2; rewrite sems_same, Hs1; lia).
    destruct (IH (summary + 100) s2) as (f&Hr&Hfl); [exact Hm|exact Hc|lia|lia|].
    exists f. rewrite Hfl. split; [exact Hr|exact Hs2].
Qed.

Section worker.
Context (sendto : sockaddr_in -> bytes -> Z).
Hypothesis sendto_takes_all : forall a d, sendto a d = Z.of_nat (length d).

(** [output_send_finally] with nobody else running. *)
Lemma send_finally_ok base dn q d op (s : sk) :
  sender_inv base dn ((q, d) :: op) s -> clocked s -> 0 <= k_sems s SEND_WORKER_LOCK ->
  exists m s', sk_output_send_finally sendto alone (real_total dn + 33) s = (Ret tt, s') /\
    sender_inv base dn ((q, d) :: op) s' /\ clocked s' /\ k_out s' = k_out s ++ [m] /\
    carries q d m /\ k_sems s' SEND_WORKER_LOCK = k_sems s SEND_WORKER_LOCK.
Proof.
  intros Hi Hcl Hl. unfold sk_output_send_finally.
  assert (exists t, get_timeout s = (Ret t, s)) as (t&Et) by (eexists; reflexivity).
  mstep Et.
  set (s1 := set_sem SEND_WORKER_LOCK (k_sems s SEND_WORKER_LOCK + 1) s).
  assert (sem_post SEND_WORKER_LOCK s = (Ret tt, s1)) as E1 by done. mstep E1.
  assert (k_sems s1 SEND_WORKER_LOCK = k_sems s SEND_WORKER_LOCK + 1) as Hs1 by apply sems_same.
  assert (sender_inv base dn ((q, d) :: op) s1) as Hi1
    by (apply (sender_inv_other _ _ _ s); done).
  destruct (base_send_inplace_ok sendto sendto_takes_all _ _ _ _ _ s1 Hi1 Hcl)
    as (m&s2&E2&Hi2&Hcl2&Ho2&Hm&Hk2). mstep E2.
  pose proof (kp_sems _ _ Hk2 SEND_WORKER_LOCK ltac:(done)) as Hl2.
  mstep (sem_wait_alone SEND_WORKER_LOCK s2 ltac:(lia)).
  set (s3 := set_sem _ _ s2).
  assert (k_sems s3 SEND_WORKER_LOCK = k_sems s SEND_WORKER_LOCK) as Hs3
    by (unfold s3; rewrite sems_same; lia).
  assert (sender_inv base dn ((q, d) :: op) s3) as Hi3
    by (apply (sender_inv_other _ _ _ s2); done).
  destruct (holds_first_message dn q d op s3 (si_stored _ _ _ _ Hi3)) as (m0&Hm0&Hat).
  destruct (poll_times_out (real_total dn + 33) m0 (Z.to_nat (s64 t `div` 100 + 1)) 0 (s64 t) s3)
    as (f&Hr&Hfl).
  - intros s' Hs'. rewrite msg_at_eq in *. rewrite Hs'.
    pose proof (f_equal fst Hat) as Hm0'. cbn [fst] in Hm0'. rewrite Hm0'. done.
  - intros s' Hs'. apply (first_not_complete base dn q d op m0 s3 s'); [done|apply Hm0|done].
  - lia.
  - destruct (Z.le_gt_cases 0 (s64 t)); Z.to_euclidean_division_equations; lia.
  - exists m, (with_sems f s3). split; [exact Hr|]. split; [|split; [done|split; [exact Ho2|]]].
    + apply (sender_inv_other _ _ _ s3); done.
    + split; [exact Hm|]. cbn. rewrite Hfl. exact Hs3.
Qed.

Lemma used_of_fst p b (s : sk) :
  fst (is_msg_used (St:=sk) (V:=Z) p s) = Ret b -> is_msg_used (St:=sk) (V:=Z) p s = (Ret b, s).
Proof.
  cbn [is_msg_used sk_sent_buf]. unfold sk_is_msg_used, read_buf. rewrite !bind_unfold.
  cbn [mem_get gets]. destruct (in_buf _ _); [|done]. cbn. intros [= <-]. done.
Qed.

(** The worker takes the first outstanding message. *)
Lemma worker_takes base dn q d op fuel (s s1 : sk) :
  sender_inv base dn ((q, d) :: op) s1 ->
  is_msg_used (St:=sk) (V:=Z) (real_total dn + 33) s = (Ret false, s) -> k_sb s1 = k_sb s ->
  exists s2,
    @cw_next_msg sk Z Z _ _ (sk_send_wait alone true fuel) (Z.to_nat OUTPUT_WINDOW_SZ) s1
      = (Ret (real_total dn + 33), s2) /\
    sender_inv base dn ((q, d) :: op) s2 /\ frame s1 s2.
Proof.
  intros Hi Hu Hsb.
  destruct (@cw_next_msg_first sk Z Z _ _ _ _ (sk_send_wait alone true fuel) base dn q d op s1 Hi)
    as (v&b&Hg&_&Hub&Hrun).
  cbn [output_sent_buf_get_msg_at sk_sent_buf] in Hg.
  rewrite (get_msg_at_ok dn ((q, d) :: op) s1 (si_stored _ _ _ _ Hi)) in Hg. injection Hg as <-.
  assert (is_msg_used (St:=sk) (V:=Z) (real_total dn + 33) s1 = (Ret false, s1)) as Hu1
    by exact (used_same_sb _ _ s s1 Hsb Hu).
  change (real_total dn + offsetof_msg_data) with (real_total dn + 33) in *.
  assert (b = false) as -> by congruence.
  destruct (Hrun 999%nat) as (s2&Hn&Hf&Hi2&_). exists s2. done.
Qed.

(** After the timeout the message is looked at again and retried. *)
Lemma retry_ok base dn q d op (s : sk) :
  sender_inv base dn ((q, d) :: op) s -> clocked s ->
  exists m s', msg_at (real_total dn + 33) s = (Ret m, s) /\
    sk_output_check_msg_complete m s = (Ret false, s) /\
    sk_output_on_retry m s = (Ret tt, s') /\ sender_inv base dn ((q, d) :: op) s' /\
    k_out s' = k_out s /\ k_sems s' SEND_WORKER_LOCK = k_sems s SEND_WORKER_LOCK /\
    is_msg_used (St:=sk) (V:=Z) (real_total dn + 33) s' = (Ret false, s').
Proof.
  intros Hi Hcl. destruct (holds_first_message dn q d op s (si_stored _ _ _ _ Hi)) as (m&Hm&Hat).
  pose proof (sm_seq _ _ _ Hm) as Hmq.
  set (s1 := area_put (WindowControlArea (receiver_win_sz (k_wc s))
               (Z.max (congection_win_sz (k_wc s) `div` mult_arg) 1) (mtu (k_wc s))) s).
  assert (sender_inv base dn ((q, d) :: op) s1) as Hi1
    by (apply (sender_inv_other _ _ _ s); done).
  destruct (cw_retry_ok base dn [] q d op m s1 Hi1 Hmq) as (v&s2&Hg&Hret&Hf&Hi2&_&Hu).
  cbn [app] in *. rewrite app_nil_r in Hg.
  cbn [output_sent_buf_get_msg_at sk_sent_buf] in Hg.
  rewrite (get_msg_at_ok dn ((q, d) :: op) s1 (si_stored _ _ _ _ Hi1)) in Hg. injection Hg as <-.
  exists m, s2. split; [exact Hat|].
  split; [apply (first_not_complete _ _ _ _ _ _ _ _ Hi Hmq eq_refl)|].
  split; [|split; [exact Hi2|split; [apply Hf|split; [by apply Hf|exact Hu]]]].
  unfold sk_output_on_retry. assert (cwc_on_retry s = (Ret tt, s1)) as E by done.
  mstep E. exact Hret.
Qed.

(** C11: a round of the sending worker that nobody interrupts ends and
    retransmits: when the first outstanding message is not in use it is sent
    once, as it is stored; the polling for its acknowledgement stops when the
    timeout has passed; and the message, still unacknowledged, is marked
    unused, so that the next round sends it again.  The window and the stored
    messages are the same and the worker's lock is free again. *)
Theorem worker_round_retransmits base dn q d op fuel (s : sk) :
  sender_inv base dn ((q, d) :: op) s -> clocked s ->
  k_state s = InternalStateArea ESTABLISHED -> 0 < k_sems s SEND_WORKER_LOCK ->
  left_unused (real_total dn + 33) s ->
  exists m s', send_worker_round sendto alone true fuel s = (Ret tt, s') /\
    k_out s' = k_out s ++ [m] /\ carries q d m /\
    sender_inv base dn ((q, d) :: op) s' /\
    left_unused (real_total dn + 33) s' /\
    k_sems s' SEND_WORKER_LOCK = k_sems s SEND_WORKER_LOCK.
Proof.
  intros Hi Hcl Hst Hl Hu. unfold send_worker_round.
  mstep (sem_wait_alone SEND_WORKER_LOCK s Hl).
  set (s1 := set_sem SEND_WORKER_LOCK (k_sems s SEND_WORKER_LOCK - 1) s).
  assert (k_sems s1 SEND_WORKER_LOCK = k_sems s SEND_WORKER_LOCK - 1) as Hs1 by apply sems_same.
  assert (get_state s1 = (Ret ESTABLISHED, s1)) as E1
    by (unfold get_state; rewrite bind_unfold; cbn; rewrite Hst; done).
  mstep E1. rewrite decide_True by done.
  assert (sender_inv base dn ((q, d) :: op) s1) as Hi1
    by (apply (sender_inv_other _ _ _ s); done).
  destruct (worker_takes _ _ _ _ _ fuel s s1 Hi1 Hu eq_refl) as (s2&E2&Hi2&Hf2).
  destruct (frame_clocked s1 s2 Hf2 Hcl) as [Hcl2 Ho2].
  assert (k_sems s2 SEND_WORKER_LOCK = k_sems s1 SEND_WORKER_LOCK) as Hs2 by by apply Hf2.
  destruct (send_finally_ok _ _ _ _ _ s2 Hi2 Hcl2 ltac:(lia)) as (m&s3&E3&Hi3&Hcl3&Ho3&Hm&Hs3).
  destruct (retry_ok _ _ _ _ _ s3 Hi3 Hcl3) as (m0&s4&E4&E5&E6&Hi4&Ho4&Hs4&Hu4).
  exists m, (set_sem SEND_WORKER_LOCK (k_sems s4 SEND_WORKER_LOCK + 1) s4).
  split; [|split; [|split; [exact Hm|split; [|split]]]].
  - unfold try_catch. rewrite (run_ret _ _ _ _ _ E2), (run_ret _ _ _ _ _ E3).
    rewrite (run_ret _ _ _ _ _ E4), (run_ret _ _ _ _ _ E5). cbn [negb when].
    rewrite (run_ret _ _ _ _ _ E6). done.
  - cbn. rewrite Ho4, Ho3, Ho2. done.
  - apply (sender_inv_other _ _ _ s4); done.
  - exact (used_same_sb _ _ s4 (set_sem SEND_WORKER_LOCK (k_sems s4 SEND_WORKER_LOCK + 1) s4) eq_refl Hu4).
  - rewrite sems_same. lia.
Qed.

End worker.

Lemma worker_round_retransmits_witness :
  exists m s', send_worker_round kernel_takes_all alone true 0 (sk_sent_two 5000000) = (Ret tt, s') /\
    carries 5000000 data10 m /\ k_out s' = [m].
Proof.
  destruct (worker_round_retransmits kernel_takes_all (fun _ _ => eq_refl) 5000000 [] 5000000 data10
    [(5000010, data20)] 0 (sk_sent_two 5000000)) as (m&s'&Hr&Ho&Hm&_).
  - apply (sk_sent_two_inv 5000000 start_ok).
  - vm_compute. intuition discriminate.
  - vm_compute. done.
  - vm_compute. done.
  - apply used_of_fst. vm_compute. done.
  - exists m, s'. split; [exact Hr|]. split; [exact Hm|]. rewrite Ho. vm_compute. done.
Defined.
