(* ===== verification/Race.v ===== *)
(** * Race: a message that is sent after it has been overwritten

    [output_send_finally] of [src/src/newimpl.cpp] (421-425) releases
    [send_worker_lock] before it sends the message, which lies in the shared
    send buffer.  When the acknowledgement that completes the window and the
    next [send] come first, the sending worker writes the header fields of a
    message into the data of another one. *)
From S2P Require Import Prelude Window Message Transfer ProtoMem Congestion FastRetransmit.
From S2P Require Import SendBuffer Inplace Slots SlotOps Cumulative CumulativeOps Input InputOps.
From S2P Require Import Socket SenderModel ReceiverModel Channel WorkerOps.

(** ** Bytes *)

Lemma load_bytes_are_bytes mm p n x k :
  Forall is_byte (load_bytes mm p n) -> p <= x -> x + Z.of_nat k <= p + Z.of_nat n ->
  Forall is_byte (load_bytes mm x k).
Proof.
  intros Hb Hx Hk. replace x with (p + Z.of_nat (Z.to_nat (x - p))) by lia.
  rewrite <- (slice_load_bytes mm p n) by lia. unfold slice. by apply Forall_take, Forall_drop.
Qed.

(** A store inside what is loaded. *)
Lemma load_store_inside mm a n p (h : bytes) :
  a <= p -> p + Z.of_nat (length h) <= a + Z.of_nat n ->
  load_bytes (store_bytes mm p h) a n =
    load_bytes mm a (Z.to_nat (p - a)) ++ h ++
    load_bytes mm (p + Z.of_nat (length h)) (n - Z.to_nat (p - a) - length h).
Proof.
  intros Hp Hn. set (k := Z.to_nat (p - a)). set (j := (n - k - length h)%nat).
  replace n with (k + (length h + j))%nat by lia. rewrite !load_bytes_app.
  replace (a + Z.of_nat k) with p by lia. rewrite load_store_same.
  rewrite !load_store_disjoint by lia. done.
Qed.

Lemma encode_header_bytes m :
  Forall is_byte (ip_front (m_iph m)) -> Forall is_byte (encode_header m).
Proof.
  intros Hi. unfold encode_header, encode_iphdr, encode_TCPHDR, encode_tcphdr.
  rewrite !Forall_app. split_and!; try done; apply le_bytes_are_bytes.
Qed.

(** The sender's timestamp in the header block. *)
Lemma encode_header_timestamp m :
  iphdr_wf (m_iph m) ->
  slice 56 8 (encode_header m) = le_bytes 8 (sender_timestamp (m_tcph m)).
Proof.
  intros (Hi&_&_). pose proof (length_encode_iphdr _ Hi).
  pose proof (length_encode_tcphdr (hdr (m_tcph m))).
  unfold encode_header, encode_TCPHDR. find_slice. done.
Qed.

(** ** Writing into the data of a stored message *)

Section race.
Context (sendto : sockaddr_in -> bytes -> Z).
Hypothesis sendto_takes_all : forall a d, sendto a d = Z.of_nat (length d).

#[local] Instance race_wait : SendWait sk := sk_send_wait alone true 0.

(** The data of the only message, which starts at byte 105 of the buffer. *)
Definition first_data (n : nat) (s : sk) : bytes := load_bytes (sb_buf (k_sb s)) 105 n.

(** The data [d] has the bytes of [t] already where the header at [p] keeps its
    timestamp: sending that header late changes nothing. *)
Definition has_timestamp (p : Z) (d : bytes) (t : Z) : Prop :=
  slice (Z.to_nat (p - 105) + 56) 8 d = le_bytes 8 t.

Definition write_at (p : Z) (h : bytes) (a : send_buffer_area) : send_buffer_area :=
  SendBufferArea (store_bytes (sb_buf a) p h) (sb_off_map a) (sb_end a).

Lemma first_data_stored base q d (s : sk) :
  sender_inv base [] [(q, d)] s -> first_data (length d) s = d.
Proof.
  intros Hi. destruct (si_stored _ _ _ _ Hi) as [(_&(m&Hm&Hr)&_) _]. pose proof Hm as [Hwf ? ? ? ? Hd _ _ _ _].
  change (0 + offsetof_msg_data) with 33 in Hr. change (sb_buf (sbuf s)) with (sb_buf (k_sb s)) in Hr.
  unfold first_data. change 105 with (33 + Z.of_nat 72).
  rewrite (raw_at_field _ 33 m 72) by (done || rewrite Hd; lia). rewrite <- Hd.
  unfold encode_raw. rewrite slice_app_r by (rewrite (length_encode_header m (proj1 (proj2 (proj2 Hwf)))); lia).
  rewrite (length_encode_header m (proj1 (proj2 (proj2 Hwf)))). by rewrite slice_all.
Qed.

(** The message keeps its place, its number and its length. *)
Lemma sender_inv_smash base q d p h (s s' : sk) :
  sender_inv base [] [(q, d)] s -> 105 <= p -> p + Z.of_nat (length h) <= 105 + Z.of_nat (length d) ->
  Forall is_byte h -> k_cw s' = k_cw s -> k_sb s' = write_at p h (k_sb s) ->
  sender_inv base [] [(q, first_data (length d) s')] s'.
Proof.
  intros Hi Hp Hpd Hh Hcw Hsb. pose proof (first_data_stored _ _ _ _ Hi) as Hfd.
  pose proof Hi as [Ha Hst [(Hm0&(m&Hm&Hraw)&Hd0&Hend) Ht] Hn Hne Hr].
  pose proof Hm as [Hwf Hby Hsm Hbl Hdl Hd Hsq Hack Hoff Hus].
  remember (first_data (length d) s') as d' eqn:Ed.
  assert (length d' = length d) as Hlen by (rewrite Ed; apply length_load_bytes).
  assert (Forall is_byte d') as Hb'.
  { rewrite Ed. unfold first_data. rewrite Hsb. cbn [write_at sb_buf].
    rewrite load_store_inside by lia. rewrite !Forall_app. split_and!; [|done|];
      (eapply load_bytes_are_bytes; [unfold first_data in Hfd; rewrite Hfd; exact Hby|lia|lia]). }
  change (0 + offsetof_msg_data) with 33 in Hraw. change (sb_buf (sbuf s)) with (sb_buf (k_sb s)) in Hraw.
  split; try done.
  - unfold cwa in *. cbn in *. rewrite Hcw, Ha. unfold sender_win. cbn [total app]. do 2 f_equal. lia.
  - split; [|cbn [total app] in *; lia]. cbn [slots app].
    change (sbuf s') with (k_sb s'). rewrite Hsb, Hlen. cbn [write_at sb_off_map sb_end sb_buf].
    split_and!; [done| |lia|apply Hend|apply Hend]. exists (Msg (m_buf_len m) (m_data_len m) (m_iph m) (m_tcph m) d').
    split; [split; try done; cbn; rewrite ?Hlen; done|].
    change (0 + offsetof_msg_data) with 33. unfold raw_at.
    pose proof (length_encode_header m (proj1 (proj2 (proj2 Hwf)))) as Hlh.
    change (encode_raw (Msg _ _ _ _ d')) with (encode_header m ++ d').
    rewrite length_app, load_bytes_app, Hlh, Hlen. change (33 + Z.of_nat 72) with 105.
    assert (load_bytes (store_bytes (sb_buf (k_sb s)) p h) 33 72 = encode_header m) as ->.
    { rewrite load_store_disjoint by lia. change 33 with (33 + Z.of_nat 0).
      rewrite (raw_at_field _ 33 m 0) by (done || lia). unfold encode_raw.
      rewrite slice_app_l by lia. apply slice_all. done. }
    rewrite Ed. unfold first_data. rewrite Hsb. done.
  - inversion Hne; subst. repeat constructor. cbn in *. lia.
  - cbn [total app] in *. lia.
Qed.

Lemma frame_clock (s s' : sk) : frame s s' -> k_clock s' = k_clock s.
Proof. by intros (_&_&_&_&Hc&_). Qed.

(** ** The late send *)

(** What [base_send_inplace] writes when the place does not hold a message any
    more; whether the kernel then takes the bytes does not matter. *)
Lemma late_send_smashes base q d p (s : sk) :
  sender_inv base [] [(q, d)] s -> clocked s ->
  105 <= p -> p + 72 <= 105 + Z.of_nat (length d) ->
  exists o s', base_send_inplace sendto p s = (o, s') /\ clocked s' /\
    sender_inv base [] [(q, first_data (length d) s')] s' /\
    slice (Z.to_nat (p - 105) + 56) 8 (first_data (length d) s') = le_bytes 8 (k_clock s).
Proof.
  intros Hi [Hid Hcl] Hp Hpd. pose proof (first_data_stored _ _ _ _ Hi) as Hfd.
  destruct (si_stored _ _ _ _ Hi) as [(_&(m0&Hm0&_)&_) Hfit]. cbn [total app] in Hfit.
  set (m := load_msg (sb_buf (k_sb s)) p).
  set (m' := stamp (k_id s) (k_clock s) m).
  set (s1 := area_put (write_at p (encode_header m') (k_sb s)) s).
  assert (iphdr_wf (m_iph m')) as Hwf.
  { split_and!; [|apply Hid..]. change (ip_front (m_iph m')) with (ip_front (m_iph m)).
    unfold m, load_msg, decode_raw, decode_iphdr. cbn [m_iph ip_front].
    change (Z.to_nat sizeof_raw_msg) with 72%nat.
    apply length_slice. rewrite length_slice; [lia|]. rewrite length_app, length_load_bytes. lia. }
  pose proof (length_encode_header m' Hwf) as Hlen.
  assert (Forall is_byte (encode_header m')) as Hb.
  { apply encode_header_bytes. change (ip_front (m_iph m')) with (ip_front (m_iph m)).
    unfold m, load_msg, decode_raw, decode_iphdr. cbn [m_iph ip_front].
    change (Z.to_nat sizeof_raw_msg) with 72%nat.
    apply slice_bytes. rewrite slice_app_l by (rewrite length_load_bytes; lia).
    apply slice_bytes. eapply load_bytes_are_bytes;
      [unfold first_data in Hfd; rewrite Hfd; apply Hm0|lia|lia]. }
  assert (write_buf p sizeof_raw_msg (fun mm => store_header mm p m') s = (Ret tt, s1)) as Hw.
  { rewrite write_buf_ok; [done|]. unfold in_buf, OUTPUT_SEND_BUF_SZ, OUTPUT_WINDOW_SZ in *.
    change sizeof_raw_msg with 72. lia. }
  assert (exists o s', (base_send sendto m;; mret tt) s1 = (o, s') /\
    k_cw s' = k_cw s1 /\ k_sb s' = k_sb s1 /\ k_id s' = k_id s /\ k_clock s' = k_clock s)
    as (o&s'&Hs'&Hcw&Hsb&Hid'&Hcl').
  { rewrite bind_unfold. unfold base_send. destruct (socket_send _ _ _ _); do 2 eexists; done. }
  exists o, s'. split; [|split; [|split]].
  - rewrite (base_send_inplace_eq sendto p m s (msg_at_eq p s)). mstep Hw. exact Hs'.
  - unfold clocked. rewrite Hid', Hcl'. done.
  - apply (sender_inv_smash base q d p (encode_header m') s s'); rewrite ?Hlen; try done; lia.
  - unfold first_data. rewrite Hsb. cbn [s1 write_at sb_buf area_put].
    rewrite slice_load_bytes by lia. set (x := 105 + _).
    assert (x = p + Z.of_nat 56) as -> by lia. change (sb_buf (k_sb s1)) with
      (store_bytes (sb_buf (k_sb s)) p (encode_header m')).
    rewrite <- (slice_load_bytes _ p 72 56 8) by lia. rewrite <- Hlen, load_store_same.
    apply (encode_header_timestamp m' Hwf).
Qed.

(** C38: the sending worker can corrupt the stream.  It takes the last message
    of a full window to send it again and releases its lock; the
    acknowledgement of the whole window arrives; the client sends [d]; only
    then the worker sends what it took: its timestamp lands in the data of
    [d].  The message that goes out for [d] has its number and its length, but
    other data, unless the timestamp happens to be what stood there. *)
Theorem late_send_corrupts_stream base dn q0 d0 d p (s : sk) :
  p = real_total dn + 33 ->
  sender_inv base dn [(q0, d0)] s -> clocked s -> left_unused p s ->
  total (dn ++ [(q0, d0)]) = OUTPUT_WINDOW_SZ -> 256000 <= base ->
  base + 3 * OUTPUT_WINDOW_SZ < modulus32 ->
  Forall is_byte d -> 105 <= p -> p + 72 <= 105 + Z.of_nat (length d) ->
  Z.of_nat (length d) <= OUTPUT_WINDOW_SZ ->
  ~ has_timestamp p d (k_clock s) ->
  exists s1 s2 r s3 o s4 s5 m s6,
    cw_next_msg (V:=Z) (E:=Z) 1000 s = (Ret p, s1) /\
    cw_on_ack (V:=Z) (E:=Z) (ack_of (base + OUTPUT_WINDOW_SZ - 1)) s1 = (Ret tt, s2) /\
    cw_send (E:=Z) (tmp_msg d) s2 = (Ret r, s3) /\ get_seq (fst r) = base + OUTPUT_WINDOW_SZ /\
    base_send_inplace sendto p s3 = (o, s4) /\
    timeout_expires s4 = (Ret tt, s5) /\ transmit_next sendto s5 = (Ret tt, s6) /\
    k_out s6 = k_out s5 ++ [m] /\ get_seq m = base + OUTPUT_WINDOW_SZ /\
    length (msg_data m) = length d /\ msg_data m <> d.
Proof.
  intros Hpe Hi Hcl Hu Htot Hb Hmod Hbd Hp Hpd Hdn Hne. unfold has_timestamp in Hne. subst p. set (p := real_total dn + 33) in *.
  set (n := OUTPUT_WINDOW_SZ) in *.
  destruct (worker_takes base dn q0 d0 [] 0 s s Hi Hu eq_refl) as (s1&H1&Hi1&Hf1).
  destruct (frame_clocked _ _ Hf1 Hcl) as [Hcl1 _].
  assert (get_seq (ack_of (base + n - 1)) = base + total (dn ++ [(q0, d0)]) - 1) as Hq.
  { rewrite Htot. cbn. apply u32_small. unfold n, OUTPUT_WINDOW_SZ in *. lia. }
  destruct (cw_on_ack_advances (V:=Z) (E:=Z) base dn [(q0, d0)] [] (ack_of (base + n - 1)) s1)
    as (s2&H2&Hf2&Hi2); [done|done|exact Hq|unfold n, OUTPUT_WINDOW_SZ in *; lia|].
  rewrite Htot in Hi2. fold n in Hi2. rewrite Z.eqb_refl in Hi2. destruct Hi2 as [Hi2 _].
  destruct (frame_clocked _ _ Hf2 Hcl1) as [Hcl2 _].
  destruct (cw_send_ok (base + n) [] [] d s2 Hi2) as (e&s3&H3&Hi3&Hf3);
    [destruct d; [cbn in Hpd; lia|cbn; lia]|done|cbn [total app]; lia|].
  cbn [total app] in H3, Hi3. rewrite Z.add_0_r in H3, Hi3.
  destruct (frame_clocked _ _ Hf3 Hcl2) as [Hcl3 _].
  destruct (late_send_smashes (base + n) (base + n) d p s3 Hi3 Hcl3 Hp Hpd) as (o&s4&H4&Hcl4&Hi4&Hts).
  assert (k_clock s3 = k_clock s) as Hck
    by (rewrite (frame_clock _ _ Hf3), (frame_clock _ _ Hf2); apply (frame_clock _ _ Hf1)).
  destruct (timeout_expires_ok (base + n) [] (base + n) _ [] s4 Hi4 Hcl4)
    as (s5&H5&Hi5&Hcl5&Ho5&Hu5).
  destruct (transmit_next_ok sendto sendto_takes_all (base + n) [] (base + n) _ [] s5 Hi5 Hcl5)
    as [(m&s6&H6&_&_&Ho6&Hm)|[_ Hused]]; [unfold n, OUTPUT_WINDOW_SZ; lia| |congruence].
  exists s1, s2, (set_seq (base + n) (tmp_msg d), e), s3, o, s4, s5, m, s6.
  destruct Hm as [Hms Hml Hmd]. split_and!; try done.
  - cbn. apply u32_small. unfold n, OUTPUT_WINDOW_SZ in *. lia.
  - rewrite Hmd. apply length_load_bytes.
  - rewrite Hmd. intros E. apply Hne. rewrite <- Hck, <- Hts, E. done.
Qed.

End race.

(** Ten bytes are sent and acknowledged, then the rest of the window; the wait
    for it expires, and the worker takes it again. *)
Lemma last_message_retried :
  exists s, sender_inv 5000000 [(5000000, data10)] [(5000010, replicate 990 1)] s /\ clocked s /\
    left_unused (real_total [(5000000, data10)] + 33) s.
Proof.
  pose proof start_ok as Hok. assert (clocked (sk_established 5000000)) as Hcl
    by (vm_compute; intuition discriminate).
  destruct (cw_send_ok 5000000 [] [] data10 _ (sk_established_inv 5000000 Hok))
    as (e&s1&_&Hi1&Hf1);
    [simpl; lia|apply replicate_bytes; unfold is_byte; lia|vm_compute; discriminate|].
  destruct (cw_send_ok 5000000 [] _ (replicate 990 1) s1 Hi1) as (e'&s2&_&Hi2&Hf2);
    [rewrite length_replicate; lia|apply replicate_bytes; unfold is_byte; lia
    |vm_compute; discriminate|].
  destruct (cw_on_ack_advances (V:=Z) (E:=Z) 5000000 [] [(5000000, data10)]
    [(5000010, replicate 990 1)] (ack_of 5000009) s2) as (s3&_&Hf3&Hi3);
    [exact Hi2|done|done|unfold OUTPUT_WINDOW_SZ; lia|].
  change (sender_inv 5000000 [(5000000, data10)] [(5000010, replicate 990 1)] s3) in Hi3.
  destruct (frame_clocked _ _ Hf1 Hcl) as [Hc1 _]. destruct (frame_clocked _ _ Hf2 Hc1) as [Hc2 _].
  destruct (frame_clocked _ _ Hf3 Hc2) as [Hc3 _].
  destruct (timeout_expires_ok 5000000 [(5000000, data10)] 5000010 (replicate 990 1) [] s3 Hi3 Hc3)
    as (s4&_&Hi4&Hc4&_&Hu4).
  exists s4. done.
Qed.

(** A piece of data that has another byte where the timestamp [t] goes. *)
Definition other_data (t : Z) : bytes := replicate 1000 (if u8 t =? 0 then 1 else 0).

Lemma other_data_length t : length (other_data t) = 1000%nat.
Proof. apply length_replicate. Qed.

Lemma other_data_differs t i :
  (i + 8 <= 1000)%nat -> slice i 8 (other_data t) <> le_bytes 8 t.
Proof.
  intros Hi. unfold slice, other_data. rewrite drop_replicate, take_replicate.
  replace (8 `min` (1000 - i))%nat with 8%nat by lia. cbn [replicate le_bytes].
  intros [= E _]. destruct (Z.eqb_spec (u8 t) 0); lia.
Qed.

Lemma late_send_corrupts_stream_witness :
  exists d s5 m s6, transmit_next kernel_takes_all s5 = (Ret tt, s6) /\
    k_out s6 = k_out s5 ++ [m] /\ get_seq m = 5001000 /\
    length (msg_data m) = length d /\ msg_data m <> d.
Proof.
  destruct last_message_retried as (s&Hi&Hcl&Hu).
  destruct (late_send_corrupts_stream kernel_takes_all (fun _ _ => eq_refl) 5000000
    [(5000000, data10)] 5000010 (replicate 990 1) (other_data (k_clock s)) _ s eq_refl Hi Hcl Hu)
    as (s1&s2&r&s3&o&s4&s5&m&s6&_&_&_&_&_&_&H6&Ho&Hq&Hl&Hd);
    [reflexivity|lia|unfold OUTPUT_WINDOW_SZ; lia| | | | | |].
  - apply replicate_bytes. destruct (_ =? _); unfold is_byte; lia.
  - vm_compute. discriminate.
  - rewrite other_data_length. vm_compute. discriminate.
  - rewrite other_data_length. vm_compute. discriminate.
  - apply other_data_differs. change (real_total [(5000000, data10)]) with 128. lia.
  - exists (other_data (k_clock s)), s5, m, s6.
    exact (conj H6 (conj Ho (conj Hq (conj Hl Hd)))).
Defined.
