(* ===== verification/Net.v ===== *)
(** * Net: two sockets, their workers and the network

    Both directions of a connection at once.  On either side any number of
    processes share the socket; each has a sending worker, whose round
    ([Socket.send_worker_round]) is cut where it releases [send_worker_lock]:
    taking a message, sending it, polling, finishing.  What arrives goes
    through the receiving worker's dispatch ([Handshake.recv_worker_dispatch]).
    The network loses, repeats and reorders.

    [does] and [receives] are what the code does, with the code's own guards.
    The runs the theorems are about are those whose steps are [orderly] and
    whose messages are [welcome]; each condition leaves out a behaviour of the
    code that loses data or leaves an array, and says which theorem shows it. *)
From stdpp Require Import relations gmap.
From S2P Require Import Prelude Window Message Transfer ProtoMem Congestion FastRetransmit.
From S2P Require Import SendBuffer Inplace Slots SlotOps Cumulative CumulativeOps Input InputOps.
From S2P Require Import Socket SenderModel ReceiverModel Handshake Channel Places WorkerOps.

(** ** One side *)

(** A sending worker that has taken the message at [p]: about to send it, or
    waiting for its acknowledgement.  A worker that holds no message is not in
    the map. *)
Inductive phase : Type := Sending (p : Z) | Polling (p : Z).

Definition phase_place (ph : phase) : Z := match ph with Sending p | Polling p => p end.

(** [p_sent]: the pieces of data the sender has taken, in order. *)
Record peer : Type := Peer {
  p_sk : sk;
  p_workers : gmap nat phase;
  p_sent : list bytes;
}.

Definition in_use (W : gmap nat phase) (p : Z) : Prop :=
  exists w ph, W !! w = Some ph /\ phase_place ph = p.

(** [send] of [n] bytes writes at the end of the buffer, and into no message
    that a worker holds: one that begins at the same byte is replaced by the
    new one, one that begins inside of the new one is not there. *)
Definition undisturbed (x : peer) (n : Z) : Prop :=
  forall p, in_use (p_workers x) p ->
    p - 33 <= sb_end (k_sb (p_sk x)) \/ sb_end (k_sb (p_sk x)) + inplace_size n <= p - 33.

Section net.
Context (sendto : sockaddr_in -> bytes -> Z) (rand32 : M sk Z) {client : Client}.

#[local] Instance net_lock : InputLock sk := sk_input_lock (reader sendto).
#[local] Instance net_input : InputController sk := sk_input sendto (reader sendto).
#[local] Instance net_wait : SendWait sk := sk_send_wait alone true 0.

(** A section of the code between two pauses that holds [send_worker_lock]; the
    wait for the lock is over. *)
Definition locked {A} (m : M sk A) : M sk A :=
  sem_wait alone SEND_WORKER_LOCK;;
  a ← m;
  sem_post SEND_WORKER_LOCK;;
  mret a.

(** One pass of [recv_proc] (341-350). *)
Definition recv_pass (n : Z) : M sk bytes :=
  with_ctl (client_flush_request n).

(** What the threads of one side do by themselves: a client's process sends
    [d]; the worker of process [w] takes a message, transmits it, polls,
    finishes; the clock is set; another process posts or takes a signal; a
    client's process asks for [n] bytes. *)
Inductive act : Type :=
| Sends (d : bytes)
| Takes (w : nat)
| Transmits (w : nat)
| Polls (w : nat)
| Finishes (w : nat)
| Ticks (t : Z)
| Signals (f : sem_name -> Z)
| Reads (n : Z).

Inductive does : act -> peer -> peer -> Prop :=
| do_send x d r s' :
    Forall is_byte d ->
    locked (cw_send (E:=Z) (tmp_msg d)) (p_sk x) = (Ret r, s') ->
    does (Sends d) x (Peer s' (p_workers x) (p_sent x ++ [d]))
| do_take x w p s' :
    p_workers x !! w = None ->
    locked (cw_next_msg (V:=Z) (E:=Z) (Z.to_nat OUTPUT_WINDOW_SZ)) (p_sk x) = (Ret p, s') ->
    does (Takes w) x (Peer s' (<[w := Sending p]> (p_workers x)) (p_sent x))
| do_transmit x w p s' :
    p_workers x !! w = Some (Sending p) ->
    base_send_inplace sendto p (p_sk x) = (Ret tt, s') ->
    does (Transmits w) x (Peer s' (<[w := Polling p]> (p_workers x)) (p_sent x))
| do_poll x w p s' :
    p_workers x !! w = Some (Polling p) ->
    locked (worker_poll p) (p_sk x) = (Ret false, s') ->
    does (Polls w) x (Peer s' (p_workers x) (p_sent x))
| do_finish x w p s' :
    p_workers x !! w = Some (Polling p) ->
    locked (worker_finish p) (p_sk x) = (Ret tt, s') ->
    does (Finishes w) x (Peer s' (delete w (p_workers x)) (p_sent x))
| do_clock x t :
    0 <= t < modulus64 ->
    does (Ticks t) x (Peer (set_clock t (p_sk x)) (p_workers x) (p_sent x))
| do_signals x f :
    (forall n, n <> SEND_BUF_NOT_EMPTY -> n <> RECV_WORKER_BUF_NOT_EMPTY ->
       f n = k_sems (p_sk x) n) ->
    does (Signals f) x (Peer (with_sems f (p_sk x)) (p_workers x) (p_sent x))
| do_read x n d s' :
    0 <= n -> recv_pass n (p_sk x) = (Ret d, s') ->
    does (Reads n) x (Peer s' (p_workers x) (p_sent x)).

(** A second worker takes a message only in a window that starts at 256000 or
    later: before that, the wrong length with which the scan of [next_msg] steps
    over a message in use can be short enough to look at bytes that begin no
    message ([CumulativeOps.scan_never_passes_first]). *)
Definition scan_stops (x : peer) : Prop :=
  p_workers x = ∅ \/ 256000 <= cw_start (k_cw (p_sk x)).

(** [Sends]: something, and not over the beginning of a message that a worker
    still holds ([Race.late_send_corrupts_stream]). *)
Definition orderly (a : act) (x : peer) : Prop :=
  match a with
  | Sends d => (0 < length d)%nat /\ undisturbed x (Z.of_nat (length d))
  | Takes _ => scan_stops x
  | _ => True
  end.

Definition acts (x x' : peer) : Prop := exists a, does a x x' /\ orderly a x.

(** One of the messages [out] of the other side arrives, as [m].  While it
    waits in a full window the client runs ([ReceiverModel.reader]). *)
Inductive receives (out : list msg) (m : msg) : peer -> peer -> Prop :=
| receive x m0 s' :
    m0 ∈ out -> arrives m0 m ->
    recv_worker_dispatch sendto rand32 (reader sendto) 0 m (p_sk x) = (Ret tt, s') ->
    receives out m x (Peer s' (p_workers x) (p_sent x)).

(** Not the fourth acknowledgement in a row of all that was sent
    ([SenderModel.duplicate_acks_on_empty_buffer]). *)
Definition welcome (m : msg) (x : peer) : Prop :=
  is_usual m = false -> fourth_duplicate m (p_sk x) = false.

Definition hears (out : list msg) (x x' : peer) : Prop :=
  exists m, receives out m x x' /\ welcome m x.

(** *** The orderly steps one by one *)

Lemma act_send x d r s' :
  (0 < length d)%nat -> Forall is_byte d -> undisturbed x (Z.of_nat (length d)) ->
  locked (cw_send (E:=Z) (tmp_msg d)) (p_sk x) = (Ret r, s') ->
  acts x (Peer s' (p_workers x) (p_sent x ++ [d])).
Proof. intros ? ? ? ?. exists (Sends d). split; [by eapply do_send|by split]. Qed.

Lemma act_take x w p s' :
  p_workers x !! w = None -> scan_stops x ->
  locked (cw_next_msg (V:=Z) (E:=Z) (Z.to_nat OUTPUT_WINDOW_SZ)) (p_sk x) = (Ret p, s') ->
  acts x (Peer s' (<[w := Sending p]> (p_workers x)) (p_sent x)).
Proof. intros ? ? ?. exists (Takes w). split; [by apply do_take|done]. Qed.

Lemma act_transmit x w p s' :
  p_workers x !! w = Some (Sending p) -> base_send_inplace sendto p (p_sk x) = (Ret tt, s') ->
  acts x (Peer s' (<[w := Polling p]> (p_workers x)) (p_sent x)).
Proof. intros ? ?. exists (Transmits w). split; [by apply do_transmit|done]. Qed.

Lemma act_poll x w p s' :
  p_workers x !! w = Some (Polling p) -> locked (worker_poll p) (p_sk x) = (Ret false, s') ->
  acts x (Peer s' (p_workers x) (p_sent x)).
Proof. intros ? ?. exists (Polls w). split; [by eapply do_poll|done]. Qed.

Lemma act_finish x w p s' :
  p_workers x !! w = Some (Polling p) -> locked (worker_finish p) (p_sk x) = (Ret tt, s') ->
  acts x (Peer s' (delete w (p_workers x)) (p_sent x)).
Proof. intros ? ?. exists (Finishes w). split; [by eapply do_finish|done]. Qed.

Lemma act_clock x t :
  0 <= t < modulus64 -> acts x (Peer (set_clock t (p_sk x)) (p_workers x) (p_sent x)).
Proof. intros ?. exists (Ticks t). split; [by apply do_clock|done]. Qed.

Lemma act_signals x f :
  (forall n, n <> SEND_BUF_NOT_EMPTY -> n <> RECV_WORKER_BUF_NOT_EMPTY -> f n = k_sems (p_sk x) n) ->
  acts x (Peer (with_sems f (p_sk x)) (p_workers x) (p_sent x)).
Proof. intros ?. exists (Signals f). split; [by apply do_signals|done]. Qed.

Lemma act_read x n d s' :
  0 <= n -> recv_pass n (p_sk x) = (Ret d, s') -> acts x (Peer s' (p_workers x) (p_sent x)).
Proof. intros ? ?. exists (Reads n). split; [by eapply do_read|done]. Qed.

Lemma hear out x m0 m s' :
  m0 ∈ out -> arrives m0 m -> (is_usual m = false -> fourth_duplicate m (p_sk x) = false) ->
  recv_worker_dispatch sendto rand32 (reader sendto) 0 m (p_sk x) = (Ret tt, s') ->
  hears out x (Peer s' (p_workers x) (p_sent x)).
Proof. intros ? ? ? ?. exists m. split; [by apply (receive out m x m0)|done]. Qed.

(** ** Both sides *)

Record net : Type := Net { n_a : peer; n_b : peer }.

(** One step of an orderly run. *)
Inductive net_step : net -> net -> Prop :=
| step_a c x : acts (n_a c) x -> net_step c (Net x (n_b c))
| step_b c x : acts (n_b c) x -> net_step c (Net (n_a c) x)
| step_a_hears c x : hears (k_out (p_sk (n_b c))) (n_a c) x -> net_step c (Net x (n_b c))
| step_b_hears c x : hears (k_out (p_sk (n_a c))) (n_b c) x -> net_step c (Net (n_a c) x).

End net.

(** The same network seen from the other side. *)
Definition net_swap (c : net) : net := Net (n_b c) (n_a c).
