(* ===== verification/NetOps.v ===== *)
(** * NetOps: both streams arrive, whatever the workers and the network do

    The invariant of [Net]'s steps, one half per direction: [ChannelOps.link]
    with the other side's receiving lock taken, and [Places.sending] for the
    places the workers hold. *)
From stdpp Require Import relations gmap.
From S2P Require Import Prelude Window Message Transfer ProtoMem Congestion FastRetransmit.
From S2P Require Import SendBuffer Inplace Slots SlotOps Cumulative CumulativeOps Input InputOps.
From S2P Require Import Socket SenderModel ReceiverModel Frames Handshake Channel Places ChannelOps WorkerOps Net.

(** Established, and nobody holds a lock. *)
Record ready (s : sk) : Prop := {
  rd_state : is_state (k_state s) = ESTABLISHED;
  rd_send_worker : k_sems s SEND_WORKER_LOCK = 1;
  rd_recv_worker : k_sems s RECV_WORKER_LOCK = 1;
  rd_recv : k_sems s RECV_LOCK = 1;
}.

(** [x]'s stream to [y], seen as one direction of a connection. *)
Definition one_way (x y : peer) : channel := Channel (p_sk x) (held (p_sk y)) (p_sent x).

(** What the receiving half reads of a socket. *)
Record same_receiver (s s' : sk) : Prop := {
  sr_iw : k_iw s' = k_iw s;
  sr_ib : k_ib s' = k_ib s;
  sr_user : k_user s' = k_user s;
  sr_complete : k_sems s' RECV_WORKER_COMPLETE = k_sems s RECV_WORKER_COMPLETE;
  sr_acks : forall m, m ∈ k_out s' -> is_usual m = false -> m ∈ k_out s;
}.

(** What the sending half reads. *)
Record same_sender (s s' : sk) : Prop := {
  ss_cw : k_cw s' = k_cw s;
  ss_sb : k_sb s' = k_sb s;
  ss_clocked : clocked s -> clocked s';
  ss_data : forall m, m ∈ k_out s' -> is_usual m = true -> m ∈ k_out s;
}.

Lemma same_receiver_sem n v s : n <> RECV_WORKER_COMPLETE -> same_receiver s (set_sem n v s).
Proof. intros Hn. split; try done. by apply sems_other. Qed.

Lemma same_sender_sem n v s : same_sender s (set_sem n v s).
Proof. split; done. Qed.

Lemma same_receiver_trans s1 s2 s3 : same_receiver s1 s2 -> same_receiver s2 s3 -> same_receiver s1 s3.
Proof. intros [] []. split; try congruence. eauto. Qed.

Lemma same_sender_trans s1 s2 s3 : same_sender s1 s2 -> same_sender s2 s3 -> same_sender s1 s3.
Proof. intros [] []. split; try congruence; eauto. Qed.

(** The operations of one side leave the half of the other. *)
Lemma receiver_kept_same s s' :
  receiver_kept s s' -> (forall m, m ∈ k_out s' -> is_usual m = false -> m ∈ k_out s) ->
  same_receiver s s'.
Proof. intros [? ? ? Hs _] Ho. split; try done. by apply Hs. Qed.

Lemma pure_ack_not_usual m : pure_ack m -> is_usual m = false.
Proof. intros (Ha&_). unfold is_usual. by rewrite Ha. Qed.

Lemma sender_kept_same s s' : sender_kept s s' -> same_sender s s'.
Proof.
  intros [_ Hc Hs _ _ _ _ (_&Hi&Hk) (l&Ho&Hl)]. split; try done.
  - unfold clocked. by rewrite Hi, Hk.
  - intros m Hm Hu. rewrite Ho in Hm. apply elem_of_app in Hm as [|Hm]; [done|exfalso].
    rewrite Forall_forall in Hl. specialize (Hl m Hm). apply pure_ack_not_usual in Hl. congruence.
Qed.

Lemma sender_kept_ready s s' : sender_kept s s' -> k_sems s' RECV_LOCK = 1 -> ready s -> ready s'.
Proof.
  intros Hk Hr [? ? ? ?]. destruct (sk_outside _ _ Hk) as (Hst&_).
  split; [by rewrite Hst|by rewrite (sk_sems _ _ Hk)..|done].
Qed.

Lemma receiver_kept_ready s s' : receiver_kept s s' -> ready s -> ready s'.
Proof.
  intros Hk [? ? ? ?]. destruct (rk_outside _ _ Hk) as (Hst&_).
  split; [by rewrite Hst|by rewrite (rk_sems _ _ Hk)..].
Qed.

Section ops.
Context (sendto : sockaddr_in -> bytes -> Z) (rand32 : M sk Z) {client : Client}.
Hypothesis sendto_takes_all : forall a d, sendto a d = Z.of_nat (length d).

#[local] Instance ops_lock : InputLock sk := chan_lock sendto.
#[local] Instance ops_input : InputController sk := chan_input sendto.
#[local] Instance ops_wait : SendWait sk := net_wait.
#[local] Instance ops_laws : ReceiverLaws sk := chan_laws sendto sendto_takes_all.
Abbreviation link := (link sendto sendto_takes_all).

(** ** One direction *)

Record flow (start : Z) (old dn op got rest : sent) (x y : peer) : Prop := {
  fw_link : link start old dn op got rest (one_way x y);
  fw_sending : sending start old dn op (p_sk x) (in_use (p_workers x));
}.

Lemma received_same r r' :
  same_receiver r r' -> received r' = received r /\ expected r' = expected r.
Proof.
  intros [Hw Hb Hu _ _]. unfold received, pending, expected, iwa.
  cbn [area_get sk_area_iw inbuf delivered ops_laws chan_laws sk_receiver_laws].
  by rewrite Hw, Hb, Hu.
Qed.

Lemma link_same_receiver start old dn op got rest s r r' l :
  link start old dn op got rest (Channel s r l) -> same_receiver r r' -> k_sems r' RECV_LOCK = 0 ->
  link start old dn op got rest (Channel s r' l).
Proof.
  intros Hl Hs Hq. destruct (received_same _ _ Hs) as [Hr He].
  pose proof (li_rcv _ _ _ _ _ _ _ _ _ Hl) as [[_ ?] ? ? ?]. destruct Hs as [Hw Hb Hu Hc Ho].
  apply (link_rcv sendto sendto_takes_all _ _ _ _ _ _ _ _ _ _ Hl); try done.
  - unfold iwa in *. cbn in *. split; unfold iwa; cbn; rewrite ?Hw; try done. split; [done|].
    by rewrite Hc.
  - apply Hl.
  - refine (eq_trans He _). apply Hl.
  - refine (eq_trans Hr _). apply Hl.
  - intros m Hm Hus. left. by apply Ho.
  - cbn [c_rcv]. rewrite Hw, Z.sub_diag. apply Z.divide_0_r.
Qed.

Lemma link_same_sender start old dn op got rest s s' r l :
  link start old dn op got rest (Channel s r l) -> same_sender s s' ->
  link start old dn op got rest (Channel s' r l).
Proof.
  intros Hl [Hc Hs Hcl Ho].
  apply (link_snd sendto sendto_takes_all _ _ _ _ _ _ _ _ Hl).
  - apply (sender_inv_other _ _ _ s); [done..|]. apply (li_snd _ _ _ _ _ _ _ _ _ Hl).
  - apply Hcl, (li_clocked _ _ _ _ _ _ _ _ _ Hl).
  - auto.
Qed.

(** The sending side of a direction has moved its receiving half only, and the
    other way round. *)
Lemma flow_same_sender start old dn op got rest x y s' :
  flow start old dn op got rest x y -> same_sender (p_sk x) s' ->
  flow start old dn op got rest (Peer s' (p_workers x) (p_sent x)) y.
Proof.
  intros [Hl Hs] Hk. split.
  - by apply (link_same_sender _ _ _ _ _ _ (p_sk x)).
  - apply (sending_same _ _ _ _ (p_sk x)); [done|apply Hk..]. apply Hs.
Qed.

Lemma flow_same_receiver start old dn op got rest x y y' :
  flow start old dn op got rest x y -> same_receiver (p_sk y) (p_sk y') ->
  flow start old dn op got rest x y'.
Proof.
  intros [Hl Hs] Hk. split; [|done]. apply (link_same_receiver _ _ _ _ _ _ _ (held (p_sk y))); [done| |done].
  destruct Hk as [? ? ? ? ?]. split; done.
Qed.

(** ** What one side does by itself *)

Definition below (start : Z) (x : peer) : Prop :=
  0 <= start /\ start + Z.of_nat (length (concat (p_sent x))) + 2000 < modulus32.

Lemma flow_total start old dn op got rest x y :
  flow start old dn op got rest x y ->
  total (old ++ dn ++ op) = Z.of_nat (length (concat (p_sent x))).
Proof. intros [Hl _]. exact (link_total _ _ _ _ _ _ _ _ _ Hl). Qed.

(** A section of the sender that keeps its messages. *)
Lemma flow_resplit start old dn op old' dn' op' got rest x y s' W :
  flow start old dn op got rest x y -> sending start old' dn' op' s' (in_use W) ->
  old' ++ dn' ++ op' = old ++ dn ++ op -> total (old' ++ dn') <= total got ->
  (forall m, m ∈ k_out s' -> is_usual m = true -> m ∈ k_out (p_sk x) \/
     exists q d, (q, d) ∈ old ++ dn ++ op /\ carries q d m) ->
  flow start old' dn' op' got rest (Peer s' W (p_sent x)) y.
Proof.
  intros [Hl _] Hs He Hle Ho. split; [|done].
  apply (link_resplit sendto sendto_takes_all start old dn op _ _ _ _ _ _ s' Hl); try done; try apply Hs.
  intros m Hm Hu. destruct (Ho m Hm Hu) as [|(q&d&Hin&Hc)]; [by left|right].
  apply list_elem_of_split in Hin as (a&b&?). by exists a, q, d, b.
Qed.

Lemma flow_section start old dn op got rest x y s' W :
  flow start old dn op got rest x y -> sending start old dn op s' (in_use W) ->
  (forall m, m ∈ k_out s' -> is_usual m = true -> m ∈ k_out (p_sk x) \/
     exists q d, (q, d) ∈ old ++ dn ++ op /\ carries q d m) ->
  flow start old dn op got rest (Peer s' W (p_sent x)) y.
Proof.
  intros Hf Hs. apply (flow_resplit start old dn op); [done..|].
  destruct Hf as [Hl _]. apply (li_acked _ _ _ _ _ _ _ _ _ Hl).
Qed.

Lemma in_use_insert W w ph p :
  W !! w = None -> in_use (<[w := ph]> W) p <-> p = phase_place ph \/ in_use W p.
Proof.
  intros Hw. split.
  - intros (w'&ph'&Hl&<-). destruct (decide (w' = w)) as [->|Hne].
    + rewrite lookup_insert_eq in Hl. injection Hl as <-. by left.
    + rewrite lookup_insert_ne in Hl by done. right. by exists w', ph'.
  - intros [->|(w'&ph'&Hl&<-)].
    + exists w, ph. by rewrite lookup_insert_eq.
    + exists w', ph'. rewrite lookup_insert_ne by congruence. done.
Qed.

Lemma in_use_step W w ph ph' p :
  W !! w = Some ph -> phase_place ph' = phase_place ph ->
  in_use (<[w := ph']> W) p <-> in_use W p.
Proof.
  intros Hw He. split; intros (w'&ph1&Hl&<-); destruct (decide (w' = w)) as [->|Hne].
  - rewrite lookup_insert_eq in Hl. injection Hl as <-. by exists w, ph.
  - rewrite lookup_insert_ne in Hl by done. by exists w', ph1.
  - exists w, ph'. rewrite lookup_insert_eq. split; [done|congruence].
  - exists w', ph1. by rewrite lookup_insert_ne.
Qed.

Lemma in_use_delete W w ph p :
  W !! w = Some ph ->
  (in_use (delete w W) p -> in_use W p) /\ (in_use W p -> in_use (delete w W) p \/ p = phase_place ph).
Proof.
  intros Hw. split.
  - intros (w'&ph'&Hl&<-). apply lookup_delete_Some in Hl as [_ Hl]. by exists w', ph'.
  - intros (w'&ph'&Hl&<-). destruct (decide (w' = w)) as [->|Hne]; [right; congruence|left].
    exists w', ph'. by rewrite lookup_delete_ne.
Qed.

Lemma in_use_at W w ph : W !! w = Some ph -> in_use W (phase_place ph).
Proof. intros H. by exists w, ph. Qed.

(** The places in use, under another name. *)
Lemma sending_iff start old dn op s (P P' : Z -> Prop) :
  (forall p, P p <-> P' p) -> sending start old dn op s P -> sending start old dn op s P'.
Proof.
  intros He [? ? ? ? ? ? HP Hm]. split; try done; [apply (places_fewer _ _ _ P); [apply He|done]|].
  intros o1 m o2 Ho. destruct (Hm _ _ _ Ho); [left; by apply He|by right].
Qed.

Abbreviation acts := (acts sendto).

Lemma keeps_recv_pass n : preserves sender_kept (recv_pass sendto n).
Proof.
  unfold recv_pass, with_ctl. cbn [ctl_lock ctl_unlock net_lock sk_input_lock]. keeps.
  - apply keeps_sem_wait; [apply keeps_reader|done].
  - apply keeps_client_flush, keeps_reader.
  - by apply keeps_sem_post.
Qed.

Lemma keeps_wait : preserves receiver_kept (output_sent_buf_wait_not_empty (St:=sk)).
Proof.
  cbn [output_sent_buf_wait_not_empty ops_wait net_wait sk_send_wait sk_output_sent_buf_wait_not_empty].
  unfold is_sent_buf_empty, setup, mem_get. keeps.
Qed.

Lemma keeps_worker_poll p : preserves receiver_kept (worker_poll p).
Proof. unfold worker_poll. keeps; [apply keeps_msg_at|apply keeps_check]. Qed.

Lemma keeps_worker_finish p : preserves receiver_kept (worker_finish p).
Proof. unfold worker_finish. keeps; [apply keeps_msg_at|apply keeps_check|apply keeps_on_retry]. Qed.

(** The receiving half of the side that acts. *)
Definition idle_receiver (s s' : sk) : Prop := same_receiver s s' /\ (ready s -> ready s').

Lemma receiver_kept_idle {A} (m : M sk A) s r s' :
  preserves receiver_kept m -> m s = (r, s') ->
  (forall m, m ∈ k_out s' -> is_usual m = false -> m ∈ k_out s) -> idle_receiver s s'.
Proof.
  intros Hm Hr Ho. pose proof (preserves_run _ _ _ _ _ Hm Hr) as Hk.
  split; [by apply receiver_kept_same|by apply receiver_kept_ready].
Qed.

(** A section with the lock starts with the lock taken. *)
Definition taken (s : sk) : sk := set_sem SEND_WORKER_LOCK 0 s.
Definition released (s : sk) : sk := set_sem SEND_WORKER_LOCK (k_sems s SEND_WORKER_LOCK + 1) s.

Lemma locked_eq {A} (m : M sk A) s :
  k_sems s SEND_WORKER_LOCK = 1 -> locked m s = (a ← m; sem_post SEND_WORKER_LOCK;; mret a) (taken s).
Proof.
  intros Hl. unfold locked. rewrite (run_ret _ _ _ _ _ (sem_wait_alone SEND_WORKER_LOCK s ltac:(lia))).
  by rewrite Hl.
Qed.

Lemma locked_run {A} (m : M sk A) s a s1 :
  k_sems s SEND_WORKER_LOCK = 1 -> m (taken s) = (Ret a, s1) -> locked m s = (Ret a, released s1).
Proof. intros Hl Hr. rewrite locked_eq by done. mstep Hr. done. Qed.

Lemma locked_ret {A} (m : M sk A) s a s' :
  k_sems s SEND_WORKER_LOCK = 1 -> locked m s = (Ret a, s') ->
  exists s1, m (taken s) = (Ret a, s1) /\ s' = released s1.
Proof.
  intros Hl. rewrite locked_eq by done. intros Hr.
  destruct (bind_ret_inv _ _ _ _ _ Hr) as (a'&s1&H1&H2). exists s1.
  cbn in H2. by injection H2 as <- <-.
Qed.

Lemma released_same_receiver s : same_receiver s (released s).
Proof. by apply same_receiver_sem. Qed.

(** The receiving half through such a section. *)
Lemma locked_idle {A} (m : M sk A) s r s1 :
  preserves receiver_kept m -> m (taken s) = (r, s1) ->
  (forall m, m ∈ k_out s1 -> is_usual m = false -> m ∈ k_out s) -> idle_receiver s (released s1).
Proof.
  intros Hm Hr Ho. pose proof (preserves_run _ _ _ _ _ Hm Hr) as Hk. split.
  - apply (same_receiver_trans _ (taken s)); [by apply same_receiver_sem|].
    apply (same_receiver_trans _ s1); [|by apply same_receiver_sem]. by apply receiver_kept_same.
  - intros [? ? ? ?]. destruct (rk_outside _ _ Hk) as (Hst&_).
    assert (forall n, sending_sem n = false -> k_sems s1 n = k_sems (taken s) n) as Hsem by apply Hk.
    split.
    + change (is_state (k_state s1) = ESTABLISHED). by rewrite Hst.
    + unfold released. rewrite sems_same, Hsem by done. done.
    + unfold released. rewrite sems_other, Hsem by done. done.
    + unfold released. rewrite sems_other, Hsem by done. done.
Qed.

Lemma sending_taken start old dn op s P :
  sending start old dn op s P -> sending start old dn op (taken s) P.
Proof. intros Hs. apply (sending_same _ _ _ _ s); [done..|apply Hs]. Qed.

Lemma sending_released start old dn op s P :
  sending start old dn op s P -> sending start old dn op (released s) P.
Proof. intros Hs. apply (sending_same _ _ _ _ s); [done..|apply Hs]. Qed.

(** A section of the sender that sends nothing. *)
Lemma quiet_section start old dn op got rest x y {A} (m : M sk A) r s1 W :
  flow start old dn op got rest x y -> m (taken (p_sk x)) = (r, s1) -> preserves receiver_kept m ->
  sending start old dn op s1 (in_use W) /\ k_out s1 = k_out (p_sk x) ->
  flow start old dn op got rest (Peer (released s1) W (p_sent x)) y /\
  idle_receiver (p_sk x) (released s1).
Proof.
  intros Hf Hr Hm [Hs Ho]. split.
  - apply (flow_section _ _ _ _ _ _ _ _ _ _ Hf (sending_released _ _ _ _ _ _ Hs)).
    change (k_out (released s1)) with (k_out s1). rewrite Ho. auto.
  - apply (locked_idle _ _ _ _ Hm Hr). by rewrite Ho.
Qed.

Lemma flow_send start old dn op got rest x y d r s' :
  flow start old dn op got rest x y -> ready (p_sk x) -> (0 < length d)%nat -> Forall is_byte d ->
  undisturbed x (Z.of_nat (length d)) -> locked (cw_send (E:=Z) (tmp_msg d)) (p_sk x) = (Ret r, s') ->
  let m := (start + total (old ++ dn ++ op), d) in
  flow start old dn (op ++ [m]) got (rest ++ [m]) (Peer s' (p_workers x) (p_sent x ++ [d])) y /\
  idle_receiver (p_sk x) s'.
Proof.
  intros [Hl Hs] Hrd Hd Hb Hu Hrun m.
  destruct (locked_ret _ _ _ _ (rd_send_worker _ Hrd) Hrun) as (s1&Hr&->).
  destruct (sending_send _ _ _ _ _ _ _ _ _ (sending_taken _ _ _ _ _ _ Hs) Hd Hb Hu Hr) as [Hs' Ho].
  split.
  - split; [|by apply sending_released].
    apply (link_same_sender _ _ _ _ _ _ s1); [|by apply same_sender_sem].
    assert (link start old dn op got rest (Channel (taken (p_sk x)) (held (p_sk y)) (p_sent x))) as Hl0
      by (apply (link_same_sender _ _ _ _ _ _ (p_sk x)); [exact Hl|by apply same_sender_sem]).
    exact (link_send sendto sendto_takes_all _ _ _ _ _ _ _ _ _ _ Hl0 Hd Hb Hr).
  - apply (locked_idle _ _ _ _ (keeps_cw_send _) Hr). by rewrite Ho.
Qed.

(** The place a worker takes is a message's. *)
Lemma flow_scan_stops start old dn op got rest x y :
  flow start old dn op got rest x y -> scan_stops x ->
  (forall p, ~ in_use (p_workers x) p) \/ 256000 <= start + total old.
Proof.
  intros Hf [Hw|Hc]; [left|right].
  - intros p (w&ph&Hl&_). by rewrite Hw, lookup_empty in Hl.
  - pose proof (si_area _ _ _ _ (sn_inv _ _ _ _ _ _ (fw_sending _ _ _ _ _ _ _ _ Hf))) as Ha.
    unfold cwa in Ha. cbn in Ha. by rewrite Ha in Hc.
Qed.

Lemma flow_take start old dn op got rest x y w p s' :
  flow start old dn op got rest x y -> ready (p_sk x) -> scan_stops x -> p_workers x !! w = None ->
  locked (cw_next_msg (V:=Z) (E:=Z) (Z.to_nat OUTPUT_WINDOW_SZ)) (p_sk x) = (Ret p, s') ->
  flow start old dn op got rest (Peer s' (<[w := Sending p]> (p_workers x)) (p_sent x)) y /\
  idle_receiver (p_sk x) s'.
Proof.
  intros Hf Hrd Hst Hw Hrun.
  destruct (locked_ret _ _ _ _ (rd_send_worker _ Hrd) Hrun) as (s1&Hr&->).
  apply (quiet_section _ _ _ _ _ _ _ _ _ _ _ _ Hf Hr (keeps_next_msg _ keeps_wait)).
  destruct (sending_take _ _ _ _ _ _ _ _ (sending_taken _ _ _ _ _ _ (fw_sending _ _ _ _ _ _ _ _ Hf))
    (flow_scan_stops _ _ _ _ _ _ _ _ Hf Hst) Hr) as [Hs' Ho].
  split; [|exact Ho]. refine (sending_iff _ _ _ _ _ _ _ _ Hs'). intros p'. by rewrite in_use_insert.
Qed.

Lemma flow_transmit start old dn op got rest x y w p s' :
  flow start old dn op got rest x y -> p_workers x !! w = Some (Sending p) ->
  base_send_inplace sendto p (p_sk x) = (Ret tt, s') ->
  flow start old dn op got rest (Peer s' (<[w := Polling p]> (p_workers x)) (p_sent x)) y /\
  idle_receiver (p_sk x) s'.
Proof.
  intros Hf Hw Hrun.
  destruct (sending_transmit sendto sendto_takes_all _ _ _ _ _ _ p (fw_sending _ _ _ _ _ _ _ _ Hf)
    (in_use_at _ _ _ Hw)) as (q&d&m&s1&Hrun'&Hin&Hc&Ho&Hs'&_).
  rewrite Hrun in Hrun'. injection Hrun' as <-. split.
  - apply (flow_section _ _ _ _ _ _ _ _ _ _ Hf).
    + refine (sending_iff _ _ _ _ _ _ _ _ Hs'). intros p'. by rewrite (in_use_step _ _ (Sending p)).
    + rewrite Ho. intros m' Hm' _. apply elem_of_app in Hm' as [|Hm']; [by left|right].
      apply list_elem_of_singleton in Hm' as ->. by exists q, d.
  - apply (receiver_kept_idle _ _ _ _ (keeps_base_send_inplace _ _) Hrun).
    rewrite Ho. intros m' Hm' Hu. apply elem_of_app in Hm' as [|Hm']; [done|exfalso].
    apply list_elem_of_singleton in Hm' as ->. pose proof (ca_usual _ _ _ Hc). congruence.
Qed.

Lemma flow_poll start old dn op got rest x y w p b s' :
  flow start old dn op got rest x y -> ready (p_sk x) -> p_workers x !! w = Some (Polling p) ->
  locked (worker_poll p) (p_sk x) = (Ret b, s') ->
  flow start old dn op got rest (Peer s' (p_workers x) (p_sent x)) y /\ idle_receiver (p_sk x) s'.
Proof.
  intros Hf Hrd Hw Hrun. destruct (locked_ret _ _ _ _ (rd_send_worker _ Hrd) Hrun) as (s1&Hr&->).
  apply (quiet_section _ _ _ _ _ _ _ _ _ _ _ _ Hf Hr (keeps_worker_poll _)).
  destruct (sending_poll _ _ _ _ _ _ p (sending_taken _ _ _ _ _ _ (fw_sending _ _ _ _ _ _ _ _ Hf))
    (in_use_at _ _ _ Hw)) as (b1&s2&Hr'&Hs').
  rewrite Hr in Hr'. by injection Hr' as _ <-.
Qed.

Lemma flow_finish start old dn op got rest x y w ph s' :
  flow start old dn op got rest x y -> ready (p_sk x) -> p_workers x !! w = Some ph ->
  locked (worker_finish (phase_place ph)) (p_sk x) = (Ret tt, s') ->
  flow start old dn op got rest (Peer s' (delete w (p_workers x)) (p_sent x)) y /\
  idle_receiver (p_sk x) s'.
Proof.
  intros Hf Hrd Hw Hrun. destruct (locked_ret _ _ _ _ (rd_send_worker _ Hrd) Hrun) as (s1&Hr&->).
  apply (quiet_section _ _ _ _ _ _ _ _ _ _ _ _ Hf Hr (keeps_worker_finish _)).
  destruct (sending_finish _ _ _ _ _ _ (in_use (delete w (p_workers x))) (phase_place ph)
    (sending_taken _ _ _ _ _ _ (fw_sending _ _ _ _ _ _ _ _ Hf)) (in_use_at _ _ _ Hw)) as (s2&Hr'&Hs');
    [intros p'; apply (in_use_delete _ _ _ _ Hw)..|].
  rewrite Hr in Hr'. by injection Hr' as <-.
Qed.

(** The section of the last poll always succeeds. *)
Lemma finish_succeeds start old dn op got rest x y w ph :
  flow start old dn op got rest x y -> ready (p_sk x) -> p_workers x !! w = Some ph ->
  exists s', locked (worker_finish (phase_place ph)) (p_sk x) = (Ret tt, s') /\
    k_out s' = k_out (p_sk x).
Proof.
  intros Hf Hrd Hw.
  destruct (sending_finish _ _ _ _ _ _ (in_use (p_workers x)) (phase_place ph)
    (sending_taken _ _ _ _ _ _ (fw_sending _ _ _ _ _ _ _ _ Hf)) (in_use_at _ _ _ Hw)) as (s1&Hr&_&Ho);
    [by auto..|].
  exists (released s1). split; [|exact Ho]. by apply locked_run; [apply Hrd|].
Qed.

Lemma flow_signals start old dn op got rest x y f :
  flow start old dn op got rest x y ->
  (forall n, n <> SEND_BUF_NOT_EMPTY -> n <> RECV_WORKER_BUF_NOT_EMPTY -> f n = k_sems (p_sk x) n) ->
  flow start old dn op got rest (Peer (with_sems f (p_sk x)) (p_workers x) (p_sent x)) y /\
  idle_receiver (p_sk x) (with_sems f (p_sk x)).
Proof.
  intros Hf He. split; [by apply flow_same_sender; [|split]|].
  split; [split; try done; by apply He|]. intros [? ? ? ?]. split; [done|by rewrite He..].
Qed.

Lemma flow_clock start old dn op got rest x y t :
  flow start old dn op got rest x y -> 0 <= t < modulus64 ->
  flow start old dn op got rest (Peer (set_clock t (p_sk x)) (p_workers x) (p_sent x)) y /\
  idle_receiver (p_sk x) (set_clock t (p_sk x)).
Proof.
  intros Hf Ht. split.
  - apply flow_same_sender; [done|]. split; try done. intros [? ?]. split; done.
  - split; [split; done|]. intros [? ? ? ?]. split; done.
Qed.

(** Whatever [x] does by itself, its stream goes on; and its receiving half
    rests or is read from. *)
Definition reads (x x' : peer) : Prop :=
  exists n d, 0 <= n /\ recv_pass sendto n (p_sk x) = (Ret d, p_sk x').

Lemma acts_flow start old dn op got rest x x' y :
  flow start old dn op got rest x y -> ready (p_sk x) -> acts x x' ->
  exists old' dn' op' rest', flow start old' dn' op' got rest' x' y /\
    (idle_receiver (p_sk x) (p_sk x') \/ reads x x').
Proof.
  intros Hf Hrd Ha.
  destruct Ha as (a&Ha&Hord).
  destruct Ha as [x d r s' Hb Hrun|x w p s' Hw Hrun|x w p s' Hw Hrun|x w p s' Hw Hrun
    |x w p s' Hw Hrun|x t Ht|x f He|x n d s' Hn Hrun]; cbn [orderly] in Hord.
  - destruct Hord as [Hd Hu]. destruct (flow_send _ _ _ _ _ _ _ _ _ _ _ Hf Hrd Hd Hb Hu Hrun). eauto 8.
  - destruct (flow_take _ _ _ _ _ _ _ _ _ _ _ Hf Hrd Hord Hw Hrun). eauto 8.
  - destruct (flow_transmit _ _ _ _ _ _ _ _ _ _ _ Hf Hw Hrun). eauto 8.
  - destruct (flow_poll _ _ _ _ _ _ _ _ _ _ _ _ Hf Hrd Hw Hrun). eauto 8.
  - destruct (flow_finish _ _ _ _ _ _ _ _ _ _ _ Hf Hrd Hw Hrun). eauto 8.
  - destruct (flow_clock _ _ _ _ _ _ _ _ _ Hf Ht). eauto 8.
  - destruct (flow_signals _ _ _ _ _ _ _ _ _ Hf He). eauto 8.
  - exists old, dn, op, rest. split; [|right; by exists n, d]. apply flow_same_sender; [done|].
    apply sender_kept_same. exact (preserves_run _ _ _ _ _ (keeps_recv_pass n) Hrun).
Qed.

(** *** Reading *)

Lemma recv_lock_free s :
  k_sems s RECV_LOCK = 1 -> ctl_lock s = (Ret tt, held s).
Proof.
  intros Hl. cbn [ctl_lock ops_lock chan_lock sk_input_lock]. unfold sem_wait, reader.
  rewrite !bind_unfold. cbn [mret M_ret]. rewrite bind_unfold. unfold gets. rewrite Hl. done.
Qed.

Lemma recv_pass_run n d s s1 :
  ready s -> client_flush_request n (held s) = (Ret d, s1) -> k_sems s1 RECV_LOCK = 0 ->
  recv_pass sendto n s = (Ret d, set_sem RECV_LOCK 1 s1).
Proof.
  intros Hrd Hr Hq. apply (with_ctl_ret _ _ _ _ _ _ (recv_lock_free _ (rd_recv _ Hrd)) Hr).
  cbn [ctl_unlock ops_lock chan_lock net_lock sk_input_lock]. unfold sem_post. by rewrite Hq.
Qed.

Lemma recv_pass_ret n d s s' :
  ready s -> recv_pass sendto n s = (Ret d, s') ->
  exists s1, client_flush_request n (held s) = (Ret d, s1) /\
    s' = set_sem RECV_LOCK (k_sems s1 RECV_LOCK + 1) s1.
Proof.
  intros Hrd Hrun. destruct (bind_ret_inv _ _ _ _ _ Hrun) as ([]&s0&Hlk&Hfin).
  pose proof (eq_trans (eq_sym Hlk) (recv_lock_free _ (rd_recv _ Hrd))) as [= ->].
  destruct (finally_ret_inv _ _ _ _ _ Hfin) as (s1&Hr&Hu). exists s1. split; [exact Hr|].
  cbn in Hu. by injection Hu as <-.
Qed.

(** The client of [x] asks for [n] bytes of what has arrived of [y]'s stream. *)
Lemma flow_read start old dn op got rest y x n d s' :
  flow start old dn op got rest y x -> ready (p_sk x) -> 0 <= n ->
  recv_pass sendto n (p_sk x) = (Ret d, s') ->
  d = take (Z.to_nat n) (pending (held (p_sk x))) /\ ready s' /\
  k_user s' = k_user (p_sk x) ++ d /\
  flow start old dn op got rest y (Peer s' (p_workers x) (p_sent x)).
Proof.
  intros [Hl Hs] Hrd Hn Hrun. pose proof (li_rcv _ _ _ _ _ _ _ _ _ Hl) as Hir. cbn [c_rcv one_way] in Hir.
  destruct (recv_pass_ret _ _ _ _ Hrd Hrun) as (s1&Hr&He).
  destruct (client_flush_returns n (held (p_sk x)) d s1 Hir Hn Hr) as (Hd&Hi1&Hd1&_).
  pose proof (link_read sendto sendto_takes_all _ _ _ _ _ _ _ _ _ _ Hl Hn Hr) as Hl1.
  destruct (ri_quiet _ Hi1) as [Hq _].
  assert (k_sems s' RECV_LOCK = 1) as Hl' by (rewrite He, sems_same, Hq; done).
  split_and!; [exact Hd| |by rewrite He|].
  - apply (sender_kept_ready (p_sk x)); [|done..]. exact (preserves_run _ _ _ _ _ (keeps_recv_pass n) Hrun).
  - split; [|done]. apply (link_same_receiver _ _ _ _ _ _ _ s1); [exact Hl1| |done]. rewrite He.
    apply (same_receiver_trans _ (set_sem RECV_LOCK (k_sems s1 RECV_LOCK + 1) s1)); by apply same_receiver_sem.
Qed.

(** The client's wait for the signal that there is data. *)
Lemma wait_not_empty_eq s :
  k_sems s RECV_LOCK = 1 ->
  ctl_call input_win_wait_not_empty (held s) =
    (sem_wait (reader sendto) RECV_WORKER_BUF_NOT_EMPTY;; sem_wait (reader sendto) RECV_LOCK)
      (set_sem RECV_LOCK 1 (held s)).
Proof. done. Qed.

Lemma wait_not_empty_woken s :
  k_sems s RECV_LOCK = 1 -> 0 < k_sems s RECV_WORKER_BUF_NOT_EMPTY ->
  exists s2, ctl_call input_win_wait_not_empty (held s) = (Ret tt, s2).
Proof.
  intros Hl Hs. rewrite wait_not_empty_eq by done. set (s1 := set_sem RECV_LOCK 1 (held s)).
  assert (sem_wait (reader sendto) RECV_WORKER_BUF_NOT_EMPTY s1 =
    (Ret tt, set_sem RECV_WORKER_BUF_NOT_EMPTY (k_sems s RECV_WORKER_BUF_NOT_EMPTY - 1) s1)) as E.
  { unfold sem_wait. rewrite !bind_unfold. cbn [reader mret M_ret]. rewrite bind_unfold. unfold gets.
    change (k_sems s1 RECV_WORKER_BUF_NOT_EMPTY) with (k_sems s RECV_WORKER_BUF_NOT_EMPTY).
    by rewrite (proj2 (Z.ltb_lt _ _) Hs). }
  mstep E. rewrite reader_lock by (rewrite sems_other by done; by apply sems_same). by eexists.
Qed.

Lemma wait_not_empty_waits s :
  k_sems s RECV_LOCK = 1 -> ~ 0 < k_sems s RECV_WORKER_BUF_NOT_EMPTY ->
  exists s2, ctl_call input_win_wait_not_empty (held s) = (Fault blocked, s2).
Proof.
  intros Hl Hs. rewrite wait_not_empty_eq by done. set (s1 := set_sem RECV_LOCK 1 (held s)).
  exists s1. rewrite bind_unfold.
  assert (sem_wait (reader sendto) RECV_WORKER_BUF_NOT_EMPTY s1 = (Fault blocked, s1)) as E.
  { unfold sem_wait. rewrite !bind_unfold. cbn [reader mret M_ret]. rewrite bind_unfold. unfold gets.
    change (k_sems s1 RECV_WORKER_BUF_NOT_EMPTY) with (k_sems s RECV_WORKER_BUF_NOT_EMPTY).
    by rewrite (proj2 (Z.ltb_ge _ _)) by lia. }
  by rewrite E.
Qed.

(** When something is pending the request returns; otherwise it returns
    nothing, by an old signal, or waits. *)
Lemma recv_pass_ends start old dn op got rest y x n :
  flow start old dn op got rest y x -> ready (p_sk x) -> 0 <= n ->
  exists s', recv_pass sendto n (p_sk x) = (Ret (take (Z.to_nat n) (pending (held (p_sk x)))), s') \/
    pending (held (p_sk x)) = [] /\ recv_pass sendto n (p_sk x) = (Fault blocked, s').
Proof.
  intros [Hl _] Hrd Hn. pose proof (li_rcv _ _ _ _ _ _ _ _ _ Hl) as Hir. cbn [c_rcv one_way] in Hir.
  set (h := held (p_sk x)) in *. destruct (decide (pending h = [])) as [Hp|Hp].
  - destruct (decide (0 < k_sems (p_sk x) RECV_WORKER_BUF_NOT_EMPTY)) as [Hsig|Hsig].
    + destruct (wait_not_empty_woken (p_sk x) (rd_recv _ Hrd) Hsig) as (s2&Hc).
      destruct (client_flush_woken n h s2 Hir Hp Hn Hc) as (s1&Hr&Hi1&_).
      eexists. left. rewrite Hp, take_nil. apply (recv_pass_run _ _ _ _ Hrd Hr). apply (ri_quiet _ Hi1).
    + destruct (wait_not_empty_waits (p_sk x) (rd_recv _ Hrd) Hsig) as (s2&Hc).
      pose proof (client_flush_blocked n h blocked s2 Hir Hp Hc) as Hr.
      exists s2. right. split; [done|]. exact (with_ctl_fault _ _ _ _ _ (recv_lock_free _ (rd_recv _ Hrd)) Hr).
  - destruct (client_flush_ok n h Hir Hp Hn) as (s1&Hr&Hi1&_).
    eexists. left. apply (recv_pass_run _ _ _ _ Hrd Hr). apply (ri_quiet _ Hi1).
Qed.

(** *** What arrives *)

(** The receiving worker's sections with free locks. *)
Lemma dispatch_data m s s1 :
  is_usual m = true -> ready s ->
  iw_on_msg m (held (set_sem RECV_WORKER_LOCK 0 s)) = (Ret tt, s1) -> k_sems s1 RECV_LOCK = 0 ->
  recv_worker_dispatch sendto rand32 (reader sendto) 0 m s =
    (Ret tt, set_sem RECV_WORKER_LOCK (k_sems s1 RECV_WORKER_LOCK + 1) (set_sem RECV_LOCK 1 s1)).
Proof.
  intros Hu [Hst _ Hrw Hr] Hrun Hq. unfold recv_worker_dispatch. rewrite Hu.
  apply regular_msg_run; try done. by intros n s0 [->| ->].
Qed.

Lemma dispatch_ack m s s1 :
  pure_ack m -> ready s ->
  (cwc_on_ack m;; cw_on_ack (V:=Z) (E:=Z) m) (set_sem SEND_WORKER_LOCK 0 s) = (Ret tt, s1) ->
  recv_worker_dispatch sendto rand32 (reader sendto) 0 m s =
    (Ret tt, set_sem SEND_WORKER_LOCK (k_sems s1 SEND_WORKER_LOCK + 1) s1).
Proof.
  intros Hp [Hst Hsw _ _] Hrun. unfold recv_worker_dispatch.
  rewrite (pure_ack_not_usual m Hp). destruct Hp as (->&_&->&->). cbn [orb].
  unfold sk_output_on_ack.
  assert (sem_wait (reader sendto) SEND_WORKER_LOCK s = (Ret tt, set_sem SEND_WORKER_LOCK 0 s)) as E1.
  { unfold sem_wait, reader. rewrite !bind_unfold. cbn [mret M_ret]. rewrite bind_unfold.
    unfold gets. rewrite Hsw. done. }
  mstep E1. assert (get_state (set_sem SEND_WORKER_LOCK 0 s) = (Ret ESTABLISHED, set_sem SEND_WORKER_LOCK 0 s))
    as E2 by (rewrite <- Hst; done).
  mstep E2. rewrite decide_True by done. rewrite (run_ret _ _ _ _ _ Hrun). done.
Qed.

(** A message of [y]'s stream arrives at [x]. *)
Lemma flow_data start old dn op got rest y x m a q d b :
  flow start old dn op got rest y x -> below start y -> ready (p_sk x) ->
  old ++ dn ++ op = a ++ (q, d) :: b -> carries q d m ->
  exists s' got' rest' ack,
    recv_worker_dispatch sendto rand32 (reader sendto) 0 m (p_sk x) = (Ret tt, s') /\
    flow start old dn op got' rest' y (Peer s' (p_workers x) (p_sent x)) /\ ready s' /\
    (if (total a =? total got) &&
        (q + Z.of_nat (length d) <=? iw_start (k_iw (p_sk x)) + INPUT_WINDOW_SZ)
     then got' = got ++ [(q, d)] else got' = got) /\
    same_sender (p_sk x) s' /\ k_user (p_sk x) `prefix_of` k_user s' /\
    k_out s' = k_out (p_sk x) ++ [ack] /\ pure_ack ack /\
    get_seq ack = u32 (start + total got' - 1) /\ 1 <= get_window_sz ack.
Proof.
  intros [Hl Hs] Hw Hrd Hx Hc. set (s0 := held (set_sem RECV_WORKER_LOCK 0 (p_sk x))).
  assert (link start old dn op got rest (Channel (p_sk y) s0 (p_sent y))) as Hl0.
  { apply (link_same_receiver _ _ _ _ _ _ _ (held (p_sk x))); [exact Hl|split; done|done]. }
  destruct (link_deliver_run sendto sendto_takes_all _ _ _ _ _ _ _ _ _ _ _ _ Hl0 Hw Hx Hc)
    as (s1&got'&rest'&w&Hr&Hl1&Ha&Hacc&Hpre&Hk&Hw1).
  cbn [c_rcv c_snd c_sent] in *.
  destruct (ri_quiet _ (li_rcv _ _ _ _ _ _ _ _ _ Hl1)) as [Hq _]. cbn [c_rcv] in Hq.
  pose proof (dispatch_data m (p_sk x) s1 (ca_usual _ _ _ Hc) Hrd Hr Hq) as Hrun.
  set (s' := set_sem _ _ (set_sem RECV_LOCK 1 s1)) in Hrun.
  destruct (keeps_acks sendto sendto_takes_all _ _ _ Hk Ha) as ([|ack [|]]&Ho&Hp&[= Hqa Hwa]).
  exists s', got', rest', ack. split_and!; try done.
  - split; [|done]. apply (link_same_receiver _ _ _ _ _ _ _ s1); [exact Hl1|split; done|done].
  - pose proof (sk_outside _ _ Hk) as (Hst'&_). destruct Hrd.
    assert (forall n, receiving_sem n = false -> k_sems s1 n = k_sems s0 n) as Hsem by apply Hk.
    split.
    + unfold s'. change (is_state (k_state s1) = ESTABLISHED). rewrite Hst'. done.
    + unfold s'. rewrite !sems_other by done. by rewrite Hsem.
    + unfold s'. rewrite sems_same, Hsem by done. done.
    + unfold s'. by rewrite sems_other, sems_same by done.
  - apply (same_sender_trans _ s0); [split; done|]. apply (same_sender_trans _ s1); [|split; done].
    by apply sender_kept_same.
  - by apply Forall_inv in Hp.
  - by rewrite Hwa.
Qed.

(** An acknowledgement of [y]'s arrives at [x]. *)
Lemma flow_ack start old dn op got rest x y m a b :
  flow start old dn op got rest x y -> below start x -> ready (p_sk x) ->
  fourth_duplicate m (p_sk x) = false -> pure_ack m ->
  old ++ dn ++ op = a ++ b -> total a <= total got -> get_seq m = u32 (start + total a - 1) ->
  exists s' old' dn' op',
    recv_worker_dispatch sendto rand32 (reader sendto) 0 m (p_sk x) = (Ret tt, s') /\
    flow start old' dn' op' got rest (Peer s' (p_workers x) (p_sent x)) y /\ ready s' /\
    old' ++ dn' ++ op' = old ++ dn ++ op /\ total a <= total (old' ++ dn') /\
    same_receiver (p_sk x) s' /\
    exists s1, (cwc_on_ack m;; cw_on_ack (V:=Z) (E:=Z) m) (taken (p_sk x)) = (Ret tt, s1) /\
      s' = released s1 /\ k_out s1 = k_out (p_sk x).
Proof.
  intros Hf [Hst Hwrap] Hrd Hfd Hp Hx Hle Hq. pose proof Hf as [Hl Hs].
  rewrite <- (flow_total _ _ _ _ _ _ _ _ Hf) in Hwrap.
  set (s0 := set_sem SEND_WORKER_LOCK 0 (p_sk x)).
  assert (sending start old dn op s0 (in_use (p_workers x))) as Hs0
    by (apply (sending_same _ _ _ _ (p_sk x)); [done..|apply Hs]).
  destruct (sending_ack _ _ _ _ s0 _ m a b Hs0 Hfd Hx Hq Hwrap)
    as (s1&old'&dn'&op'&Hr&Hs1&He&Ht&Ho).
  pose proof (dispatch_ack m (p_sk x) s1 Hp Hrd Hr) as Hrun.
  set (s' := set_sem _ _ s1) in Hrun.
  assert (receiver_kept s0 s1) as Hk.
  { assert (preserves receiver_kept (cwc_on_ack m;; cw_on_ack (V:=Z) (E:=Z) m)) as Hkeep
      by (keeps; [apply keeps_cwc_on_ack|apply keeps_cw_on_ack]).
    exact (preserves_run _ _ _ _ _ Hkeep Hr). }
  pose proof (li_acked _ _ _ _ _ _ _ _ _ Hl).
  exists s', old', dn', op'. split_and!; try done.
  - apply (flow_resplit start old dn op); [done| |done|lia|].
    + apply (sending_same _ _ _ _ s1); [done..|apply Hs1].
    + change (k_out s') with (k_out s1). rewrite Ho. auto.
  - pose proof (rk_outside _ _ Hk) as (Hst'&_). destruct Hrd.
    assert (forall n, sending_sem n = false -> k_sems s1 n = k_sems s0 n) as Hsem by apply Hk.
    split.
    + change (is_state (k_state s1) = ESTABLISHED). rewrite Hst'. done.
    + unfold s'. rewrite sems_same, Hsem by done. done.
    + unfold s'. rewrite sems_other, Hsem by done. done.
    + unfold s'. rewrite sems_other, Hsem by done. done.
  - lia.
  - apply (same_receiver_trans _ s0); [by apply same_receiver_sem|].
    apply (same_receiver_trans _ s1); [|by apply same_receiver_sem].
    apply receiver_kept_same; [exact Hk|]. rewrite Ho. auto.
  - by exists s1.
Qed.

(** ** Both directions *)

Record net_inv (sa sb : Z) (c : net) : Prop := {
  ni_ab : exists old dn op got rest, flow sa old dn op got rest (n_a c) (n_b c);
  ni_ba : exists old dn op got rest, flow sb old dn op got rest (n_b c) (n_a c);
  ni_a : ready (p_sk (n_a c));
  ni_b : ready (p_sk (n_b c));
}.

Lemma net_inv_swap sa sb c : net_inv sa sb c <-> net_inv sb sa (net_swap c).
Proof. split; intros []; split; done. Qed.

(** What one side has received, and what its client has been given, grows. *)
Definition gained (s s' : sk) : Prop :=
  k_user s `prefix_of` k_user s' /\ received (held s) `prefix_of` received (held s').

#[local] Instance gained_preorder : PreOrder gained.
Proof. split; [by split|]. intros s1 s2 s3 [? ?] [? ?]. split; by etransitivity. Qed.

Lemma same_receiver_gained s s' : same_receiver s s' -> gained s s'.
Proof.
  intros Hs. split; [by rewrite (sr_user _ _ Hs)|].
  destruct (received_same (held s) (held s')) as [-> _]; [|done]. destruct Hs. by split.
Qed.

Lemma flow_gained start old dn op got rest got' rest' y x x' :
  flow start old dn op got rest y x -> flow start old dn op got' rest' y x' ->
  k_user (p_sk x) `prefix_of` k_user (p_sk x') -> got `prefix_of` got' ->
  gained (p_sk x) (p_sk x').
Proof.
  intros [Hl _] [Hl' _] Hu [z ->]. split; [done|].
  assert (received (held (p_sk x)) = flat got) as -> by exact (li_received _ _ _ _ _ _ _ _ _ Hl).
  assert (received (held (p_sk x')) = flat (got ++ z)) as ->
    by exact (li_received _ _ _ _ _ _ _ _ _ Hl').
  rewrite flat_app. by apply prefix_app_r.
Qed.

(** One side moves: the half it sends with, the half it receives with, its
    locks. *)
Lemma acts_inv sa sb c x :
  net_inv sa sb c -> acts (n_a c) x ->
  net_inv sa sb (Net x (n_b c)) /\ gained (p_sk (n_a c)) (p_sk x).
Proof.
  intros [(old&dn&op&got&rest&Hab) (old2&dn2&op2&got2&rest2&Hba) Ha Hb] Hact.
  destruct (acts_flow _ _ _ _ _ _ _ _ _ Hab Ha Hact) as (old'&dn'&op'&rest'&Hab'&[[Hsr Hrd]|Hread]).
  - split; [|by apply same_receiver_gained]. split; [by eauto 10| |by apply Hrd|done].
    exists old2, dn2, op2, got2, rest2. by apply (flow_same_receiver _ _ _ _ _ _ _ (n_a c)).
  - destruct Hread as (n&d&Hn&Hrun).
    destruct (flow_read _ _ _ _ _ _ _ _ _ _ _ Hba Ha Hn Hrun) as (_&Hrd'&Hu&Hba').
    assert (flow sb old2 dn2 op2 got2 rest2 (n_b c) x) as Hba2 by (destruct Hba' as [Hl' Hs']; by split).
    split; [split; [by eauto 10|by eauto 10|done|done]|].
    apply (flow_gained _ _ _ _ _ _ _ _ _ _ _ Hba Hba2); [rewrite Hu; by eexists|done].
Qed.

Lemma arrives_pure_ack m0 m : arrives m0 m -> pure_ack m0 -> pure_ack m.
Proof.
  intros [Ht _]. unfold pure_ack, is_ack, is_syn, is_fin, is_rst, m_hdr. by rewrite Ht.
Qed.

Lemma hears_inv sa sb c x :
  net_inv sa sb c -> below sa (n_a c) -> below sb (n_b c) ->
  hears sendto rand32 (k_out (p_sk (n_b c))) (n_a c) x ->
  net_inv sa sb (Net x (n_b c)) /\ gained (p_sk (n_a c)) (p_sk x).
Proof.
  intros [(old&dn&op&got&rest&Hab) (old2&dn2&op2&got2&rest2&Hba) Ha Hb] Hbea Hbeb Hh.
  remember (n_a c) as xa eqn:Ex. destruct Hh as (m&Hh&Hfd). destruct Hh as [x m0 s' Hm0 Harr Hrun].
  pose proof (fw_link _ _ _ _ _ _ _ _ Hab) as Hl. pose proof (fw_link _ _ _ _ _ _ _ _ Hba) as Hl2.
  destruct (is_usual m0) eqn:Hu.
  - destruct (li_out _ _ _ _ _ _ _ _ _ Hl2 m0 Hm0 Hu) as (a&q&d&b&He&Hc).
    destruct (flow_data _ _ _ _ _ _ _ _ m _ _ _ _ Hba Hbeb Ha He (arrives_carries _ _ _ _ Hc Harr))
      as (s1&got'&rest'&ack&Hrun'&Hba'&Hrd'&Hgot&Hss&Hpre&_).
    rewrite Hrun in Hrun'. injection Hrun' as <-. split.
    + split; [|by eauto 10|done|done]. exists old, dn, op, got, rest. by apply flow_same_sender.
    + apply (flow_gained _ _ _ _ _ _ _ _ _ _ _ Hba Hba' Hpre).
      destruct (_ && _); rewrite Hgot; [by eexists|done].
  - destruct (li_acks _ _ _ _ _ _ _ _ _ Hl m0 Hm0 Hu) as (Hp&a&b&He&Hle&Hq).
    rewrite <- (arrives_seq _ _ Harr) in Hq. rewrite <- (arrives_usual _ _ Harr) in Hu.
    destruct (flow_ack _ _ _ _ _ _ _ _ m a b Hab Hbea Ha (Hfd Hu) (arrives_pure_ack _ _ Harr Hp) He Hle Hq)
      as (s1&old'&dn'&op'&Hrun'&Hab'&Hrd'&_&_&Hsr&_).
    rewrite Hrun in Hrun'. injection Hrun' as <-. split; [|by apply same_receiver_gained].
    split; [by eauto 10| |done|done]. exists old2, dn2, op2, got2, rest2.
    by apply (flow_same_receiver _ _ _ _ _ _ _ x).
Qed.

Abbreviation net_step := (net_step sendto rand32).

Definition net_below (sa sb : Z) (c : net) : Prop := below sa (n_a c) /\ below sb (n_b c).

Definition grows (c c' : net) : Prop :=
  gained (p_sk (n_a c)) (p_sk (n_a c')) /\ gained (p_sk (n_b c)) (p_sk (n_b c')).

Lemma net_step_inv sa sb c c' :
  net_inv sa sb c -> net_below sa sb c -> net_step c c' -> net_inv sa sb c' /\ grows c c'.
Proof.
  intros Hi [Ha Hb] Hs. destruct Hs as [c x H|c x H|c x H|c x H].
  - destruct (acts_inv _ _ _ _ Hi H). split; [done|by split].
  - apply net_inv_swap in Hi. destruct (acts_inv sb sa (net_swap c) x Hi H) as [Hi' ?].
    split; [by apply net_inv_swap in Hi'|by split].
  - destruct (hears_inv _ _ _ _ Hi Ha Hb H). split; [done|by split].
  - apply net_inv_swap in Hi. destruct (hears_inv sb sa (net_swap c) x Hi Hb Ha H) as [Hi' ?].
    split; [by apply net_inv_swap in Hi'|by split].
Qed.

Abbreviation net_steps := (rtc net_step).

(** *** Runs *)

Lemma acts_sent x x' : acts x x' -> exists l, p_sent x' = p_sent x ++ l.
Proof.
  intros (a&Ha&_). destruct Ha; cbn [p_sent]; first [by eexists | exists []; by rewrite app_nil_r].
Qed.

Lemma hears_sent out x x' : hears sendto rand32 out x x' -> p_sent x' = p_sent x.
Proof. intros (m&Hr&_). by destruct Hr. Qed.

Lemma below_fewer start x x' l : p_sent x' = p_sent x ++ l -> below start x' -> below start x.
Proof.
  intros He [H1 H2]. split; [done|]. rewrite He, concat_app, length_app in H2. lia.
Qed.

Lemma net_step_below sa sb c c' : net_step c c' -> net_below sa sb c' -> net_below sa sb c.
Proof.
  intros Hs [Ha Hb]. destruct Hs as [c x H|c x H|c x H|c x H]; cbn [n_a n_b] in *; (split; try done).
  - destruct (acts_sent _ _ H) as (l&He). by eapply below_fewer.
  - destruct (acts_sent _ _ H) as (l&He). by eapply below_fewer.
  - destruct Ha. unfold below. by rewrite <- (hears_sent _ _ _ H).
  - destruct Hb. unfold below. by rewrite <- (hears_sent _ _ _ H).
Qed.

Lemma net_steps_inv sa sb c c' :
  net_inv sa sb c -> net_steps c c' -> net_below sa sb c' ->
  net_inv sa sb c' /\ grows c c'.
Proof.
  intros Hi Hs. revert c' Hs. apply (rtc_ind_r (fun c' => net_below sa sb c' ->
    net_inv sa sb c' /\ grows c c')).
  - intros _. by split.
  - intros c1 c2 _ Hs IH Hb. pose proof (net_step_below _ _ _ _ Hs Hb) as Hb1.
    destruct (IH Hb1) as [Hi1 [Hg1 Hg2]].
    destruct (net_step_inv _ _ _ _ Hi1 Hb1 Hs) as [Hi2 [Hg3 Hg4]].
    split; [done|]. split; by etransitivity.
Qed.

(** *** The start *)

(** Established in both directions, nothing sent yet, no worker on its way. *)
Record net_connected (sa sb : Z) (c : net) : Prop := {
  nc_ab : connected sendto sendto_takes_all sa (one_way (n_a c) (n_b c));
  nc_ba : connected sendto sendto_takes_all sb (one_way (n_b c) (n_a c));
  nc_workers : p_workers (n_a c) = ∅ /\ p_workers (n_b c) = ∅;
  nc_ready : ready (p_sk (n_a c)) /\ ready (p_sk (n_b c));
  nc_start : 0 <= sa /\ 0 <= sb;
}.

Lemma connected_flow start x y :
  connected sendto sendto_takes_all start (one_way x y) -> p_workers x = ∅ -> 0 <= start ->
  flow start [] [] [] [] [] x y.
Proof.
  intros Hc Hw H0. pose proof (connected_link sendto sendto_takes_all _ _ Hc) as Hl.
  split; [exact Hl|]. split; try apply Hl; try done.
  - rewrite Hw. apply (places_fewer _ _ _ (fun _ => False)); [|apply places_none].
    intros p (w&ph&Hl'&_). by rewrite lookup_empty in Hl'.
  - intros o1 m o2 He. by destruct o1.
Qed.

Lemma net_connected_inv sa sb c : net_connected sa sb c -> net_inv sa sb c.
Proof.
  intros [Hab Hba [Hwa Hwb] [Hra Hrb] [H0 H1]]. split; try done;
    (exists [], [], [], [], []; by apply connected_flow).
Qed.

(** *** What the invariant says of one direction *)

Definition in_order (start : Z) (x y : peer) : Prop :=
  k_user (p_sk y) `prefix_of` received (held (p_sk y)) /\
  received (held (p_sk y)) `prefix_of` concat (p_sent x) /\
  cw_start (k_cw (p_sk x)) + cw_off (k_cw (p_sk x)) <=
    start + Z.of_nat (length (received (held (p_sk y)))) /\
  (sent_buf_empty (win_of (k_cw (p_sk x))) = true ->
   received (held (p_sk y)) = concat (p_sent x)).

Lemma flow_in_order start old dn op got rest x y :
  flow start old dn op got rest x y -> in_order start x y.
Proof.
  intros [Hl _].
  assert (received (held (p_sk y)) = flat got) as Hr by exact (li_received _ _ _ _ _ _ _ _ _ Hl).
  split_and!.
  - by eexists.
  - exists (flat rest). rewrite Hr, <- flat_app, <- (li_split _ _ _ _ _ _ _ _ _ Hl).
    change (p_sent x) with (c_sent (one_way x y)). by rewrite <- (li_sent _ _ _ _ _ _ _ _ _ Hl).
  - rewrite Hr, length_flat.
    pose proof (li_acked _ _ _ _ _ _ _ _ _ Hl) as Ha. rewrite total_app in Ha.
    pose proof (si_area _ _ _ _ (li_snd _ _ _ _ _ _ _ _ _ Hl)) as Hcw. unfold cwa in Hcw.
    cbn in Hcw. rewrite Hcw. cbn. lia.
  - pose proof (si_area _ _ _ _ (li_snd _ _ _ _ _ _ _ _ _ Hl)) as Hcw. unfold cwa in Hcw.
    cbn in Hcw. rewrite Hcw, win_area, sender_empty.
    2:{ pose proof (li_nonempty _ _ _ _ _ _ _ _ _ Hl) as Hn. unfold nonempty_msgs in Hn.
        rewrite !Forall_app in Hn. apply Hn. }
    destruct op; [intros _|done]. exact (link_all_got sendto sendto_takes_all _ _ _ _ _ _ Hl).
Qed.

(** ** Progress *)

(** What one side's worker does next always succeeds. *)
Lemma worker_moves start old dn op got rest x y w ph :
  flow start old dn op got rest x y -> ready (p_sk x) -> p_workers x !! w = Some ph ->
  exists x1 x2, rtc acts x x1 /\ acts x1 x2 /\ p_sent x2 = p_sent x /\
    p_workers x2 = delete w (p_workers x).
Proof.
  intros Hf Hrd Hw.
  assert (forall x, flow start old dn op got rest x y -> ready (p_sk x) ->
    p_workers x !! w = Some (Polling (phase_place ph)) ->
    exists x2, acts x x2 /\ p_sent x2 = p_sent x /\ p_workers x2 = delete w (p_workers x)) as Hfin.
  { clear x Hf Hrd Hw. intros x Hf Hrd Hw.
    destruct (finish_succeeds _ _ _ _ _ _ _ _ _ _ Hf Hrd Hw) as (s'&Hrun&_).
    eexists. split; [exact (act_finish sendto _ _ _ _ Hw Hrun)|done]. }
  destruct ph as [p|p]; cbn [phase_place] in Hfin.
  - destruct (sending_transmit sendto sendto_takes_all _ _ _ _ _ _ p (fw_sending _ _ _ _ _ _ _ _ Hf)
      (in_use_at _ _ _ Hw)) as (q&d&m&s'&Hrun&_).
    destruct (flow_transmit _ _ _ _ _ _ _ _ _ _ _ Hf Hw Hrun) as [Hf' [_ Hrd']].
    destruct (Hfin _ Hf' (Hrd' Hrd)) as (x2&Ha&Hsent&Hdel); [apply lookup_insert_eq|].
    eexists _, x2. split; [apply rtc_once; exact (act_transmit sendto _ _ _ _ Hw Hrun)|].
    split; [exact Ha|]. split; [exact Hsent|]. rewrite Hdel. apply delete_insert_eq.
  - destruct (Hfin _ Hf Hrd Hw) as (x2&Ha&Hsent&Hdel). by exists x, x2.
Qed.

Lemma acts_net c x : rtc acts (n_a c) x -> net_steps c (Net x (n_b c)).
Proof.
  intros H. destruct c as [a b]. cbn [n_a n_b] in *. induction H as [x|x x1 x2 H _ IH]; [done|].
  eapply rtc_l; [|exact IH]. by apply (step_a sendto rand32 (Net x b)).
Qed.

(** All workers of one side finish. *)
Lemma workers_finish sa sb c :
  net_inv sa sb c -> net_below sa sb c ->
  exists x, net_steps c (Net x (n_b c)) /\ p_sent x = p_sent (n_a c) /\ p_workers x = ∅.
Proof.
  remember (size (p_workers (n_a c))) as n eqn:Hn. revert c Hn.
  induction n as [n IH] using lt_wf_ind. intros c Hn Hi Hb.
  destruct (decide (p_workers (n_a c) = ∅)) as [|Hne].
  { exists (n_a c). by destruct c. }
  apply map_choose in Hne as (w&ph&Hw). destruct (ni_ab _ _ _ Hi) as (old&dn&op&got&rest&Hf).
  destruct (worker_moves _ _ _ _ _ _ _ _ _ _ Hf (ni_a _ _ _ Hi) Hw) as (x1&x2&Hs1&Ha&Hsent&Hdel).
  assert (net_steps c (Net x2 (n_b c))) as Hs by (apply acts_net; eapply rtc_r; done).
  assert (net_below sa sb (Net x2 (n_b c))) as Hb2.
  { destruct Hb as [[? ?] ?]. split; [|done]. split; cbn [n_a]; by rewrite ?Hsent. }
  destruct (net_steps_inv _ _ _ _ Hi Hs Hb2) as [Hi2 _].
  destruct (IH (size (p_workers x2))) with (c := Net x2 (n_b c)) as (x&Hs'&Hsent'&Hw'); try done.
  { rewrite Hdel, Hn, map_size_delete_Some by by eexists.
    assert (size (p_workers (n_a c)) <> 0%nat); [|lia].
    apply map_size_ne_0_lookup. by exists w, ph. }
  exists x. split; [by etransitivity|]. split; [cbn [n_a] in Hsent'; congruence|done].
Qed.

(** A worker takes the first outstanding message, sends it and finishes. *)
Lemma first_goes_out_run start old dn q d op got rest x y :
  flow start old dn ((q, d) :: op) got rest x y -> ready (p_sk x) -> p_workers x = ∅ ->
  let p := real_total dn + 33 in
  exists m s1 s2 s3,
    locked (cw_next_msg (V:=Z) (E:=Z) (Z.to_nat OUTPUT_WINDOW_SZ)) (p_sk x) = (Ret p, s1) /\
    base_send_inplace sendto p s1 = (Ret tt, s2) /\ locked (worker_finish p) s2 = (Ret tt, s3) /\
    acts x (Peer s1 {[0%nat := Sending p]} (p_sent x)) /\
    acts (Peer s1 {[0%nat := Sending p]} (p_sent x)) (Peer s2 {[0%nat := Polling p]} (p_sent x)) /\
    acts (Peer s2 {[0%nat := Polling p]} (p_sent x)) (Peer s3 ∅ (p_sent x)) /\
    flow start old dn ((q, d) :: op) got rest (Peer s3 ∅ (p_sent x)) y /\
    k_out s3 = k_out (p_sk x) ++ [m] /\ carries q d m.
Proof.
  intros Hf Hrd Hw p. assert (scan_stops x) as Hst by by left.
  pose proof (flow_scan_stops _ _ _ _ _ _ _ _ Hf Hst) as Hst'. rewrite Hw in Hst'.
  pose proof (sending_taken _ _ _ _ _ _ (fw_sending _ _ _ _ _ _ _ _ Hf)) as Hs. rewrite Hw in Hs.
  destruct (sending_take_run _ _ _ _ _ _ _ _ Hs Hst') as [(s1&Hr1&Ho1&_)|[_ Hm]].
  2:{ destruct (sn_marks _ _ _ _ _ _ Hs [] (q, d) op eq_refl) as [(w&ph&Hl&_)|Hu].
      - by rewrite lookup_empty in Hl.
      - by rewrite app_nil_r in Hu. }
  fold p in Hr1. assert (p_workers x !! 0%nat = None) as Hw0 by (rewrite Hw; apply lookup_empty).
  pose proof (locked_run _ _ _ _ (rd_send_worker _ Hrd) Hr1) as Hrun1.
  destruct (flow_take _ _ _ _ _ _ _ _ _ _ _ Hf Hrd Hst Hw0 Hrun1) as [Hf1 [_ Hrd1]].
  pose proof (act_take sendto _ _ _ _ Hw0 Hst Hrun1) as Ha1.
  rewrite Hw in Hf1, Ha1. rewrite insert_empty in Hf1, Ha1. set (x1 := Peer _ _ _) in Hf1, Ha1.
  assert (p_workers x1 !! 0%nat = Some (Sending p)) as Hw1 by apply lookup_singleton_eq.
  destruct (sending_transmit sendto sendto_takes_all _ _ _ _ _ _ p (fw_sending _ _ _ _ _ _ _ _ Hf1)
    (in_use_at _ _ _ Hw1)) as (q'&d'&m&s2&Hr2&_&Hc&Ho2&_&Hok).
  assert (q' = q /\ d' = d) as [-> ->].
  { pose proof (si_stored _ _ _ _ (sn_inv _ _ _ _ _ _ (fw_sending _ _ _ _ _ _ _ _ Hf1))) as Hh.
    destruct (holds_in_slots _ _ (real_total dn) q d Hh) as (Hsl&_); [by exists dn, op|].
    pose proof (pl_slot _ _ _ _ _ Hok) as Hsl2. unfold p in Hsl2. rewrite Z.add_simpl_r in Hsl2.
    exact (slot_at_unique _ _ _ _ _ _ Hsl2 Hsl). }
  destruct (flow_transmit _ _ _ _ _ _ _ _ _ _ _ Hf1 Hw1 Hr2) as [Hf2 [_ Hrd2]].
  pose proof (act_transmit sendto _ _ _ _ Hw1 Hr2) as Ha2.
  cbn [p_workers x1] in Hf2, Ha2. rewrite insert_singleton_eq in Hf2, Ha2.
  set (x2 := Peer s2 _ _) in Hf2, Ha2.
  assert (p_workers x2 !! 0%nat = Some (Polling p)) as Hw2 by apply lookup_singleton_eq.
  specialize (Hrd2 (Hrd1 Hrd)).
  destruct (finish_succeeds _ _ _ _ _ _ _ _ _ _ Hf2 Hrd2 Hw2) as (s3&Hr3&Ho3).
  destruct (flow_finish _ _ _ _ _ _ _ _ _ _ _ Hf2 Hrd2 Hw2 Hr3) as [Hf3 _].
  pose proof (act_finish sendto _ _ _ _ Hw2 Hr3) as Ha3.
  cbn [p_workers x2] in Hf3, Ha3. rewrite delete_singleton_eq in Hf3, Ha3.
  exists m, (released s1), s2, s3. split_and!; [exact Hrun1|exact Hr2|exact Hr3|exact Ha1|exact Ha2|exact Ha3|
    exact Hf3| |exact Hc].
  change (k_out (p_sk x)) with (k_out (taken (p_sk x))). rewrite <- Ho1.
  rewrite Ho3. cbn [x2 p_sk]. exact Ho2.
Qed.

Lemma arrives_self m : arrives m m.
Proof. done. Qed.

(** Transmission, delivery, acknowledgement. *)
(** The first outstanding message goes out, arrives and is acknowledged: the
    sections of the sending worker, what it sends, what that makes of the other
    side, and the acknowledgement. *)
Record trip (x : peer) (y : peer) (p : Z) (s1 s2 s3 : sk) (m : msg) (t : sk) (ack : msg) (s4 : sk) : Prop := {
  tr_take : locked (cw_next_msg (V:=Z) (E:=Z) (Z.to_nat OUTPUT_WINDOW_SZ)) (p_sk x) = (Ret p, s1);
  tr_transmit : base_send_inplace sendto p s1 = (Ret tt, s2);
  tr_finish : locked (worker_finish p) s2 = (Ret tt, s3);
  tr_data : recv_worker_dispatch sendto rand32 (reader sendto) 0 m (p_sk y) = (Ret tt, t);
  tr_ack : recv_worker_dispatch sendto rand32 (reader sendto) 0 ack s3 = (Ret tt, s4);
  tr_acts : acts x (Peer s1 {[0%nat := Sending p]} (p_sent x)) /\
    acts (Peer s1 {[0%nat := Sending p]} (p_sent x)) (Peer s2 {[0%nat := Polling p]} (p_sent x)) /\
    acts (Peer s2 {[0%nat := Polling p]} (p_sent x)) (Peer s3 ∅ (p_sent x));
  tr_hears : hears sendto rand32 (k_out s3) y (Peer t (p_workers y) (p_sent y)) /\
    hears sendto rand32 (k_out t) (Peer s3 ∅ (p_sent x)) (Peer s4 ∅ (p_sent x));
  tr_out : k_out s3 = k_out (p_sk x) ++ [m];
  tr_answer : k_out t = k_out (p_sk y) ++ [ack];
  tr_acked : exists s, (cwc_on_ack ack;; cw_on_ack (V:=Z) (E:=Z) ack) (taken s3) = (Ret tt, s) /\
    s4 = released s /\ k_out s = k_out s3;
}.

Lemma round_trip_run sa sb c old dn q d op got rest :
  net_inv sa sb c -> net_below sa sb c -> p_workers (n_a c) = ∅ ->
  flow sa old dn ((q, d) :: op) got rest (n_a c) (n_b c) ->
  exists s1 s2 s3 m t ack s4 old' dn' op' got' rest',
    trip (n_a c) (n_b c) (real_total dn + 33) s1 s2 s3 m t ack s4 /\
    flow sa old' dn' op' got' rest' (Peer s4 ∅ (p_sent (n_a c)))
      (Peer t (p_workers (n_b c)) (p_sent (n_b c))) /\
    old' ++ dn' ++ op' = old ++ dn ++ (q, d) :: op /\ total op' < total ((q, d) :: op).
Proof.
  intros Hi [Hba Hbb] Hw Hf.
  destruct (first_goes_out_run _ _ _ _ _ _ _ _ _ _ Hf (ni_a _ _ _ Hi) Hw)
    as (m&s1&s2&s3&Hr1&Hr2&Hr3&Ha1&Ha2&Ha3&Hf1&Hm&Hc).
  set (x1 := Peer s3 ∅ (p_sent (n_a c))) in Hf1. assert (below sa x1) as Hb1 by done.
  assert (old ++ dn ++ (q, d) :: op = (old ++ dn) ++ (q, d) :: op) as Hx by (by rewrite <- app_assoc).
  destruct (flow_data _ _ _ _ _ _ _ _ m _ _ _ _ Hf1 Hb1 (ni_b _ _ _ Hi) Hx Hc)
    as (t&got'&rest'&ack&Hrt&Hf2&_&Hacc&_&_&Hack&Hp&Hq&_).
  pose proof (fw_link _ _ _ _ _ _ _ _ Hf1) as Hl1. pose proof (fw_link _ _ _ _ _ _ _ _ Hf2) as Hl2.
  pose proof (fw_sending _ _ _ _ _ _ _ _ Hf1) as Hsd1.
  pose proof (sn_nonempty _ _ _ _ _ _ Hsd1) as Hne. rewrite Hx in Hne. apply Forall_app in Hne as [_ Hne].
  assert (total (old ++ dn) < total got') as Hgot.
  { pose proof (li_acked _ _ _ _ _ _ _ _ _ Hl1) as Hle.
    apply Forall_inv in Hne as Hd. cbn in Hd.
    destruct (Z.eqb_spec (total (old ++ dn)) (total got)) as [He|Hneq]; cbn [andb] in Hacc;
      [|rewrite Hacc; lia].
    pose proof (link_fits sendto sendto_takes_all _ _ _ _ _ _ _ _ _ Hl1 He) as Hfit.
    cbn [c_rcv one_way] in Hfit. change (k_iw (held (p_sk (n_b c)))) with (k_iw (p_sk (n_b c))) in Hfit.
    rewrite (proj2 (Z.leb_le _ _) Hfit) in Hacc. rewrite Hacc, He, total_app. cbn. lia. }
  assert (fourth_duplicate ack s3 = false) as Hfd.
  { unfold fourth_duplicate. pose proof (si_area _ _ _ _ (sn_inv _ _ _ _ _ _ Hsd1)) as Ha.
    unfold cwa in Ha. cbn in Ha. rewrite Ha, win_area, sender_empty; [done|exact Hne]. }
  assert (hears sendto rand32 (k_out s3) (n_b c) (Peer t (p_workers (n_b c)) (p_sent (n_b c)))) as Hh.
  { apply (hear sendto rand32 _ _ m m); [|by apply arrives_self| |exact Hrt].
    - rewrite Hm. apply elem_of_app. right. by left.
    - intros Hu. pose proof (ca_usual _ _ _ Hc). congruence. }
  destruct (net_steps_inv sa sb c (Net x1 (n_b c)) Hi) as [Hi1 _]; [|by split|].
  { apply acts_net. eapply rtc_l; [exact Ha1|]. eapply rtc_l; [exact Ha2|]. by apply rtc_once. }
  destruct (flow_ack _ _ _ _ _ _ _ _ ack got' rest' Hf2 Hb1 (ni_a _ _ _ Hi1) Hfd Hp
    (li_split _ _ _ _ _ _ _ _ _ Hl2) (Z.le_refl _) Hq)
    as (s4&old'&dn'&op'&Hr4&Hf3&_&Hsp&Hge&_&s5&Hr5&->&Ho5).
  exists s1, s2, s3, m, t, ack, (released s5), old', dn', op', got', rest'. split; [|split; [exact Hf3|split; [done|]]].
  - split; try done; [|by exists s5]. split; [exact Hh|].
    apply (hear sendto rand32 _ x1 ack ack); [|by apply arrives_self|done|exact Hr4].
    rewrite Hack. apply elem_of_app. right. by left.
  - apply (f_equal total) in Hsp. rewrite Hx, !app_assoc, !(total_app (_ ++ _)) in Hsp. lia.
Qed.

Lemma round_trip sa sb c old dn op got rest :
  net_inv sa sb c -> net_below sa sb c -> p_workers (n_a c) = ∅ -> op <> [] ->
  flow sa old dn op got rest (n_a c) (n_b c) ->
  exists c' old' dn' op' got' rest', net_steps c c' /\
    flow sa old' dn' op' got' rest' (n_a c') (n_b c') /\ total op' < total op /\
    p_workers (n_a c') = ∅ /\ p_sent (n_a c') = p_sent (n_a c) /\ p_sent (n_b c') = p_sent (n_b c).
Proof.
  intros Hi Hb Hw Hop Hf. destruct op as [|[q d] op]; [done|].
  destruct (round_trip_run _ _ _ _ _ _ _ _ _ _ Hi Hb Hw Hf)
    as (s1&s2&s3&m&t&ack&s4&old'&dn'&op'&got'&rest'&[_ _ _ _ _ (H1&H2&H3) [H4 H5] _ _ _]&Hf'&_&Hlt).
  eexists (Net (Peer s4 ∅ _) (Peer t _ _)), old', dn', op', got', rest'.
  split; [|split; [exact Hf'|by split_and!]].
  etransitivity; [apply acts_net|].
  { eapply rtc_l; [exact H1|]. eapply rtc_l; [exact H2|]. apply rtc_once. exact H3. }
  eapply rtc_l; [exact (step_b_hears sendto rand32 (Net (Peer s3 ∅ (p_sent (n_a c))) (n_b c)) _ H4)|].
  apply rtc_once.
  exact (step_a_hears sendto rand32 (Net (Peer s3 ∅ _) (Peer t _ (p_sent (n_b c)))) _ H5).
Qed.

Lemma direction_drains sa sb c old dn op got rest :
  net_inv sa sb c -> net_below sa sb c -> p_workers (n_a c) = ∅ ->
  flow sa old dn op got rest (n_a c) (n_b c) ->
  exists c' old' dn' got' rest', net_steps c c' /\
    flow sa old' dn' [] got' rest' (n_a c') (n_b c') /\
    p_sent (n_a c') = p_sent (n_a c) /\ p_sent (n_b c') = p_sent (n_b c).
Proof.
  remember (Z.to_nat (total op)) as n eqn:Hn. revert c old dn op got rest Hn.
  induction n as [n IH] using lt_wf_ind. intros c old dn op got rest Hn Hi Hb Hw Hf.
  destruct (decide (op = [])) as [->|Hop]; [by exists c, old, dn, got, rest|].
  destruct (round_trip _ _ _ _ _ _ _ _ Hi Hb Hw Hop Hf)
    as (c1&o1&d1&p1&g1&r1&Hs1&Hf1&Hlt&Hw1&Ha1&Hb1).
  assert (net_below sa sb c1) as Hbe1 by (destruct Hb; split; unfold below; by rewrite ?Ha1, ?Hb1).
  destruct (net_steps_inv _ _ _ _ Hi Hs1 Hbe1) as [Hi1 _]. pose proof (total_nonneg p1).
  destruct (IH (Z.to_nat (total p1)) ltac:(lia) c1 _ _ _ _ _ eq_refl Hi1 Hbe1 Hw1 Hf1)
    as (c'&o'&d'&g'&r'&Hs'&Hf'&Ha'&Hb'). exists c', o', d', g', r'.
  split; [by etransitivity|]. split; [done|]. split; congruence.
Qed.

(** The client of the other side reads what is pending. *)
Lemma client_reads sa sb c :
  net_inv sa sb c ->
  exists y, net_steps c (Net (n_a c) y) /\ p_sent y = p_sent (n_b c) /\
    k_user (p_sk y) = received (held (p_sk (n_b c))).
Proof.
  intros [(old&dn&op&got&rest&Hf) _ _ Hrd]. pose proof Hf as [Hl _].
  pose proof (li_rcv _ _ _ _ _ _ _ _ _ Hl) as Hi. cbn [c_rcv one_way] in Hi.
  set (s := p_sk (n_b c)) in *.
  assert (Z.of_nat (length (pending (held s))) = iw_off (k_iw s) - iw_flushed_off (k_iw s)) as Hlp
    by exact (length_pending _ Hi).
  pose proof (ri_off _ Hi) as [[? ?] Hlt].
  change (iwa (held s)) with (k_iw s) in *. unfold INPUT_WINDOW_SZ in Hlt.
  destruct (recv_pass_ends _ _ _ _ _ _ _ _ 1000 Hf Hrd ltac:(lia)) as (s'&[Hr|[Hp _]]).
  - exists (Peer s' (p_workers (n_b c)) (p_sent (n_b c))). split; [|split; [done|]].
    + apply rtc_once. apply step_b. by eapply (act_read sendto _ 1000).
    + cbn [p_sk]. destruct (flow_read _ _ _ _ _ _ _ _ 1000 _ _ Hf Hrd ltac:(lia) Hr) as (_&_&Hu&_).
      rewrite Hu. unfold received. fold s. f_equal. apply take_ge. lia.
  - exists (n_b c). split; [by destruct c|]. split; [done|]. unfold received. fold s in Hp.
    by rewrite Hp, app_nil_r.
Qed.

(** One stream arrives. *)
Lemma stream_arrives sa sb c :
  net_inv sa sb c -> net_below sa sb c ->
  exists c', net_steps c c' /\ p_sent (n_a c') = p_sent (n_a c) /\ p_sent (n_b c') = p_sent (n_b c) /\
    k_user (p_sk (n_b c')) = concat (p_sent (n_a c)).
Proof.
  intros Hi Hb. destruct (workers_finish _ _ _ Hi Hb) as (x&Hs1&Hsent1&Hw1).
  assert (net_below sa sb (Net x (n_b c))) as Hb1
    by (destruct Hb; split; unfold below; cbn [n_a n_b]; by rewrite ?Hsent1).
  destruct (net_steps_inv _ _ _ _ Hi Hs1 Hb1) as [Hi1 _].
  destruct (ni_ab _ _ _ Hi1) as (old&dn&op&got&rest&Hf1).
  destruct (direction_drains _ _ _ _ _ _ _ _ Hi1 Hb1 Hw1 Hf1) as (c2&o2&d2&g2&r2&Hs2&Hf2&Ha2&Hb2).
  cbn [n_a n_b] in Ha2, Hb2.
  assert (net_below sa sb c2) as Hbe2
    by (destruct Hb; split; unfold below; by rewrite ?Ha2, ?Hb2, ?Hsent1).
  destruct (net_steps_inv _ _ _ _ Hi1 Hs2 Hbe2) as [Hi2 _].
  destruct (client_reads _ _ _ Hi2) as (y&Hs3&Hsent3&Hu).
  exists (Net (n_a c2) y). split; [do 2 (etransitivity; [done|]); done|].
  cbn [n_a n_b]. split_and!; [congruence..|]. rewrite Hu.
  pose proof (link_all_got sendto sendto_takes_all _ _ _ _ _ _ (fw_link _ _ _ _ _ _ _ _ Hf2)) as Hall.
  refine (eq_trans Hall _). cbn [c_sent one_way]. congruence.
Qed.

Lemma net_swap_swap c : net_swap (net_swap c) = c.
Proof. by destruct c. Qed.

Lemma net_steps_swap c c' : net_steps c c' -> net_steps (net_swap c) (net_swap c').
Proof.
  apply rtc_congruence. clear. intros c c' [c0 x H|c0 x H|c0 x H|c0 x H].
  - by apply (step_b sendto rand32 (net_swap c0)).
  - by apply (step_a sendto rand32 (net_swap c0)).
  - by apply (step_b_hears sendto rand32 (net_swap c0)).
  - by apply (step_a_hears sendto rand32 (net_swap c0)).
Qed.

(** What one side can do next, and that it succeeds; [out]: what the other side
    has sent. *)
Record moves_on (x : peer) (out : list msg) : Prop := {
  mo_transmit w p : p_workers x !! w = Some (Sending p) ->
    exists s', base_send_inplace sendto p (p_sk x) = (Ret tt, s');
  mo_poll w p : p_workers x !! w = Some (Polling p) ->
    exists b s', locked (worker_poll p) (p_sk x) = (Ret b, s');
  mo_finish w p : p_workers x !! w = Some (Polling p) ->
    exists s', locked (worker_finish p) (p_sk x) = (Ret tt, s');
  mo_take : scan_stops x -> sent_buf_empty (win_of (k_cw (p_sk x))) = false ->
    exists s', (exists p, locked (cw_next_msg (V:=Z) (E:=Z) (Z.to_nat OUTPUT_WINDOW_SZ)) (p_sk x) = (Ret p, s')) \/
      locked (cw_next_msg (V:=Z) (E:=Z) (Z.to_nat OUTPUT_WINDOW_SZ)) (p_sk x) = (Throw ETimeout, s');
  mo_send d : (0 < length d)%nat -> Forall is_byte d ->
    exists s', (exists r, locked (cw_send (E:=Z) (tmp_msg d)) (p_sk x) = (Ret r, s')) \/
      locked (cw_send (E:=Z) (tmp_msg d)) (p_sk x) = (Throw EDrop, s');
  mo_hear m0 m : m0 ∈ out -> arrives m0 m -> welcome m x ->
    exists s', recv_worker_dispatch sendto rand32 (reader sendto) 0 m (p_sk x) = (Ret tt, s');
  mo_read n : 0 <= n ->
    exists s', recv_pass sendto n (p_sk x) = (Ret (take (Z.to_nat n) (pending (held (p_sk x)))), s') \/
      pending (held (p_sk x)) = [] /\ recv_pass sendto n (p_sk x) = (Fault blocked, s');
}.

Lemma locked_throw {A} (m : M sk A) s e s1 :
  k_sems s SEND_WORKER_LOCK = 1 -> m (taken s) = (Throw e, s1) -> locked m s = (Throw e, s1).
Proof. intros Hl Hr. rewrite locked_eq by done. by apply run_throw. Qed.

Lemma inv_moves_on sa sb c :
  net_inv sa sb c -> net_below sa sb c -> moves_on (n_a c) (k_out (p_sk (n_b c))).
Proof.
  intros [(old&dn&op&got&rest&Hab) (old2&dn2&op2&got2&rest2&Hba) Ha Hb] [Hbea Hbeb].
  pose proof (rd_send_worker _ Ha) as Hlk. pose proof (fw_sending _ _ _ _ _ _ _ _ Hab) as Hs.
  pose proof (sending_taken _ _ _ _ _ _ Hs) as Hst. pose proof (sn_inv _ _ _ _ _ _ Hst) as Hi.
  split.
  - intros w p Hw. destruct (sending_transmit sendto sendto_takes_all _ _ _ _ _ _ p Hs
      (in_use_at _ _ _ Hw)) as (?&?&?&s'&?&_). by exists s'.
  - intros w p Hw. destruct (sending_poll _ _ _ _ _ _ p Hst (in_use_at _ _ _ Hw)) as (b&s1&Hr&_).
    eexists b, _. by apply locked_run.
  - intros w p Hw. destruct (finish_succeeds _ _ _ _ _ _ _ _ _ _ Hab Ha Hw) as (s'&Hr&_). by exists s'.
  - intros Hsc He. destruct op as [|[q d] op].
    + pose proof (si_area _ _ _ _ Hi) as Hcw. unfold cwa in Hcw. cbn in Hcw.
      rewrite Hcw, win_area, sender_empty in He by constructor. done.
    + destruct (sending_take_run _ _ _ _ _ _ _ _ Hst (flow_scan_stops _ _ _ _ _ _ _ _ Hab Hsc)) as [(s1&Hr&_)|[Hr _]].
      * eexists. left. eexists. by apply locked_run.
      * eexists. right. by apply locked_throw.
  - intros d Hd Hby.
    destruct (Z.le_gt_cases (total (dn ++ op) + Z.of_nat (length d)) OUTPUT_WINDOW_SZ).
    + destruct (cw_send_ok _ _ _ _ _ Hi Hd Hby) as (e&s1&Hr&_); [done|].
      eexists. left. eexists. by apply locked_run.
    + eexists. right. apply locked_throw; [done|]. apply (cw_send_drops _ _ _ _ _ Hi). lia.
  - intros m0 m Hm0 Harr Hfd. pose proof (fw_link _ _ _ _ _ _ _ _ Hab) as Hl.
    destruct (is_usual m0) eqn:Hu.
    + destruct (li_out _ _ _ _ _ _ _ _ _ (fw_link _ _ _ _ _ _ _ _ Hba) m0 Hm0 Hu) as (a&q&d&b&He&Hc).
      destruct (flow_data _ _ _ _ _ _ _ _ m _ _ _ _ Hba Hbeb Ha He (arrives_carries _ _ _ _ Hc Harr))
        as (s1&?&?&?&Hr&_). by exists s1.
    + destruct (li_acks _ _ _ _ _ _ _ _ _ Hl m0 Hm0 Hu) as (Hp&a&b&He&Hle&Hq).
      rewrite <- (arrives_seq _ _ Harr) in Hq. rewrite <- (arrives_usual _ _ Harr) in Hu.
      destruct (flow_ack _ _ _ _ _ _ _ _ m a b Hab Hbea Ha (Hfd Hu) (arrives_pure_ack _ _ Harr Hp) He Hle Hq)
        as (s1&?&?&?&Hr&_). by exists s1.
  - intros n Hn. exact (recv_pass_ends _ _ _ _ _ _ _ _ n Hba Ha Hn).
Qed.

(** ** Properties *)

(** C1: reliable, ordered delivery in both directions at once, with any number
    of workers on either side.  In every state two connected sockets reach by
    orderly steps, whatever the network loses, repeats or reorders, what a
    client has been given is a prefix of what its socket holds in order, that
    is a prefix of what the other side was given, and the socket holds every
    byte the other side counts as acknowledged; when nothing is outstanding, as
    [send] leaves it, it holds all of them.

    The conditions, each of them needed: a package is not empty and is not
    stored over the beginning of a message that a worker still holds
    ([undisturbed]; else [Race.late_send_corrupts_stream]); a second worker
    takes a message only in a window from 256000 on ([scan_stops];
    [CumulativeOps.scan_never_passes_first]); the fourth acknowledgement in a
    row of all that was sent does not reach an idle sender ([welcome];
    [SenderModel.duplicate_acks_on_empty_buffer]); while [on_msg] waits in a
    full window the client reads the window to its end, in requests of any
    sizes, and asks for no more until [on_msg] goes on
    ([ReceiverModel.reader]; [LostWindow.stale_signal_loses_a_window]), at any
    other time it asks as it likes; numbers stay 2000 below 2^32 ([net_below];
    [InputOps.receiver_stalls_past_wrap]); and the kernel takes each segment
    whole. *)
Theorem both_streams_arrive_in_order sa sb c0 c :
  net_connected sa sb c0 -> net_steps c0 c -> net_below sa sb c ->
  in_order sa (n_a c) (n_b c) /\ in_order sb (n_b c) (n_a c).
Proof.
  intros Hc Hs Hb. destruct (net_steps_inv _ _ _ _ (net_connected_inv _ _ _ Hc) Hs Hb)
    as [[(?&?&?&?&?&Hab) (?&?&?&?&?&Hba) _ _] _].
  split; eapply flow_in_order; done.
Qed.

(** C2: no state is stuck: from every state two connected sockets reach by
    orderly steps, with numbers 2000 below 2^32 ([net_below]) and with workers
    anywhere in their rounds, there is a further run of orderly steps after
    which each client has been given everything that was sent to it.  States
    that only disorderly steps reach, a send over a held message or an extra
    read in a full window, are outside: there bytes can be lost for good
    ([Race.late_send_corrupts_stream],
    [LostWindow.stale_signal_loses_a_window]). *)
Theorem both_streams_can_still_arrive sa sb c0 c :
  net_connected sa sb c0 -> net_steps c0 c -> net_below sa sb c ->
  exists c', net_steps c c' /\
    p_sent (n_a c') = p_sent (n_a c) /\ p_sent (n_b c') = p_sent (n_b c) /\
    k_user (p_sk (n_b c')) = concat (p_sent (n_a c)) /\
    k_user (p_sk (n_a c')) = concat (p_sent (n_b c)).
Proof.
  intros Hc Hs Hb. destruct (net_steps_inv _ _ _ _ (net_connected_inv _ _ _ Hc) Hs Hb) as [Hi _].
  destruct (stream_arrives _ _ _ Hi Hb) as (c1&Hs1&Ha1&Hb1&Hu1).
  assert (net_below sa sb c1) as Hbe1 by (destruct Hb; split; unfold below; by rewrite ?Ha1, ?Hb1).
  destruct (net_steps_inv _ _ _ _ Hi Hs1 Hbe1) as [Hi1 _]. apply net_inv_swap in Hi1 as Hi1'.
  destruct (stream_arrives sb sa (net_swap c1) Hi1') as (c2&Hs2&Ha2&Hb2&Hu2); [by destruct Hbe1|].
  apply net_steps_swap in Hs2. set (c' := net_swap c2) in *. cbn in Ha2, Hb2, Hu2.
  rewrite net_swap_swap in Hs2.
  assert (net_below sa sb c') as Hbe2
    by (destruct Hbe1; split; unfold below; cbn [c' n_a n_b net_swap]; by rewrite ?Ha2, ?Hb2).
  destruct (net_steps_inv _ _ _ _ Hi1 Hs2 Hbe2) as [[(?&?&?&?&?&Hab) _ _ _] [_ [Hg _]]].
  exists c'. split; [by etransitivity|]. cbn [c' n_a n_b net_swap] in *.
  split_and!; [congruence..| |by rewrite Hu2, Hb1].
  destruct (flow_in_order _ _ _ _ _ _ _ _ Hab) as (Hp1&Hp2&_).
  rewrite Hb2, Ha1 in Hp2. rewrite Hu1 in Hg.
  apply (anti_symm prefix); [by etransitivity|done].
Qed.

(** C3: memory safety and progress of every section: in every state two
    connected sockets reach by orderly steps, with numbers 2000 below 2^32, the
    next section of a worker, a client or the receiving worker stays inside its
    arrays, finds its locks free and ends, for every package that is not empty
    (also one stored over a held message) and every request of a client.  Two
    sections have a condition: taking a message, that something is outstanding
    (otherwise it waits, [Rounds]) and that no other worker holds one or the
    window is from 256000 on ([scan_stops]; otherwise the scan may not end,
    [CumulativeOps.scan_never_passes_first]); and the dispatch of an arriving
    message, that it is not the fourth acknowledgement in a row of everything
    sent ([welcome]; that one leaves [off_map],
    [SenderModel.duplicate_acks_on_empty_buffer]).  A request with nothing to
    read may block.  As in C1, the client that runs while [on_msg] waits in a
    full window reads it to its end and asks no more meanwhile. *)
Theorem every_section_succeeds sa sb c0 c :
  net_connected sa sb c0 -> net_steps c0 c -> net_below sa sb c ->
  moves_on (n_a c) (k_out (p_sk (n_b c))) /\ moves_on (n_b c) (k_out (p_sk (n_a c))).
Proof.
  intros Hc Hs Hb. destruct (net_steps_inv _ _ _ _ (net_connected_inv _ _ _ Hc) Hs Hb) as [Hi _].
  split; [by eapply inv_moves_on|]. apply net_inv_swap in Hi.
  apply (inv_moves_on sb sa (net_swap c) Hi). by destruct Hb.
Qed.

End ops.

(** ** A connection with a message on its way *)

#[local] Existing Instance sipping.

(** Established both ways: the first bytes are numbered [s] and [r]. *)
Definition sk_duplex (s r : Z) : sk := snd (iw_force_move_start r (sk_established s)).

Definition fresh_net : net :=
  Net (Peer (sk_duplex 5000000 7000000) ∅ []) (Peer (sk_duplex 7000000 5000000) ∅ []).

Lemma fresh_net_connected :
  net_connected kernel_takes_all (fun _ _ => eq_refl) 5000000 7000000 fresh_net.
Proof. split; try done; split; done. Qed.

Lemma data10_bytes : Forall is_byte data10.
Proof. apply replicate_bytes. unfold is_byte. lia. Qed.

(** Ten bytes one way, and a worker that has taken them. *)
Lemma ten_bytes_on_the_net :
  exists c, rtc (net_step kernel_takes_all (gets k_clock)) fresh_net c /\
    p_sent (n_a c) = [data10] /\ p_sent (n_b c) = [] /\ net_below 5000000 7000000 c /\
    p_workers (n_a c) = ∅.
Proof.
  assert (0 < length data10)%nat as Hl by (simpl; lia).
  destruct (cw_send_ok (E:=Z) 5000000 [] [] data10 (taken (sk_duplex 5000000 7000000)))
    as (e&s1&Hr&_); [split; done|done|exact data10_bytes|vm_compute; discriminate|].
  exists (Net (Peer (released s1) ∅ [data10]) (n_b fresh_net)).
  split; [|split; [done|split; [done|split; [split; split; cbn; lia|done]]]].
  apply rtc_once. apply (step_a kernel_takes_all _ fresh_net).
  eapply (act_send kernel_takes_all (n_a fresh_net) data10);
    [done|exact data10_bytes| |by apply locked_run].
  intros p (w&ph&Hw&_). cbn in Hw. by rewrite lookup_empty in Hw.
Qed.

Lemma both_streams_arrive_in_order_witness :
  exists c, p_sent (n_a c) = [data10] /\
    in_order kernel_takes_all (fun _ _ => eq_refl) 5000000 (n_a c) (n_b c).
Proof.
  destruct ten_bytes_on_the_net as (c&Hs&Ha&_&Hb&_). exists c. split; [exact Ha|].
  apply (both_streams_arrive_in_order kernel_takes_all (gets k_clock) (fun _ _ => eq_refl)
    5000000 7000000 fresh_net c fresh_net_connected Hs Hb).
Defined.

Lemma both_streams_can_still_arrive_witness :
  exists c', rtc (net_step kernel_takes_all (gets k_clock)) fresh_net c' /\
    k_user (p_sk (n_b c')) = data10 /\ k_user (p_sk (n_a c')) = [].
Proof.
  destruct ten_bytes_on_the_net as (c&Hs&Ha&Hb&Hbe&_).
  destruct (both_streams_can_still_arrive kernel_takes_all (gets k_clock) (fun _ _ => eq_refl)
    5000000 7000000 fresh_net c fresh_net_connected Hs Hbe) as (c'&Hs'&_&_&H1&H2).
  exists c'. split; [etransitivity; [exact Hs|exact Hs']|]. rewrite H1, H2, Ha, Hb. done.
Defined.

Lemma every_section_succeeds_witness :
  exists c s', p_sent (n_a c) = [data10] /\
    ((exists r, locked (cw_send (E:=Z) (tmp_msg data10)) (p_sk (n_a c)) = (Ret r, s')) \/
     locked (cw_send (E:=Z) (tmp_msg data10)) (p_sk (n_a c)) = (Throw EDrop, s')).
Proof.
  destruct ten_bytes_on_the_net as (c&Hs&Ha&_&Hbe&_).
  destruct (every_section_succeeds kernel_takes_all (gets k_clock) (fun _ _ => eq_refl)
    5000000 7000000 fresh_net c fresh_net_connected Hs Hbe) as [Hm _].
  destruct (mo_send _ _ _ _ _ Hm data10 ltac:(simpl; lia) data10_bytes) as (s'&Hr).
  exists c, s'. split; [exact Ha|exact Hr].
Defined.
