(* ===== verification/Pipe.v ===== *)
(** * Pipe: a connection refines a pipe

    What a connection promises to its users, without sequence numbers, windows,
    workers or losses: a queue of bytes each way.  Writing appends, bytes move
    on by themselves, reading takes from what has moved.  Every orderly run of
    [Net]'s steps is, for either direction, a run of the pipe with the same
    writes and reads in the same order. *)
From stdpp Require Import relations gmap.
From S2P Require Import Prelude Window Message Transfer ProtoMem Congestion FastRetransmit.
From S2P Require Import SendBuffer Inplace Slots SlotOps Cumulative CumulativeOps Input InputOps.
From S2P Require Import Socket SenderModel ReceiverModel Channel Places ChannelOps Net NetOps.

(** ** The specification *)

(** [transit]: written and not yet at the reader's end; [ready]: there. *)
Record pipe : Type := MkPipe { transit : bytes; ready : bytes }.

Inductive event : Type := Wrote (d : bytes) | Read (d : bytes).

Inductive pipe_run : pipe -> list event -> pipe -> Prop :=
| pipe_done p : pipe_run p [] p
| pipe_write t r d es p :
    pipe_run (MkPipe (t ++ d) r) es p -> pipe_run (MkPipe t r) (Wrote d :: es) p
| pipe_move x t r es p :
    pipe_run (MkPipe t (r ++ x)) es p -> pipe_run (MkPipe (x ++ t) r) es p
| pipe_read x t r es p :
    x <> [] -> pipe_run (MkPipe t r) es p -> pipe_run (MkPipe t (x ++ r)) (Read x :: es) p.

Fixpoint writes (es : list event) : bytes :=
  match es with [] => [] | Wrote d :: es => d ++ writes es | Read _ :: es => writes es end.

Fixpoint reads (es : list event) : bytes :=
  match es with [] => [] | Wrote _ :: es => reads es | Read d :: es => d ++ reads es end.

(** The specification is a queue: nothing is lost, repeated or reordered. *)
Lemma pipe_fifo p es q :
  pipe_run p es q ->
  ready p ++ transit p ++ writes es = reads es ++ ready q ++ transit q.
Proof.
  induction 1 as [p|t r d es p _ IH|x t r es p _ IH|x t r es p _ _ IH]; cbn in *.
  - rewrite app_nil_r. done.
  - rewrite <- app_assoc in IH. done.
  - rewrite <- IH, <- !app_assoc. done.
  - rewrite <- !app_assoc, IH. done.
Qed.

Lemma pipe_run_app p es q fs r : pipe_run p es q -> pipe_run q fs r -> pipe_run p (es ++ fs) r.
Proof. intros H. revert fs r. induction H; intros; cbn; eauto using pipe_run. Qed.

Lemma pipe_writes t r ws : pipe_run (MkPipe t r) (map Wrote ws) (MkPipe (t ++ concat ws) r).
Proof.
  revert t. induction ws as [|d ws IH]; intros t; cbn.
  - rewrite app_nil_r. constructor.
  - constructor. rewrite app_assoc. apply IH.
Qed.

(** The new elements of a list that has grown. *)
Definition new {A} (l l' : list A) : list A := drop (length l) l'.

Lemma new_app {A} (l k : list A) : new l (l ++ k) = k.
Proof. apply drop_app_length. Qed.

(** What the users of the stream from [x] to [y] see of a step: the pieces
    handed to the sender, and the bytes the client has been given. *)
Definition happened (x x' y y' : peer) : list event :=
  map Wrote (new (p_sent x) (p_sent x')) ++
  match new (k_user (p_sk y)) (k_user (p_sk y')) with [] => [] | d => [Read d] end.

Section refinement.
Context (sendto : sockaddr_in -> bytes -> Z) (rand32 : M sk Z) {client : Client}.
Hypothesis sendto_takes_all : forall a d, sendto a d = Z.of_nat (length d).

(** What [y]'s socket has received, in order. *)
Abbreviation arrived y :=
  (@received sk sk_area_iw (NetOps.ops_lock sendto) (NetOps.ops_input sendto)
     (NetOps.ops_laws sendto sendto_takes_all) (held (p_sk y))).

Abbreviation net_step := (net_step sendto rand32).
Abbreviation in_order := (in_order sendto sendto_takes_all).

(** ** The pipe a direction stands for *)

Definition pipe_of (x y : peer) : pipe :=
  MkPipe (drop (length (arrived y)) (concat (p_sent x)))
    (drop (length (k_user (p_sk y))) (arrived y)).

(** A run of the network: what the users of the stream from [n_a] to [n_b]
    have seen, and what those of the other have. *)
Inductive run (c0 : net) : list event -> list event -> net -> Prop :=
| run_start : run c0 [] [] c0
| run_step es fs c c' : run c0 es fs c -> net_step c c' ->
    run c0 (es ++ happened (n_a c) (n_a c') (n_b c) (n_b c'))
      (fs ++ happened (n_b c) (n_b c') (n_a c) (n_a c')) c'.

Lemma run_steps c0 es fs c : run c0 es fs c -> rtc net_step c0 c.
Proof. induction 1 as [|es fs c c' _ IH Hs]; [done|]. eapply rtc_r; done. Qed.

Lemma steps_run c0 c : rtc net_step c0 c -> exists es fs, run c0 es fs c.
Proof.
  intros Hs. revert c Hs. apply (rtc_ind_r (fun c => exists es fs, run c0 es fs c)).
  - exists [], []. constructor.
  - intros c c' _ Hs (es&fs&Hr). eexists _, _. by apply run_step.
Qed.

(** *** One step *)

(** A step whose users' view has grown is a run of the pipe: what is new is
    written, what has newly arrived moves, what is newly given is read. *)
Lemma pipe_follows start x x' y y' ws :
  in_order start x y -> in_order start x' y' -> p_sent x' = p_sent x ++ ws ->
  gained sendto sendto_takes_all (p_sk y) (p_sk y') ->
  pipe_run (pipe_of x y) (happened x x' y y') (pipe_of x' y').
Proof.
  intros ([p Hp]&[t Ht]&_) ([p' Hp']&[t' Ht']&_) Hws [[rs Hrs] [z Hz]].
  unfold happened, pipe_of. rewrite Hws in Ht' |- *. rewrite Hrs in Hp' |- *.
  rewrite !new_app, Ht', Ht, Hp, !drop_app_length. rewrite Hp', drop_app_length.
  eapply pipe_run_app; [apply pipe_writes|].
  assert (t ++ concat ws = z ++ t') as ->.
  { rewrite concat_app, Ht, Hz, <- !app_assoc in Ht'. by apply app_inv_head in Ht'. }
  apply pipe_move. assert (p ++ z = rs ++ p') as ->.
  { rewrite Hz, Hp, <- !app_assoc in Hp'. by apply app_inv_head in Hp'. }
  destruct rs as [|b rs]; [constructor|]. apply pipe_read; [done|constructor].
Qed.

Lemma net_step_sent c c' : net_step c c' ->
  exists ws vs, p_sent (n_a c') = p_sent (n_a c) ++ ws /\ p_sent (n_b c') = p_sent (n_b c) ++ vs.
Proof.
  intros [c1 x H|c1 x H|c1 x H|c1 x H]; cbn [n_a n_b];
    [destruct (acts_sent sendto _ _ H) as (l&->)|destruct (acts_sent sendto _ _ H) as (l&->)
    |rewrite (hears_sent sendto rand32 _ _ _ H)|rewrite (hears_sent sendto rand32 _ _ _ H)].
  - exists l, []. by rewrite app_nil_r.
  - exists [], l. by rewrite app_nil_r.
  - exists [], []. by rewrite !app_nil_r.
  - exists [], []. by rewrite !app_nil_r.
Qed.

Lemma connected_pipe start x y :
  connected sendto sendto_takes_all start (one_way x y) -> pipe_of x y = MkPipe [] [].
Proof.
  intros Hc. assert (arrived y = []) as E by exact (co_received _ _ _ _ Hc).
  assert (p_sent x = []) as E2 by exact (co_sent _ _ _ _ Hc).
  unfold pipe_of. rewrite E, E2, drop_nil. done.
Qed.

(** C7: refinement.  Every orderly run of two connected sockets, their clients,
    their workers and a network that loses, repeats and reorders is, for either
    direction, a run of the pipe: the same pieces written and the same bytes
    read in the same order, ending in the pipe whose bytes in transit are those
    handed to the sender that the receiver does not have yet, and whose ready
    bytes are those the receiver has and the client has not.  Orderly: the
    conditions of C1. *)
Theorem connection_refines_pipe sa sb c0 es fs c :
  net_connected sendto sendto_takes_all sa sb c0 -> run c0 es fs c -> net_below sa sb c ->
  pipe_run (MkPipe [] []) es (pipe_of (n_a c) (n_b c)) /\
  pipe_run (MkPipe [] []) fs (pipe_of (n_b c) (n_a c)).
Proof.
  intros Hc Hr. pose proof (net_connected_inv _ _ _ _ _ Hc) as Hi0.
  assert (MkPipe [] [] = pipe_of (n_a c0) (n_b c0)) as E1
    by (symmetry; eapply connected_pipe, Hc).
  assert (MkPipe [] [] = pipe_of (n_b c0) (n_a c0)) as E2
    by (symmetry; eapply connected_pipe, Hc).
  induction Hr as [|es fs c c' Hr IH Hs]; intros Hb.
  { split; [rewrite E1|rewrite E2]; constructor. }
  pose proof (net_step_below sendto rand32 _ _ _ _ Hs Hb) as Hb1.
  destruct (net_steps_inv sendto rand32 sendto_takes_all _ _ _ _ Hi0 (run_steps _ _ _ _ Hr) Hb1)
    as [Hi _].
  destruct (net_step_inv sendto rand32 sendto_takes_all _ _ _ _ Hi Hb1 Hs) as [Hi' [Hga Hgb]].
  destruct (net_step_sent _ _ Hs) as (ws&vs&Hws&Hvs).
  destruct Hi as [(?&?&?&?&?&Hf1) (?&?&?&?&?&Hf2) _ _].
  destruct Hi' as [(?&?&?&?&?&Hf1') (?&?&?&?&?&Hf2') _ _].
  destruct (IH Hb1) as [IHa IHb].
  split; (eapply pipe_run_app; [eassumption|]); eapply pipe_follows; eauto using flow_in_order.
Qed.

End refinement.

(** ** Ten bytes written, taken, sent, delivered and read *)

#[local] Existing Instance sipping.

Lemma connection_refines_pipe_witness :
  exists c es fs,
    pipe_run (MkPipe [] []) es (pipe_of kernel_takes_all (fun _ _ => eq_refl) (n_a c) (n_b c)) /\
    pipe_run (MkPipe [] []) fs (pipe_of kernel_takes_all (fun _ _ => eq_refl) (n_b c) (n_a c)) /\
    p_sent (n_a c) = [data10] /\ k_user (p_sk (n_b c)) = data10.
Proof.
  destruct ten_bytes_on_the_net as (c&Hs&Ha&Hb&Hbe&_).
  destruct (net_steps_inv kernel_takes_all (gets k_clock) (fun _ _ => eq_refl) 5000000 7000000
    fresh_net c (net_connected_inv _ _ _ _ _ fresh_net_connected) Hs Hbe) as [Hi _].
  destruct (stream_arrives kernel_takes_all (gets k_clock) (fun _ _ => eq_refl) 5000000 7000000 c Hi Hbe)
    as (c'&Hs'&Ha'&Hb'&Hu).
  destruct (steps_run kernel_takes_all (gets k_clock) fresh_net c') as (es&fs&Hr);
    [etransitivity; [exact Hs|exact Hs']|].
  destruct (connection_refines_pipe kernel_takes_all (gets k_clock) (fun _ _ => eq_refl) 5000000 7000000
    fresh_net es fs c' fresh_net_connected Hr) as [H1 H2].
  - split; unfold below; rewrite ?Ha', ?Hb', ?Ha, ?Hb; cbn; lia.
  - exists c', es, fs. split; [exact H1|]. split; [exact H2|]. rewrite Ha', Hu, Ha. done.
Defined.
