(* ===== verification/Rounds.v ===== *)
(** * Rounds: the sending worker's code is made of the network's steps

    [Socket.send_worker_round], run to its end while other threads and the
    network go on at each of its pauses, does what a sequence of [Net]'s steps
    does; and it ends. *)
From stdpp Require Import relations gmap.
From S2P Require Import Prelude Window Message Transfer ProtoMem Congestion Timeout FastRetransmit.
From S2P Require Import SendBuffer Inplace Slots SlotOps Cumulative CumulativeOps Input InputOps.
From S2P Require Import Socket SenderModel ReceiverModel Frames Handshake Channel Places ChannelOps.
From S2P Require Import WorkerOps Net NetOps.

Section rounds.
Context (sendto : sockaddr_in -> bytes -> Z) (rand32 : M sk Z) {client : Client}.
Hypothesis sendto_takes_all : forall a d, sendto a d = Z.of_nat (length d).

Abbreviation net_steps := (rtc (net_step sendto rand32)).
Abbreviation net_inv := (net_inv sendto sendto_takes_all).

Section worker.
Context (sa sb : Z) (w : nat) (others : pause_point -> M sk unit).

(** A network in which the invariant holds, as this worker finds it; it is the
    only one of its side, or the numbers begin at 256000 or later. *)
Definition at_work (ph : option phase) (c : net) : Prop :=
  (net_inv sa sb c /\ (256000 <= sa \/ delete w (p_workers (n_a c)) = ∅)) /\
  net_below sa sb c /\ p_workers (n_a c) !! w = ph.

(** While this worker pauses, the other threads of its side, the other side and
    the network take steps; they leave its place alone. *)
Hypothesis others_step : forall pt ph c, at_work ph c ->
  exists c', others pt (p_sk (n_a c)) = (Ret tt, p_sk (n_a c')) /\ net_steps c c' /\ at_work ph c'.

Lemma at_work_ready ph c : at_work ph c -> ready (p_sk (n_a c)).
Proof. intros [[[_ _ Hr _] _] _]. exact Hr. Qed.

Lemma at_work_lock ph c : at_work ph c -> k_sems (p_sk (n_a c)) SEND_WORKER_LOCK = 1.
Proof. intros H. apply (rd_send_worker _ (at_work_ready _ _ H)). Qed.

(** A step of this worker that sends nothing new. *)
Lemma at_work_step ph ph' c x :
  at_work ph c -> acts sendto (n_a c) x -> p_sent x = p_sent (n_a c) -> p_workers x !! w = ph' ->
  delete w (p_workers x) = delete w (p_workers (n_a c)) ->
  net_steps c (Net x (n_b c)) /\ at_work ph' (Net x (n_b c)).
Proof.
  intros [[Hi Hsc] [Hb _]] Ha Hsent Hw Hd.
  assert (net_step sendto rand32 c (Net x (n_b c))) as Hs by by apply step_a.
  assert (net_below sa sb (Net x (n_b c))) as Hb'.
  { destruct Hb as [[? ?] ?]. split; [|done]. split; [done|]. cbn [n_a]. by rewrite Hsent. }
  split; [by apply rtc_once|]. split; [|by split]. split; [|cbn [n_a]; by rewrite Hd].
  by destruct (net_step_inv sendto rand32 sendto_takes_all _ _ _ _ Hi Hb Hs).
Qed.

(** Taking the lock again. *)
Lemma lock_again ph c :
  at_work ph c ->
  exists c', sem_wait others SEND_WORKER_LOCK (p_sk (n_a c)) = (Ret tt, taken (p_sk (n_a c'))) /\
    net_steps c c' /\ at_work ph c'.
Proof.
  intros Hw. destruct (others_step (AtSem SEND_WORKER_LOCK) _ _ Hw) as (c'&Hr&Hs&Hw').
  exists c'. split; [|done]. unfold sem_wait. mstep Hr. rewrite bind_unfold. unfold gets.
  by rewrite (at_work_lock _ _ Hw').
Qed.

(** Giving it back without having changed anything. *)
Lemma unlock_same ph c :
  at_work ph c ->
  exists c', sem_post SEND_WORKER_LOCK (taken (p_sk (n_a c))) = (Ret tt, p_sk (n_a c')) /\
    net_steps c c' /\ at_work ph c'.
Proof.
  intros Hw. pose proof (at_work_lock _ _ Hw) as Hl.
  set (f := k_sems (released (taken (p_sk (n_a c))))).
  assert (forall n, n <> SEND_BUF_NOT_EMPTY -> n <> RECV_WORKER_BUF_NOT_EMPTY ->
    f n = k_sems (p_sk (n_a c)) n) as Hf.
  { intros n _ _. unfold f, released, taken. destruct (decide (n = SEND_WORKER_LOCK)) as [->|Hn].
    - by rewrite !sems_same.
    - by rewrite !sems_other. }
  destruct (at_work_step ph ph c _ Hw (act_signals sendto (n_a c) f Hf) eq_refl) as [Hs Hw'];
    [by destruct Hw as (_&_&?)|done|].
  eexists. split; [|split; [exact Hs|exact Hw']]. done.
Qed.

(** ** The wait for a message *)

Lemma signal_taken ph c n v :
  n = SEND_BUF_NOT_EMPTY -> at_work ph c ->
  exists c', p_sk (n_a c') = set_sem n v (p_sk (n_a c)) /\ net_steps c c' /\ at_work ph c'.
Proof.
  intros -> Hw. set (f := k_sems (set_sem SEND_BUF_NOT_EMPTY v (p_sk (n_a c)))).
  assert (forall n, n <> SEND_BUF_NOT_EMPTY -> n <> RECV_WORKER_BUF_NOT_EMPTY ->
    f n = k_sems (p_sk (n_a c)) n) as Hf
    by (intros n Hn _; unfold f; by rewrite sems_other).
  destruct (at_work_step ph ph c _ Hw (act_signals sendto (n_a c) f Hf) eq_refl) as [Hs Hw'];
    [by destruct Hw as (_&_&?)|done|].
  eexists. split; [|split; [exact Hs|exact Hw']]. done.
Qed.

Definition nothing_outstanding (s : sk) : bool := sent_buf_empty (win_of (k_cw s)).

Lemma is_empty_eq s : is_sent_buf_empty s = (Ret (nothing_outstanding s), s).
Proof. done. Qed.

(** A wait that has been woken [n] times and found nothing outstanding at any
    of its looks. *)
Fixpoint idles (n : nat) (c : net) : Prop :=
  nothing_outstanding (p_sk (n_a c)) = true /\
  match n with
  | O => True
  | S n => exists c', net_steps c c' /\ idles n c'
  end.

Abbreviation waits fuel c :=
  (sk_output_sent_buf_wait_not_empty others true fuel (taken (p_sk (n_a c)))).

Lemma wait_not_empty fuel ph c :
  at_work ph c ->
  (exists s', waits fuel c = (Fault out_of_fuel, s') /\ idles fuel c) \/
  exists c', waits fuel c = (Ret tt, taken (p_sk (n_a c'))) /\
    nothing_outstanding (p_sk (n_a c')) = false /\ net_steps c c' /\ at_work ph c'.
Proof.
  revert c. induction fuel as [|fuel IH]; intros c Hw; cbn [sk_output_sent_buf_wait_not_empty];
    rewrite (run_ret _ _ _ _ _ (is_empty_eq _)); change (nothing_outstanding (taken ?s)) with (nothing_outstanding s);
    (destruct (nothing_outstanding (p_sk (n_a c))) eqn:He; [|right; by exists c]).
  - left. eexists. split; [done|]. by split.
  - destruct (unlock_same _ _ Hw) as (c1&H1&Hs1&Hw1). rewrite (run_ret _ _ _ _ _ H1).
    destruct (others_step (AtSem SEND_BUF_NOT_EMPTY) _ _ Hw1) as (c2&H2&Hs2&Hw2).
    assert (exists c3, sem_wait_for others SEND_BUF_NOT_EMPTY (p_sk (n_a c1)) = (Ret tt, p_sk (n_a c3)) /\
      net_steps c2 c3 /\ at_work ph c3) as (c3&H3&Hs3&Hw3).
    { unfold sem_wait_for. mstep H2. rewrite bind_unfold. unfold gets.
      destruct (0 <? _) eqn:Hv; [|by exists c2].
      destruct (signal_taken _ _ _ (k_sems (p_sk (n_a c2)) SEND_BUF_NOT_EMPTY - 1) eq_refl Hw2)
        as (c3&He3&?&?). exists c3. by rewrite He3. }
    rewrite (run_ret _ _ _ _ _ H3).
    destruct (lock_again _ _ Hw3) as (c4&H4&Hs4&Hw4). rewrite (run_ret _ _ _ _ _ H4).
    assert (net_steps c c4) as Hs by (do 3 (etransitivity; [done|]); done).
    destruct (IH c4 Hw4) as [(s'&Hf&Hid)|(c'&Hr&He'&Hs'&Hw')];
      [left; exists s'; split; [exact Hf|]; split; [done|by exists c4]|right].
    exists c'. split_and!; [done|done|by etransitivity|done].
Qed.

(** ** Taking a message *)

Abbreviation next_msg_of wait := (@cw_next_msg sk Z Z _ _ wait (Z.to_nat OUTPUT_WINDOW_SZ)).

(** With something outstanding nobody waits. *)
Lemma next_msg_rest (wait1 wait2 : SendWait sk) s :
  nothing_outstanding s = false -> next_msg_of wait1 s = next_msg_of wait2 s.
Proof.
  intros He. unfold cw_next_msg. rewrite !(run_ret _ _ _ _ _ (setup_eq s)).
  change (win_of (cwa s)) with (win_of (k_cw s)). fold (nothing_outstanding s). by rewrite He.
Qed.

Lemma next_msg_waits fuel ph c :
  at_work ph c ->
  (exists s', waits fuel c = (Fault out_of_fuel, s') /\ idles fuel c /\
    next_msg_of (sk_send_wait others true fuel) (taken (p_sk (n_a c))) = (Fault out_of_fuel, s')) \/
  exists c', next_msg_of (sk_send_wait others true fuel) (taken (p_sk (n_a c))) =
      next_msg_of net_wait (taken (p_sk (n_a c'))) /\
    nothing_outstanding (p_sk (n_a c')) = false /\ net_steps c c' /\ at_work ph c'.
Proof.
  intros Hw. destruct (nothing_outstanding (p_sk (n_a c))) eqn:He.
  2:{ right. exists c. split_and!; [apply next_msg_rest; exact He|done..]. }
  assert (forall s1 r, sk_output_sent_buf_wait_not_empty others true fuel (taken (p_sk (n_a c))) = (r, s1) ->
    next_msg_of (sk_send_wait others true fuel) (taken (p_sk (n_a c))) =
      match r with
      | Ret _ => (win ← setup; next_msg_loop (V:=Z) (E:=Z) (Z.to_nat OUTPUT_WINDOW_SZ) win (offset (sw_win win))) s1
      | Throw e => (Throw e, s1)
      | Fault x => (Fault x, s1)
      end) as Hgo.
  { intros s1 r Hr. unfold cw_next_msg. rewrite (run_ret _ _ _ _ _ (setup_eq _)).
    change (sent_buf_empty (win_of (cwa (taken (p_sk (n_a c)))))) with
      (nothing_outstanding (p_sk (n_a c))).
    rewrite He. cbn [when output_sent_buf_wait_not_empty sk_send_wait].
    rewrite bind_unfold, Hr. by destruct r. }
  destruct (wait_not_empty fuel _ _ Hw) as [(s'&Hf&Hid)|(c'&Hr&He'&Hs&Hw')].
  - left. exists s'. split_and!; [done..|]. by rewrite (Hgo _ _ Hf).
  - right. exists c'. split_and!; [|done..]. rewrite (Hgo _ _ Hr).
    rewrite (next_msg_rest net_wait (sk_send_wait others true fuel)) by exact He'.
    unfold cw_next_msg. rewrite !(run_ret _ _ _ _ _ (setup_eq _)).
    change (sent_buf_empty (win_of (cwa (taken (p_sk (n_a c')))))) with
      (nothing_outstanding (p_sk (n_a c'))). by rewrite He'.
Qed.

Lemma at_work_scan_stops c : at_work None c -> scan_stops (n_a c).
Proof.
  intros [[[(old&dn&op&got&rest&Hf) _ _ _] [Hsa|Hw]] [_ Hn]]; [right|left].
  - pose proof (si_area _ _ _ _ (sn_inv _ _ _ _ _ _ (fw_sending _ _ _ _ _ _ _ _ _ _ Hf))) as Ha.
    unfold cwa in Ha. cbn in Ha. rewrite Ha. cbn. pose proof (total_nonneg old). lia.
  - by rewrite delete_id in Hw.
Qed.

(** The scan finds the first message, or it is held by another worker. *)
Lemma take_step c :
  at_work None c -> nothing_outstanding (p_sk (n_a c)) = false ->
  (exists p s1 c', next_msg_of net_wait (taken (p_sk (n_a c))) = (Ret p, s1) /\
     p_sk (n_a c') = released s1 /\ net_steps c c' /\ at_work (Some (Sending p)) c') \/
  next_msg_of net_wait (taken (p_sk (n_a c))) = (Throw ETimeout, taken (p_sk (n_a c))).
Proof.
  intros Hw He. pose proof (at_work_scan_stops _ Hw) as Hst.
  pose proof Hw as [[[(old&dn&op&got&rest&Hf) _ Ha _] _] [_ Hw0]].
  pose proof (sending_taken _ _ _ _ _ _ (fw_sending _ _ _ _ _ _ _ _ _ _ Hf)) as Hs.
  destruct op as [|[q d] op].
  { pose proof (si_area _ _ _ _ (sn_inv _ _ _ _ _ _ Hs)) as Hcw. unfold cwa in Hcw. cbn in Hcw.
    unfold nothing_outstanding in He. rewrite Hcw, win_area, sender_empty in He by constructor. done. }
  destruct (sending_take_run _ _ _ _ _ _ _ _ Hs (flow_scan_stops _ _ _ _ _ _ _ _ _ _ Hf Hst)) as [(s1&Hr&_)|[Hr _]]; [left|by right].
  pose proof (locked_run _ _ _ _ (rd_send_worker _ Ha) Hr) as Hrun.
  destruct (at_work_step None (Some (Sending (real_total dn + 33))) c _ Hw
    (act_take sendto _ _ _ _ Hw0 Hst Hrun) eq_refl (lookup_insert_eq _ _ _) (delete_insert_eq _ _ _)) as [Hs' Hw'].
  eexists _, s1, _. split; [exact Hr|]. split; [|split; [exact Hs'|exact Hw']]. done.
Qed.

(** ** Polling *)

Lemma bind_same {A B} (m1 m2 : M sk A) (f : A -> M sk B) s1 s2 :
  m1 s1 = m2 s2 -> (m1 ≫= f) s1 = (m2 ≫= f) s2.
Proof. intros He. by rewrite !bind_unfold, He. Qed.

(** The check leaves the state as it is. *)
Lemma check_same m s : exists b, sk_output_check_msg_complete m s = (Ret b, s).
Proof.
  unfold sk_output_check_msg_complete, cw_check_msg_complete. rewrite (run_ret _ _ _ _ _ (setup_eq s)).
  change (cwa s) with (k_cw s).
  rewrite (run_ret _ _ _ _ _ (flush_same (win_of (k_cw s)) s (eq_sym (area_win _)))). by eexists.
Qed.

(** The last poll and the retry. *)
Lemma finish_step ph c :
  at_work (Some ph) c -> (exists p, ph = Polling p) ->
  exists c', (worker_finish (phase_place ph);; sem_post SEND_WORKER_LOCK) (taken (p_sk (n_a c))) =
      (Ret tt, p_sk (n_a c')) /\ net_steps c c' /\ at_work None c'.
Proof.
  intros Hw [p ->]. cbn [phase_place]. pose proof Hw as [[[(old&dn&op&got&rest&Hf) _ Ha _] _] [_ Hw0]].
  destruct (finish_succeeds _ _ _ _ _ _ _ _ _ _ _ _ Hf Ha Hw0) as (s'&Hrun&_).
  destruct (locked_ret _ _ _ _ (rd_send_worker _ Ha) Hrun) as (s1&Hr&->).
  destruct (at_work_step _ None c _ Hw (act_finish sendto _ _ _ _ Hw0 Hrun) eq_refl
    (lookup_delete_eq _ _) (delete_delete_eq _ _)) as [Hs' Hw'].
  eexists. split; [|split; [exact Hs'|exact Hw']]. cbn [phase_place] in Hr.
  rewrite (run_ret _ _ _ _ _ Hr). done.
Qed.

Lemma poll_loop fuel p summary timeout_ c :
  at_work (Some (Polling p)) c -> timeout_ - summary <= 100 * Z.of_nat fuel ->
  exists c', (poll_complete others fuel p summary timeout_;; worker_finish p;; sem_post SEND_WORKER_LOCK)
      (taken (p_sk (n_a c))) = (Ret tt, p_sk (n_a c')) /\ net_steps c c' /\ at_work None c'.
Proof.
  revert summary c. induction fuel as [|fuel IH]; intros summary c Hw Hf.
  - cbn [poll_complete]. rewrite (proj2 (Z.ltb_ge _ _)) by lia.
    rewrite bind_unfold. cbn [mret M_ret]. exact (finish_step _ _ Hw (ex_intro _ p eq_refl)).
  - cbn [poll_complete]. destruct (Z.ltb_spec summary timeout_) as [Hlt|Hge].
    2:{ rewrite bind_unfold. cbn [mret M_ret]. exact (finish_step _ _ Hw (ex_intro _ p eq_refl)). }
    set (s := taken (p_sk (n_a c))).
    set (m := load_msg (sb_buf (k_sb s)) p).
    assert (msg_at p s = (Ret m, s)) as Hm by done.
    destruct (check_same m s) as ([]&Hc).
    + rewrite (run_ret _ _ s tt s);
        [exact (finish_step _ _ Hw (ex_intro _ p eq_refl))|].
      rewrite (run_ret _ _ _ _ _ Hm), (run_ret _ _ _ _ _ Hc). done.
    + destruct (unlock_same _ _ Hw) as (c1&H1&Hs1&Hw1).
      destruct (others_step AtSleep _ _ Hw1) as (c2&H2&Hs2&Hw2).
      destruct (lock_again _ _ Hw2) as (c3&H3&Hs3&Hw3).
      destruct (IH (summary + 100) c3 Hw3 ltac:(lia)) as (c'&Hr&Hs'&Hw').
      exists c'. split; [|split; [do 3 (etransitivity; [done|]); done|done]].
      rewrite <- Hr. apply bind_same. rewrite (run_ret _ _ _ _ _ Hm), (run_ret _ _ _ _ _ Hc).
      rewrite (run_ret _ _ _ _ _ H1), (run_ret _ _ _ _ _ H2), (run_ret _ _ _ _ _ H3). done.
Qed.

(** ** The round *)

(** Sending what has been taken, and waiting for its acknowledgement. *)
Lemma send_and_poll p s1 c :
  at_work (Some (Sending p)) c -> p_sk (n_a c) = released s1 ->
  exists c', (sk_output_send_finally sendto others p;; worker_finish p;; sem_post SEND_WORKER_LOCK) s1 =
      (Ret tt, p_sk (n_a c')) /\ net_steps c c' /\ at_work None c'.
Proof.
  intros Hw He. pose proof Hw as [[[(old&dn&op&got&rest&Hf) _ Ha _] _] [_ Hw0]].
  destruct (sending_transmit sendto sendto_takes_all _ _ _ _ _ _ p (fw_sending _ _ _ _ _ _ _ _ _ _ Hf)
    (in_use_at _ _ _ Hw0)) as (q&d&m&s2&Hr2&_).
  destruct (at_work_step _ (Some (Polling p)) c _ Hw (act_transmit sendto _ _ _ _ Hw0 Hr2) eq_refl
    (lookup_insert_eq _ _ _) (delete_insert_eq _ _ _)) as [Hs2 Hw2].
  destruct (lock_again _ _ Hw2) as (c3&H3&Hs3&Hw3). cbn [n_a p_sk] in H3.
  assert (exists t, get_timeout s1 = (Ret t, s1)) as (t&Et) by by eexists.
  destruct (poll_loop (Z.to_nat (s64 t `div` 100 + 1)) p 0 (s64 t) c3 Hw3) as (c'&Hr&Hs'&Hw').
  { destruct (Z.le_gt_cases 0 (s64 t)); Z.to_euclidean_division_equations; lia. }
  exists c'. split; [|split; [do 2 (etransitivity; [done|]); done|done]].
  rewrite <- Hr. apply bind_same. unfold sk_output_send_finally. rewrite (run_ret _ _ _ _ _ Et).
  rewrite (run_ret _ _ _ tt (p_sk (n_a c))) by (by rewrite He).
  rewrite (run_ret _ _ _ _ _ Hr2), (run_ret _ _ _ _ _ H3). done.
Qed.

(** The round's code is the same as with its last section named. *)
Lemma run_finish p s1 r :
  (sk_output_send_finally sendto others p;; worker_finish p;; sem_post SEND_WORKER_LOCK) s1 = r ->
  (sk_output_send_finally sendto others p;;
   m ← msg_at p; complete ← sk_output_check_msg_complete m;
   when (negb complete) (sk_output_on_retry m);; sem_post SEND_WORKER_LOCK) s1 = r.
Proof.
  intros <-. rewrite !(bind_unfold (sk_output_send_finally _ _ _)).
  destruct (sk_output_send_finally _ _ _ _) as [[[]|e|x] s2]; [|done..].
  unfold worker_finish. rewrite !bind_unfold.
  destruct (msg_at p s2) as [[m|e|x] s3]; [|done..]. rewrite !bind_unfold.
  by destruct (sk_output_check_msg_complete m s3) as [[[]|e|x] s4].
Qed.

(** After an exception the lock is given back. *)
Lemma round_sleeps c :
  at_work None c ->
  exists c', (sem_post SEND_WORKER_LOCK;; others AtSleep) (taken (p_sk (n_a c))) =
      (Ret tt, p_sk (n_a c')) /\ net_steps c c' /\ at_work None c'.
Proof.
  intros Hw. destruct (unlock_same _ _ Hw) as (c1&H1&Hs1&Hw1).
  destruct (others_step AtSleep _ _ Hw1) as (c2&H2&Hs2&Hw2).
  exists c2. rewrite (run_ret _ _ _ _ _ H1). split; [exact H2|]. split; [by etransitivity|done].
Qed.

Lemma round_is_steps fuel c :
  at_work None c ->
  (exists c1 s', net_steps c c1 /\ idles fuel c1 /\ waits fuel c1 = (Fault out_of_fuel, s') /\
     send_worker_round sendto others true fuel (p_sk (n_a c)) = (Fault out_of_fuel, s')) \/
  exists c', send_worker_round sendto others true fuel (p_sk (n_a c)) = (Ret tt, p_sk (n_a c')) /\
    net_steps c c' /\ at_work None c'.
Proof.
  intros Hw. destruct (lock_again _ _ Hw) as (c1&H1&Hs1&Hw1).
  unfold send_worker_round. rewrite (run_ret _ _ _ _ _ H1).
  assert (get_state (taken (p_sk (n_a c1))) = (Ret ESTABLISHED, taken (p_sk (n_a c1)))) as H2
    by (rewrite <- (rd_state _ (at_work_ready _ _ Hw1)); done).
  rewrite (run_ret _ _ _ _ _ H2), decide_True by done. unfold try_catch.
  destruct (next_msg_waits fuel _ _ Hw1) as [(s'&Hf&Hid&Hr)|(c2&H3&He&Hs2&Hw2)].
  { left. exists c1, s'. split_and!; [done..|]. rewrite bind_unfold. by rewrite Hr. }
  right. rewrite bind_unfold, H3.
  destruct (take_step c2 Hw2 He) as [(p&s1&c3&Hr&Hsk&Hs3&Hw3)|Hr]; rewrite Hr.
  - destruct (send_and_poll p s1 c3 Hw3 Hsk) as (c'&Hr'&Hs'&Hw').
    exists c'. split; [|split; [do 3 (etransitivity; [done|]); done|done]].
    rewrite (run_finish p s1 _ Hr'). done.
  - destruct (round_sleeps c2 Hw2) as (c'&Hr'&Hs'&Hw'). exists c'.
    split; [exact Hr'|]. split; [do 2 (etransitivity; [done|]); done|done].
Qed.

End worker.

(** C4: the network's steps are the code's.  A worker that is the only one of
    its side, or whose side numbers its bytes from 256000 on, in a network that
    [NetOps]'s invariant holds of: a round of it, run while the other threads of
    its side, the other side and the network take any orderly steps at each of
    its pauses, returns, has done what a sequence of steps of the network does,
    gives its lock back and holds no message any more.  Only its wait for a
    message need not end: then nothing was outstanding at any of the looks it
    took, one more than the wake-ups it was given ([fuel]); the scan and the
    polling always end. *)
Theorem worker_round_is_network_steps sa sb w others fuel c :
  (forall pt ph c, at_work sa sb w ph c ->
     exists c', others pt (p_sk (n_a c)) = (Ret tt, p_sk (n_a c')) /\ net_steps c c' /\
       at_work sa sb w ph c') ->
  at_work sa sb w None c ->
  (exists c1 s', net_steps c c1 /\ idles fuel c1 /\
     sk_output_sent_buf_wait_not_empty others true fuel (taken (p_sk (n_a c1))) =
       (Fault out_of_fuel, s') /\
     send_worker_round sendto others true fuel (p_sk (n_a c)) = (Fault out_of_fuel, s')) \/
  exists c', send_worker_round sendto others true fuel (p_sk (n_a c)) = (Ret tt, p_sk (n_a c')) /\
    net_steps c c' /\ at_work sa sb w None c'.
Proof. intros Ho Hw. exact (round_is_steps sa sb w others Ho fuel c Hw). Qed.

End rounds.

(** ** A round during which the client reads and the clock goes on *)

#[local] Existing Instance sipping.

Definition meanwhile (_ : pause_point) : M sk unit :=
  a ← gets k_iw;
  when (iw_flushed_off a <? iw_off a) (recv_pass kernel_takes_all 300;; mret tt);;
  t ← gets k_clock;
  modify (set_clock (u64 (t + 1000))).

Lemma meanwhile_steps sa sb w pt ph c :
  at_work kernel_takes_all (fun _ _ => eq_refl) sa sb w ph c ->
  exists c', meanwhile pt (p_sk (n_a c)) = (Ret tt, p_sk (n_a c')) /\
    rtc (net_step kernel_takes_all (gets k_clock)) c c' /\
    at_work kernel_takes_all (fun _ _ => eq_refl) sa sb w ph c'.
Proof.
  intros Hw. set (a := k_iw (p_sk (n_a c))).
  assert (exists c1, when (iw_flushed_off a <? iw_off a) (recv_pass kernel_takes_all 300;; mret tt)
      (p_sk (n_a c)) = (Ret tt, p_sk (n_a c1)) /\
    rtc (net_step kernel_takes_all (gets k_clock)) c c1 /\
    at_work kernel_takes_all (fun _ _ => eq_refl) sa sb w ph c1) as (c1&H1&Hs1&Hw1).
  { destruct (Z.ltb_spec (iw_flushed_off a) (iw_off a)) as [Hlt|_]; [|by exists c].
    pose proof Hw as [[[_ (old&dn&op&got&rest&Hf) Ha _] _] [_ Hph]].
    destruct (recv_pass_ends kernel_takes_all (fun _ _ => eq_refl) _ _ _ _ _ _ _ _ 300 Hf Ha ltac:(lia))
      as (s'&[Hr|[Hp _]]).
    - destruct (at_work_step kernel_takes_all (gets k_clock) (fun _ _ => eq_refl) sa sb w ph ph c _ Hw
        (act_read kernel_takes_all (n_a c) 300 _ s' ltac:(lia) Hr) eq_refl Hph eq_refl) as [Hs' Hw'].
      eexists (Net (Peer s' _ _) _). cbn [when]. rewrite (run_ret _ _ _ _ _ Hr).
      split; [done|]. split; [exact Hs'|exact Hw'].
    - pose proof (li_rcv _ _ _ _ _ _ _ _ _ (fw_link _ _ _ _ _ _ _ _ _ _ Hf)) as Hi.
      pose proof (length_pending _ Hi) as Hlp. cbn [c_rcv one_way] in Hlp.
      refine (False_ind _ _). assert (iw_off a - iw_flushed_off a = 0); [|lia].
      refine (eq_trans (eq_sym Hlp) _). apply (f_equal length) in Hp. cbn in Hp.
      exact (f_equal Z.of_nat Hp). }
  assert (0 <= u64 (k_clock (p_sk (n_a c1)) + 1000) < modulus64) as Ht by apply u64_range.
  destruct (at_work_step kernel_takes_all (gets k_clock) (fun _ _ => eq_refl) sa sb w ph ph c1 _ Hw1
    (act_clock kernel_takes_all (n_a c1) _ Ht) eq_refl) as [Hs2 Hw2]; [apply Hw1|done|].
  eexists. split; [|split; [etransitivity; [exact Hs1|exact Hs2]|exact Hw2]].
  unfold meanwhile. rewrite (run_ret (gets k_iw) _ _ a _ eq_refl), (run_ret _ _ _ _ _ H1).
  by rewrite (run_ret (gets k_clock) _ (p_sk (n_a c1)) _ _ eq_refl).
Qed.

Lemma worker_round_is_network_steps_witness :
  exists c, p_sent (n_a c) = [data10] /\
    ((exists c1 s', rtc (net_step kernel_takes_all (gets k_clock)) c c1 /\
       idles kernel_takes_all (gets k_clock) 3 c1 /\
       sk_output_sent_buf_wait_not_empty meanwhile true 3 (taken (p_sk (n_a c1))) =
         (Fault out_of_fuel, s') /\
       send_worker_round kernel_takes_all meanwhile true 3 (p_sk (n_a c)) = (Fault out_of_fuel, s')) \/
     exists c', send_worker_round kernel_takes_all meanwhile true 3 (p_sk (n_a c)) =
         (Ret tt, p_sk (n_a c')) /\
       rtc (net_step kernel_takes_all (gets k_clock)) c c').
Proof.
  destruct ten_bytes_on_the_net as (c&Hs&Ha&_&Hb&Hn).
  destruct (net_steps_inv kernel_takes_all (gets k_clock) (fun _ _ => eq_refl) 5000000 7000000
    fresh_net c (net_connected_inv _ _ _ _ _ fresh_net_connected) Hs Hb) as [Hi _].
  exists c. split; [exact Ha|].
  destruct (worker_round_is_network_steps kernel_takes_all (gets k_clock) (fun _ _ => eq_refl)
    5000000 7000000 0%nat meanwhile 3 c) as [Hf|(c'&Hr&Hs'&_)].
  - intros pt ph c1 Hw. exact (meanwhile_steps 5000000 7000000 0%nat pt ph c1 Hw).
  - split; [split; [exact Hi|left; lia]|]. split; [exact Hb|]. rewrite Hn. apply lookup_empty.
  - left. exact Hf.
  - right. exists c'. split; [exact Hr|exact Hs'].
Defined.
