(* ===== verification/Connect.v ===== *)
(** * Connect: from two new sockets to two streams

    The handshake of [Handshake] leaves two sockets in a state from which the
    network of [Net] starts: the client's bytes are numbered from what the
    server answered, the server's own from zero. *)
From stdpp Require Import relations gmap.
From S2P Require Import Prelude Window Message Transfer ProtoMem Congestion FastRetransmit.
From S2P Require Import SendBuffer Inplace Slots SlotOps Cumulative CumulativeOps Input InputOps.
From S2P Require Import Handshaker Socket SenderModel ReceiverModel Frames Handshake HandshakeOps.
From S2P Require Import Channel Places ChannelOps WorkerOps Net NetOps.

(** ** One socket *)

Section open.
Context (sendto : sockaddr_in -> bytes -> Z) {client : Client}.
Hypothesis sendto_takes_all : forall a d, sendto a d = Z.of_nat (length d).

#[local] Instance open_lock : InputLock sk := chan_lock sendto.
#[local] Instance open_input : InputController sk := chan_input sendto.
#[local] Instance open_laws : ReceiverLaws sk := chan_laws sendto sendto_takes_all.

(** It sends from the number [x] on and expects [y]; nothing has been sent,
    nothing has arrived. *)
Record opened (x y : Z) (s : sk) : Prop := {
  op_ready : ready s;
  op_snd : sender_inv x [] [] s;
  op_clocked : clocked s;
  op_rcv : receiver_inv (held s);
  op_iw : k_iw s = InputWindowArea y 0 INPUT_WINDOW_SZ 0;
  op_user : k_user s = [];
}.

(** A new socket becomes one when a handshake has written its windows. *)
Lemma new_opened id mtu inc s x y :
  untouched (set_in inc (sk_init id mtu)) s -> ident_wf id ->
  k_state s = InternalStateArea ESTABLISHED ->
  k_cw s = CumulativeArea x 0 0 OUTPUT_WINDOW_SZ -> k_iw s = InputWindowArea y 0 INPUT_WINDOW_SZ 0 ->
  0 <= x < modulus32 - 2000 -> 0 <= y < modulus32 - 2000 -> opened x y s.
Proof.
  intros (_&Hsb&_&_&Hib&_&Hid&Hck&Hu&_&Hsems) Hwf Hst Hcw Hiw Hx Hy.
  split; try done.
  - split; rewrite ?Hst, ?Hsems; done.
  - apply (sender_inv_other _ _ _ (sk_established x)); [by rewrite Hcw|by rewrite Hsb|].
    apply sk_established_inv. unfold OUTPUT_WINDOW_SZ. lia.
  - split; [by rewrite Hid|]. rewrite Hck. by vm_compute.
  - assert (iwa (held s) = InputWindowArea y 0 INPUT_WINDOW_SZ 0) as Hw by exact Hiw.
    split; rewrite ?Hw; try done.
    + split; [done|]. cbn [held]. unfold held. by rewrite sems_other, Hsems.
    + cbn. unfold INPUT_WINDOW_SZ. lia.
Qed.

(** None of the messages of the handshake is on its way any more: the socket as
    a network finds it that has delivered or lost them, and repeats none. *)
Definition settled (s : sk) : sk :=
  Sk (k_state s) (k_wc s) (k_cw s) (k_sb s) (k_to s) (k_fr s) (k_iw s) (k_ib s) (k_fut s)
    (k_sems s) (k_id s) (k_clock s) [] (k_user s) (k_in s) (k_est s) (k_cl s).

Lemma opened_settled x y s : opened x y s -> opened x y (settled s).
Proof.
  intros [[] Hs [] [] ? ?]. split; try done. by apply (sender_inv_other _ _ _ s).
Qed.

(** Two of them that fit. *)
Lemma opened_connected x y a b :
  opened x y a -> opened y x b -> k_out a = [] -> k_out b = [] -> 0 <= x -> 0 <= y ->
  net_connected sendto sendto_takes_all x y (Net (Peer a ∅ []) (Peer b ∅ [])).
Proof.
  assert (forall x y a b, opened x y a -> opened y x b -> k_out a = [] -> k_out b = [] ->
    connected sendto sendto_takes_all x (Channel a (held b) [])) as Hone.
  { clear. intros x y a b [_ Hs Hc _ _ _] [_ _ _ Hr Hw Hu] Ha Hb.
    split; cbn [c_snd c_rcv c_sent]; try done.
    - change (k_iw (held b)) with (k_iw b). by rewrite Hw.
    - unfold expected, iwa. cbn. rewrite Hw. cbn. lia.
    - unfold received, pending. cbn. rewrite Hu. unfold iwa. cbn. by rewrite Hw. }
  intros Ha Hb Hoa Hob Hx Hy. split; try done; [by eapply Hone..|].
  split; [apply (op_ready _ _ _ Ha)|apply (op_ready _ _ _ Hb)].
Qed.

End open.

(** ** Two sockets *)

(** The two sockets when the handshake's messages are through. *)
Definition both_open (a b : sk) : net := Net (Peer (settled a) ∅ []) (Peer (settled b) ∅ []).

(** A handshake, of either direction, that finds the connection established. *)
Lemma handshake_again sendto rand fuel recv s :
  k_state s = InternalStateArea ESTABLISHED ->
  0 < k_sems s SEND_LOCK -> 0 < k_sems s SEND_WORKER_LOCK ->
  0 < k_sems s RECV_LOCK -> 0 < k_sems s RECV_WORKER_LOCK ->
  exists f, handshake sendto rand alone fuel recv s = (Ret tt, with_sems f s) /\
    forall n, f n = k_sems s n.
Proof.
  intros Hst H1 H2 H3 H4.
  assert (forall n1 n2, n1 <> n2 -> 0 < k_sems s n1 -> 0 < k_sems s n2 -> forall g,
    exists f, (sem_wait alone n1;; sem_wait alone n2;; st ← get_state;
       (if decide (st = CLOSED) then g else mret tt);; sem_post n2;; sem_post n1) s
      = (Ret tt, with_sems f s) /\ forall n, f n = k_sems s n) as Hrun.
  { intros n1 n2 Hne Hn1 Hn2 g. eexists. split.
    - mstep (sem_wait_alone n1 s Hn1).
      assert (0 < k_sems (set_sem n1 (k_sems s n1 - 1) s) n2) as Hn2' by (by rewrite sems_other).
      mstep (sem_wait_alone n2 _ Hn2'). rewrite bind_unfold.
      unfold get_state at 1. rewrite bind_unfold. cbn [mem_get gets mret M_ret].
      change (area_get (set_sem n2 ?v ?t)) with (k_state s). rewrite Hst. cbn [is_state].
      rewrite decide_False by done. reflexivity.
    - intros n. cbn. repeat (destruct (decide _)); subst; try done; lia. }
  destruct recv; unfold handshake; cbn [negb when].
  - rewrite bind_unfold. cbn [mret M_ret]. by apply Hrun.
  - destruct (Hrun SEND_LOCK SEND_WORKER_LOCK ltac:(done) H1 H2
      (@send_establish sk _ (go_signals sendto rand) (go_waits sendto rand fuel))) as (f&Hr&Hf).
    exists f. split; [|exact Hf]. by rewrite (run_ret _ _ _ _ _ Hr).
Qed.

(** C8: opening a connection makes two streams.  Two new sockets, with the
    messages of an exchange in their queues among others, run [handshake]: both
    calls return, and when none of the handshake's own messages is on its way
    any more ([settled]), the two sockets are connected in both directions, as
    the theorems about the network assume.  The client's bytes are numbered from
    the server's random number plus one, which must leave room for two windows
    below 2^32; the server's are numbered from zero, since its own handshake,
    like every further one, finds the connection established and does nothing.
    [settled] is needed: a handshake's acknowledgement that comes a second time
    counts as one for the server's bytes ([repeated_handshake_ack_counts]). *)
Theorem new_sockets_connect (sendto : sockaddr_in -> bytes -> Z) {client : Client}
    (sendto_takes_all : forall a d, sendto a d = Z.of_nat (length d))
    ida mtua idb mtub a b inc ins rc rs fuel :
  ident_wf ida -> ident_wf idb -> exchange a b fuel inc ins rc rs ->
  u32 (b + 1) < modulus32 - 2000 ->
  exists c s,
    handshake sendto (mret a) alone fuel false (set_in inc (sk_init ida mtua)) = (Ret tt, c) /\
    handshake sendto (mret b) alone fuel true (set_in ins (sk_init idb mtub)) = (Ret tt, s) /\
    net_connected sendto sendto_takes_all (u32 (b + 1)) 0 (both_open c s) /\
    forall x rand fuel recv, x = c \/ x = s ->
      exists f, handshake sendto rand alone fuel recv x = (Ret tt, with_sems f x) /\
        forall n, f n = k_sems x n.
Proof.
  intros Ha Hb He Hw.
  destruct (both_established sendto sendto_takes_all (set_in inc (sk_init ida mtua))
    (set_in ins (sk_init idb mtub)) a b rc rs fuel)
    as (c&s&m1&m2&m3&H1&H2&_&[Hcs Hss]&[Hcw Hiw]&_&[Hciw Huc]&Hscw&Hus);
    [repeat split..|exact He|].
  exists c, s. split; [exact H1|]. split; [exact H2|].
  assert (0 <= u32 (b + 1) < modulus32) as Hr by apply u32_range.
  assert (opened sendto sendto_takes_all (u32 (b + 1)) 0 c) as Hoc by (apply (new_opened sendto sendto_takes_all ida mtua inc); done || lia).
  assert (opened sendto sendto_takes_all 0 (u32 (b + 1)) s) as Hos by (apply (new_opened sendto sendto_takes_all idb mtub ins); done || lia).
  split.
  - apply opened_connected; [by apply opened_settled..|done|done|lia|done].
  - intros x rand n recv Hx.
    assert (k_state x = InternalStateArea ESTABLISHED /\ forall n, k_sems x n = sem_init_count n)
      as [Hst Hsems] by (destruct Hx as [-> | ->]; split; try done; [apply Huc|apply Hus]).
    apply handshake_again; [done|..]; by rewrite Hsems.
Qed.

#[local] Existing Instance sipping.

Lemma new_sockets_connect_witness :
  exists c s,
    handshake kernel_takes_all (mret 70) alone 4 false closed_client = (Ret tt, c) /\
    handshake kernel_takes_all (mret 900) alone 4 true closed_server = (Ret tt, s) /\
    net_connected kernel_takes_all (fun _ _ => eq_refl) 901 0 (both_open c s).
Proof.
  destruct (new_sockets_connect kernel_takes_all (fun _ _ => eq_refl)
    (Ident (Addr 16777343 53764) (Addr 16777343 20480)) 1444
    (Ident (Addr 16777343 20480) (Addr 16777343 53764)) 1444 70 900 (k_in closed_client) (k_in closed_server) [] [] 4)
    as (c&s&Hc&Hs&Hn&_); [vm_compute; intuition discriminate..|exact the_exchange|vm_compute; reflexivity|].
  exists c, s. split; [exact Hc|]. split; [exact Hs|exact Hn].
Defined.

(** ** A message of the handshake that comes twice *)

(** The acknowledgement that ends the handshake carries the client's number
    plus one as its sequence number, and the sender on the other side takes a
    repetition of it for an acknowledgement of its own bytes, which begin at
    zero: seventy-two bytes count as acknowledged and nothing has arrived. *)
Lemma repeated_handshake_ack_counts :
  let s := snd (handshake kernel_takes_all (mret 900) alone 4 true closed_server) in
  let s1 := snd (cw_send (E:=Z) (tmp_msg (replicate 72 1)) s) in
  let ack := set_ack_seq 901 (set_seq 71 (set_ack (msg_alloc 0))) in
  let r := recv_worker_dispatch kernel_takes_all (mret 0) alone 0 ack s1 in
  says ack = ACK 71 901 /\ cw_off (k_cw s1) = 0 /\ fst r = Ret tt /\ cw_off (k_cw (snd r)) = 72.
Proof. vm_compute. done. Qed.
