(* ===== verification/Serve.v ===== *)
(** * Serve: what the other threads do for a thread that sends

    While [socket_full_impl::send] (newimpl.cpp 630-662) waits, the receiving
    worker handles acknowledgements, the sending worker transmits and times
    out, and other threads use the rest of the socket.  [served] is one such
    critical section; [advance] says what any number of them do to the
    outstanding messages, their futures and the signal of an empty buffer.  A
    scheduler is [fair] if it answers every wait that some run of these
    sections can answer. *)
From stdpp Require Import relations.
From S2P Require Import Prelude Window Message Transfer ProtoMem Congestion FastRetransmit.
From S2P Require Import SendBuffer Inplace Slots SlotOps Cumulative CumulativeOps Input.
From S2P Require Import Socket SenderModel ReceiverModel Channel ChannelOps.

(** ** The window of a socket is a function of its state *)

Lemma slots_unique a o r ms1 ms2 :
  slots a o r ms1 -> slots a o r ms2 -> total ms1 = total ms2 -> ms1 = ms2.
Proof.
  revert o r ms2. induction ms1 as [|[q1 d1] ms1 IH]; intros o r [|[q2 d2] ms2];
    cbn [slots total]; [done| | |].
  - intros _ (_&_&Hd&_). pose proof (total_nonneg ms2). lia.
  - intros (_&_&Hd&_) _. pose proof (total_nonneg ms1). lia.
  - intros (_&H1&_&Hs1) (_&H2&_&Hs2) Ht. destruct (slot_at_unique _ _ _ _ _ _ H1 H2) as [-> ->].
    f_equal. apply (IH _ _ _ Hs1 Hs2). lia.
Qed.

Lemma sender_unique b1 dn1 op1 b2 dn2 op2 (s : sk) :
  sender_inv b1 dn1 op1 s -> sender_inv b2 dn2 op2 s -> b1 = b2 /\ dn1 = dn2 /\ op1 = op2.
Proof.
  intros [Ha1 _ [Hh1 _] _ Hn1 _] [Ha2 _ [Hh2 _] _ _ _]. rewrite Ha1 in Ha2.
  injection Ha2 as Hb Hd Ho. split; [done|].
  apply (split_eq dn1 op1 dn2 op2); [exact Hn1| |done].
  exact (slots_unique _ _ _ _ _ Hh1 Hh2 Ho).
Qed.

Section serve.
Context (sendto : sockaddr_in -> bytes -> Z).
Hypothesis sendto_takes_all : forall a d, sendto a d = Z.of_nat (length d).

(** ** One critical section of another thread *)

(** The acknowledgement is for the last byte of a message, or of nothing before
    the byte numbered zero, as those of a receiver are
    ([InputOps.receives_in_order_only]); and not the fourth in a row that finds
    nothing to retransmit. *)
Definition acks_message (m : msg) (s : sk) : Prop :=
  fourth_duplicate m s = false /\ 0 <= get_seq m /\
  (get_seq m = modulus32 - 1 \/
   exists base dn now rest, sender_inv base dn (now ++ rest) s /\
     (get_seq m + 1 = base + total (dn ++ now) \/ get_seq m + 1 < base + total dn)).

(** The worker's scan ends at the first outstanding message: nobody holds it,
    or the window starts at 256000 or later ([Net.scan_stops]). *)
Definition scan_ends (s : sk) : Prop :=
  forall base dn q d op, sender_inv base dn ((q, d) :: op) s ->
    256000 <= base \/ is_msg_used (St:=sk) (V:=Z) (real_total dn + 33) s = (Ret false, s).

(** What the threads that do not send leave alone. *)
Record same_sender (s s' : sk) : Prop := {
  sa_wc : k_wc s' = k_wc s;
  sa_cw : k_cw s' = k_cw s;
  sa_sb : k_sb s' = k_sb s;
  sa_fut : k_fut s' = k_fut s;
  sa_sems n : n <> SEND_BUF_NOT_EMPTY -> n <> RECV_LOCK -> n <> RECV_WORKER_LOCK ->
    n <> RECV_WORKER_COMPLETE -> n <> RECV_WORKER_BUF_NOT_EMPTY -> k_sems s' n = k_sems s n;
  sa_clock : clocked s -> clocked s';
}.

(** A section: an acknowledgement, a round of the sending worker that sends or
    times out, what threads that do not send do, any part of a round that keeps
    the window and the signals, and a section under [send_worker_lock]. *)
Inductive served : sk -> sk -> Prop :=
| served_ack m s s' :
    acks_message m s -> 1 <= get_window_sz m ->
    congection_win_sz (k_wc s) + mtu (k_wc s) < modulus64 ->
    (cwc_on_ack m;; cw_on_ack (V:=Z) (E:=Z) m) s = (Ret tt, s') -> served s s'
| served_transmit s s' :
    scan_ends s -> transmit_next sendto s = (Ret tt, s') -> served s s'
| served_timeout s s' : timeout_expires s = (Ret tt, s') -> served s s'
| served_other s s' : same_sender s s' -> served s s'
| served_section s s' :
    (forall base dn op, sender_inv base dn op s -> sender_inv base dn op s') ->
    (clocked s -> clocked s') -> kept s s' -> served s s'
| served_lock s s1 :
    served (set_sem SEND_WORKER_LOCK 0 s) s1 ->
    served s (set_sem SEND_WORKER_LOCK (k_sems s SEND_WORKER_LOCK) s1).

(** ** The state between sections

    [lim]: a bound of the numbers used; [mtu_]: the MTU. *)
Context (lim mtu_ : Z).
Hypothesis lim_ok : lim + 3 * OUTPUT_WINDOW_SZ < modulus32.
Hypothesis mtu_ok : 1 <= mtu_ < modulus16.

Record sending (base : Z) (dn op : sent) (s : sk) : Prop := {
  sg_inv : sender_inv base dn op s;
  sg_clocked : clocked s;
  sg_lim : base + total (dn ++ op) <= lim;
  sg_mtu : mtu (k_wc s) = mtu_;
  sg_cong : 1 <= congection_win_sz (k_wc s) < modulus64;
  sg_recv : 1 <= receiver_win_sz (k_wc s);
  sg_futs f : 0 <= futs s f;
  sg_empties : 0 <= k_sems s SEND_BUF_EMPTY;
}.

(** An outstanding message will signal the empty buffer. *)
Definition owes (op : sent) : Z := match op with [] => 0 | _ => 1 end.

(** The first [now] of the outstanding messages have been acknowledged. *)
Record advance (base : Z) (dn op : sent) (s : sk) (base' : Z) (dn' op' : sent) (s' : sk)
    (now : sent) : Prop := {
  ad_op : op = now ++ op';
  ad_done : base' = base /\ dn' = dn ++ now \/
    base' = base + OUTPUT_WINDOW_SZ /\ dn' = [] /\ op' = [] /\ total (dn ++ now) = OUTPUT_WINDOW_SZ;
  ad_posted f : f ∈ futures_of real_total dn now -> futs s' f = futs s f + 1;
  ad_other f : f ∉ futures_of real_total dn now -> futs s' f = futs s f;
  ad_empties : k_sems s' SEND_BUF_EMPTY + owes op' = k_sems s SEND_BUF_EMPTY + owes op;
  ad_lock : k_sems s' SEND_WORKER_LOCK = k_sems s SEND_WORKER_LOCK;
  ad_send : k_sems s' SEND_LOCK = k_sems s SEND_LOCK;
}.

Lemma advance_refl base dn op s : advance base dn op s base dn op s [].
Proof.
  split; try done; [left; rewrite app_nil_r; done|]. cbn [futures_of]. intros f. set_solver.
Qed.

Lemma window_futures_nodup base dn op s :
  sender_inv base dn op s -> NoDup (futures_of real_total [] (dn ++ op)).
Proof. intros Hi. apply (futures_law (St:=sk) (V:=Z) (E:=Z) _ s (si_stored _ _ _ _ Hi)). Qed.

Lemma futures_app dn ms1 ms2 :
  futures_of real_total dn (ms1 ++ ms2)
    = futures_of real_total dn ms1 ++ futures_of real_total (dn ++ ms1) ms2.
Proof. exact (futures_of_app (St:=sk) (V:=Z) (E:=Z) dn ms1 ms2). Qed.

Lemma advance_trans b1 dn1 op1 s1 b2 dn2 op2 s2 now1 b3 dn3 op3 s3 now2 :
  sender_inv b1 dn1 op1 s1 ->
  advance b1 dn1 op1 s1 b2 dn2 op2 s2 now1 -> advance b2 dn2 op2 s2 b3 dn3 op3 s3 now2 ->
  advance b1 dn1 op1 s1 b3 dn3 op3 s3 (now1 ++ now2).
Proof.
  intros Hi [Hop1 Hd1 Hp1 Ho1 He1 Hl1 Hs1] [Hop2 Hd2 Hp2 Ho2 He2 Hl2 Hs2].
  destruct Hd1 as [[-> ->]|(->&->&->&Ht)].
  - assert (forall f, f ∈ futures_of real_total dn1 now1 ->
              f ∉ futures_of real_total (dn1 ++ now1) now2) as Hdis.
    { pose proof (window_futures_nodup _ _ _ _ Hi) as Hnd.
      rewrite Hop1, Hop2, !futures_app in Hnd. apply NoDup_app in Hnd as (_&_&Hnd).
      rewrite app_nil_l in Hnd. apply NoDup_app in Hnd as (_&Hnd&_).
      intros f Hf Hf2. apply (Hnd f Hf), elem_of_app. by left. }
    split; try congruence.
    + rewrite Hop1, Hop2, app_assoc. done.
    + destruct Hd2 as [[-> ->]|(->&->&->&Ht)]; [left; rewrite app_assoc; done|].
      right. rewrite app_assoc. done.
    + intros f. rewrite futures_app, elem_of_app. intros [Hf|Hf].
      * rewrite Ho2, Hp1; [done|done|by apply Hdis].
      * rewrite Hp2, Ho1; [done| |done]. intros Hf1. by apply (Hdis f Hf1).
    + intros f. rewrite futures_app, not_elem_of_app. intros [Hf1 Hf2]. rewrite Ho2, Ho1; done.
  - symmetry in Hop2. apply app_eq_nil in Hop2 as [-> ->]. rewrite app_nil_r in *.
    cbn [futures_of] in *.
    assert (b3 = b1 + OUTPUT_WINDOW_SZ /\ dn3 = []) as [-> ->].
    { destruct Hd2 as [[-> ->]|(->&->&_&Ht2)]; [done|]. cbn in Ht2. unfold OUTPUT_WINDOW_SZ in Ht2. lia. }
    split; rewrite ?app_nil_r; try congruence; [by right|..].
    + intros f Hf. rewrite Ho2 by set_solver. by apply Hp1.
    + intros f Hf. rewrite Ho2 by set_solver. by apply Ho1.
Qed.

(** ** Each section keeps the state and advances *)

Lemma sections_advance base dn op s s' :
  sending base dn op s -> sender_inv base dn op s' -> clocked s' -> window_kept s s' ->
  (forall f, futs s' f = futs s f) ->
  (forall n, n = SEND_LOCK \/ n = SEND_WORKER_LOCK \/ n = SEND_BUF_EMPTY ->
     k_sems s' n = k_sems s n) ->
  sending base dn op s' /\ advance base dn op s base dn op s' [].
Proof.
  intros [Hi Hcl Hlim Hm Hc Hr Hf He] Hi' Hcl' (Hkm&Hkr&Hkc) Hkf Hks.
  split; split; try done.
  - congruence.
  - lia.
  - lia.
  - intros f. rewrite Hkf. done.
  - rewrite Hks by tauto. done.
  - left. rewrite app_nil_r. done.
  - intros f. cbn [futures_of]. set_solver.
  - rewrite Hks by tauto. done.
  - apply Hks. tauto.
  - apply Hks. tauto.
Qed.

Lemma kept_advance base dn op s s' :
  sending base dn op s -> sender_inv base dn op s' -> clocked s' -> kept s s' ->
  sending base dn op s' /\ advance base dn op s base dn op s' [].
Proof.
  intros Hs Hi Hcl [Hw Hf Hn]. apply sections_advance; try done.
  intros n [->|[->| ->]]; by apply Hn.
Qed.

Lemma transmit_advance base dn op s s' :
  sending base dn op s -> scan_ends s -> transmit_next sendto s = (Ret tt, s') ->
  sending base dn op s' /\ advance base dn op s base dn op s' [].
Proof.
  intros Hs Hb Hrun. pose proof Hs as [Hi Hcl _ _ _ _ _ _].
  destruct op as [|[q d] op]; [destruct (transmit_next_empty sendto base dn s s' Hi Hrun)|].
  destruct (transmit_next_run sendto sendto_takes_all base dn q d op s Hi Hcl (Hb _ _ _ _ _ Hi))
    as [(m&s1&H1&Hi1&Hcl1&_&_&Hk)|[H1 _]]; rewrite Hrun in H1; [|done].
  injection H1 as <-. by apply kept_advance.
Qed.

Lemma timeout_advance base dn op s s' :
  sending base dn op s -> timeout_expires s = (Ret tt, s') ->
  sending base dn op s' /\ advance base dn op s base dn op s' [].
Proof.
  intros Hs Hrun. pose proof Hs as [Hi Hcl _ _ _ _ _ _].
  destruct op as [|[q d] op].
  - rewrite (timeout_expires_empty base dn s Hi) in Hrun. injection Hrun as <-.
    split; [done|apply advance_refl].
  - destruct (timeout_expires_run base dn q d op s Hi Hcl) as (s1&H1&Hi1&Hcl1&_&_&Hk&_).
    rewrite Hrun in H1. injection H1 as <-. by apply kept_advance.
Qed.

Lemma other_advance base dn op s s' :
  sending base dn op s -> same_sender s s' ->
  sending base dn op s' /\ advance base dn op s base dn op s' [].
Proof.
  intros Hs [Hw Hc Hb Hf Hn Hcl]. apply sections_advance; try done.
  - apply (sender_inv_other _ _ _ s); [done..|apply Hs].
  - apply Hcl, Hs.
  - by apply window_kept_wc.
  - intros f. unfold futs. cbn. by rewrite Hf.
  - intros n [->|[->| ->]]; by apply Hn.
Qed.

(** [congection_window_control] before the window looks at it. *)
Definition wider (m : msg) (s : sk) : sk :=
  area_put (WindowControlArea (get_window_sz m)
    (u64 (congection_win_sz (k_wc s) + u64 (add_arg * mtu (k_wc s)))) (mtu (k_wc s))) s.

Lemma cwc_on_ack_eq m s : cwc_on_ack m s = (Ret tt, wider m s).
Proof. done. Qed.

Lemma sending_wider base dn op m s :
  sending base dn op s -> 1 <= get_window_sz m ->
  congection_win_sz (k_wc s) + mtu (k_wc s) < modulus64 -> sending base dn op (wider m s).
Proof.
  intros [Hi Hcl Hlim Hm Hc Hr Hf He] Hw Hn. split; try done.
  - apply (sender_inv_other _ _ _ s); done.
  - cbn. unfold add_arg. rewrite Z.mul_1_l, (u64_small (mtu (k_wc s))) by lia.
    rewrite u64_small by lia. lia.
Qed.

Lemma advance_wider base dn op m s base' dn' op' s' now :
  advance base dn op (wider m s) base' dn' op' s' now -> advance base dn op s base' dn' op' s' now.
Proof. intros []. split; done. Qed.

(** The acknowledgement of outstanding messages. *)
Lemma new_ack_advance base dn now rest m s :
  sending base dn (now ++ rest) s -> now <> [] -> get_seq m + 1 = base + total (dn ++ now) ->
  exists s' base' dn', cw_on_ack (V:=Z) (E:=Z) m s = (Ret tt, s') /\
    sending base' dn' rest s' /\ advance base dn (now ++ rest) s base' dn' rest s' now.
Proof.
  intros Hs Hnow Hq. pose proof Hs as [Hi Hcl Hlim Hm Hc Hr Hf He].
  pose proof (total_nonneg (dn ++ now ++ rest)).
  destruct (cw_on_ack_run (V:=Z) (E:=Z) base dn now rest m s Hi Hnow ltac:(lia)) as
    (s'&Hrun&Hfr&Hi'&Hp&Ho&Hem&_); [unfold OUTPUT_WINDOW_SZ in *; lia|].
  destruct (frame_clocked _ _ Hfr Hcl) as [Hcl' _].
  pose proof Hfr as ([(Hkm&Hkr&Hkc) _]&_&_&_&_&_&Hks).
  assert (forall b d, sender_inv b d rest s' -> base <= b -> b + total (d ++ rest) <= lim ->
            sending b d rest s') as Hsend.
  { intros b d Hbd Hb1 Hb2. split; try done; try lia.
    - intros f. destruct (decide (f ∈ futures_of real_total dn now)) as [Hin|Hin].
      + change (0 <= posted f s'). rewrite (Hp f Hin). specialize (Hf f).
        change (0 <= posted f s) in Hf. lia.
      + change (0 <= posted f s'). rewrite (Ho f Hin). apply (Hf f).
    - change (0 <= empties s'). rewrite Hem. change (empties s) with (k_sems s SEND_BUF_EMPTY).
      destruct rest; lia. }
  assert (k_sems s' SEND_BUF_EMPTY + owes rest = k_sems s SEND_BUF_EMPTY + owes (now ++ rest)) as Hem'.
  { change (k_sems s' SEND_BUF_EMPTY) with (empties s'). rewrite Hem.
    change (empties s) with (k_sems s SEND_BUF_EMPTY).
    destruct now; [done|]. destruct rest; cbn [owes app]; lia. }
  destruct (Z.eqb_spec (total (dn ++ now)) OUTPUT_WINDOW_SZ) as [Hfull|Hopen].
  - destruct Hi' as [Hi' ->]. rewrite app_nil_r in *.
    exists s', (base + OUTPUT_WINDOW_SZ), []. split; [done|]. split.
    + apply Hsend; [done|unfold OUTPUT_WINDOW_SZ; lia|]. cbn [app total]. lia.
    + split; try done; [by rewrite app_nil_r|by right|by apply Hks|by apply Hks].
  - exists s', base, (dn ++ now). split; [done|]. split.
    + apply Hsend; [done|lia|]. rewrite <- app_assoc. done.
    + split; try done; [by left|by apply Hks|by apply Hks].
Qed.

(** Any other one. *)
Lemma old_ack_advance base dn op m s s' :
  sending base dn op s -> fourth_duplicate m s = false -> 0 <= get_seq m ->
  get_seq m + 1 <= base + total dn \/ get_seq m = modulus32 - 1 -> cw_on_ack (V:=Z) (E:=Z) m s = (Ret tt, s') ->
  sending base dn op s' /\ advance base dn op s base dn op s' [].
Proof.
  intros Hs Hfd Hq0 Hq Hrun. pose proof Hs as [Hi Hcl Hlim _ _ _ _ _].
  rewrite total_app in Hlim. pose proof (total_nonneg op) as Hop0. pose proof (total_nonneg dn) as Hdn0.
  pose proof (si_start _ _ _ _ Hi) as [Hb0 _]. unfold OUTPUT_WINDOW_SZ in *.
  assert (exists s1, cw_on_ack (V:=Z) (E:=Z) m s = (Ret tt, s1) /\ still s s1 /\
            sender_inv base dn op s1) as (s1&H1&Hst&Hi1).
  { destruct (decide (get_seq m + 1 = base + total dn)) as [Heq|Hne].
    - destruct op as [|[q d] op].
      + destruct (ack_after_everything_still base dn m s Hi Heq Hq0 Hfd) as (s1&?&?&?&_). by exists s1.
      + destruct (cw_on_ack_duplicate_still (V:=Z) (E:=Z) base dn q d op m s Hi Heq Hq0)
          as (s1&?&?&?&_). by exists s1.
    - destruct (cw_on_ack_ignored_still (V:=Z) (E:=Z) base dn op m s Hi) as (s1&?&?&?&_);
        [lia|unfold OUTPUT_WINDOW_SZ; lia|by exists s1]. }
  rewrite Hrun in H1. injection H1 as <-.
  destruct (frame_clocked _ _ (proj1 Hst) Hcl) as [Hcl' _].
  apply kept_advance; [done..|by apply still_kept].
Qed.

Lemma sending_set_sem base dn op n v s :
  sending base dn op s -> (n = SEND_BUF_EMPTY -> 0 <= v) -> sending base dn op (set_sem n v s).
Proof.
  intros [Hi Hcl Hlim Hm Hc Hr Hf He] Hv. split; try done.
  - apply (sender_inv_other _ _ _ s); done.
  - destruct (decide (n = SEND_BUF_EMPTY)) as [->|Hne]; [rewrite sems_same; auto|].
    rewrite sems_other by done. done.
Qed.

Lemma advance_lock base dn op s s1 base' dn' op' now :
  advance base dn op (set_sem SEND_WORKER_LOCK 0 s) base' dn' op' s1 now ->
  advance base dn op s base' dn' op' (set_sem SEND_WORKER_LOCK (k_sems s SEND_WORKER_LOCK) s1) now.
Proof. intros []. split; rewrite ?sems_same, ?sems_other in * by done; done. Qed.

Lemma served_advance base dn op s s' :
  sending base dn op s -> served s s' ->
  exists base' dn' op' now, sending base' dn' op' s' /\ advance base dn op s base' dn' op' s' now.
Proof.
  intros Hs Hsv. revert Hs.
  induction Hsv as [m s s' (Hfd&Hq0&Hq) Hw Hc Hrun|s s' Hends Hrun|s s' Hrun|s s' Ho
    |s s' Hi Hcl Hk|s s1 _ IH]; intros Hs.
  - pose proof (sending_wider _ _ _ m _ Hs Hw Hc) as Hs1.
    rewrite bind_unfold, cwc_on_ack_eq in Hrun. cbn beta iota in Hrun.
    assert (get_seq m + 1 <= base + total dn \/ get_seq m = modulus32 - 1 \/
      exists now rest, op = now ++ rest /\ now <> [] /\ get_seq m + 1 = base + total (dn ++ now))
      as [Hold|[Hold|(now&rest&->&Hnow&Hnew)]].
    { destruct Hq as [Hq|(b0&dn0&now&rest&Hi0&Hq)]; [tauto|].
      destruct (sender_unique _ _ _ _ _ _ _ Hi0 (sg_inv _ _ _ _ Hs)) as (->&->&<-).
      destruct Hq as [Hq|Hq]; [|lia]. destruct (decide (now = [])) as [->|]; [|by eauto 8].
      rewrite app_nil_r in Hq. lia. }
    + destruct (old_ack_advance base dn op m _ _ Hs1 Hfd Hq0 (or_introl Hold) Hrun) as [H1 H2].
      exists base, dn, op, []. split; [done|]. by apply (advance_wider _ _ _ m).
    + destruct (old_ack_advance base dn op m _ _ Hs1 Hfd Hq0 (or_intror Hold) Hrun) as [H1 H2].
      exists base, dn, op, []. split; [done|]. by apply (advance_wider _ _ _ m).
    + destruct (new_ack_advance base dn now rest m _ Hs1 Hnow Hnew) as (s2&b&d&H1&H2&H3).
      rewrite Hrun in H1. injection H1 as <-.
      exists b, d, rest, now. split; [done|]. by apply (advance_wider _ _ _ m).
  - exists base, dn, op, []. by apply transmit_advance.
  - exists base, dn, op, []. by apply timeout_advance.
  - exists base, dn, op, []. by apply other_advance.
  - exists base, dn, op, []. apply kept_advance; [done|apply Hi, Hs|apply Hcl, Hs|done].
  - destruct (IH (sending_set_sem _ _ _ _ 0 _ Hs ltac:(done))) as (b&d&o&now&Hs1&Ha).
    exists b, d, o, now. split; [by apply sending_set_sem|by apply advance_lock].
Qed.

Lemma services_advance base dn op s s' :
  sending base dn op s -> rtc served s s' ->
  exists base' dn' op' now, sending base' dn' op' s' /\ advance base dn op s base' dn' op' s' now.
Proof.
  intros Hs Hr. revert base dn op Hs. induction Hr as [s|s1 s2 s3 H12 _ IH]; intros base dn op Hs.
  - exists base, dn, op, []. split; [done|apply advance_refl].
  - destruct (served_advance _ _ _ _ _ Hs H12) as (b2&dn2&op2&now2&Hs2&Ha2).
    destruct (IH _ _ _ Hs2) as (b3&dn3&op3&now3&Hs3&Ha3).
    exists b3, dn3, op3, (now2 ++ now3). split; [done|].
    eapply advance_trans; [apply Hs|done..].
Qed.

(** ** Waits that can be answered *)

Definition answered (p : pause_point) (s : sk) : Prop :=
  match p with
  | AtSem n => 0 < k_sems s n
  | AtFuture f => 0 < futs s f
  | AtSleep => True
  end.

(** Where a thread in [send] waits. *)
Definition sender_waits (p : pause_point) : Prop :=
  match p with
  | AtSem n => n = SEND_LOCK \/ n = SEND_WORKER_LOCK \/ n = SEND_BUF_EMPTY
  | _ => True
  end.

(** Whenever such a wait can be answered by sections of other threads, it is,
    and the other threads do nothing else; no thread keeps the worker's lock. *)
Definition fair (others : pause_point -> M sk unit) : Prop :=
  forall p base dn op s,
    sender_waits p -> sending base dn op s -> k_sems s SEND_WORKER_LOCK = 1 ->
    (exists s', rtc served s s' /\ answered p s') ->
    exists s', others p s = (Ret tt, s') /\ rtc served s s' /\ answered p s'.

(** The receiver's acknowledgement of everything sent. *)
Definition full_ack (last : Z) : msg := set_window_sz 1 (set_seq last (set_ack (msg_alloc 0))).

(** When messages are outstanding, a timeout and such an acknowledgement signal
    the empty buffer and all their futures. *)
Lemma can_finish base dn op s :
  sending base dn op s -> op <> [] ->
  exists s1 s' base' dn',
    timeout_expires s = (Ret tt, s1) /\
    (cwc_on_ack (full_ack (base + total (dn ++ op) - 1));;
     cw_on_ack (V:=Z) (E:=Z) (full_ack (base + total (dn ++ op) - 1))) s1 = (Ret tt, s') /\
    rtc served s s' /\ sending base' dn' [] s' /\ advance base dn op s base' dn' [] s' op.
Proof.
  intros Hs Hop. pose proof Hs as [Hi Hcl Hlim Hm Hc Hr Hf He].
  destruct op as [|[q d] op0]; [done|]. set (op := (q, d) :: op0) in *.
  destruct (timeout_expires_run base dn q d op0 s Hi Hcl) as (s1&H1&_&_&_&_&_&Hhalf).
  specialize (Hhalf ltac:(lia)).
  destruct (timeout_advance base dn op s s1 Hs H1) as [Hs1 Ha1].
  pose proof (sg_mtu _ _ _ _ Hs1) as Hm1.
  set (m := full_ack (base + total (dn ++ op) - 1)).
  assert (1 <= base + total (dn ++ op)) as H1b.
  { pose proof (si_start _ _ _ _ Hi) as [? _]. pose proof (total_nonneg dn). rewrite total_app.
    pose proof (si_nonempty _ _ _ _ Hi) as Hne. apply Forall_app in Hne as [_ Hne].
    pose proof (total_pos op Hne Hop). lia. }
  assert (get_seq m + 1 = base + total (dn ++ op)) as Hq.
  { unfold m, full_ack. change (u32 (base + total (dn ++ op) - 1) + 1 = base + total (dn ++ op)).
    rewrite u32_small; unfold OUTPUT_WINDOW_SZ in *; lia. }
  assert (congection_win_sz (k_wc s1) + mtu (k_wc s1) < modulus64) as Hc1 by lia.
  pose proof (sending_wider _ _ _ m _ Hs1 ltac:(done) Hc1) as Hs2.
  rewrite <- (app_nil_r op) in Hs2.
  destruct (new_ack_advance base dn op [] m _ Hs2 Hop Hq) as (s'&b&d'&H2&Hs'&Ha').
  rewrite app_nil_r in Ha'. apply advance_wider in Ha'.
  exists s1, s', b, d'. split; [done|]. split; [|split; [|split; [done|]]].
  - rewrite bind_unfold, cwc_on_ack_eq. exact H2.
  - eapply rtc_l; [by apply served_timeout|]. apply rtc_once.
    apply (served_ack m); [|done|done|rewrite bind_unfold, cwc_on_ack_eq; exact H2].
    split; [|split; [lia|right]].
    + unfold fourth_duplicate. pose proof (si_area _ _ _ _ (sg_inv _ _ _ _ Hs1)) as Ha.
      unfold cwa in Ha. cbn in Ha. rewrite Ha, win_area, sender_empty; [done|].
      pose proof (si_nonempty _ _ _ _ Hi) as Hne. apply Forall_app in Hne as [_ ?]. done.
    + exists base, dn, op, []. rewrite app_nil_r. split; [apply Hs1|by left].
  - exact (advance_trans _ _ _ _ _ _ _ _ _ _ _ _ _ _ Hi Ha1 Ha').
Qed.

End serve.
