(* ===== verification/Stream.v ===== *)
(** * Stream: what a client's [send] promises

    [socket_full_impl::send] (newimpl.cpp 630-662) from the moment it takes
    [send_lock]: rounds of the splitter over what the window has room for, and
    the wait for the futures of the messages.  Under a fair scheduler
    ([Serve.fair]) it returns, and by then every byte has been handed over in
    order and acknowledged. *)
From stdpp Require Import relations.
From S2P Require Import Prelude Window Message Transfer ProtoMem Congestion FastRetransmit.
From S2P Require Import SendBuffer Inplace Slots SlotOps Cumulative CumulativeOps Nagles Input.
From S2P Require Import Socket SenderModel ReceiverModel Channel ChannelOps Serve.

Section stream.
Context (sendto : sockaddr_in -> bytes -> Z).
Hypothesis sendto_takes_all : forall a d, sendto a d = Z.of_nat (length d).
Context (lim mtu_ : Z).
Hypothesis lim_ok : lim + 3 * OUTPUT_WINDOW_SZ < modulus32.
Hypothesis mtu_ok : 1 <= mtu_ < modulus16.

#[local] Abbreviation served := (served sendto).
#[local] Abbreviation sending := (sending lim mtu_).

(** ** What happens to a socket during a [send]

    [handed ps s s']: from [s] to [s'] the packages [ps] have been given to the
    window, in this order, and nothing else has happened but sections of other
    threads and waits. *)
Inductive handed : list bytes -> sk -> sk -> Prop :=
| handed_refl s : handed [] s s
| handed_serve ps s1 s2 s3 : handed ps s1 s2 -> served s2 s3 -> handed ps s1 s3
| handed_sem ps s1 s2 n v : handed ps s1 s2 -> handed ps s1 (set_sem n v s2)
| handed_future ps s1 s2 f v :
    handed ps s1 s2 -> handed ps s1 (area_put (FuturesArea (<[f := v]> (futs s2))) s2)
| handed_send ps d s1 s2 r s3 :
    handed ps s1 s2 -> cw_send (E:=Z) (tmp_msg d) s2 = (Ret r, s3) -> handed (ps ++ [d]) s1 s3.

Lemma handed_services ps s1 s2 s3 : handed ps s1 s2 -> rtc served s2 s3 -> handed ps s1 s3.
Proof. intros H Hr. induction Hr; eauto using handed_serve. Qed.

(** ** What a [send] of [whole] keeps

    [K ps s]: whatever is to be known about a run in which the packages [ps]
    have been handed over and that has come to [s].  The thread's own doings
    keep it: waits, and packages that continue [whole]. *)
Record thread_keeps (whole : bytes) (K : list bytes -> sk -> Prop) : Prop := {
  tk_sem ps n v s :
    n = SEND_LOCK \/ n = SEND_WORKER_LOCK \/ n = SEND_BUF_EMPTY ->
    K ps s -> K ps (set_sem n v s);
  tk_future ps f v s : K ps s -> K ps (area_put (FuturesArea (<[f := v]> (futs s))) s);
  tk_package ps base dn op d r s s' :
    K ps s -> sending base dn op s -> base + total (dn ++ op) + Z.of_nat (length d) <= lim ->
    (0 < length d)%nat -> Forall is_byte d -> concat (ps ++ [d]) `prefix_of` whole ->
    cw_send (E:=Z) (tmp_msg d) s = (Ret r, s') -> K (ps ++ [d]) s';
}.

(** Whenever a wait can be answered by sections of other threads, it is, and
    the other threads do nothing else and keep [K]. *)
Definition fair_for (K : list bytes -> sk -> Prop) (others : pause_point -> M sk unit) : Prop :=
  forall p ps base dn op s,
    sender_waits p -> K ps s -> sending base dn op s -> k_sems s SEND_WORKER_LOCK = 1 ->
    (exists s', rtc served s s' /\ answered p s') ->
    exists s', others p s = (Ret tt, s') /\ rtc served s s' /\ answered p s' /\ K ps s'.

Lemma handed_keeps s0 whole : thread_keeps whole (fun ps s => handed ps s0 s).
Proof. split; eauto using handed_sem, handed_future, handed_send. Qed.

Lemma fair_handed s0 others :
  fair sendto lim mtu_ others -> fair_for (fun ps s => handed ps s0 s) others.
Proof.
  intros Hf p ps base dn op s Hp Hh Hs Hl Ha. destruct (Hf p base dn op s Hp Hs Hl Ha) as (s'&?&Hr&?).
  exists s'. eauto using handed_services.
Qed.

(** ** The invariant

    [ps]: handed over so far, since the stream was at [start]; [fs]: the
    futures still to be waited for; [r]: how much more will be handed over in
    this round; [credit]: how many signals of an empty buffer there can be. *)
Context (start : Z) (whole : bytes) (K : list bytes -> sk -> Prop).
Hypothesis keeps_K : thread_keeps whole K.

Record during (base : Z) (dn op : sent) (ps : list bytes) (fs : list Z) (r credit : Z)
    (s : sk) : Prop := {
  du_state : sending base dn op s;
  du_pos : base + total (dn ++ op) = start + Z.of_nat (length (concat ps));
  du_lim : start + Z.of_nat (length (concat ps)) + r <= lim;
  du_room : 0 <= r /\ r + total (dn ++ op) <= OUTPUT_WINDOW_SZ;
  du_fs : Forall (fun f => 0 < futs s f \/ f ∈ futures_of real_total dn op) fs;
  du_out f : f ∈ futures_of real_total dn op -> futs s f = 0 /\ f ∈ fs;
  du_nodup : NoDup fs;
  du_place : r = 0 \/ Forall (fun f => f ∈ futures_of real_total [] (dn ++ op)) fs;
  du_credit : k_sems s SEND_BUF_EMPTY + owes op + r <= credit;
  du_lock : k_sems s SEND_LOCK = 0;
  du_kept : K ps s;
}.

Lemma during_serve base dn op ps fs r credit s s' :
  during base dn op ps fs r credit s -> rtc served s s' -> K ps s' ->
  exists base' dn' op', during base' dn' op' ps fs r credit s' /\
    k_sems s' SEND_WORKER_LOCK = k_sems s SEND_WORKER_LOCK /\
    exists now, advance base dn op s base' dn' op' s' now.
Proof.
  intros [Hs Hpos Hlim Hroom Hfs Hout Hnd Hpl Hcr Hl _] Hr HK.
  destruct (services_advance sendto sendto_takes_all lim mtu_ lim_ok mtu_ok _ _ _ _ _ Hs Hr)
    as (base'&dn'&op'&now&Hs'&Ha).
  exists base', dn', op'. pose proof Ha as [Hop Hd Hp Ho He Hlk Hsl].
  split; [|split; [done|by exists now]].
  assert (total (dn ++ op) = total (dn ++ now) + total op') as Ht
    by (rewrite Hop, app_assoc, total_app; done).
  assert (forall f, f ∈ futures_of real_total dn' op' ->
            f ∈ futures_of real_total dn op /\ f ∉ futures_of real_total dn now) as Hsub.
  { destruct Hd as [[-> ->]|(->&->&->&_)]; [|intros f Hf; cbn in Hf; set_solver].
    intros f Hf. rewrite Hop, futures_app. split; [apply elem_of_app; by right|].
    pose proof (window_futures_nodup _ _ _ _ (sg_inv _ _ _ _ _ _ Hs)) as Hn.
    rewrite Hop, !futures_app, app_nil_l in Hn. apply NoDup_app in Hn as (_&_&Hn).
    apply NoDup_app in Hn as (_&Hn&_). intros Hf2. by apply (Hn f Hf2). }
  split; try done.
  - rewrite <- Hpos. destruct Hd as [[-> ->]|(->&->&->&Hfull)].
    + rewrite Hop, app_assoc. done.
    + cbn [app total] in *. lia.
  - split; [tauto|]. destruct Hd as [[-> ->]|(->&->&->&Hfull)].
    + rewrite <- app_assoc, <- Hop. tauto.
    + cbn [app total] in *. unfold OUTPUT_WINDOW_SZ in *. lia.
  - eapply Forall_impl; [exact Hfs|]. cbn. intros f Hf.
    pose proof (sg_futs _ _ _ _ _ _ Hs f) as H0.
    destruct (decide (f ∈ futures_of real_total dn now)) as [Hin|Hin];
      [left; rewrite (Hp f Hin); lia|]. rewrite (Ho f Hin).
    destruct Hf as [Hf|Hf]; [by left|]. right. rewrite Hop, futures_app in Hf.
    apply elem_of_app in Hf as [Hf|Hf]; [done|].
    destruct Hd as [[-> ->]|(->&->&->&_)]; [done|]. cbn in Hf. set_solver.
  - intros f Hf. destruct (Hsub f Hf) as [H1 H2]. rewrite (Ho f H2). by apply Hout.
  - destruct Hd as [[-> ->]|(->&->&->&Hfull)].
    + rewrite <- app_assoc, <- Hop. done.
    + left. cbn [total] in Ht. lia.
  - lia.
  - congruence.
Qed.

Lemma during_lock base dn op ps fs r credit v s :
  during base dn op ps fs r credit s ->
  during base dn op ps fs r credit (set_sem SEND_WORKER_LOCK v s).
Proof.
  intros [Hs Hpos Hlim Hroom Hfs Hout Hnd Hpl Hcr Hl Hh]. split; try done.
  - by apply sending_set_sem.
  - apply (tk_sem _ _ keeps_K); [tauto|done].
Qed.

Lemma during_empty base dn op ps fs r credit s :
  during base dn op ps fs r credit s -> 0 < k_sems s SEND_BUF_EMPTY ->
  during base dn op ps fs r (credit - 1) (set_sem SEND_BUF_EMPTY (k_sems s SEND_BUF_EMPTY - 1) s).
Proof.
  intros [Hs Hpos Hlim Hroom Hfs Hout Hnd Hpl Hcr Hl Hh] H0. split; try done.
  - apply sending_set_sem; [done|lia].
  - rewrite sems_same. lia.
  - apply (tk_sem _ _ keeps_K); [tauto|done].
Qed.

Lemma during_credit base dn op ps fs r credit credit' s :
  during base dn op ps fs r credit s -> credit <= credit' -> during base dn op ps fs r credit' s.
Proof. intros [] H. split; try done. lia. Qed.

(** ** Waiting *)

Context (others : pause_point -> M sk unit).
Hypothesis others_fair : fair_for K others.

(** Asleep, while the worker's lock is free. *)
Lemma pause_ok p base dn op ps fs r credit s :
  sender_waits p -> during base dn op ps fs r credit s -> k_sems s SEND_WORKER_LOCK = 1 ->
  (exists s', rtc served s s' /\ answered p s') ->
  exists base' dn' op' s', others p s = (Ret tt, s') /\ answered p s' /\
    during base' dn' op' ps fs r credit s' /\ k_sems s' SEND_WORKER_LOCK = 1 /\
    exists now, op = now ++ op'.
Proof.
  intros Hp Hd Hl Hans.
  destruct (others_fair p ps base dn op s Hp (du_kept _ _ _ _ _ _ _ _ Hd) (du_state _ _ _ _ _ _ _ _ Hd)
    Hl Hans) as (s'&Hrun&Hr&Ha&HK).
  destruct (during_serve _ _ _ _ _ _ _ _ _ Hd Hr HK) as (base'&dn'&op'&Hd'&Hl'&now&Hadv).
  exists base', dn', op', s'. split; [done|]. split; [done|]. split; [done|].
  split; [congruence|]. exists now. apply Hadv.
Qed.

Lemma sem_wait_ok n base dn op ps fs r credit s :
  sender_waits (AtSem n) -> during base dn op ps fs r credit s -> k_sems s SEND_WORKER_LOCK = 1 ->
  (exists s', rtc served s s' /\ 0 < k_sems s' n) ->
  exists base' dn' op' s', sem_wait others n s = (Ret tt, set_sem n (k_sems s' n - 1) s') /\
    0 < k_sems s' n /\ during base' dn' op' ps fs r credit s' /\
    k_sems s' SEND_WORKER_LOCK = 1 /\ exists now, op = now ++ op'.
Proof.
  intros Hn Hd Hl Hans. destruct (pause_ok (AtSem n) _ _ _ _ _ _ _ _ Hn Hd Hl Hans)
    as (base'&dn'&op'&s'&Hrun&Ha&Hd'&Hl'&Hop).
  exists base', dn', op', s'. split; [|done].
  unfold sem_wait. mstep Hrun. rewrite bind_unfold. cbn [gets].
  rewrite (proj2 (Z.ltb_lt _ _)) by exact Ha. done.
Qed.

(** The worker's lock is free and so it is got. *)
Lemma take_lock base dn op ps fs r credit s :
  during base dn op ps fs r credit s -> k_sems s SEND_WORKER_LOCK = 1 ->
  exists base' dn' op' s', sem_wait others SEND_WORKER_LOCK s = (Ret tt, s') /\
    during base' dn' op' ps fs r credit s' /\ k_sems s' SEND_WORKER_LOCK = 0 /\
    exists now, op = now ++ op'.
Proof.
  intros Hd Hl. destruct (sem_wait_ok SEND_WORKER_LOCK _ _ _ _ _ _ _ _ ltac:(cbn; tauto) Hd Hl)
    as (base'&dn'&op'&s'&Hrun&_&Hd'&Hl'&Hop); [exists s; split; [done|lia]|].
  exists base', dn', op'. eexists. split; [exact Hrun|]. split; [by apply during_lock|].
  split; [rewrite sems_same; lia|done].
Qed.

Lemma give_lock base dn op ps fs r credit s :
  during base dn op ps fs r credit s -> k_sems s SEND_WORKER_LOCK = 0 ->
  exists s', sem_post SEND_WORKER_LOCK s = (Ret tt, s') /\
    during base dn op ps fs r credit s' /\ k_sems s' SEND_WORKER_LOCK = 1.
Proof.
  intros Hd Hl. eexists. split; [reflexivity|]. split; [by apply during_lock|].
  rewrite sems_same. lia.
Qed.

Lemma is_sent_buf_empty_eq base dn op s :
  sender_inv base dn op s ->
  is_sent_buf_empty s = (Ret (match op with [] => true | _ => false end), s).
Proof.
  intros [Ha _ _ _ Hne _]. unfold is_sent_buf_empty. rewrite (run_ret _ _ _ _ _ (setup_eq s)).
  rewrite Ha, win_area, sender_empty; [done|]. apply Forall_app in Hne. apply Hne.
Qed.

(** The splitter's wait for an empty buffer: every signal it takes is one
    fewer to come. *)
Lemma wait_empty_ok fuel base dn op ps fs r credit s :
  during base dn op ps fs r credit s -> credit <= r + Z.of_nat fuel ->
  k_sems s SEND_WORKER_LOCK = 0 ->
  exists base' dn' s', sk_output_wait_on_send_buf_empty others fuel s = (Ret tt, s') /\
    during base' dn' [] ps fs r credit s' /\ k_sems s' SEND_WORKER_LOCK = 0.
Proof.
  revert credit base dn op s. induction fuel as [|fuel IH]; intros credit base dn op s Hd Hle Hl;
    cbn [sk_output_wait_on_send_buf_empty];
    pose proof (is_sent_buf_empty_eq _ _ _ _ (sg_inv _ _ _ _ _ _ (du_state _ _ _ _ _ _ _ _ Hd))) as He;
    mstep He; destruct op as [|m op]; [by exists base, dn, s| |by exists base, dn, s|].
  - pose proof (du_credit _ _ _ _ _ _ _ _ Hd) as Hc.
    pose proof (sg_empties _ _ _ _ _ _ (du_state _ _ _ _ _ _ _ _ Hd)). cbn [owes] in Hc. lia.
  - destruct (give_lock _ _ _ _ _ _ _ _ Hd Hl) as (s1&E1&Hd1&Hl1). mstep E1.
    destruct (can_finish sendto sendto_takes_all lim mtu_ lim_ok mtu_ok _ _ _ _
      (du_state _ _ _ _ _ _ _ _ Hd1) ltac:(done)) as (s8&s9&b9&d9&_&_&Hr9&Hs9&Ha9).
    destruct (sem_wait_ok SEND_BUF_EMPTY _ _ _ _ _ _ _ _ ltac:(cbn; tauto) Hd1 Hl1) as (b2&dn2&op2&s2&E2&H2&Hd2&Hl2&_).
    { exists s9. split; [done|]. pose proof (ad_empties _ _ _ _ _ _ _ _ _ Ha9) as H9. cbn [owes] in H9.
      pose proof (sg_empties _ _ _ _ _ _ (du_state _ _ _ _ _ _ _ _ Hd1)). lia. }
    mstep E2. apply during_empty in Hd2; [|done].
    set (s3 := set_sem SEND_BUF_EMPTY _ s2) in *.
    assert (k_sems s3 SEND_WORKER_LOCK = 1) as Hl3
      by (unfold s3; rewrite sems_other by done; done).
    destruct (take_lock _ _ _ _ _ _ _ _ Hd2 Hl3) as (b4&dn4&op4&s4&E4&Hd4&Hl4&_). mstep E4.
    destruct (IH _ _ _ _ _ Hd4 ltac:(lia) Hl4) as (b5&dn5&s5&E5&Hd5&Hl5).
    exists b5, dn5, s5. split; [done|]. split; [|done]. apply (during_credit _ _ _ _ _ _ _ _ _ Hd5). lia.
Qed.

(** ** The splitter

    [ps0]: handed over in earlier rounds. *)

(** The future of the next message is not one of those in the window. *)
Lemma next_future_new base dn op q d s :
  sender_inv base dn (op ++ [(q, d)]) s ->
  fut_at (dn ++ op) ∉ futures_of real_total [] (dn ++ op).
Proof.
  intros Hi. pose proof (window_futures_nodup _ _ _ _ Hi) as Hnw. rewrite app_assoc, futures_app in Hnw.
  apply NoDup_app in Hnw as (_&Hnw&_). intros Hin. apply (Hnw _ Hin). left.
Qed.

(** What sending one package does to the counters a run is measured by. *)
Lemma package_counts dn op q d (ps : list bytes) :
  futures_of real_total dn (op ++ [(q, d)]) = futures_of real_total dn op ++ [real_total (dn ++ op)] /\
  total (dn ++ op ++ [(q, d)]) = total (dn ++ op) + Z.of_nat (length d) /\
  Z.of_nat (length (concat (ps ++ [d]))) = Z.of_nat (length (concat ps)) + Z.of_nat (length d) /\
  owes (op ++ [(q, d)]) = 1.
Proof.
  split; [by rewrite futures_app|]. split; [|split].
  - rewrite app_assoc, (total_app (dn ++ op)). cbn [total]. lia.
  - rewrite concat_app, length_app. cbn [concat]. rewrite app_nil_r. lia.
  - by destruct op.
Qed.

Lemma during_package base dn op ps fs r credit d s :
  during base dn op ps fs r credit s -> Forall is_byte d -> (0 < length d)%nat ->
  Z.of_nat (length d) <= r -> concat (ps ++ [d]) `prefix_of` whole ->
  exists e s' op', sk_output_send_as_single_package d s = (Ret e, s') /\
    during base dn op' (ps ++ [d]) (fs ++ [e]) (r - Z.of_nat (length d)) credit s' /\
    k_sems s' SEND_WORKER_LOCK = k_sems s SEND_WORKER_LOCK.
Proof.
  intros [Hs Hpos Hlim Hroom Hfs Hout Hnd Hpl Hcr Hl Hh] Hb Hd Hle Hpre.
  destruct Hpl as [->|Hpl]; [lia|]. pose proof Hs as [Hi Hcl Hsl Hm Hc Hr Hf He].
  assert (total (dn ++ op) + Z.of_nat (length d) <= OUTPUT_WINDOW_SZ) as Hfit by lia.
  destruct (cw_send_run (V:=Z) (E:=Z) base dn op d s Hi Hd Hb Hfit)
    as (s'&Hrun&Hi'&Hfr&Hp&Ho&Hem&_).
  set (e := fut_at (dn ++ op)) in *. set (q := base + total (dn ++ op)) in *.
  destruct (frame_clocked _ _ Hfr Hcl) as [Hcl' _].
  pose proof Hfr as ([(Hkm&Hkr&Hkc) _]&_&_&_&_&_&Hks).
  pose proof (next_future_new _ _ _ _ _ _ Hi') as Hnew. fold e in Hnew.
  destruct (package_counts dn op q d ps) as (Efut&Ht&Hlen&Howes).
  change (real_total (dn ++ op)) with e in Efut.
  assert (e ∉ fs) as Hefs.
  { intros Hin. apply Hnew. rewrite Forall_forall in Hpl. by apply Hpl. }
  assert (forall f, f ∈ futures_of real_total dn op -> f <> e) as Hop.
  { intros f Hin ->. apply Hnew. rewrite futures_app. apply elem_of_app. by right. }
  exists e, s', (op ++ [(q, d)]). split; [|split].
  - unfold sk_output_send_as_single_package. mstep Hrun. done.
  - assert (forall f, f <> e -> futs s' f = futs s f) as Hsame by exact Ho.
    assert (futs s' e = 0) as Hnone by exact Hp.
    assert (k_sems s' SEND_BUF_EMPTY = k_sems s SEND_BUF_EMPTY) as Hem' by exact Hem.
    split; rewrite ?Hlen, ?Ht, ?Efut, ?Hem'.
    + split; try done; try lia. intros f. destruct (decide (f = e)) as [->|Hf2]; [lia|].
      rewrite Hsame by done. done.
    + lia.
    + lia.
    + lia.
    + apply Forall_app. split; [|constructor; [right; apply elem_of_app; right; left|constructor]].
      rewrite Forall_forall in Hfs |- *. intros f Hin.
      rewrite elem_of_app, Hsame by (intros ->; done).
      destruct (Hfs f Hin); tauto.
    + intros f. rewrite !elem_of_app. intros [Hin|Hin].
      * rewrite Hsame by auto. destruct (Hout f Hin). tauto.
      * apply list_elem_of_singleton in Hin as ->. split; [done|]. right. left.
    + apply NoDup_app. split; [done|]. split; [|apply NoDup_singleton].
      intros f Hin1 Hin. apply list_elem_of_singleton in Hin as ->. done.
    + right. rewrite app_assoc, futures_app. apply Forall_app. split.
      * eapply Forall_impl; [exact Hpl|]. cbn. intros f Hf2. apply elem_of_app. by left.
      * constructor; [|constructor]. apply elem_of_app. right. left.
    + rewrite Howes. destruct op; cbn [owes] in *; lia.
    + rewrite Hks by done. done.
    + eapply (tk_package _ _ keeps_K); [exact Hh|exact Hs|lia|done..|exact Hrun].
  - by apply Hks.
Qed.

Definition splitting (ps0 : list bytes) (credit : Z) (ps : list bytes) (es : list Z) (data : bytes)
    (s : sk) : Prop :=
  (exists base dn op, during base dn op (ps0 ++ ps) es (Z.of_nat (length data)) credit s) /\
  concat (ps0 ++ ps) ++ data `prefix_of` whole /\ k_sems s SEND_WORKER_LOCK = 0.

(** The socket keeps the promises the splitter relies on: [send] hands over no
    more than fits, and the window is not zero, so that no round is idle. *)
Lemma splitting_package (ps0 : list bytes) credit ps es d data s :
  splitting ps0 credit ps es (d ++ data) s -> Forall is_byte d -> (0 < length d)%nat ->
  exists e s', sk_output_send_as_single_package d s = (Ret e, s') /\
    splitting ps0 credit (ps ++ [d]) (es ++ [e]) data s'.
Proof.
  intros ((base&dn&op&Hd)&Hpre&Hl) Hb Hn. rewrite length_app in Hd.
  assert (concat ((ps0 ++ ps) ++ [d]) ++ data `prefix_of` whole) as Hpre2.
  { rewrite concat_app, <- app_assoc. cbn [concat]. by rewrite app_nil_r. }
  destruct (during_package _ _ _ _ _ _ _ d s Hd Hb Hn ltac:(lia)) as (e&s'&op'&Hrun&Hd'&Hl').
  { etransitivity; [|exact Hpre2]. apply prefix_app_r. done. }
  exists e, s'. split; [done|]. split; [|split; [by rewrite app_assoc|congruence]].
  exists base, dn, op'. rewrite app_assoc.
  replace (Z.of_nat (length data)) with (Z.of_nat (length d + length data) - Z.of_nat (length d)) by lia.
  done.
Qed.

Lemma splitting_wait (fuel : nat) (ps0 : list bytes) credit ps es data s :
  credit <= Z.of_nat fuel -> splitting ps0 credit ps es data s ->
  exists s', sk_output_wait_on_send_buf_empty others fuel s = (Ret tt, s') /\
    splitting ps0 credit ps es data s'.
Proof.
  intros Hc ((base&dn&op&Hd)&Hpre&Hl).
  destruct (wait_empty_ok fuel _ _ _ _ _ _ _ _ Hd ltac:(lia) Hl) as (b'&d'&s'&Hrun&Hd'&Hl').
  exists s'. split; [done|]. split; [|done]. by exists b', d', [].
Qed.

Lemma splitting_window (ps0 : list bytes) credit ps es data s :
  splitting ps0 credit ps es data s -> exists w, bounded_win_sz s = (Ret w, s) /\ 1 <= w.
Proof.
  intros ((base&dn&op&Hd)&_). pose proof (du_state _ _ _ _ _ _ _ _ Hd) as Hs.
  exists (Z.min (receiver_win_sz (k_wc s)) (congection_win_sz (k_wc s))). split; [done|].
  pose proof (sg_cong _ _ _ _ _ _ Hs). pose proof (sg_recv _ _ _ _ _ _ Hs). lia.
Qed.

Lemma socket_nagles_laws (fuel : nat) (ps0 : list bytes) (credit : Z) :
  credit <= Z.of_nat fuel -> @NaglesLaws sk Z (sk_nagles others fuel).
Proof.
  intros Hc. unshelve refine (@Build_NaglesLaws sk Z (sk_nagles others fuel)
    (fun b ps es data s => splitting ps0 credit ps es data s) mtu_ _ _ _ _ _ _).
  - lia.
  - intros b ps es data s ((base&dn&op&Hd)&_). cbn [output_get_mtu sk_nagles].
    unfold get_mtu. rewrite bind_unfold. cbn [mem_get gets mret M_ret].
    rewrite <- (sg_mtu _ _ _ _ _ _ (du_state _ _ _ _ _ _ _ _ Hd)). done.
  - intros b ps es data s Hs. destruct (splitting_window _ _ _ _ _ _ Hs) as (w&?&?).
    exists w. split; [done|lia].
  - intros b ps es d data s Hs Hb Hn. left. apply splitting_package; (done || lia).
  - intros b ps es d data s Hs Hb Hn. destruct (splitting_wait fuel _ _ _ _ _ _ Hc Hs) as (s1&Hw&Hs1).
    destruct (splitting_package _ _ _ _ _ _ _ Hs1 Hb ltac:(lia)) as (e&s2&?&?). by exists s1, e, s2.
  - intros b ps es data s Hs _ Hw0. destruct (splitting_window _ _ _ _ _ _ Hs) as (w&Hw&?).
    cbn [output_bounded_win_sz sk_nagles] in Hw0. rewrite Hw in Hw0. injection Hw0 as ->. lia.
Defined.

(** ** The futures *)

Lemma during_future base dn op ps f fs r credit s :
  during base dn op ps (f :: fs) r credit s -> 0 < futs s f ->
  during base dn op ps fs 0 credit (area_put (FuturesArea (<[f := futs s f - 1]> (futs s))) s).
Proof.
  intros [Hs Hpos Hlim Hroom Hfs Hout Hnd Hpl Hcr Hl Hh] Hf. set (s' := area_put _ s).
  apply Forall_cons in Hfs as [_ Hfs]. apply NoDup_cons in Hnd as [Hnf Hnd].
  assert (forall g, g <> f -> futs s' g = futs s g) as Hsame.
  { intros g Hg. unfold s'. rewrite futs_put. cbn [futures]. by apply fun_insert_ne. }
  assert (futs s' f = futs s f - 1) as Hnew by (unfold s'; rewrite futs_put; apply fun_insert_eq).
  split; try done; try lia.
  - destruct Hs as [Hi Hcl Hsl Hm Hc Hr Hfn He]. split; try done.
    + apply (sender_inv_other _ _ _ s); done.
    + intros g. destruct (decide (g = f)) as [->|Hg]; [lia|]. rewrite Hsame by done. done.
  - rewrite Forall_forall in Hfs |- *. intros g Hg.
    rewrite Hsame by (intros ->; done). by apply Hfs.
  - intros g Hg. destruct (Hout g Hg) as [H0 Hin]. assert (g <> f) as Hne by (intros ->; lia).
    rewrite Hsame by done. split; [done|]. by apply elem_of_cons in Hin as [->|Hin].
  - change (k_sems s' SEND_BUF_EMPTY) with (k_sems s SEND_BUF_EMPTY). lia.
  - by apply (tk_future _ _ keeps_K).
Qed.

(** Waiting for all the futures of a round, one after the other, ends when
    everything is acknowledged. *)
Lemma wait_futures_ok fs base dn op ps r credit s :
  during base dn op ps fs r credit s -> k_sems s SEND_WORKER_LOCK = 1 ->
  exists base' dn' s', wait_futures others fs s = (Ret tt, s') /\
    during base' dn' [] ps [] 0 credit s' /\ k_sems s' SEND_WORKER_LOCK = 1.
Proof.
  revert base dn op r s. induction fs as [|f fs IH]; intros base dn op r s Hd Hl; cbn [wait_futures].
  - exists base, dn, s. split; [done|]. split; [|done].
    assert (op = []) as ->.
    { destruct op as [|m op]; [done|].
      destruct (du_out _ _ _ _ _ _ _ _ Hd (real_total dn)) as [_ Hin]; [left|]. set_solver. }
    destruct Hd as [Hs Hpos Hlim Hroom Hfs Hout Hnd Hpl Hcr Hlk Hh]. split; try done; try lia.
  - destruct (pause_ok (AtFuture f) _ _ _ _ _ _ _ _ I Hd Hl) as (b'&d'&op'&s1&E1&Ha&Hd1&Hl1&_).
    { pose proof (du_fs _ _ _ _ _ _ _ _ Hd) as Hfs. apply Forall_cons in Hfs as [Hf _].
      destruct Hf as [Hf|Hf]; [by exists s|].
      destruct (can_finish sendto sendto_takes_all lim mtu_ lim_ok mtu_ok _ _ _ _
        (du_state _ _ _ _ _ _ _ _ Hd)) as (s8&s9&b9&d9&_&_&Hr9&Hs9&Ha9);
        [intros ->; cbn in Hf; set_solver|].
      exists s9. split; [done|]. cbn [answered]. rewrite (ad_posted _ _ _ _ _ _ _ _ _ Ha9 f Hf).
      pose proof (sg_futs _ _ _ _ _ _ (du_state _ _ _ _ _ _ _ _ Hd) f). lia. }
    cbn [answered] in Ha. mstep E1. rewrite bind_unfold. cbn [mem_get gets].
    change (futures (area_get s1) f) with (futs s1 f). rewrite (proj2 (Z.ltb_lt _ _)) by done.
    pose proof (during_future _ _ _ _ _ _ _ _ _ Hd1 Ha) as Hd2.
    set (s2 := area_put _ s1) in *.
    assert (k_sems s2 SEND_WORKER_LOCK = 1) as Hl2 by done.
    destruct (IH _ _ _ _ _ Hd2 Hl2) as (b3&d3&s3&E3&Hd3&Hl3).
    exists b3, d3, s3. split; [|done]. rewrite bind_unfold.
    change (mem_put (FuturesArea (<[f:=futs s1 f - 1]> (futures (area_get s1)))) s1)
      with (Ret tt : outcome unit, s2). exact E3.
Qed.

(** ** [send] *)

Lemma window_left base dn s :
  sender_inv base dn [] s ->
  cw_get_sz s = (Ret (OUTPUT_WINDOW_SZ - total dn), s) /\ 1 <= OUTPUT_WINDOW_SZ - total dn.
Proof.
  intros [Ha _ _ _ _ [Hr _]]. split; [|lia]. unfold cw_get_sz.
  rewrite (run_ret _ _ _ _ _ (setup_eq s)), Ha, win_area.
  unfold get_sz, sender_win. cbn [w_sz w_off sw_win]. pose proof (total_nonneg dn).
  rewrite u64_small by (unfold OUTPUT_WINDOW_SZ in *; lia). done.
Qed.

Lemma send_rounds_ok fuel buf base dn ps credit s :
  during base dn [] ps [] 0 credit s -> k_sems s SEND_WORKER_LOCK = 1 -> Forall is_byte buf ->
  concat ps ++ buf `prefix_of` whole ->
  start + Z.of_nat (length (concat ps)) + Z.of_nat (length buf) <= lim ->
  credit + 2 * Z.of_nat (length buf) <= Z.of_nat fuel ->
  exists ps' base' dn' s', send_rounds others fuel buf s = (Ret tt, s') /\ concat ps' = buf /\
    during base' dn' [] (ps ++ ps') [] 0 (credit + Z.of_nat (length buf)) s' /\
    k_sems s' SEND_WORKER_LOCK = 1.
Proof.
  revert buf base dn ps credit s. induction fuel as [|fuel IH];
    intros buf base dn ps credit s Hd Hl Hb Hpre Hlim Hfuel.
  { destruct buf; [|pose proof (du_credit _ _ _ _ _ _ _ _ Hd) as Hc;
      pose proof (sg_empties _ _ _ _ _ _ (du_state _ _ _ _ _ _ _ _ Hd)); cbn [owes length] in *; lia].
    exists [], base, dn, s. rewrite app_nil_r, Z.add_0_r. done. }
  destruct (decide (buf = [])) as [->|Hne].
  { exists [], base, dn, s. rewrite app_nil_r, Z.add_0_r. done. }
  assert (1 <= Z.of_nat (length buf)) as Hlen by (destruct buf; [done|cbn [length]; lia]).
  destruct (take_lock _ _ _ _ _ _ _ _ Hd Hl) as (b1&d1&op1&s1&E1&Hd1&Hl1&now&Hop).
  symmetry in Hop. apply app_eq_nil in Hop as [_ ->].
  destruct (window_left _ _ _ (sg_inv _ _ _ _ _ _ (du_state _ _ _ _ _ _ _ _ Hd1))) as [E2 Hw].
  set (bound := Z.min (OUTPUT_WINDOW_SZ - total d1) (Z.of_nat (length buf))).
  set (chunk := take (Z.to_nat bound) buf).
  assert (Z.of_nat (length chunk) = bound) as Hcl by (unfold chunk; rewrite length_take; lia).
  assert (concat ps ++ chunk `prefix_of` whole) as Hpre1.
  { etransitivity; [|exact Hpre]. apply prefix_app. unfold chunk. apply prefix_take. }
  assert (splitting ps (credit + bound) [] [] chunk s1) as Hsp.
  { unfold splitting. rewrite Hcl, app_nil_r. split; [|done]. exists b1, d1, [].
    destruct Hd1 as [H1 H2 H3 [H4 H5] H6 H7 H8 H9 H10 H11 H12]. rewrite app_nil_r in H5.
    split; try done; rewrite ?app_nil_r; try lia. by right. }
  destruct (@nagles_send_ok sk Z (sk_nagles others (S fuel))
    (socket_nagles_laws (S fuel) ps (credit + bound) ltac:(lia)) (length chunk) 0%nat chunk [] [] s1)
    as (es&s2&ps1&b0&E3&((b2&d2&op2&Hd2)&_&Hl2)&_&Hc1&_&_); [lia|done|by apply Forall_take|].
  cbn [app length] in Hd2. destruct (give_lock _ _ _ _ _ _ _ _ Hd2 Hl2) as (s3&E4&Hd3&Hl3).
  destruct (wait_futures_ok _ _ _ _ _ _ _ _ Hd3 Hl3) as (b4&d4&s4&E5&Hd4&Hl4).
  assert (Z.of_nat (length (drop (Z.to_nat bound) buf)) = Z.of_nat (length buf) - bound) as Hdl
    by (rewrite length_drop; lia).
  destruct (IH (drop (Z.to_nat bound) buf) b4 d4 (ps ++ ps1) (credit + bound) s4)
    as (ps2&b5&d5&s5&E6&Hc2&Hd5&Hl5); [done|done|by apply Forall_drop| | |lia|].
  { rewrite concat_app, Hc1, <- app_assoc. unfold chunk. by rewrite take_drop. }
  { rewrite concat_app, length_app, Hc1. lia. }
  exists (ps1 ++ ps2), b5, d5, s5. split; [|split; [|split; [|done]]].
  - destruct buf as [|x buf]; [done|]. cbn [send_rounds].
    mstep E1. mstep E2. fold bound. fold chunk. mstep E3. mstep E4. mstep E5. exact E6.
  - rewrite concat_app, Hc1, Hc2. apply take_drop.
  - rewrite app_assoc. apply (during_credit _ _ _ _ _ _ _ _ _ Hd5). lia.
Qed.

(** The whole call. *)
Lemma send_ok fuel base dn s :
  K [] s -> sending base dn [] s -> base + total dn = start ->
  k_sems s SEND_LOCK = 1 -> k_sems s SEND_WORKER_LOCK = 1 ->
  Forall is_byte whole -> start + Z.of_nat (length whole) <= lim ->
  k_sems s SEND_BUF_EMPTY + 2 * Z.of_nat (length whole) <= Z.of_nat fuel ->
  exists ps base' dn' s',
    sk_send others fuel whole s = (Ret tt, s') /\ concat ps = whole /\ K ps s' /\
    sending base' dn' [] s' /\ base' + total dn' = start + Z.of_nat (length whole) /\
    k_sems s' SEND_LOCK = 1 /\ k_sems s' SEND_WORKER_LOCK = 1.
Proof.
  intros HK Hs Hstart Hsl Hwl Hb Hfit Hfuel.
  destruct (others_fair (AtSem SEND_LOCK) [] _ _ _ _ ltac:(cbn; tauto) HK Hs Hwl)
    as (s1&E1&Hr1&_&HK1); [exists s; split; [done|cbn [answered]; lia]|].
  destruct (services_advance sendto sendto_takes_all lim mtu_ lim_ok mtu_ok _ _ _ _ _ Hs Hr1)
    as (b1&d1&op1&now&Hs1&[Hop Hd _ _ He Hlk Hslk]).
  symmetry in Hop. apply app_eq_nil in Hop as [-> ->]. rewrite app_nil_r in Hd. cbn [owes] in He.
  assert (b1 + total d1 = start) as Hpos
    by (destruct Hd as [[-> ->]|(->&->&_&Ht)]; cbn [total] in *; lia).
  set (s2 := set_sem SEND_LOCK (k_sems s1 SEND_LOCK - 1) s1).
  assert (sem_wait others SEND_LOCK s = (Ret tt, s2)) as E2.
  { unfold sem_wait. mstep E1. rewrite bind_unfold. cbn [gets].
    rewrite (proj2 (Z.ltb_lt _ _)) by lia. done. }
  pose proof (sg_inv _ _ _ _ _ _ Hs1) as Hi1. pose proof (si_room _ _ _ _ Hi1) as Hroom.
  assert (during b1 d1 [] [] [] 0 (k_sems s SEND_BUF_EMPTY) s2) as Hd2.
  { rewrite app_nil_r in Hroom. split; rewrite ?app_nil_r; cbn [concat length]; try done; try lia.
    - by apply sending_set_sem.
    - intros f. cbn [futures_of]. set_solver.
    - apply NoDup_nil_2.
    - unfold s2. rewrite sems_other by done. cbn [owes]. lia.
    - unfold s2. rewrite sems_same. lia.
    - apply (tk_sem _ _ keeps_K); [tauto|done]. }
  assert (k_sems s2 SEND_WORKER_LOCK = 1) as Hl2 by (unfold s2; rewrite sems_other by done; lia).
  destruct (send_rounds_ok fuel whole _ _ _ _ _ Hd2 Hl2 Hb) as (ps&b3&d3&s3&E3&Hc&Hd3&Hl3);
    [done|cbn [concat length]; lia|lia|].
  cbn [app] in Hd3. exists ps, b3, d3, (set_sem SEND_LOCK (k_sems s3 SEND_LOCK + 1) s3).
  pose proof (du_lock _ _ _ _ _ _ _ _ Hd3) as Hlock3.
  pose proof (du_pos _ _ _ _ _ _ _ _ Hd3) as Hpos3. rewrite app_nil_r, Hc in Hpos3.
  split; [|split; [done|split; [|split; [|split; [lia|]]]]].
  - unfold sk_send. mstep E2. mstep E3. done.
  - apply (tk_sem _ _ keeps_K); [tauto|]. apply (du_kept _ _ _ _ _ _ _ _ Hd3).
  - apply sending_set_sem; [|done]. apply (du_state _ _ _ _ _ _ _ _ Hd3).
  - rewrite sems_same, sems_other by done. lia.
Qed.

End stream.

(** ** Properties *)

Section send.
Context (sendto : sockaddr_in -> bytes -> Z).
Hypothesis sendto_takes_all : forall a d, sendto a d = Z.of_nat (length d).
Context (lim mtu_ : Z).

(** C5: [send] keeps its promise under every fair scheduler.  It is called when
    nothing is outstanding and the locks are free, with numbers that stay below
    [lim], three windows below 2^32; the stream may be numbered from zero.
    Then it returns; between call and return the window has been given packages
    that together are the caller's bytes, in order, and nothing but waits and
    sections of other threads has happened besides; and by the time it returns
    nothing is outstanding any more: the stream has advanced by the length of
    the data and all of it has been acknowledged.  The fuel bounds the rounds
    and the wake-ups.

    A scheduler is [fair] if it answers a wait that [served] sections can
    answer, and with such sections only: acknowledgements as this
    implementation's receiver makes them (the last byte of a whole message, a
    window of at least one byte; at zero the splitter would spin,
    [Nagles.nagles_spins_on_zero_window]) but for the fourth in a row of
    everything sent; transmissions whose scan ends at the first outstanding
    message; timeouts; and whatever leaves the sender alone. *)
Theorem send_returns_acknowledged others base dn buf fuel s :
  lim + 3 * OUTPUT_WINDOW_SZ < modulus32 -> 1 <= mtu_ < modulus16 ->
  fair sendto lim mtu_ others ->
  sending lim mtu_ base dn [] s ->
  k_sems s SEND_LOCK = 1 -> k_sems s SEND_WORKER_LOCK = 1 ->
  Forall is_byte buf -> base + total dn + Z.of_nat (length buf) <= lim ->
  k_sems s SEND_BUF_EMPTY + 2 * Z.of_nat (length buf) <= Z.of_nat fuel ->
  exists ps base' dn' s',
    sk_send others fuel buf s = (Ret tt, s') /\
    concat ps = buf /\ handed sendto ps s s' /\
    sending lim mtu_ base' dn' [] s' /\
    base' + total dn' = base + total dn + Z.of_nat (length buf) /\
    k_sems s' SEND_LOCK = 1 /\ k_sems s' SEND_WORKER_LOCK = 1.
Proof.
  intros Hlim Hmtu Hfair Hs Hsl Hwl Hb Hfit Hfuel.
  destruct (send_ok sendto sendto_takes_all lim mtu_ Hlim Hmtu (base + total dn) buf
    (fun ps s' => handed sendto ps s s') (handed_keeps sendto lim mtu_ s buf) others
    (fair_handed sendto lim mtu_ s others Hfair) fuel base dn s)
    as (ps&b&d&s'&?&?&?&?&?&?); [constructor|done|done|done|done|done|done|done|].
  exists ps, b, d, s'. done.
Qed.

End send.

(** ** A fair scheduler

    It lets the timeout pass and the receiver acknowledge everything whenever
    a thread waits for that. *)

Definition answered_dec (p : pause_point) (s : sk) : bool :=
  match p with
  | AtSem n => 0 <? k_sems s n
  | AtFuture f => 0 <? futs s f
  | AtSleep => true
  end.

Definition prompt (p : pause_point) : M sk unit :=
  fun s =>
    if answered_dec p s then (Ret tt, s)
    else (timeout_expires;;
          win ← setup;
          let m := full_ack (w_start (sw_win win) + w_sent_off win - 1) in
          cwc_on_ack m;; cw_on_ack (V:=Z) (E:=Z) m) s.

Lemma answered_dec_spec p s : answered_dec p s = true <-> answered p s.
Proof. destruct p; cbn; rewrite ?Z.ltb_lt; done. Qed.

Section prompt.
Context (sendto : sockaddr_in -> bytes -> Z).
Hypothesis sendto_takes_all : forall a d, sendto a d = Z.of_nat (length d).
Context (lim mtu_ : Z).
Hypothesis lim_ok : lim + 3 * OUTPUT_WINDOW_SZ < modulus32.
Hypothesis mtu_ok : 1 <= mtu_ < modulus16.

(** A wait that other threads can answer is for an outstanding message. *)
Lemma waits_for_message p base dn op s s' :
  sender_waits p -> sending lim mtu_ base dn op s -> rtc (served sendto) s s' ->
  ~ answered p s -> answered p s' ->
  op <> [] /\ (p = AtSem SEND_BUF_EMPTY \/
    exists f, p = AtFuture f /\ f ∈ futures_of real_total dn op).
Proof.
  intros Hp Hs Hr Hno Hyes.
  destruct (services_advance sendto sendto_takes_all lim mtu_ lim_ok mtu_ok _ _ _ _ _ Hs Hr)
    as (b&d&op'&now&_&[Hop _ _ Ho He Hl Hsl]).
  destruct p as [n|f|]; cbn in *; [|clear Hp|done].
  - destruct Hp as [->|[->| ->]]; [lia|lia|]. split; [|by left].
    intros ->. symmetry in Hop. apply app_eq_nil in Hop as [_ ->]. cbn in He. lia.
  - destruct (decide (f ∈ futures_of real_total dn now)) as [Hin|Hin];
      [|rewrite (Ho f Hin) in Hyes; lia].
    assert (f ∈ futures_of real_total dn op) as Hf
      by (rewrite Hop, futures_app; apply elem_of_app; by left).
    split; [intros ->; cbn in Hf; set_solver|]. right. by exists f.
Qed.

Lemma prompt_fair : fair sendto lim mtu_ prompt.
Proof.
  intros p base dn op s Hp Hs Hl (s'&Hr&Ha). unfold prompt.
  destruct (answered_dec p s) eqn:E; [apply answered_dec_spec in E; by exists s|].
  assert (~ answered p s) as Hno by (rewrite <- answered_dec_spec, E; done).
  destruct (waits_for_message p base dn op s s' Hp Hs Hr Hno Ha) as [Hop Hw].
  destruct (can_finish sendto sendto_takes_all lim mtu_ lim_ok mtu_ok base dn op s Hs Hop)
    as (s1&s2&b&d&H1&H2&Hr2&_&Hadv).
  destruct (timeout_advance sendto sendto_takes_all lim mtu_ lim_ok mtu_ok base dn op s s1 Hs H1) as [Hs1 _].
  exists s2. split; [|split; [done|]].
  - mstep H1. rewrite (run_ret _ _ _ _ _ (setup_eq s1)).
    rewrite (si_area _ _ _ _ (sg_inv _ _ _ _ _ _ Hs1)), win_area.
    cbn [sw_win w_start w_sent_off sender_win]. exact H2.
  - destruct Hw as [->|(f&->&Hf)]; cbn [answered].
    + pose proof (ad_empties _ _ _ _ _ _ _ _ _ Hadv) as He.
      pose proof (sg_empties _ _ _ _ _ _ Hs). destruct op; [done|]. cbn [owes] in He. lia.
    + rewrite (ad_posted _ _ _ _ _ _ _ _ _ Hadv f Hf). pose proof (sg_futs _ _ _ _ _ _ Hs f). lia.
Qed.

End prompt.

(** A freshly established socket sends seven bytes. *)
Lemma sk_established_sending : sending 6000000 1444 5000000 [] [] (sk_established 5000000).
Proof.
  split; [apply (sk_established_inv 5000000 start_ok)|vm_compute; intuition discriminate|..];
    try (intros f; change (0 <= 0); lia); vm_compute; intuition discriminate.
Qed.

Lemma send_returns_acknowledged_witness :
  exists ps base dn s', sk_send prompt 14 [1; 2; 3; 4; 5; 6; 7] (sk_established 5000000) = (Ret tt, s') /\
    concat ps = [1; 2; 3; 4; 5; 6; 7] /\
    sending 6000000 1444 base dn [] s' /\ base + total dn = 5000007.
Proof.
  destruct (send_returns_acknowledged kernel_takes_all (fun _ _ => eq_refl) 6000000 1444 prompt
    5000000 [] [1; 2; 3; 4; 5; 6; 7] 14 (sk_established 5000000))
    as (ps&base&dn&s'&H1&H2&_&H3&H4&_).
  - unfold OUTPUT_WINDOW_SZ. lia.
  - lia.
  - apply (prompt_fair kernel_takes_all (fun _ _ => eq_refl)); unfold OUTPUT_WINDOW_SZ; lia.
  - apply sk_established_sending.
  - done.
  - done.
  - repeat constructor; unfold is_byte; lia.
  - cbn. lia.
  - vm_compute. discriminate.
  - exists ps, base, dn, s'. exact (conj H1 (conj H2 (conj H3 H4))).
Defined.
