(* ===== verification/SendNet.v ===== *)
(** * SendNet: [send] over the network

    [Stream] follows a [send] while other threads' sections acknowledge its
    messages; [Net] moves both sides and the network.  Here the sections are the
    network's: what the client's side does in a run of [Net] is [Serve.served],
    a [send] is a sequence of steps of its own and of the network's, and when
    it returns the other side holds every byte. *)
From stdpp Require Import relations gmap.
From S2P Require Import Prelude Window Message Transfer ProtoMem Congestion Timeout FastRetransmit.
From S2P Require Import SendBuffer Inplace Slots SlotOps Cumulative CumulativeOps Input InputOps.
From S2P Require Import Socket SenderModel ReceiverModel Frames Handshake Channel Places ChannelOps.
From S2P Require Import WorkerOps Net NetOps Serve Stream.

(** ** The worker's sections keep the signals *)

#[export] Instance kept_preorder : PreOrder kept.
Proof.
  split; [|exact kept_trans]. intros s. apply kept_same; [|done..]. by apply window_kept_wc.
Qed.

#[export] Instance kept_frame : SenderFrame kept.
Proof.
  assert (forall s s' : sk, k_wc s' = k_wc s -> k_fut s' = k_fut s -> k_sems s' = k_sems s -> kept s s')
    as H by (intros s s' Hw ??; apply kept_same; [by apply window_kept_wc|done..]).
  split; [apply _|by intros a s; apply H|by intros a s; apply H| |].
  - intros s. apply kept_same; [apply retry_window_kept|done..].
  - intros sendto m s. unfold base_send. destruct (socket_send _ _ _ _); by apply H.
Qed.

Lemma kept_worker_poll p : preserves kept (worker_poll p).
Proof. unfold worker_poll. keeps; [apply keeps_msg_at|apply keeps_check]. Qed.

Lemma kept_worker_finish p : preserves kept (worker_finish p).
Proof. unfold worker_finish. keeps; [apply keeps_msg_at|apply keeps_check|apply keeps_on_retry]. Qed.

Lemma kept_net_wait : preserves kept (@output_sent_buf_wait_not_empty sk net_wait).
Proof.
  cbn [output_sent_buf_wait_not_empty net_wait sk_send_wait sk_output_sent_buf_wait_not_empty].
  unfold is_sent_buf_empty, setup, mem_get. keeps.
Qed.

(** ** The receiving side keeps the sender's *)

Lemma preserves_weaken {St A} (R R' : St -> St -> Prop) (m : M St A) :
  (forall s s', R s s' -> R' s s') -> preserves R m -> preserves R' m.
Proof. intros H Hm s. apply H, Hm. Qed.

#[export] Instance same_sender_preorder : PreOrder Serve.same_sender.
Proof.
  split; [by intros s; split|]. intros s1 s2 s3 [? ? ? ? H1 ?] [? ? ? ? H2 ?].
  split; try congruence; [|by auto]. intros n ?????. rewrite H2 by done. by apply H1.
Qed.

Lemma sender_kept_serve s s' : sender_kept s s' -> Serve.same_sender s s'.
Proof.
  intros [? ? ? _ _ ? Hs (_&Hi&Hc) _]. split; try done; [|unfold clocked; by rewrite Hi, Hc].
  intros n ?????. apply Hs. by destruct n.
Qed.

Section from_the_network.
Context (sendto : sockaddr_in -> bytes -> Z) (rand32 : M sk Z) {client : Client}.
Hypothesis sendto_takes_all : forall a d, sendto a d = Z.of_nat (length d).

#[local] Instance sn_lock : InputLock sk := chan_lock sendto.
#[local] Instance sn_input : InputController sk := chan_input sendto.
#[local] Instance sn_laws : ReceiverLaws sk := chan_laws sendto sendto_takes_all.

Abbreviation net_step := (net_step sendto rand32).
Abbreviation net_inv := (net_inv sendto sendto_takes_all).
Abbreviation flow := (flow sendto sendto_takes_all).
Abbreviation served := (served sendto).

Lemma serve_sem_wait n p :
  n = RECV_WORKER_LOCK \/ n = RECV_LOCK -> p = reader sendto ->
  preserves Serve.same_sender (sem_wait p n).
Proof.
  intros Hn ->. unfold sem_wait. keeps.
  - apply (preserves_weaken _ _ _ sender_kept_serve), keeps_reader.
  - apply preserves_modify. intros s. split; try done. intros m ?????. apply sems_other. intros ->. destruct Hn; congruence.
Qed.

Lemma serve_sem_post n :
  n = RECV_WORKER_LOCK \/ n = RECV_LOCK -> preserves Serve.same_sender (sem_post n).
Proof.
  intros Hn s. split; try done. intros m ?????. apply sems_other. intros ->. destruct Hn; congruence.
Qed.

Lemma serve_regular m :
  preserves Serve.same_sender (input_on_regular_msg sendto (reader sendto) m).
Proof.
  unfold input_on_regular_msg, get_state, mem_get, with_ctl. cbn [ctl_lock ctl_unlock sk_input_lock].
  keeps; try (apply serve_sem_post; tauto); try (apply serve_sem_wait; tauto).
  apply (preserves_weaken _ _ _ sender_kept_serve), keeps_on_msg, keeps_reader.
Qed.

(** A section of a worker, with and without the lock. *)
Lemma kept_locked {A} (m : M sk A) s r s1 :
  k_sems s SEND_WORKER_LOCK = 1 -> preserves kept m -> m (taken s) = (r, s1) -> kept s (released s1).
Proof.
  intros Hl Hm Hr. destruct (preserves_run _ _ _ _ _ Hm Hr) as [Hw Hf Hs]. split; [exact Hw|exact Hf|].
  intros n Hn. unfold released. destruct (decide (n = SEND_WORKER_LOCK)) as [->|Hne].
  - rewrite sems_same, Hs by done. unfold taken. rewrite sems_same. lia.
  - rewrite sems_other, Hs by done. unfold taken. by rewrite sems_other.
Qed.

Lemma flow_section_served start old dn op got rest x x' y :
  flow start old dn op got rest x y -> flow start old dn op got rest x' y ->
  kept (p_sk x) (p_sk x') -> served (p_sk x) (p_sk x').
Proof.
  intros [_ Hs] [_ Hs'] Hk. apply served_section; [|intros _; apply Hs'|exact Hk].
  intros b d o Hi. destruct (sender_unique _ _ _ _ _ _ _ Hi (sn_inv _ _ _ _ _ _ Hs)) as (->&->&->).
  apply Hs'.
Qed.

(** What the client's side does by itself, short of sending. *)
Lemma acts_served sa sb c x :
  net_inv sa sb c -> acts sendto (n_a c) x -> p_sent x = p_sent (n_a c) ->
  served (p_sk (n_a c)) (p_sk x).
Proof.
  intros [(old&dn&op&got&rest&Hf) _ Hrd _] Ha. pose proof (rd_send_worker _ Hrd) as Hl.
  remember (n_a c) as a eqn:Ea.
  destruct Ha as (a0&Ha&Hord).
  destruct Ha as [x d r s' Hb Hrun|x w p s' Hw Hrun|x w p s' Hw Hrun|x w p s' Hw Hrun
    |x w p s' Hw Hrun|x t Ht|x f He|x n d s' Hn Hrun]; cbn [p_sent p_sk orderly] in *; intros Hsent.
  - exfalso. apply (f_equal length) in Hsent. rewrite length_app in Hsent. simpl in Hsent. lia.
  - destruct (flow_take _ _ _ _ _ _ _ _ _ _ _ _ _ Hf Hrd Hord Hw Hrun) as [Hf' _].
    apply (flow_section_served _ _ _ _ _ _ _ _ _ Hf Hf'). cbn [p_sk].
    destruct (locked_ret _ _ _ _ Hl Hrun) as (s1&Hr&->). exact (kept_locked _ _ _ _ Hl (keeps_next_msg _ kept_net_wait) Hr).
  - destruct (flow_transmit _ _ _ _ _ _ _ _ _ _ _ _ _ Hf Hw Hrun) as [Hf' _].
    apply (flow_section_served _ _ _ _ _ _ _ _ _ Hf Hf'). cbn [p_sk].
    exact (preserves_run _ _ _ _ _ (keeps_base_send_inplace _ _) Hrun).
  - destruct (flow_poll _ _ _ _ _ _ _ _ _ _ _ _ _ _ Hf Hrd Hw Hrun) as [Hf' _].
    apply (flow_section_served _ _ _ _ _ _ _ _ _ Hf Hf'). cbn [p_sk].
    destruct (locked_ret _ _ _ _ Hl Hrun) as (s1&Hr&->). exact (kept_locked _ _ _ _ Hl (kept_worker_poll _) Hr).
  - destruct (flow_finish _ _ _ _ _ _ _ _ _ _ _ _ _ Hf Hrd Hw Hrun) as [Hf' _].
    apply (flow_section_served _ _ _ _ _ _ _ _ _ Hf Hf'). cbn [p_sk].
    destruct (locked_ret _ _ _ _ Hl Hrun) as (s1&Hr&->). exact (kept_locked _ _ _ _ Hl (kept_worker_finish _) Hr).
  - destruct (flow_clock _ _ _ _ _ _ _ _ _ _ _ Hf Ht) as [Hf' _].
    apply (flow_section_served _ _ _ _ _ _ _ _ _ Hf Hf'). cbn [p_sk].
    apply kept_same; [by apply window_kept_wc|done..].
  - apply served_other. split; try done. intros m Hm1 _ _ _ Hm2. by apply He.
  - apply served_other, sender_kept_serve. exact (preserves_run _ _ _ _ _ (keeps_recv_pass _ n) Hrun).
Qed.

(** ** The windows the other side advertises *)

Definition advertises (y : peer) : Prop :=
  forall m, m ∈ k_out (p_sk y) -> is_usual m = false -> 1 <= get_window_sz m.

Definition same_out (s s' : sk) : Prop := k_out s' = k_out s.

#[local] Instance same_out_preorder : PreOrder same_out.
Proof. split; [done|]. intros s1 s2 s3 H1 H2. exact (eq_trans H2 H1). Qed.

Hint Resolve preserves_modify : frames.

Lemma quiet_client_flush p n :
  preserves same_out (p (AtSem RECV_WORKER_BUF_NOT_EMPTY)) -> preserves same_out (p (AtSem RECV_LOCK)) ->
  preserves same_out (@client_flush_request sk _ (sk_input_lock p) (sk_input sendto p) n).
Proof.
  intros H1 H2. unfold client_flush_request, iw_flush, wrote_win_sz, get_flushed_off, set_flushed_off, iw_setup, ctl_call.
  cbn [input_buf_flush input_win_wait_not_empty input_win_signal_completely_flushed sk_input
       ctl_lock ctl_unlock sk_input_lock].
  unfold sk_input_buf_flush, ib_flush, mem_get, mem_put, sem_wait, sem_post. keeps; by intros s.
Qed.

Lemma quiet_recv_pass n : preserves same_out (recv_pass sendto n).
Proof.
  unfold recv_pass, with_ctl. cbn [ctl_lock ctl_unlock net_lock sk_input_lock].
  unfold sem_wait, sem_post. keeps; [apply preserves_ret, _|by intros s|by apply quiet_client_flush; apply preserves_ret, _|by intros s].
Qed.

Lemma acts_advertises start old dn op got rest x x' y :
  flow start old dn op got rest x y -> ready (p_sk x) -> acts sendto x x' ->
  advertises x -> advertises x'.
Proof.
  intros Hf Hrd Ha Hx m Hm Hu. apply Hx; [|done].
  destruct (acts_flow _ _ _ _ _ _ _ _ _ _ _ Hf Hrd Ha) as (?&?&?&?&_&[[Hr _]|(n&d&_&Hrun)]).
  - exact (sr_acks _ _ Hr m Hm Hu).
  - pose proof (preserves_run _ _ _ _ _ (quiet_recv_pass n) Hrun) as Ho. by rewrite <- Ho.
Qed.

(** ** What arrives *)

(** Data: the sender's half is left alone, and an acknowledgement goes out. *)
Lemma hears_data sa sb c m0 m s' :
  net_inv sa sb c -> net_below sa sb c -> m0 ∈ k_out (p_sk (n_b c)) -> arrives m0 m ->
  is_usual m0 = true ->
  recv_worker_dispatch sendto rand32 (reader sendto) 0 m (p_sk (n_a c)) = (Ret tt, s') ->
  Serve.same_sender (p_sk (n_a c)) s' /\
  exists ack, k_out s' = k_out (p_sk (n_a c)) ++ [ack] /\ 1 <= get_window_sz ack.
Proof.
  intros [_ (old&dn&op&got&rest&Hf) Hrd _] [_ Hb] Hm0 Harr Hu Hrun.
  destruct (li_out _ _ _ _ _ _ _ _ _ (fw_link _ _ _ _ _ _ _ _ _ _ Hf) m0 Hm0 Hu) as (a&q&d&b&He&Hc).
  destruct (flow_data _ rand32 _ _ _ _ _ _ _ _ _ m _ _ _ _ Hf Hb Hrd He (arrives_carries _ _ _ _ Hc Harr))
    as (s1&got'&rest'&ack&Hrun'&_&_&_&_&_&Ho&_&_&Hw).
  rewrite Hrun in Hrun'. injection Hrun' as <-. split; [|by exists ack].
  unfold recv_worker_dispatch in Hrun. rewrite (arrives_usual _ _ Harr), Hu in Hrun. cbn match in Hrun.
  exact (preserves_run _ _ _ _ _ (serve_regular m) Hrun).
Qed.

(** An acknowledgement: it is for the last byte of a message. *)
Lemma acks_a_message start old dn op s P m a b :
  Places.sending start old dn op s P -> fourth_duplicate m s = false ->
  old ++ dn ++ op = a ++ b -> get_seq m = u32 (start + total a - 1) ->
  start + total (old ++ dn ++ op) + 2000 < modulus32 -> acks_message m s.
Proof.
  intros Hs Hfd Hx Hq Hwrap. pose proof (sn_inv _ _ _ _ _ _ Hs) as Hi.
  pose proof (sn_nonempty _ _ _ _ _ _ Hs) as Hne. pose proof (total_nonneg a).
  pose proof (sn_start _ _ _ _ _ _ Hs) as Hst.
  assert (total a <= total (old ++ dn ++ op)) as Hle
    by (rewrite Hx, (total_app a); pose proof (total_nonneg b); lia).
  destruct (ack_number _ (start + total a) Hq ltac:(lia)) as [[_ Hq1]|[Hst1 Hq1]].
  { split; [done|]. split; [lia|by left]. }
  split; [done|]. split; [lia|right]. exists (start + total old), dn.
  destruct (Z.le_gt_cases (total (old ++ dn)) (total a)) as [Hnew|Hold].
  - rewrite app_assoc in Hx, Hne. destruct (split_le (old ++ dn) op a b Hne Hx Hnew) as (now&->&->).
    exists now, b. split; [exact Hi|left]. rewrite <- app_assoc, total_app in Hq1. lia.
  - exists [], op. split; [exact Hi|right]. rewrite total_app in Hold. lia.
Qed.

Lemma hears_ack sa sb c m0 m s' :
  net_inv sa sb c -> net_below sa sb c -> advertises (n_b c) ->
  congection_win_sz (k_wc (p_sk (n_a c))) + mtu (k_wc (p_sk (n_a c))) < modulus64 ->
  m0 ∈ k_out (p_sk (n_b c)) -> arrives m0 m -> is_usual m0 = false ->
  fourth_duplicate m (p_sk (n_a c)) = false ->
  recv_worker_dispatch sendto rand32 (reader sendto) 0 m (p_sk (n_a c)) = (Ret tt, s') ->
  served (p_sk (n_a c)) s' /\ k_out s' = k_out (p_sk (n_a c)).
Proof.
  intros [(old&dn&op&got&rest&Hf) _ Hrd _] [[Hba0 Hba] _] Had Hcong Hm0 Harr Hu Hfd Hrun.
  destruct (li_acks _ _ _ _ _ _ _ _ _ (fw_link _ _ _ _ _ _ _ _ _ _ Hf) m0 Hm0 Hu) as (Hp&a&b&He&Hle&Hq).
  rewrite <- (arrives_seq _ _ Harr) in Hq. pose proof (arrives_pure_ack _ _ Harr Hp) as Hpm.
  pose proof (sending_taken _ _ _ _ _ _ (fw_sending _ _ _ _ _ _ _ _ _ _ Hf)) as Hs.
  rewrite <- (flow_total _ _ _ _ _ _ _ _ _ _ Hf) in Hba.
  set (s := p_sk (n_a c)) in *. pose proof (rd_send_worker _ Hrd) as Hl.
  destruct (sending_ack _ _ _ _ _ _ m a b Hs Hfd He Hq Hba) as (s1&_&_&_&Hr&_&_&_&Ho).
  assert (k_sems s1 SEND_WORKER_LOCK = 0) as Hs1.
  { assert (preserves receiver_kept (cwc_on_ack m;; cw_on_ack (V:=Z) (E:=Z) m)) as Hk
      by (keeps; [apply keeps_cwc_on_ack|apply keeps_cw_on_ack]).
    by rewrite (rk_sems _ _ (preserves_run _ _ _ _ _ Hk Hr)). }
  rewrite (dispatch_ack sendto rand32 m s s1 Hpm Hrd Hr), Hs1 in Hrun. injection Hrun as <-.
  split; [|exact Ho]. change (0 + 1) with 1. rewrite <- Hl. apply served_lock.
  apply (served_ack _ m); [|..|exact Hcong|exact Hr].
  - by apply (acks_a_message _ _ _ _ _ _ _ _ _ Hs Hfd He Hq Hba).
  - destruct Harr as (Ht&_). unfold get_window_sz, m_hdr. rewrite Ht. by apply Had.
Qed.

(** ** A run of the network while a thread of one side waits

    No other thread of its side sends: the one that waits holds [send_lock]
    from the first package to the last.  The congestion window does not pass
    2^64. *)
Definition env_step (c c' : net) : Prop :=
  net_step c c' /\ p_sent (n_a c') = p_sent (n_a c) /\
  congection_win_sz (k_wc (p_sk (n_a c))) + mtu (k_wc (p_sk (n_a c))) < modulus64.

(** The invariant: [Net]'s, and no acknowledgement advertises a window of
    zero. *)
Definition net_ok (sa sb : Z) (c : net) : Prop :=
  net_inv sa sb c /\ net_below sa sb c /\ advertises (n_b c).

Lemma hears_quiet_out sa sb c x m :
  net_inv sa sb c -> net_below sa sb c -> advertises (n_a c) ->
  hears sendto rand32 (k_out (p_sk (n_b c))) (n_a c) x ->
  m ∈ k_out (p_sk x) -> is_usual m = false -> 1 <= get_window_sz m.
Proof.
  intros Hi Hb Had Hh Hm Hu. remember (n_a c) as a eqn:Ea.
  destruct Hh as (m1&Hh&Hfd). destruct Hh as [a m0 s' Hm0 Harr Hrun]. cbn [p_sk] in Hm. subst a.
  destruct (is_usual m0) eqn:Hu0.
  - destruct (hears_data _ _ _ _ _ _ Hi Hb Hm0 Harr Hu0 Hrun) as (_&ack&Ho&Hw). rewrite Ho in Hm.
    apply elem_of_app in Hm as [Hm|Hm]; [by apply Had|]. by apply list_elem_of_singleton in Hm as ->.
  - destruct Hi as [(old&dn&op&got&rest&Hf) _ Hrd _]. destruct Hb as [Hba _].
    destruct (li_acks _ _ _ _ _ _ _ _ _ (fw_link _ _ _ _ _ _ _ _ _ _ Hf) m0 Hm0 Hu0) as (Hp&a&b&He&Hle&Hq).
    rewrite <- (arrives_seq _ _ Harr) in Hq. rewrite <- (arrives_usual _ _ Harr) in Hu0.
    destruct (flow_ack _ rand32 _ _ _ _ _ _ _ _ _ m1 a b Hf Hba Hrd (Hfd Hu0) (arrives_pure_ack _ _ Harr Hp)
      He Hle Hq) as (s1&_&_&_&Hrun'&_&_&_&_&Hsr&_).
    rewrite Hrun in Hrun'. injection Hrun' as <-. apply Had; [|done]. exact (sr_acks _ _ Hsr m Hm Hu).
Qed.

Lemma env_step_ok sa sb c c' :
  net_ok sa sb c -> env_step c c' -> net_below sa sb c' ->
  net_ok sa sb c' /\ rtc served (p_sk (n_a c)) (p_sk (n_a c')).
Proof.
  intros (Hi&Hb&Had) (Hs&Hsent&Hcong) Hb'.
  destruct (net_step_inv _ _ _ _ _ _ _ Hi Hb Hs) as [Hi' _].
  assert (advertises (n_b c') /\ rtc served (p_sk (n_a c)) (p_sk (n_a c'))) as [??]; [|done].
  clear Hi' Hb'. destruct Hs as [c x H|c y H|c x H|c y H]; cbn [n_a n_b] in *; (split; try done).
  - apply rtc_once. eapply acts_served; done.
  - apply net_inv_swap in Hi. destruct Hi as [(?&?&?&?&?&Hf) _ Hrd _].
    exact (acts_advertises _ _ _ _ _ _ _ _ _ Hf Hrd H Had).
  - apply rtc_once. remember (n_a c) as a eqn:Ea.
    destruct H as (m&H&Hfd). destruct H as [a m0 s' Hm0 Harr Hrun]. cbn [p_sk]. subst a. destruct (is_usual m0) eqn:Hu.
    + apply served_other. by destruct (hears_data _ _ _ _ _ _ Hi Hb Hm0 Harr Hu Hrun).
    + rewrite <- (arrives_usual _ _ Harr) in Hu. specialize (Hfd Hu). rewrite (arrives_usual _ _ Harr) in Hu.
      by destruct (hears_ack _ _ _ _ _ _ Hi Hb Had Hcong Hm0 Harr Hu Hfd Hrun).
  - intros m. apply net_inv_swap in Hi.
    refine (hears_quiet_out sb sa (net_swap c) y m Hi _ Had H). by destruct Hb.
Qed.

Lemma env_steps_ok sa sb c c' :
  net_ok sa sb c -> rtc env_step c c' -> net_below sa sb c' ->
  net_ok sa sb c' /\ rtc served (p_sk (n_a c)) (p_sk (n_a c')) /\ p_sent (n_a c') = p_sent (n_a c).
Proof.
  intros Hok Hs. revert c' Hs.
  apply (rtc_ind_r (fun c' => net_below sa sb c' -> net_ok sa sb c' /\
    rtc served (p_sk (n_a c)) (p_sk (n_a c')) /\ p_sent (n_a c') = p_sent (n_a c))); [done|].
  intros c1 c2 _ Hs IH Hb2. destruct (IH (net_step_below _ _ _ _ _ _ (proj1 Hs) Hb2)) as (Hok1&Hr1&He1).
  destruct (env_step_ok _ _ _ _ Hok1 Hs Hb2) as [Hok2 Hr2]. destruct Hs as (_&He2&_).
  split; [done|]. split; [by etransitivity|congruence].
Qed.

(** ** What the sending thread does itself

    Between two of its pauses: it takes and gives back [send_lock] and
    [send_worker_lock], counts a signal or a future down, and hands a package
    to the window.  Semaphores are compared by their values: [g] are those the
    thread runs with, its lock taken, [f] those it leaves. *)
Inductive thread_step : peer -> peer -> Prop :=
| thread_waits x f :
    (forall n, n <> SEND_LOCK -> n <> SEND_BUF_EMPTY -> f n = k_sems (p_sk x) n) ->
    thread_step x (Peer (with_sems f (p_sk x)) (p_workers x) (p_sent x))
| thread_future x (a : futures_area) :
    thread_step x (Peer (area_put a (p_sk x)) (p_workers x) (p_sent x))
| thread_sends x d g r s1 f :
    (0 < length d)%nat -> Forall is_byte d -> undisturbed x (Z.of_nat (length d)) ->
    (forall n, n <> SEND_WORKER_LOCK -> g n = k_sems (p_sk x) n) ->
    cw_send (E:=Z) (tmp_msg d) (with_sems g (p_sk x)) = (Ret r, s1) ->
    (forall n, n <> SEND_WORKER_LOCK -> f n = k_sems s1 n) -> f SEND_WORKER_LOCK = 1 ->
    thread_step x (Peer (with_sems f s1) (p_workers x) (p_sent x ++ [d])).

(** A run of one side's sending thread, everybody else and the network. *)
Definition send_step (c c' : net) : Prop :=
  env_step c c' \/ exists x, thread_step (n_a c) x /\ c' = Net x (n_b c).

Lemma with_sems_sender f s : NetOps.same_sender s (with_sems f s).
Proof. split; done. Qed.

Lemma with_sems_receiver f s :
  f RECV_WORKER_COMPLETE = k_sems s RECV_WORKER_COMPLETE -> same_receiver s (with_sems f s).
Proof. intros Hf. split; done. Qed.

Lemma thread_flow start old dn op got rest x x' y :
  flow start old dn op got rest x y -> ready (p_sk x) -> thread_step x x' ->
  (exists op' rest', flow start old dn op' got rest' x' y) /\
  idle_receiver (p_sk x) (p_sk x') /\ k_out (p_sk x') = k_out (p_sk x) /\
  p_workers x' = p_workers x.
Proof.
  intros Hf Hrd Ht. destruct Ht as [x f He|x a|x d g r s1 f Hd Hb Hu Hg Hrun Hf1 Hf2]; cbn [p_sk].
  - split; [|split; [|done]].
    + exists op, rest. apply flow_same_sender; [done|apply with_sems_sender].
    + split; [apply with_sems_receiver; by apply He|]. intros [? ? ? ?]. split; [done|by rewrite He..].
  - split; [|split; [split; [by split|by intros []]|done]].
    exists op, rest. apply flow_same_sender; [done|by split].
  - destruct Hf as [Hl Hs]. set (s0 := with_sems g (p_sk x)) in *.
    assert (Places.sending start old dn op s0 (in_use (p_workers x))) as Hs0
      by (apply (sending_same _ _ _ _ (p_sk x)); [done..|apply Hs]).
    destruct (sending_send _ _ _ _ _ _ _ _ _ Hs0 Hd Hb Hu Hrun) as [Hs1 Ho].
    pose proof (preserves_run _ _ _ _ _ (keeps_cw_send (tmp_msg d)) Hrun) as Hk.
    assert (forall n, sending_sem n = false -> n <> SEND_WORKER_LOCK -> f n = k_sems (p_sk x) n) as Hsem.
    { intros n Hn1 Hn2. rewrite Hf1, (rk_sems _ _ Hk), <- Hg; done. }
    split; [|split; [split|split; [exact Ho|done]]].
    + exists (op ++ [(start + total (old ++ dn ++ op), d)]), (rest ++ [(start + total (old ++ dn ++ op), d)]).
      split; [|apply (sending_same _ _ _ _ s1); [done..|apply Hs1]].
      apply (link_same_sender _ _ _ _ _ _ _ _ s1); [|apply with_sems_sender].
      refine (link_send sendto sendto_takes_all _ _ _ _ _ _ (Channel s0 _ _) _ _ _ _ Hd Hb Hrun).
      apply (link_same_sender _ _ _ _ _ _ _ _ (p_sk x)); [exact Hl|apply with_sems_sender].
    + apply (same_receiver_trans _ s0); [by apply with_sems_receiver, Hg|].
      apply (same_receiver_trans _ s1); [|by apply with_sems_receiver, Hf1].
      apply receiver_kept_same; [exact Hk|]. by rewrite Ho.
    + intros [? ? ? ?]. destruct (rk_outside _ _ Hk) as (Hst&_). split.
      * change (is_state (k_state s1) = ESTABLISHED). by rewrite Hst.
      * exact Hf2.
      * exact (eq_trans (Hsem RECV_WORKER_LOCK eq_refl ltac:(done)) rd_recv_worker).
      * exact (eq_trans (Hsem RECV_LOCK eq_refl ltac:(done)) rd_recv).
Qed.

Lemma thread_step_ok sa sb c x :
  net_ok sa sb c -> thread_step (n_a c) x -> net_below sa sb (Net x (n_b c)) ->
  net_ok sa sb (Net x (n_b c)).
Proof.
  intros ([(old&dn&op&got&rest&Hab) (old2&dn2&op2&got2&rest2&Hba) Ha Hb]&_&Had) Ht Hbe.
  destruct (thread_flow _ _ _ _ _ _ _ _ _ Hab Ha Ht) as [(?&?&Hab') [[Hsr Hrd] _]].
  split; [|done]. split; [by eauto 10| |by apply Hrd|done].
  exists old2, dn2, op2, got2, rest2. by apply (flow_same_receiver _ _ _ _ _ _ _ _ _ (n_a c)).
Qed.

(** ** A network that serves a [send]

    [whole]: what is to be sent; [sent0]: what has been sent before; [J]: what
    is known of the network besides the invariant.  The thread keeps [J]; no
    worker holds a message that a new one would be stored over; and when the
    thread sleeps until a message is acknowledged, the other threads and the
    network take steps after which it is. *)
Definition due (p : pause_point) (dn op : sent) (s : sk) : Prop :=
  answered p s \/
  op <> [] /\ (p = AtSem SEND_BUF_EMPTY \/
    exists f, p = AtFuture f /\ f ∈ futures_of real_total dn op).

Record live (sa sb lim mtu_ : Z) (whole : bytes) (sent0 : list bytes) (J : net -> Prop)
    (others : pause_point -> M sk unit) : Prop := {
  lv_thread c x :
    J c -> thread_step (n_a c) x -> concat (p_sent x) `prefix_of` concat sent0 ++ whole ->
    J (Net x (n_b c));
  lv_apart c n : J c -> 0 < n -> undisturbed (n_a c) n;
  lv_others p c base dn op :
    J c -> net_ok sa sb c -> sender_waits p ->
    Serve.sending lim mtu_ base dn op (p_sk (n_a c)) -> due p dn op (p_sk (n_a c)) ->
    exists c', others p (p_sk (n_a c)) = (Ret tt, p_sk (n_a c')) /\ rtc env_step c c' /\
      answered p (p_sk (n_a c')) /\ J c' /\ below sb (n_b c');
}.

Section live.
Context (sa sb lim mtu_ : Z) (whole : bytes) (c0 : net) (J : net -> Prop).
Context (others : pause_point -> M sk unit).
Hypothesis lim_ok : lim + 3 * OUTPUT_WINDOW_SZ < modulus32.
Hypothesis mtu_ok : 1 <= mtu_ < modulus16.
Hypothesis others_live : live sa sb lim mtu_ whole (p_sent (n_a c0)) J others.

Abbreviation sending := (Serve.sending lim mtu_).

(** The thread has handed over [ps] and has come to [s], in a network that is
    the same but for the lock the thread may hold. *)
Definition in_network (ps : list bytes) (s : sk) : Prop :=
  exists x b f, s = with_sems f (p_sk x) /\
    (forall n, n <> SEND_WORKER_LOCK -> f n = k_sems (p_sk x) n) /\
    p_sent x = p_sent (n_a c0) ++ ps /\ concat ps `prefix_of` whole /\
    rtc send_step c0 (Net x b) /\ net_ok sa sb (Net x b) /\ J (Net x b).

Lemma in_network_step ps ps' x x' b f :
  p_sent x = p_sent (n_a c0) ++ ps -> rtc send_step c0 (Net x b) -> net_ok sa sb (Net x b) ->
  J (Net x b) -> thread_step x x' -> p_sent x' = p_sent (n_a c0) ++ ps' ->
  concat ps' `prefix_of` whole -> below sa x' ->
  (forall n, n <> SEND_WORKER_LOCK -> f n = k_sems (p_sk x') n) ->
  in_network ps' (with_sems f (p_sk x')).
Proof.
  intros He Hr Hok HJ Ht He' Hpre Hb Hf. pose proof Hok as (_&[_ Hbb]&_).
  exists x', b, f. split_and!; try done.
  - eapply rtc_r; [exact Hr|right]. by exists x'.
  - apply (thread_step_ok sa sb (Net x b) x' Hok Ht). by split.
  - apply (lv_thread _ _ _ _ _ _ _ _ others_live (Net x b) x' HJ Ht).
    rewrite He', concat_app. by apply prefix_app.
Qed.

Definition keep_lock_value (x : peer) (f : sem_name -> Z) (n : sem_name) : Z :=
  if decide (n = SEND_WORKER_LOCK) then k_sems (p_sk x) SEND_WORKER_LOCK else f n.

Lemma in_network_keeps : thread_keeps lim mtu_ whole in_network.
Proof.
  split.
  - intros ps n v s Hn (x&b&f&->&Hf&He&Hpre&Hr&Hok&HJ).
    set (f2 := k_sems (set_sem n v (with_sems f (p_sk x)))).
    change (in_network ps (with_sems f2 (p_sk x))).
    set (x' := Peer (with_sems (keep_lock_value x f2) (p_sk x)) (p_workers x) (p_sent x)).
    change (in_network ps (with_sems f2 (p_sk x'))).
    apply (in_network_step ps ps x x' b f2); try done.
    + apply thread_waits. intros m H1 H2. unfold keep_lock_value.
      destruct (decide (m = SEND_WORKER_LOCK)) as [->|Hm]; [done|]. unfold f2.
      rewrite sems_other; [by apply Hf|]. intros ->. destruct Hn as [|[|]]; congruence.
    + apply Hok.
    + intros m Hm. cbn [x' p_sk with_sems k_sems]. unfold keep_lock_value. by rewrite decide_False.
  - intros ps g v s (x&b&f&->&Hf&He&Hpre&Hr&Hok&HJ).
    set (a := FuturesArea _).
    set (x' := Peer (area_put a (p_sk x)) (p_workers x) (p_sent x)).
    change (in_network ps (with_sems f (p_sk x'))).
    apply (in_network_step ps ps x x' b f); try done; [apply thread_future|apply Hok].
  - intros ps base dn op d r s s' (x&b&f&->&Hf&He&Hpre&Hr&Hok&HJ) Hs Hlim Hd Hb Hpre' Hrun.
    set (f2 := fun n => if decide (n = SEND_WORKER_LOCK) then 1 else k_sems s' n).
    set (x' := Peer (with_sems f2 s') (p_workers x) (p_sent x ++ [d])).
    rewrite <- (with_sems_self s').
    change (in_network (ps ++ [d]) (with_sems (k_sems s') (p_sk x'))).
    apply (in_network_step ps (ps ++ [d]) x x' b); try done.
    + apply (thread_sends x d f r s' f2); try done.
      * apply (lv_apart _ _ _ _ _ _ _ _ others_live (Net x b)); [done|lia].
      * intros n Hn. unfold f2. by rewrite decide_False.
    + cbn [x' p_sent]. by rewrite He, app_assoc.
    + destruct Hok as ([(old&dn1&op1&got&rest&Hfl) _ _ _]&_&_). cbn [n_a] in Hfl.
      pose proof (flow_total _ _ _ _ _ _ _ _ _ _ Hfl) as Ht.
      pose proof (sn_inv _ _ _ _ _ _ (fw_sending _ _ _ _ _ _ _ _ _ _ Hfl)) as Hi.
      assert (sender_inv base dn op (p_sk x)) as Hi2
        by (apply (sender_inv_other _ _ _ (with_sems f (p_sk x))); [done..|apply Hs]).
      destruct (sender_unique _ _ _ _ _ _ _ Hi Hi2) as (<-&->&->).
      pose proof (sn_start _ _ _ _ _ _ (fw_sending _ _ _ _ _ _ _ _ _ _ Hfl)) as Hsa.
      rewrite total_app in Ht. split; [done|]. cbn [x' p_sent].
      rewrite concat_app, length_app. cbn [concat]. rewrite app_nil_r.
      unfold OUTPUT_WINDOW_SZ in *. lia.
    + intros n Hn. cbn [x' p_sk with_sems k_sems]. unfold f2. by rewrite decide_False.
Qed.

(** With the lock free, the thread's socket is the network's. *)
Lemma in_network_free ps s :
  in_network ps s -> k_sems s SEND_WORKER_LOCK = 1 ->
  exists c, p_sk (n_a c) = s /\ p_sent (n_a c) = p_sent (n_a c0) ++ ps /\
    concat ps `prefix_of` whole /\ rtc send_step c0 c /\ net_ok sa sb c /\ J c.
Proof.
  intros (x&b&f&->&Hf&He&Hpre&Hr&Hok&HJ) Hl. cbn [with_sems k_sems] in Hl.
  assert (thread_step x (Peer (with_sems f (p_sk x)) (p_workers x) (p_sent x))) as Ht.
  { apply thread_waits. intros n _ _. destruct (decide (n = SEND_WORKER_LOCK)) as [->|Hn]; [|by apply Hf].
    rewrite Hl. symmetry. destruct Hok as ([_ _ [_ Hlk _ _] _]&_). exact Hlk. }
  exists (Net (Peer (with_sems f (p_sk x)) (p_workers x) (p_sent x)) b). split_and!; try done.
  - eapply rtc_r; [exact Hr|right]. by eexists.
  - apply (thread_step_ok sa sb (Net x b) _ Hok Ht), Hok.
  - apply (lv_thread _ _ _ _ _ _ _ _ others_live (Net x b) _ HJ Ht).
    cbn [p_sent]. rewrite He, concat_app. by apply prefix_app.
Qed.

Lemma served_answer_due p base dn op s s' :
  sender_waits p -> sending base dn op s -> rtc served s s' -> answered p s' -> due p dn op s.
Proof.
  intros Hp Hs Hr Ha. destruct (answered_dec p s) eqn:E; [left; by apply answered_dec_spec|right].
  apply (waits_for_message sendto sendto_takes_all lim mtu_ lim_ok mtu_ok p base dn op s s' Hp Hs Hr);
    [|done]. by rewrite <- answered_dec_spec, E.
Qed.

Lemma in_network_fair : fair_for sendto lim mtu_ in_network others.
Proof.
  intros p ps base dn op s Hp HK Hs Hl (s2&Hr2&Ha2).
  destruct (in_network_free _ _ HK Hl) as (c&<-&He&Hpre&Hr&Hok&HJ).
  destruct (lv_others _ _ _ _ _ _ _ _ others_live p c base dn op HJ Hok Hp Hs)
    as (c'&Hrun&Henv&Ha&HJ'&Hb'); [by eapply served_answer_due|].
  assert (p_sent (n_a c') = p_sent (n_a c)) as Hsent.
  { clear -Henv. induction Henv as [|c1 c2 c3 (_&H12&_) _ IH]; congruence. }
  assert (net_below sa sb c') as Hbe.
  { split; [|done]. destruct Hok as (_&[Hba _]&_). unfold below in *. by rewrite Hsent. }
  destruct (env_steps_ok sa sb c c' Hok Henv Hbe) as (Hok'&Hserved&_).
  exists (p_sk (n_a c')). split_and!; try done.
  exists (n_a c'), (n_b c'), (k_sems (p_sk (n_a c'))). destruct c' as [x b]. cbn [n_a n_b] in *.
  split_and!; try done; [by rewrite with_sems_self|congruence|].
  etransitivity; [exact Hr|]. eapply (rtc_subrel env_step); [by left|done].
Qed.

Lemma send_run fuel base dn :
  net_ok sa sb c0 -> J c0 -> let s := p_sk (n_a c0) in
  sending base dn [] s -> k_sems s SEND_LOCK = 1 -> Forall is_byte whole ->
  base + total dn + Z.of_nat (length whole) <= lim ->
  k_sems s SEND_BUF_EMPTY + 2 * Z.of_nat (length whole) <= Z.of_nat fuel ->
  exists ps base' dn' c', sk_send others fuel whole s = (Ret tt, p_sk (n_a c')) /\
    rtc send_step c0 c' /\ net_ok sa sb c' /\
    p_sent (n_a c') = p_sent (n_a c0) ++ ps /\ concat ps = whole /\
    sending base' dn' [] (p_sk (n_a c')).
Proof.
  intros Hok HJ s Hs Hsl Hb Hfit Hfuel.
  assert (k_sems s SEND_WORKER_LOCK = 1) as Hwl by (destruct Hok as ([_ _ [_ Hlk _ _] _]&_); exact Hlk).
  destruct (send_ok sendto sendto_takes_all lim mtu_ lim_ok mtu_ok (base + total dn) whole in_network
    in_network_keeps others in_network_fair fuel base dn s)
    as (ps&b'&d'&s'&Hrun&Hc&HK&Hs'&_&_&Hl'); try done.
  - exists (n_a c0), (n_b c0), (k_sems s). destruct c0 as [x b]. cbn [n_a n_b] in *.
    split_and!; try done; [by rewrite with_sems_self|by rewrite app_nil_r|apply prefix_nil].
  - destruct (in_network_free _ _ HK Hl') as (c'&<-&He&_&Hr&Hok'&_).
    exists ps, b', d', c'. done.
Qed.

End live.

(** With nothing outstanding everything has been received. *)
Lemma nothing_outstanding_received sa sb c base dn :
  net_ok sa sb c -> sender_inv base dn [] (p_sk (n_a c)) ->
  received (held (p_sk (n_b c))) = concat (p_sent (n_a c)).
Proof.
  intros ([(old&dn1&op&got&rest&Hf) _ _ _]&_&_) Hi.
  destruct (sender_unique _ _ _ _ _ _ _ Hi (sn_inv _ _ _ _ _ _ (fw_sending _ _ _ _ _ _ _ _ _ _ Hf)))
    as (_&_&<-).
  exact (link_all_got sendto sendto_takes_all _ _ _ _ _ _ (fw_link _ _ _ _ _ _ _ _ _ _ Hf)).
Qed.

(** The invariant holds from the start. *)
Lemma net_step_advertises sa sb c c' :
  net_inv sa sb c -> net_below sa sb c -> net_step c c' -> advertises (n_b c) -> advertises (n_b c').
Proof.
  intros Hi Hb Hs Had. apply net_inv_swap in Hi. destruct Hs as [c x H|c y H|c x H|c y H]; cbn [n_b]; try done.
  - destruct Hi as [(?&?&?&?&?&Hf) _ Hrd _]. exact (acts_advertises _ _ _ _ _ _ _ _ _ Hf Hrd H Had).
  - intros m. refine (hears_quiet_out sb sa (net_swap c) y m Hi _ Had H). by destruct Hb.
Qed.

Lemma reachable_ok sa sb c0 c :
  net_connected sendto sendto_takes_all sa sb c0 -> rtc net_step c0 c -> net_below sa sb c ->
  net_ok sa sb c.
Proof.
  intros Hc Hs. revert c Hs. apply (rtc_ind_r (fun c => net_below sa sb c -> net_ok sa sb c)).
  - intros Hb. split; [by apply net_connected_inv|]. split; [done|].
    intros m Hm. destruct (co_out _ _ _ _ (nc_ba _ _ _ _ _ Hc)) as [Ho _]. cbn in Ho.
    rewrite Ho in Hm. by apply not_elem_of_nil in Hm.
  - intros c1 c2 _ Hs IH Hb2. pose proof (net_step_below _ _ _ _ _ _ Hs Hb2) as Hb1.
    destruct (IH Hb1) as (Hi1&_&Had1). destruct (net_step_inv _ _ _ _ _ _ _ Hi1 Hb1 Hs) as [Hi2 _].
    split; [done|]. split; [done|]. by apply (net_step_advertises _ _ _ _ Hi1 Hb1 Hs).
Qed.

(** C6: [send] delivers.  Start in any state that a network of two connected
    sockets reaches by orderly steps (the conditions of C1) in which nothing is
    outstanding on the caller's side, the congestion window and the window
    last advertised to it are at least one byte ([Serve.sending]) and
    [send_lock] is free; the side may number its bytes from zero; the numbers
    used stay below [lim], three windows below 2^32.  A call of [send] returns, if the network is
    [live]: asked to, when the call sleeps until a message is acknowledged, it
    takes some of its orderly steps - the other threads' sections, losses,
    repetitions and all, but no [send] of another thread of this side and no
    new package over a message a worker holds - after which the message is.
    The call and the network together have then made a run of steps of the
    thread and of the network; the packages handed over are the caller's bytes
    in order, and the other side's socket holds all that was ever sent, these
    bytes last.  [Lockstep.lockstep_live] gives a live network. *)
Theorem send_delivers sa sb lim mtu_ J others buf fuel c0 c base dn :
  lim + 3 * OUTPUT_WINDOW_SZ < modulus32 -> 1 <= mtu_ < modulus16 ->
  net_connected sendto sendto_takes_all sa sb c0 -> rtc net_step c0 c -> net_below sa sb c ->
  live sa sb lim mtu_ buf (p_sent (n_a c)) J others -> J c ->
  Serve.sending lim mtu_ base dn [] (p_sk (n_a c)) -> k_sems (p_sk (n_a c)) SEND_LOCK = 1 ->
  Forall is_byte buf -> base + total dn + Z.of_nat (length buf) <= lim ->
  k_sems (p_sk (n_a c)) SEND_BUF_EMPTY + 2 * Z.of_nat (length buf) <= Z.of_nat fuel ->
  exists ps c',
    sk_send others fuel buf (p_sk (n_a c)) = (Ret tt, p_sk (n_a c')) /\
    rtc send_step c c' /\
    p_sent (n_a c') = p_sent (n_a c) ++ ps /\ concat ps = buf /\
    received (held (p_sk (n_b c'))) = concat (p_sent (n_a c)) ++ buf.
Proof.
  intros Hlim Hmtu Hc Hs Hb Hlive HJ Hsend Hlk Hby Hfit Hfuel.
  pose proof (reachable_ok _ _ _ _ Hc Hs Hb) as Hok.
  destruct (send_run sa sb lim mtu_ buf c J others Hlim Hmtu Hlive fuel base dn Hok HJ Hsend Hlk Hby
    Hfit Hfuel) as (ps&b'&d'&c'&Hrun&Hr&Hok'&He&Hcc&Hs').
  exists ps, c'. split_and!; try done.
  rewrite (nothing_outstanding_received _ _ _ _ _ Hok' (sg_inv _ _ _ _ _ _ Hs')), He, concat_app, Hcc.
  done.
Qed.

End from_the_network.
