(* ===== verification/Lockstep.v ===== *)
(** * Lockstep: a network that serves every [send]

    A scheduler of the kind [SendNet.live] asks for: whenever the sending
    thread sleeps until a message is acknowledged, the sending worker sends the
    first outstanding message, the other side takes it and answers, and its
    acknowledgement arrives, until nothing is outstanding.  The other side's
    state is what it has become of the messages sent to it so far. *)
From stdpp Require Import relations gmap.
From S2P Require Import Prelude Window Message Transfer ProtoMem Congestion Timeout FastRetransmit.
From S2P Require Import SendBuffer Inplace Slots SlotOps Cumulative CumulativeOps Input InputOps.
From S2P Require Import Socket SenderModel ReceiverModel Frames Handshake Channel Places ChannelOps.
From S2P Require Import WorkerOps Net NetOps Serve Stream SendNet.

(** ** The congestion window

    It grows by one MTU for an acknowledgement and is halved by a retry. *)

#[export] Instance window_kept_preorder : PreOrder window_kept.
Proof. split; [intros s; by apply window_kept_wc|]. intros s1 s2 s3. apply window_kept_trans. Qed.

#[export] Instance window_frame : SenderFrame window_kept.
Proof.
  split; [apply _|by intros a s; apply window_kept_wc..|intros s; apply retry_window_kept|].
  intros sendto m s. unfold base_send. destruct (socket_send _ _ _ _); by apply window_kept_wc.
Qed.

#[export] Instance window_signals : SenderSignals window_kept.
Proof.
  split; [apply _|by intros a s; apply window_kept_wc..|]. intros n _ s. by apply window_kept_wc.
Qed.

(** An acknowledgement. *)
Lemma on_ack_grows m s s' :
  (cwc_on_ack m;; cw_on_ack (V:=Z) (E:=Z) m) s = (Ret tt, s') ->
  1 <= congection_win_sz (k_wc s) -> 0 <= mtu (k_wc s) < modulus16 ->
  congection_win_sz (k_wc s) + mtu (k_wc s) < modulus64 ->
  mtu (k_wc s') = mtu (k_wc s) /\
  1 <= congection_win_sz (k_wc s') <= congection_win_sz (k_wc s) + mtu (k_wc s).
Proof.
  intros Hr Hc Hm Hs. rewrite bind_unfold, cwc_on_ack_eq in Hr. cbn beta iota in Hr.
  destruct (preserves_run _ _ _ _ _ (keeps_cw_on_ack m) Hr) as (H1&_&H2). cbn in H1, H2.
  unfold add_arg in H2. rewrite Z.mul_1_l, (u64_small (mtu (k_wc s))), u64_small in H2 by lia.
  split; [done|]. apply H2. lia.
Qed.

Section lockstep.
Context (sendto : sockaddr_in -> bytes -> Z) (rand32 : M sk Z) {client : Client}.
Hypothesis sendto_takes_all : forall a d, sendto a d = Z.of_nat (length d).

#[local] Instance ls_lock : InputLock sk := chan_lock sendto.
#[local] Instance ls_input : InputController sk := chan_input sendto.
#[local] Instance ls_laws : ReceiverLaws sk := chan_laws sendto sendto_takes_all.
#[local] Instance ls_wait : SendWait sk := net_wait.

Abbreviation flow := (flow sendto sendto_takes_all).
Abbreviation env_step := (env_step sendto rand32).
Abbreviation net_ok := (net_ok sendto sendto_takes_all).
Abbreviation dispatch := (recv_worker_dispatch sendto rand32 (reader sendto) 0).

(** ** The scheduler

    [t0]: the other side's socket before it has received anything. *)
Context (t0 : sk).

Definition replay (out : list msg) : sk := foldl (fun t m => snd (dispatch m t)) t0 out.

(** What it answered last. *)
Definition answer (out : list msg) : msg := default (full_ack 0) (last (k_out (replay out))).

Definition exchange : M sk unit :=
  p ← locked (cw_next_msg (V:=Z) (E:=Z) (Z.to_nat OUTPUT_WINDOW_SZ));
  base_send_inplace sendto p;;
  locked (worker_finish p);;
  out ← gets k_out;
  dispatch (answer out).

Fixpoint exchanges (fuel : nat) : M sk unit :=
  e ← is_sent_buf_empty;
  match e, fuel with
  | false, S n => exchange;; exchanges n
  | _, _ => mret tt
  end.

Definition lockstep (p : pause_point) : M sk unit :=
  fun s => if answered_dec p s then (Ret tt, s) else exchanges (Z.to_nat OUTPUT_WINDOW_SZ) s.

(** ** What is known of the network

    Every byte that is acknowledged widens the congestion window by 65535 at
    most. *)
Record in_step (sa : Z) (old dn op : sent) (c : net) : Prop := {
  is_workers : p_workers (n_a c) = ∅;
  is_ready : ready (p_sk (n_a c));
  is_other : p_sk (n_b c) = replay (k_out (p_sk (n_a c)));
  is_flow : exists got rest, flow sa old dn op got rest (n_a c) (n_b c);
  is_mtu : 0 <= mtu (k_wc (p_sk (n_a c))) < modulus16;
  is_cong : 1 <= congection_win_sz (k_wc (p_sk (n_a c)))
    <= modulus32 + modulus16 * total (old ++ dn);
}.

Lemma window_locked {A} (m : M sk A) : preserves window_kept m -> preserves window_kept (locked m).
Proof.
  intros Hm. unfold locked, sem_wait, sem_post, alone. keeps; try exact Hm; intros s; by apply window_kept_wc.
Qed.

Lemma window_net_wait : preserves window_kept (@output_sent_buf_wait_not_empty sk net_wait).
Proof.
  cbn [output_sent_buf_wait_not_empty net_wait sk_send_wait sk_output_sent_buf_wait_not_empty].
  unfold is_sent_buf_empty, setup, mem_get. keeps.
Qed.

Lemma window_worker_finish p : preserves window_kept (worker_finish p).
Proof. unfold worker_finish. keeps; [apply keeps_msg_at|apply keeps_check|apply keeps_on_retry]. Qed.

Lemma window_cong C s s' :
  window_kept s s' -> 1 <= congection_win_sz (k_wc s) <= C ->
  mtu (k_wc s') = mtu (k_wc s) /\ 1 <= congection_win_sz (k_wc s') <= C.
Proof. intros (Hm&_&Hc) H. split; [done|lia]. Qed.

Lemma in_step_bounds sa old dn op c :
  in_step sa old dn op c -> below sa (n_a c) ->
  1 <= congection_win_sz (k_wc (p_sk (n_a c))) <= modulus16 * modulus32 * 2.
Proof.
  intros [_ _ _ (got&rest&Hf) Hm Hc] [Hb0 Hb1].
  rewrite <- (flow_total _ _ _ _ _ _ _ _ _ _ Hf) in Hb1.
  rewrite app_assoc, (total_app (old ++ dn)) in Hb1. pose proof (total_nonneg op). lia.
Qed.

(** The windows on the way. *)
Lemma trip_windows C x y p s1 s2 s3 m t ack s4 :
  trip sendto rand32 x y p s1 s2 s3 m t ack s4 ->
  0 <= mtu (k_wc (p_sk x)) < modulus16 -> C + modulus16 < modulus64 ->
  1 <= congection_win_sz (k_wc (p_sk x)) <= C ->
  (forall s, s = s1 \/ s = s2 \/ s = s3 ->
     mtu (k_wc s) = mtu (k_wc (p_sk x)) /\ 1 <= congection_win_sz (k_wc s) <= C) /\
  mtu (k_wc s4) = mtu (k_wc (p_sk x)) /\
  1 <= congection_win_sz (k_wc s4) <= C + mtu (k_wc (p_sk x)).
Proof.
  intros [H1 H2 H3 _ _ _ _ _ _ (s&H4&->&_)] Hm HC Hc.
  pose proof (preserves_run _ _ _ _ _ (window_locked _ (keeps_next_msg _ window_net_wait)) H1) as K1.
  pose proof (preserves_run _ _ _ _ _ (keeps_base_send_inplace _ _) H2) as K2.
  pose proof (preserves_run _ _ _ _ _ (window_locked _ (window_worker_finish p)) H3) as K3.
  destruct (window_cong C _ _ K1 Hc) as [M1 C1]. destruct (window_cong C _ _ K2 C1) as [M2 C2].
  destruct (window_cong C _ _ K3 C2) as [M3 C3]. split.
  - intros s' [->|[->| ->]]; split; congruence || done.
  - destruct (on_ack_grows _ _ _ H4) as [M4 C4]; cbn in *; [lia..|].
    split; [congruence|]. cbn. lia.
Qed.

(** One exchange. *)
Lemma exchange_ok sa sb old dn op c :
  net_ok sa sb c -> in_step sa old dn op c -> op <> [] ->
  exists c' old' dn' op', exchange (p_sk (n_a c)) = (Ret tt, p_sk (n_a c')) /\
    rtc env_step c c' /\ net_ok sa sb c' /\ in_step sa old' dn' op' c' /\ total op' < total op /\
    p_sent (n_a c') = p_sent (n_a c) /\ p_sent (n_b c') = p_sent (n_b c).
Proof.
  intros Hok Hin Hop. pose proof Hok as (Hi&Hb&_). pose proof Hin as [Hw Hrd Ho (got&rest&Hf) Hm Hc].
  pose proof (in_step_bounds _ _ _ _ _ Hin (proj1 Hb)) as Hcb.
  destruct op as [|[q d] op]; [done|].
  destruct (round_trip_run sendto rand32 sendto_takes_all _ _ _ _ _ _ _ _ _ _ Hi Hb Hw Hf)
    as (s1&s2&s3&m&t&ack&s4&old'&dn'&op'&got'&rest'&Ht&Hf'&Hsp&Hlt).
  set (C := congection_win_sz (k_wc (p_sk (n_a c)))) in *.
  destruct (trip_windows C _ _ _ _ _ _ _ _ _ _ Ht Hm) as (Hwin&Hm4&Hc4); [lia..|].
  destruct Ht as [H1 H2 H3 H4 H5 (A1&A2&A3) [B1 B2] Hout Hans (s&_&Hs&Hos)].
  set (x1 := Peer s1 _ _) in *. set (x2 := Peer s2 _ _) in *. set (x3 := Peer s3 _ _) in *.
  set (x4 := Peer s4 _ _) in *. set (y := Peer t _ _) in *.
  assert (rtc env_step c (Net x4 y)) as Hsteps.
  { assert (forall s', s' = s1 \/ s' = s2 \/ s' = s3 ->
      congection_win_sz (k_wc s') + mtu (k_wc s') < modulus64) as Hw'
      by (intros s' Hs'; destruct (Hwin s' Hs') as [-> ?]; lia).
    eapply rtc_l; [split; [exact (step_a _ _ _ _ A1)|split; [done|lia]]|].
    eapply rtc_l; [split; [exact (step_a _ _ (Net x1 (n_b c)) _ A2)|split; [done|apply Hw'; tauto]]|].
    eapply rtc_l; [split; [exact (step_a _ _ (Net x2 (n_b c)) _ A3)|split; [done|apply Hw'; tauto]]|].
    eapply rtc_l; [split; [exact (step_b_hears _ _ (Net x3 (n_b c)) _ B1)|split; [done|apply Hw'; tauto]]|].
    apply rtc_once. split; [exact (step_a_hears _ _ (Net x3 y) _ B2)|split; [done|apply Hw'; tauto]]. }
  destruct (env_steps_ok sendto rand32 sendto_takes_all sa sb c (Net x4 y) Hok Hsteps) as (Hok'&_&_);
    [exact Hb|].
  assert (replay (k_out s3) = t) as Hrep by (rewrite Hout; unfold replay; rewrite foldl_snoc; fold (replay (k_out (p_sk (n_a c)))); rewrite <- Ho, H4; done).
  exists (Net x4 y), old', dn', op'. split_and!; try done.
  - unfold exchange. rewrite (run_ret _ _ _ _ _ H1), (run_ret _ _ _ _ _ H2), (run_ret _ _ _ _ _ H3).
    rewrite (run_ret (gets k_out) _ s3 _ s3 eq_refl). unfold answer. rewrite Hrep, Hans, last_snoc. exact H5.
  - split; try done.
    + destruct Hok' as ([_ _ Hrd' _]&_). exact Hrd'.
    + cbn [n_a n_b p_sk x4 y]. rewrite <- Hrep, <- Hos, Hs. done.
    + by exists got', rest'.
    + cbn [n_a p_sk x4]. rewrite Hm4. done.
    + cbn [n_a p_sk x4]. apply (f_equal total) in Hsp. rewrite !app_assoc, !(total_app (_ ++ _)) in Hsp.
      nia.
Qed.

(** Until nothing is outstanding. *)
Lemma exchanges_ok fuel sa sb old dn op c :
  net_ok sa sb c -> in_step sa old dn op c -> total op <= Z.of_nat fuel ->
  exists c' old' dn', exchanges fuel (p_sk (n_a c)) = (Ret tt, p_sk (n_a c')) /\
    rtc env_step c c' /\ net_ok sa sb c' /\ in_step sa old' dn' [] c'.
Proof.
  revert old dn op c. induction fuel as [|fuel IH]; intros old dn op c Hok Hin Hle.
  all: pose proof Hin as [_ _ _ (got&rest&Hf) _ _].
  all: pose proof (sn_inv _ _ _ _ _ _ (fw_sending _ _ _ _ _ _ _ _ _ _ Hf)) as Hi.
  all: cbn [exchanges]; rewrite (run_ret _ _ _ _ _ (is_sent_buf_empty_eq _ _ _ _ Hi)).
  all: destruct (decide (op = [])) as [->|Hop]; [by exists c, old, dn|].
  - pose proof (si_nonempty _ _ _ _ Hi) as Hne. apply Forall_app in Hne as [_ Hne].
    destruct op as [|[q d] op]; [done|]. apply Forall_inv in Hne. cbn [total snd] in *.
    pose proof (total_nonneg op). lia.
  - destruct (exchange_ok _ _ _ _ _ _ Hok Hin Hop) as (c1&o1&d1&p1&Hr1&Hs1&Hok1&Hin1&Hlt&_).
    destruct (IH _ _ _ _ Hok1 Hin1 ltac:(lia)) as (c2&o2&d2&Hr2&Hs2&Hok2&Hin2).
    exists c2, o2, d2. split_and!; try done; [|by etransitivity].
    destruct op; [done|]. by rewrite (run_ret _ _ _ _ _ Hr1).
Qed.

(** The thread's steps leave the other side and the congestion window. *)
Lemma thread_window x x' :
  thread_step x x' -> window_kept (p_sk x) (p_sk x').
Proof.
  intros [x0 f _|x0 a|x0 d g r s1 f _ _ _ _ Hr _ _]; cbn [p_sk]; [by apply window_kept_wc..|].
  pose proof (preserves_run _ _ _ _ _ (keeps_cw_send _) Hr) as Hk. exact Hk.
Qed.

Lemma thread_in_step sa old dn op c x :
  in_step sa old dn op c -> thread_step (n_a c) x ->
  exists op', in_step sa old dn op' (Net x (n_b c)).
Proof.
  intros [Hw Hrd Ho (got&rest&Hf) Hm Hc] Ht.
  destruct (thread_flow sendto sendto_takes_all _ _ _ _ _ _ _ _ _ Hf Hrd Ht)
    as ((op'&rest'&Hf')&[_ Hrd']&Hout&Hwk).
  destruct (window_cong _ _ _ (thread_window _ _ Ht) Hc) as [Hm' Hc'].
  exists op'. split; cbn [n_a n_b]; [congruence|by apply Hrd'|by rewrite Hout|by exists got, rest'|lia|done].
Qed.

Lemma lockstep_live sa sb lim mtu_ whole sent0 :
  lim + 3 * OUTPUT_WINDOW_SZ < modulus32 -> 1 <= mtu_ < modulus16 ->
  live sendto rand32 sendto_takes_all sa sb lim mtu_ whole sent0
    (fun c => exists old dn op, in_step sa old dn op c) lockstep.
Proof.
  intros Hlim Hmtu. split.
  - intros c x (old&dn&op&Hin) Ht _. destruct (thread_in_step _ _ _ _ _ _ Hin Ht) as (op'&Hin').
    by exists old, dn, op'.
  - intros c n (old&dn&op&Hin) _ p (w&ph&Hw&_). rewrite (is_workers _ _ _ _ _ Hin) in Hw.
    by rewrite lookup_empty in Hw.
  - intros p c base dn op (old&dn0&op0&Hin) Hok Hp Hs Hdue. unfold lockstep.
    destruct (answered_dec p (p_sk (n_a c))) eqn:E.
    { apply answered_dec_spec in E. exists c. split_and!; try done; [by exists old, dn0, op0|apply Hok]. }
    destruct Hdue as [Ha|[Hop Hw]]; [apply answered_dec_spec in Ha; congruence|].
    pose proof Hin as [_ _ _ (got&rest&Hf) _ _].
    pose proof (sn_inv _ _ _ _ _ _ (fw_sending _ _ _ _ _ _ _ _ _ _ Hf)) as Hi.
    destruct (sender_unique _ _ _ _ _ _ _ Hi (sg_inv _ _ _ _ _ _ Hs)) as (<-&->&->).
    destruct (exchanges_ok (Z.to_nat OUTPUT_WINDOW_SZ) _ _ _ _ _ _ Hok Hin)
      as (c'&old'&dn'&Hr&Hsteps&Hok'&Hin').
    { pose proof (si_room _ _ _ _ Hi) as Hroom. rewrite total_app in Hroom. pose proof (total_nonneg dn). lia. }
    exists c'. split_and!; try done; [|by exists old', dn', []|apply Hok'].
    destruct (env_steps_ok sendto rand32 sendto_takes_all sa sb c c' Hok Hsteps) as (_&Hsv&_);
      [apply Hok'|].
    destruct (services_advance sendto sendto_takes_all lim mtu_ Hlim Hmtu _ _ _ _ _ Hs Hsv)
      as (b2&d2&op2&now&Hs2&Hadv).
    pose proof Hin' as [_ _ _ (got2&rest2&Hf2) _ _].
    pose proof (sn_inv _ _ _ _ _ _ (fw_sending _ _ _ _ _ _ _ _ _ _ Hf2)) as Hi2.
    destruct (sender_unique _ _ _ _ _ _ _ (sg_inv _ _ _ _ _ _ Hs2) Hi2) as (_&_&->).
    destruct Hw as [->|(f&->&Hf0)]; cbn [answered].
    + pose proof (ad_empties _ _ _ _ _ _ _ _ _ Hadv) as He. pose proof (sg_empties _ _ _ _ _ _ Hs).
      destruct op; [done|]. cbn [owes] in He. lia.
    + pose proof (ad_op _ _ _ _ _ _ _ _ _ Hadv) as Hnow. rewrite app_nil_r in Hnow. subst now.
      rewrite (ad_posted _ _ _ _ _ _ _ _ _ Hadv f Hf0). pose proof (sg_futs _ _ _ _ _ _ Hs f). lia.
Qed.

End lockstep.

(** ** Seven bytes over a fresh connection *)

#[local] Existing Instance sipping.

Lemma sk_duplex_sending : Serve.sending 6000000 1444 5000000 [] [] (sk_duplex 5000000 7000000).
Proof.
  destruct sk_established_sending as [Hi Hcl Hl Hm Hc Hr Hf He]. by split.
Qed.

Abbreviation fresh_lockstep :=
  (lockstep kernel_takes_all (gets k_clock) (p_sk (n_b fresh_net))).

Lemma fresh_in_step :
  in_step kernel_takes_all (gets k_clock) (fun _ _ => eq_refl) (p_sk (n_b fresh_net))
    5000000 [] [] [] fresh_net.
Proof.
  split; [done| |done|exists [], []|vm_compute; intuition discriminate..].
  - apply fresh_net_connected.
  - apply connected_flow; apply fresh_net_connected.
Qed.

Lemma send_delivers_witness :
  exists ps c', sk_send fresh_lockstep 14 [1; 2; 3; 4; 5; 6; 7] (p_sk (n_a fresh_net))
      = (Ret tt, p_sk (n_a c')) /\
    concat ps = [1; 2; 3; 4; 5; 6; 7] /\ p_sent (n_a c') = ps /\
    received (H0 := chan_laws kernel_takes_all (fun _ _ => eq_refl)) (held (p_sk (n_b c'))) = [1; 2; 3; 4; 5; 6; 7].
Proof.
  destruct (send_delivers kernel_takes_all (gets k_clock) (fun _ _ => eq_refl) 5000000 7000000 6000000 1444
    (fun c => exists old dn op, in_step kernel_takes_all (gets k_clock) (fun _ _ => eq_refl)
      (p_sk (n_b fresh_net)) 5000000 old dn op c)
    fresh_lockstep [1; 2; 3; 4; 5; 6; 7] 14 fresh_net fresh_net 5000000 [])
    as (ps&c'&H1&_&H2&H3&H4).
  - unfold OUTPUT_WINDOW_SZ. lia.
  - lia.
  - exact fresh_net_connected.
  - done.
  - split; split; cbn; lia.
  - apply lockstep_live; unfold OUTPUT_WINDOW_SZ; lia.
  - exists [], [], []. exact fresh_in_step.
  - exact sk_duplex_sending.
  - done.
  - repeat constructor; unfold is_byte; lia.
  - cbn. lia.
  - vm_compute. discriminate.
  - exists ps, c'. exact (conj H1 (conj H3 (conj H2 H4))).
Defined.
