(* ===== verification/Worker.v ===== *)
(** * Worker: the background threads of a socket

    [class worker] of [src/src/tcp_engine.h] (182-217) and the loops of the
    two jobs in [src/src/newimpl.cpp] (271-289, 526-555): a thread is started
    at most once at a time, is told to stop with a flag that its loop tests
    between two rounds, and is joined.  Any number of threads of the process
    call [start], [join] and [set_passive]; the mutex [m] is held during a call,
    by [join] while it waits. *)
From stdpp Require Import relations.
From S2P Require Import Prelude.

(** ** The state *)

(** The thread [t]: none, testing [active], in a round of its loop, or returned
    from [do_job] and still to be joined. *)
Inductive job : Type := NoJob | AtTest | InRound | Returned.

#[export] Instance job_dec : EqDecision job.
Proof. solve_decision. Defined.

(** [joining]: the caller that waits in [t.join()] and holds the mutex;
    [terminated]: the assignment of a thread to a [t] that is still joinable
    has called [std::terminate]. *)
Record worker : Type := Worker {
  started : bool;
  active : bool;
  t : job;
  joining : option nat;
  terminated : bool;
}.

Definition worker_init : worker := Worker false true NoJob None false.

(** ** The operations *)

(** [start] (189-195). *)
Definition start (w : worker) : worker :=
  if started w then w
  else Worker true (active w) AtTest (joining w)
         (terminated w || bool_decide (t w <> NoJob)).

(** [join] (196-205): it returns at once if nothing was started, and waits for
    the thread otherwise ([join_returns]). *)
Definition join (p : nat) (w : worker) : worker :=
  if started w then
    match t w with
    | NoJob => Worker false (active w) NoJob None (terminated w)
    | _ => Worker true (active w) (t w) (Some p) (terminated w)
    end
  else w.

Definition join_returns (w : worker) : worker :=
  Worker false (active w) NoJob None (terminated w).

Definition set_passive (w : worker) : worker :=
  Worker (started w) false (t w) (joining w) (terminated w).

Definition is_active (w : worker) : bool := active w.

(** The loop of a job: [while (active) round]. *)
Definition do_job (w : worker) : worker :=
  match t w with
  | AtTest => Worker (started w) (active w) (if active w then InRound else Returned)
                (joining w) (terminated w)
  | InRound => Worker (started w) (active w) AtTest (joining w) (terminated w)
  | _ => w
  end.

Inductive call : Type := Start | Join (p : nat) | JoinReturns | SetPassive | Job.

(** A call that needs the mutex has to wait while another one joins. *)
Definition worker_step (c : call) (w : worker) : option worker :=
  match c, joining w with
  | Start, None => Some (start w)
  | Join p, None => Some (join p w)
  | JoinReturns, Some _ => if decide (t w = Returned) then Some (join_returns w) else None
  | SetPassive, _ => Some (set_passive w)
  | Job, _ => if decide (t w = AtTest \/ t w = InRound) then Some (do_job w) else None
  | _, _ => None
  end.

Definition steps_to (w w' : worker) : Prop := exists c, worker_step c w = Some w'.

Fixpoint worker_run (cs : list call) (w : worker) : option worker :=
  match cs with
  | [] => Some w
  | c :: cs => worker_step c w ≫= worker_run cs
  end.

(** ** The invariant *)

Record worker_inv (w : worker) : Prop := {
  wi_started : started w = bool_decide (t w <> NoJob);
  wi_joining : is_Some (joining w) -> started w = true;
  wi_alive : terminated w = false;
}.

Lemma worker_step_inv c w w' : worker_inv w -> worker_step c w = Some w' -> worker_inv w'.
Proof.
  destruct w as [st ac jb jo te]. intros [Hs Hj Ht]. cbn in Hs, Hj, Ht. subst.
  destruct c, jo, jb; cbn; unfold start, join, do_job; cbn; intros [= <-];
    split; cbn; try done; by destruct ac.
Qed.

Lemma worker_reachable w : rtc steps_to worker_init w -> worker_inv w.
Proof.
  assert (worker_inv worker_init) as Hi by (split; [done|by intros [? ?]|done]).
  revert Hi. generalize worker_init. intros w0 Hi Hr. revert Hi.
  induction Hr as [|w1 w2 w3 [c Hc] _ IH]; [done|]. intros Hi.
  by apply IH, (worker_step_inv c w1).
Qed.

(** The calls of a run in which a round begins. *)
Fixpoint rounds_begun (cs : list call) (w : worker) : nat :=
  match cs with
  | [] => 0
  | c :: cs =>
      match worker_step c w with
      | Some w' =>
          (match c with Job => if decide (t w' = InRound) then 1 else 0 | _ => 0 end
           + rounds_begun cs w')%nat
      | None => 0
      end
  end.

Lemma passive_stays c w w' : worker_step c w = Some w' -> active w = false -> active w' = false.
Proof.
  destruct w as [st ac jb jo te]. destruct c, jo, jb, st; cbn; unfold start, join; cbn;
    try done; by intros [= <-].
Qed.

Lemma passive_begins_none cs w : active w = false -> rounds_begun cs w = 0%nat.
Proof.
  revert w. induction cs as [|c cs IH]; intros w Ha; cbn; [done|].
  destruct (worker_step c w) as [w'|] eqn:E; [|done].
  rewrite (IH w' (passive_stays _ _ _ E Ha)). destruct c; try done.
  destruct (decide (t w' = InRound)) as [Hr|]; [|done]. exfalso. revert E Hr.
  destruct w as [st ac jb jo te]. cbn in *. subst. destruct jb, jo; cbn; try done;
    by intros [= <-].
Qed.

(** ** Properties *)

(** C26: however [start], [join] and [set_passive] are called from the threads
    of a process, there is one job at a time (the thread object is never
    overwritten while it is joinable, which would end the process).  Once
    [set_passive] has been called no round begins any more, by this job or a
    later one; and a caller that waits in [join] gets its turn: when the
    round under way has ended the job returns and so does [join], leaving
    nothing running. *)
Theorem worker_stops w :
  rtc steps_to worker_init w ->
  terminated w = false /\
  (active w = false -> forall cs, rounds_begun cs w = 0%nat) /\
  (active w = false -> forall p, joining w = Some p ->
     exists k w', (k <= 2)%nat /\ worker_run (replicate k Job ++ [JoinReturns]) w = Some w' /\
       t w' = NoJob /\ joining w' = None /\ started w' = false).
Proof.
  intros Hr. destruct (worker_reachable w Hr) as [Hs Hj Ht]. split; [done|].
  split; [intros Ha cs; by apply passive_begins_none|]. intros Ha p Hp.
  destruct w as [st ac jb jo te]. cbn in *. subst.
  assert (bool_decide (jb <> NoJob) = true) as Hb by (apply Hj; eauto).
  destruct jb; [done| | |].
  - by exists 1%nat; eexists; split; [lia|].
  - by exists 2%nat; eexists; split; [lia|].
  - by exists 0%nat; eexists; split; [lia|].
Qed.

Lemma worker_stops_witness :
  exists w k w', t w = InRound /\ joining w = Some 7%nat /\ (k <= 2)%nat /\
    worker_run (replicate k Job ++ [JoinReturns]) w = Some w' /\ t w' = NoJob.
Proof.
  set (w := Worker true false InRound (Some 7%nat) false).
  assert (rtc steps_to worker_init w) as Hr.
  { eapply rtc_l; [by exists Start|]. eapply rtc_l; [by exists Job|].
    eapply rtc_l; [by exists SetPassive|]. eapply rtc_once. by exists (Join 7). }
  destruct (proj2 (proj2 (worker_stops w Hr)) eq_refl 7%nat eq_refl) as (k&w'&Hk&Hrun&Hw&_).
  exists w, k, w'. done.
Defined.
