(* ===== verification/Members.v ===== *)
(** * Members: what one object of [socket_full_impl] is made of

    The guard that gives the locks of the shared memory their meaning
    ([sock_mem_guard] of [src/src/newimpl.cpp], 184-249), and the two workers
    that the destructor stops (1057-1069; [USE_SAFETY_CLOSE] is not defined
    anywhere, so it does not disconnect). *)
From stdpp Require Import relations.
From S2P Require Import Prelude Locks Socket Worker.

(** ** [sock_mem_guard] *)

Record sock_mem_guard : Type := SockMemGuard {
  send_lock : external_lock_wrapper;
  recv_lock : external_lock_wrapper;
  recv_worker_lock : external_lock_wrapper;
  send_worker_lock : external_lock_wrapper;
  no_lock : external_lock_wrapper;
  recv_worker_complete_notif : nat;
  recv_worker_buf_not_empty_notif : nat;
  send_buf_empty_notif : nat;
  send_buf_not_empty_notif : nat;
}.

(** [__load]: the semaphores by their place in [locks->locks]. *)
Definition guard_load : sock_mem_guard :=
  let lock i := ExternalLock (Some i) false in
  SockMemGuard (lock 0%nat) (lock 1%nat) (lock 2%nat) (lock 3%nat) (ExternalLock None true) 4 5 6 7.

Section guard.
Context (refused : nat -> bool).

(** [__init_all] *)
Definition guard_init_all (g : sock_mem_guard) : M shared unit :=
  lock_init refused (send_lock g);;
  lock_init refused (recv_lock g);;
  lock_init refused (recv_worker_lock g);;
  lock_init refused (send_worker_lock g);;
  notif_init refused (recv_worker_complete_notif g);;
  notif_init refused (recv_worker_buf_not_empty_notif g);;
  notif_init refused (send_buf_empty_notif g);;
  notif_init refused (send_buf_not_empty_notif g).

(** The lock a scope of each kind is under: [send_protected_area],
    [recv_protected_area], [no_lock_area]. *)
Inductive area_kind : Type := send_protected_area | recv_protected_area | no_lock_area.

Definition area_lock (g : sock_mem_guard) (k : area_kind) : external_lock_wrapper :=
  match k with
  | send_protected_area => send_lock g
  | recv_protected_area => recv_lock g
  | no_lock_area => no_lock g
  end.

End guard.

(** Where [Socket]'s semaphores lie. *)
Definition sem_index (n : sem_name) : nat :=
  match n with
  | SEND_LOCK => 0 | RECV_LOCK => 1 | RECV_WORKER_LOCK => 2 | SEND_WORKER_LOCK => 3
  | RECV_WORKER_COMPLETE => 4 | RECV_WORKER_BUF_NOT_EMPTY => 5
  | SEND_BUF_EMPTY => 6 | SEND_BUF_NOT_EMPTY => 7
  end%nat.

#[export] Instance sem_index_inj : Inj (=) (=) sem_index.
Proof. intros n m. by destruct n, m. Qed.

(** After the guard's [init] every semaphore of the socket has the count that
    [Socket.sk_init] starts with, and no other semaphore has changed. *)
Lemma guard_init_counts s :
  exists s', guard_init_all (fun _ => false) guard_load s = (Ret tt, s') /\
    (forall n, sh_sems s' (sem_index n) = sem_init_count n) /\
    (forall i, (8 <= i)%nat -> sh_sems s' i = sh_sems s i) /\
    sh_own s' = sh_own s /\ sh_unlinked s' = sh_unlinked s.
Proof.
  eexists. split; [reflexivity|]. split_and!; [by intros []| |done..].
  intros i Hi. cbn. repeat (rewrite decide_False by lia). done.
Qed.

(** A call the kernel refuses: a lock goes on with whatever count was there, a
    notification throws. *)
Lemma refused_lock_is_not_initialised s :
  guard_init_all (fun i => (i =? 3)%nat) guard_load s =
    (Ret tt, snd (guard_init_all (fun i => (i =? 3)%nat) guard_load s)) /\
  sh_sems (snd (guard_init_all (fun i => (i =? 3)%nat) guard_load s)) 3 = sh_sems s 3 /\
  fst (guard_init_all (fun i => (i =? 4)%nat) guard_load s) = Throw EFuck.
Proof. done. Qed.

(** A scope without a lock takes none, not even the socket's own. *)
Lemma no_lock_area_takes_none s : lock_of (area_lock guard_load no_lock_area) s = None.
Proof. done. Qed.

(** ** The destructor *)

Inductive which : Type := RecvWorker | OutputSendWorker.

Record impl_workers : Type := ImplWorkers { recv_worker : worker; output_send_worker : worker }.

Definition impl_step (x : which) (c : call) (w : impl_workers) : option impl_workers :=
  match x with
  | RecvWorker => r ← worker_step c (recv_worker w); Some (ImplWorkers r (output_send_worker w))
  | OutputSendWorker => r ← worker_step c (output_send_worker w); Some (ImplWorkers (recv_worker w) r)
  end.

Fixpoint impl_run (l : list (which * call)) (w : impl_workers) : option impl_workers :=
  match l with
  | [] => Some w
  | (x, c) :: l => impl_step x c w ≫= impl_run l
  end.

Definition impl_init : impl_workers := ImplWorkers worker_init worker_init.

(** [join], waiting for at most [k] more steps of the job. *)
Definition join_calls (p k : nat) (w : worker) : list call :=
  Join p :: if started w then replicate k Job ++ [JoinReturns] else [].

(** [~socket_full_impl], called by [p]; [k1] and [k2]: the steps the two jobs
    still take. *)
Definition destroy (p k1 k2 : nat) (w : impl_workers) : list (which * call) :=
  [(RecvWorker, SetPassive); (OutputSendWorker, SetPassive)] ++
  map (pair RecvWorker) (join_calls p k1 (recv_worker w)) ++
  map (pair OutputSendWorker) (join_calls p k2 (output_send_worker w)).

Lemma impl_run_app l1 l2 w : impl_run (l1 ++ l2) w = impl_run l1 w ≫= impl_run l2.
Proof.
  revert w. induction l1 as [|[x c] l1 IH]; intros w; cbn; [done|].
  destruct (impl_step x c w) as [w1|]; cbn; [apply IH|done].
Qed.

Lemma impl_run_recv cs r r' s :
  worker_run cs r = Some r' ->
  impl_run (map (pair RecvWorker) cs) (ImplWorkers r s) = Some (ImplWorkers r' s).
Proof.
  revert r. induction cs as [|c cs IH]; intros r; cbn; [by intros [= ->]|].
  destruct (worker_step c r) as [r1|]; cbn; [apply IH|done].
Qed.

Lemma impl_run_send cs r s s' :
  worker_run cs s = Some s' ->
  impl_run (map (pair OutputSendWorker) cs) (ImplWorkers r s) = Some (ImplWorkers r s').
Proof.
  revert s. induction cs as [|c cs IH]; intros s; cbn; [by intros [= ->]|].
  destruct (worker_step c s) as [s1|]; cbn; [apply IH|done].
Qed.

Lemma passive_step w : worker_step SetPassive w = Some (set_passive w).
Proof. unfold worker_step. by destruct (joining w). Qed.

Lemma join_ends w p :
  worker_inv w -> active w = false -> joining w = None ->
  exists k w', (k <= 2)%nat /\ worker_run (join_calls p k w) w = Some w' /\
    t w' = NoJob /\ started w' = false /\ joining w' = None.
Proof.
  destruct w as [st ac jb jo te]. intros [Hs Hj Ht]. cbn in *. intros -> ->. subst.
  destruct jb; cbn [bool_decide].
  - exists 0%nat. eexists. split; [lia|]. by cbn.
  - exists 1%nat. eexists. split; [lia|]. by cbn.
  - exists 2%nat. eexists. split; [lia|]. by cbn.
  - exists 0%nat. eexists. split; [lia|]. by cbn.
Qed.

(** The destructor ends when the rounds under way end, at most two steps of
    either job: both threads are joined and nothing runs any more.  (The round
    of the receiving worker may be one that does not end:
    [Client.full_window_blocks_destructor].) *)
Lemma destructor_joins_both w p :
  rtc steps_to worker_init (recv_worker w) -> rtc steps_to worker_init (output_send_worker w) ->
  joining (recv_worker w) = None -> joining (output_send_worker w) = None ->
  exists k1 k2 w', (k1 <= 2 /\ k2 <= 2)%nat /\ impl_run (destroy p k1 k2 w) w = Some w' /\
    t (recv_worker w') = NoJob /\ t (output_send_worker w') = NoJob.
Proof.
  destruct w as [r s]. cbn [recv_worker output_send_worker]. intros Hr Hs Hjr Hjs.
  assert (forall w, rtc steps_to worker_init w -> worker_inv (set_passive w)) as Hinv.
  { intros w Hw. apply (worker_step_inv SetPassive w); [by apply worker_reachable|].
    apply passive_step. }
  destruct (join_ends (set_passive r) p (Hinv r Hr) eq_refl Hjr) as (k1&r'&Hk1&Hr1&Hr2&_).
  destruct (join_ends (set_passive s) p (Hinv s Hs) eq_refl Hjs) as (k2&s'&Hk2&Hs1&Hs2&_).
  exists k1, k2, (ImplWorkers r' s'). split; [done|]. split; [|done].
  unfold destroy. cbn [recv_worker output_send_worker].
  rewrite impl_run_app. cbn [impl_run impl_step recv_worker output_send_worker].
  rewrite passive_step. cbn [mbind option_bind recv_worker output_send_worker].
  rewrite passive_step. cbn [mbind option_bind].
  rewrite impl_run_app. change (join_calls p k1 r) with (join_calls p k1 (set_passive r)).
  rewrite (impl_run_recv _ _ _ _ Hr1). cbn [mbind option_bind].
  change (join_calls p k2 s) with (join_calls p k2 (set_passive s)).
  by rewrite (impl_run_send _ _ _ _ Hs1).
Qed.
