(* ===== verification/Chat.v ===== *)
(** * Chat: the example program

    [src/src/server_chat.cpp]: strings over a stream socket, a client that
    waits for the echo of each of its lines, and a server that sends every
    line to all its clients.  The stream socket is the interface of
    [src/src/stream_socket.h]: a type class, with the laws its comments
    promise for connections that do not fail. *)
From S2P Require Import Prelude.

(** ** The interface (stream_socket.h 9-34) *)

Class StreamSocket (St Sk : Type) : Type := {
  ss_send : Sk -> bytes -> M St unit;
  ss_recv : Sk -> Z -> M St bytes;
}.

(** [incoming]: what the other end has sent and [recv] has not answered yet;
    [outgoing]: all that has been sent. *)
Class StreamLaws (St Sk : Type) `{!StreamSocket St Sk} : Type := {
  incoming : Sk -> St -> bytes;
  outgoing : Sk -> St -> bytes;
  send_law k d s :
    exists s', ss_send k d s = (Ret tt, s') /\
      outgoing k s' = outgoing k s ++ d /\
      (forall k', k' <> k -> outgoing k' s' = outgoing k' s) /\
      (forall k', incoming k' s' = incoming k' s);
  recv_law k n s :
    0 <= n <= Z.of_nat (length (incoming k s)) ->
    exists s', ss_recv k n s = (Ret (take (Z.to_nat n) (incoming k s)), s') /\
      incoming k s' = drop (Z.to_nat n) (incoming k s) /\
      (forall k', k' <> k -> incoming k' s' = incoming k' s) /\
      (forall k', outgoing k' s' = outgoing k' s);
}.

(** ** [class transf] (6-31) *)

(** [struct raw]: the length as a [size_t], then the characters; packed. *)
Definition frame (msg : bytes) : bytes := le_bytes 8 (u64 (Z.of_nat (length msg))) ++ msg.

(** The string that a zero-terminated array of characters denotes. *)
Fixpoint c_string (data : bytes) : bytes :=
  match data with
  | [] => []
  | b :: data => if b =? 0 then [] else b :: c_string data
  end.

Definition EOFSTR : bytes := [102; 105; 110].

(** The clients by port, in ascending order (a [std::map]). *)
Record serv_map_area (Sk : Type) : Type := ServMap { serv_map : list (Z * Sk) }.
Arguments ServMap {Sk}.
Arguments serv_map {Sk}.

(** [operator[]] of a new key. *)
Fixpoint map_insert {Sk} (port : Z) (k : Sk) (m : list (Z * Sk)) : list (Z * Sk) :=
  match m with
  | [] => [(port, k)]
  | (p, x) :: m => if port <? p then (port, k) :: (p, x) :: m else (p, x) :: map_insert port k m
  end.

Definition map_count {Sk} (port : Z) (m : list (Z * Sk)) : bool :=
  existsb (fun e => fst e =? port) m.

Section chat.
Context {St Sk : Type} `{!StreamSocket St Sk} `{!MemArea St (serv_map_area Sk)}.

Definition transf_send (k : Sk) (msg : bytes) : M St unit := ss_send k (frame msg).

(** The buffer of [sz + 1] characters is what [recv] filled, and a zero. *)
Definition transf_recv (k : Sk) : M St bytes :=
  sz ← ss_recv k 8;
  data ← ss_recv k (le_val sz);
  mret (c_string (data ++ [0])).

(** ** The client (35-50): one line after the other until [fin] *)

Fixpoint client_loop (k : Sk) (lines : list bytes) : M St (list bytes) :=
  match lines with
  | [] => mret []
  | next :: lines =>
      transf_send k next;;
      ret ← transf_recv k;
      if decide (next = EOFSTR) then mret [ret]
      else rets ← client_loop k lines; mret (ret :: rets)
  end.

(** ** The server *)

Fixpoint send_all (m : list (Z * Sk)) (ans : bytes) : M St unit :=
  match m with
  | [] => mret tt
  | (_, k) :: m => transf_send k ans;; send_all m ans
  end.

(** One turn of [serv_thread] (58-70); the mutex is held while the answer goes
    out.  Answers whether the thread ends. *)
Definition serv_turn (k : Sk) : M St bool :=
  ret ← transf_recv k;
  a ← mem_get;
  send_all (serv_map a) ret;;
  mret (bool_decide (ret = EOFSTR)).

Fixpoint serv_thread (fuel : nat) (k : Sk) : M St unit :=
  match fuel with
  | O => faults out_of_fuel
  | S fuel => fin ← serv_turn k; if fin : bool then mret tt else serv_thread fuel k
  end.

(** One turn of [serv_accept] (74-89) for a connection from [port]; answers
    whether a thread is started for it. *)
Definition serv_accept (port : Z) (k : Sk) : M St bool :=
  a ← mem_get;
  if map_count port (serv_map a) then mret false
  else mem_put (ServMap (map_insert port k (serv_map a)));; mret true.

End chat.

(** ** Strings *)

Lemma c_string_zero data : c_string (data ++ [0]) = c_string data.
Proof. induction data as [|b data IH]; cbn; [done|]. destruct (b =? 0); congruence. Qed.

Lemma c_string_id data : c_string data = data <-> 0 ∉ data.
Proof.
  induction data as [|b data IH]; cbn; [set_solver|].
  rewrite not_elem_of_cons. destruct (Z.eqb_spec b 0) as [->|Hb]; [naive_solver|].
  split; [intros [= E]; split; [done|by apply IH]|intros [_ H]; f_equal; by apply IH].
Qed.

Lemma map_c_string_id msgs : map c_string msgs = msgs <-> Forall (fun m => 0 ∉ m) msgs.
Proof.
  induction msgs as [|m msgs IH]; cbn; [done|]. rewrite Forall_cons, <- IH, <- c_string_id.
  split; [by intros [= E1 E2]|by intros [-> ->]].
Qed.

Definition sizeable (msg : bytes) : Prop := Z.of_nat (length msg) < modulus64.

Section transf.
Context {St Sk : Type} `{StreamLaws St Sk}.

(** One framed string leaves the stream at the next one. *)
Lemma transf_recv_ok k msg rest s :
  sizeable msg -> incoming k s = frame msg ++ rest ->
  exists s', transf_recv k s = (Ret (c_string msg), s') /\ incoming k s' = rest /\
    (forall k', k' <> k -> incoming k' s' = incoming k' s) /\
    (forall k', outgoing k' s' = outgoing k' s).
Proof.
  intros Hm Hin. unfold sizeable in Hm. unfold frame in Hin. rewrite u64_small in Hin by lia.
  assert (length (le_bytes 8 (Z.of_nat (length msg))) = 8%nat) as Hl by apply length_le_bytes.
  destruct (recv_law k 8 s) as (s1&H1&Hi1&Ho1&Hx1);
    [rewrite Hin, !length_app, Hl; lia|].
  rewrite Hin, <- app_assoc in H1, Hi1. change (Z.to_nat 8) with 8%nat in *.
  rewrite take_app_length' in H1 by done. rewrite drop_app_length' in Hi1 by done.
  destruct (recv_law k (Z.of_nat (length msg)) s1) as (s2&H2&Hi2&Ho2&Hx2);
    [rewrite Hi1, length_app; lia|].
  rewrite Hi1, Nat2Z.id in H2, Hi2. rewrite take_app_length in H2. rewrite drop_app_length in Hi2.
  exists s2. split; [|split; [done|split]].
  - unfold transf_recv. mstep H1. rewrite le_val_le_bytes_small by (cbn; lia). mstep H2.
    rewrite c_string_zero. done.
  - intros k' Hk. rewrite Ho2, Ho1 by done. done.
  - intros k'. rewrite Hx2, Hx1. done.
Qed.

(** A program that sends all the strings, and one that receives as many. *)
Fixpoint send_lines (k : Sk) (msgs : list bytes) : M St unit :=
  match msgs with [] => mret tt | m :: msgs => transf_send k m;; send_lines k msgs end.

Fixpoint recv_lines (k : Sk) (n : nat) : M St (list bytes) :=
  match n with
  | O => mret []
  | S n => m ← transf_recv k; ms ← recv_lines k n; mret (m :: ms)
  end.

Lemma send_lines_ok k msgs s :
  exists s', send_lines k msgs s = (Ret tt, s') /\
    outgoing k s' = outgoing k s ++ concat (map frame msgs).
Proof.
  revert s. induction msgs as [|m msgs IH]; intros s; cbn.
  - exists s. rewrite app_nil_r. done.
  - destruct (send_law k (frame m) s) as (s1&H1&Ho1&_). destruct (IH s1) as (s2&H2&Ho2).
    exists s2. unfold transf_send. mstep H1. rewrite Ho2, Ho1, <- app_assoc. done.
Qed.

Lemma recv_lines_ok k msgs rest s :
  Forall sizeable msgs -> incoming k s = concat (map frame msgs) ++ rest ->
  exists s', recv_lines k (length msgs) s = (Ret (map c_string msgs), s') /\ incoming k s' = rest.
Proof.
  intros Hm. revert s. induction Hm as [|m msgs Hm _ IH]; intros s; cbn; [eauto|].
  rewrite <- app_assoc. intros Hin.
  destruct (transf_recv_ok k m _ s Hm Hin) as (s1&H1&Hi1&_). destruct (IH s1 Hi1) as (s2&H2&Hi2).
  exists s2. mstep H1. mstep H2. done.
Qed.

End transf.

(** ** The server's turn *)

Section server.
Context {St Sk : Type} `{StreamLaws St Sk} `{!EqDecision Sk}
  `{!MemArea St (serv_map_area Sk)} `{!MemAreaLaws St (serv_map_area Sk)}.

Definition clients (s : St) : list (Z * Sk) := serv_map (area_get s).

(** Using a socket does not change the map. *)
Hypothesis send_keeps : forall k d s, clients (snd (ss_send k d s)) = clients s.
Hypothesis recv_keeps : forall k n s, clients (snd (ss_recv k n s)) = clients s.

(** What [d] sent to every client adds for [k]. *)
Definition copy_for (k : Sk) (m : list (Z * Sk)) (d : bytes) : bytes :=
  if decide (k ∈ map snd m) then d else [].

Lemma send_all_ok m ans s :
  NoDup (map snd m) ->
  exists s', send_all m ans s = (Ret tt, s') /\ clients s' = clients s /\
    (forall k, outgoing k s' = outgoing k s ++ copy_for k m (frame ans)) /\
    (forall k, incoming k s' = incoming k s).
Proof.
  unfold copy_for. revert s. induction m as [|[p k] m IH]; intros s Hnd; cbn in *.
  - exists s. split; [done|]. split; [done|]. split; [|done]. intros k.
    rewrite app_nil_r. done.
  - apply NoDup_cons in Hnd as [Hk Hnd].
    destruct (send_law k (frame ans) s) as (s1&H1&Ho1&Hn1&Hi1).
    pose proof (send_keeps k (frame ans) s) as Hc1. rewrite H1 in Hc1. cbn in Hc1.
    destruct (IH s1 Hnd) as (s2&H2&Hc2&Ho2&Hi2).
    exists s2. unfold transf_send. mstep H1. split; [done|]. split; [congruence|].
    split; [|intros k'; rewrite Hi2, Hi1; done].
    intros k'. rewrite Ho2. destruct (decide (k' = k)) as [->|Hne].
    + rewrite Ho1, decide_False, decide_True by (set_solver || done). rewrite app_nil_r. done.
    + rewrite (Hn1 k' Hne). destruct (decide (k' ∈ map snd m)), (decide (k' ∈ k :: map snd m));
        set_solver.
Qed.

Lemma transf_recv_keeps k s : clients (snd (transf_recv k s)) = clients s.
Proof.
  unfold transf_recv. rewrite bind_unfold. pose proof (recv_keeps k 8 s) as H1.
  destruct (ss_recv k 8 s) as [[sz|e|f] s1]; try done. cbn in H1.
  rewrite bind_unfold. pose proof (recv_keeps k (le_val sz) s1) as H2.
  destruct (ss_recv k (le_val sz) s1) as [[d|e|f] s2]; cbn in *; congruence.
Qed.

Lemma serv_turn_ok k msg rest s :
  NoDup (map snd (clients s)) -> sizeable msg -> incoming k s = frame msg ++ rest ->
  exists s', serv_turn k s = (Ret (bool_decide (c_string msg = EOFSTR)), s') /\
    clients s' = clients s /\ incoming k s' = rest /\
    (forall k', outgoing k' s' = outgoing k' s ++ copy_for k' (clients s) (frame (c_string msg))).
Proof.
  intros Hnd Hm Hin. destruct (transf_recv_ok k msg rest s Hm Hin) as (s1&H1&Hi1&_&Ho1).
  pose proof (transf_recv_keeps k s) as Hc1. rewrite H1 in Hc1. cbn in Hc1.
  rewrite <- Hc1 in Hnd |- *.
  destruct (send_all_ok (clients s1) (c_string msg) s1 Hnd) as (s2&H2&Hc2&Ho2&Hi2).
  exists s2. split; [|split; [done|split; [congruence|]]].
  - unfold serv_turn. mstep H1. rewrite bind_unfold. cbn [mem_get gets].
    change (serv_map (area_get s1)) with (clients s1). mstep H2. done.
  - intros k'. rewrite Ho2, Ho1. done.
Qed.

(** A run of the thread: it reads lines up to the first [fin]. *)
Lemma serv_thread_ok k lines rest s :
  NoDup (map snd (clients s)) -> Forall sizeable lines ->
  Forall (fun m => c_string m <> EOFSTR) lines ->
  incoming k s = concat (map frame lines) ++ frame EOFSTR ++ rest ->
  exists s', serv_thread (S (length lines)) k s = (Ret tt, s') /\
    clients s' = clients s /\ incoming k s' = rest /\
    (forall k', outgoing k' s' = outgoing k' s ++
       copy_for k' (clients s) (concat (map frame (map c_string lines ++ [EOFSTR])))).
Proof.
  intros Hnd Hm Hne Hin. revert s Hnd Hin.
  induction Hm as [|m lines Hm _ IH]; intros s Hnd Hin.
  - destruct (serv_turn_ok k EOFSTR rest s Hnd) as (s1&H1&Hc1&Hi1&Ho1); [done|exact Hin|].
    exists s1. split; [cbn [serv_thread length]; mstep H1; done|]. split; [done|]. split; [done|].
    intros k'. rewrite Ho1. done.
  - inversion Hne as [|? ? Hm1 Hne1]; subst. cbn [map concat] in Hin. rewrite <- app_assoc in Hin.
    destruct (serv_turn_ok k m _ s Hnd Hm Hin) as (s1&H1&Hc1&Hi1&Ho1).
    rewrite bool_decide_false in H1 by done. rewrite <- Hc1 in Hnd.
    destruct (IH Hne1 s1 Hnd Hi1) as (s2&H2&Hc2&Hi2&Ho2).
    exists s2. split; [|split; [congruence|split; [done|]]].
    + cbn [length]. cbn [serv_thread]. mstep H1. exact H2.
    + intros k'. rewrite Ho2, Ho1, Hc1. unfold copy_for.
      destruct (decide _); rewrite <- app_assoc; done.
Qed.

(** ** Properties *)

(** C29: the thread of a client ends exactly at its first [fin].  Until then,
    and with the [fin] itself, every line goes once, framed and in order, to
    every registered client and to nobody else; a line is cut at its first
    zero byte.  Nothing of what the client sent after [fin] is read. *)
Theorem serv_thread_broadcasts k lines rest s :
  NoDup (map snd (clients s)) -> Forall sizeable lines ->
  Forall (fun m => c_string m <> EOFSTR) lines ->
  incoming k s = concat (map frame lines) ++ frame EOFSTR ++ rest ->
  exists s', serv_thread (S (length lines)) k s = (Ret tt, s') /\
    clients s' = clients s /\ incoming k s' = rest /\
    (forall k', outgoing k' s' = outgoing k' s ++
       copy_for k' (clients s) (concat (map frame (map c_string lines ++ [EOFSTR])))).
Proof. apply serv_thread_ok. Qed.

Lemma map_count_insert port (k : Sk) m : map_count port (map_insert port k m) = true.
Proof.
  induction m as [|[p x] m IH]; cbn; [by rewrite Z.eqb_refl|].
  destruct (port <? p); cbn; [by rewrite Z.eqb_refl|]. unfold map_count in IH. rewrite IH.
  apply orb_true_r.
Qed.

(** A port that has once been accepted is never served again: the map still
    has it after its thread has ended. *)
Lemma second_connection_is_ignored port k k' lines rest s s1 :
  serv_accept port k s = (Ret true, s1) ->
  NoDup (map snd (clients s1)) -> Forall sizeable lines ->
  Forall (fun m => c_string m <> EOFSTR) lines ->
  incoming k s1 = concat (map frame lines) ++ frame EOFSTR ++ rest ->
  exists s2, serv_thread (S (length lines)) k s1 = (Ret tt, s2) /\
    serv_accept port k' s2 = (Ret false, s2).
Proof.
  intros Ha Hnd Hm Hne Hin.
  destruct (serv_thread_ok k lines rest s1 Hnd Hm Hne Hin) as (s2&H2&Hc2&_).
  exists s2. split; [done|]. unfold serv_accept in *. rewrite bind_unfold in *. cbn [mem_get gets] in *.
  change (serv_map (area_get s2)) with (clients s2). rewrite Hc2.
  destruct (map_count port (serv_map (area_get s))); [done|].
  rewrite bind_unfold in Ha. injection Ha as <-. unfold clients.
  rewrite area_get_put. cbn [serv_map]. rewrite map_count_insert. done.
Qed.

End server.

(** C28: strings survive the framing: what [transf::send] writes to a stream,
    any receiver that gets those bytes in order reads back with [transf::recv],
    string by string, each cut at its first zero byte, and nothing more is
    taken from the stream.  So all come back unchanged exactly if none
    contains a zero byte. *)
Theorem chat_round_trip {St1 Sk1 St2 Sk2} `{StreamLaws St1 Sk1} `{StreamLaws St2 Sk2}
    (k : Sk1) (k' : Sk2) msgs (s : St1) :
  Forall sizeable msgs ->
  exists s' w, send_lines k msgs s = (Ret tt, s') /\ outgoing k s' = outgoing k s ++ w /\
    (forall (r : St2) rest, incoming k' r = w ++ rest ->
       exists r', recv_lines k' (length msgs) r = (Ret (map c_string msgs), r') /\
         incoming k' r' = rest) /\
    (map c_string msgs = msgs <-> Forall (fun m => 0 ∉ m) msgs).
Proof.
  intros Hm. destruct (send_lines_ok k msgs s) as (s'&Hs&Ho).
  exists s', (concat (map frame msgs)). split; [done|]. split; [done|]. split.
  - intros r rest Hr. by apply recv_lines_ok.
  - apply map_c_string_id.
Qed.

(** ** Sockets that are ideal streams *)

(** Any number of connections, by number: what is on its way to this program
    and what it has sent. *)
Record ideal : Type := Ideal {
  id_in : nat -> bytes;
  id_out : nat -> bytes;
  id_map : serv_map_area nat;
}.

Definition set_at {A} (k : nat) (x : A) (f : nat -> A) (k' : nat) : A :=
  if decide (k' = k) then x else f k'.

#[export] Instance ideal_stream : StreamSocket ideal nat := {|
  ss_send k d := fun s =>
    (Ret tt, Ideal (id_in s) (set_at k (id_out s k ++ d) (id_out s)) (id_map s));
  ss_recv k n := fun s =>
    if n <=? Z.of_nat (length (id_in s k)) then
      (Ret (take (Z.to_nat n) (id_in s k)),
       Ideal (set_at k (drop (Z.to_nat n) (id_in s k)) (id_in s)) (id_out s) (id_map s))
    else (Fault blocked, s);
|}.

#[export] Instance ideal_map : MemArea ideal (serv_map_area nat) := {|
  area_get := id_map;
  area_put a s := Ideal (id_in s) (id_out s) a;
|}.

#[export] Instance ideal_map_laws : MemAreaLaws ideal (serv_map_area nat).
Proof. split; [done..|by intros []]. Qed.

Lemma set_at_same {A} k (x : A) f : set_at k x f k = x.
Proof. unfold set_at. by rewrite decide_True. Qed.

Lemma set_at_other {A} k k' (x : A) f : k' <> k -> set_at k x f k' = f k'.
Proof. intros H. unfold set_at. by rewrite decide_False. Qed.

#[export] Program Instance ideal_laws : StreamLaws ideal nat := {|
  incoming k s := id_in s k;
  outgoing k s := id_out s k;
|}.
Next Obligation.
  intros k d s. eexists. split; [reflexivity|]. cbn. rewrite set_at_same.
  split; [done|]. split; [|done]. intros k' Hk. by rewrite set_at_other.
Qed.
Next Obligation.
  intros k n s Hn. cbn. rewrite (proj2 (Z.leb_le _ _)) by lia. eexists. split; [reflexivity|]. cbn.
  rewrite set_at_same. split; [done|]. split; [|done]. intros k' Hk. by rewrite set_at_other.
Qed.

(** Two clients; the first says [hi], then [fin]. *)
Definition hi : bytes := [104; 105].

Definition two_clients : ideal :=
  Ideal (fun k => if decide (k = 1%nat) then frame hi ++ frame EOFSTR else [])
    (fun _ => []) (ServMap [(4000, 1%nat); (5000, 2%nat)]).

Lemma serv_thread_broadcasts_witness :
  exists s', serv_thread (Sk:=nat) 2 1%nat two_clients = (Ret tt, s') /\
    outgoing 2%nat s' = frame hi ++ frame EOFSTR /\ outgoing 3%nat s' = [].
Proof.
  destruct (serv_thread_broadcasts (St:=ideal) (Sk:=nat) ltac:(done)
    ltac:(intros k n s; cbn; destruct (_ <=? _); done) 1%nat [hi] [] two_clients)
    as (s'&Hr&_&_&Ho).
  - repeat constructor; set_solver.
  - repeat constructor.
  - repeat constructor; discriminate.
  - reflexivity.
  - exists s'. split; [exact Hr|]. rewrite !Ho. done.
Defined.

Lemma chat_round_trip_witness :
  exists r', recv_lines (Sk:=nat) 1%nat 2 two_clients = (Ret [hi; EOFSTR], r').
Proof.
  destruct (chat_round_trip (St1:=ideal) (Sk1:=nat) (St2:=ideal) (Sk2:=nat) 5%nat 1%nat
    [hi; EOFSTR] two_clients) as (s'&w&Hs&Hw&Hr&_); [repeat constructor|].
  destruct (Hr two_clients []) as (r'&Hr'&_); [|by exists r'].
  cbn [send_lines] in Hs. vm_compute in Hs. injection Hs as <-. vm_compute in Hw. subst w. done.
Defined.
