(* ===== verification/Lifecycle.v ===== *)
(** * Lifecycle: how the processes share a socket

    [class sock] of [src/src/tcp_engine.cpp] (161-300): a socket is a shared
    memory object, a semaphore and a message queue with one label.  Every
    process that constructs a [sock] with the label opens them; the first one
    initialises the memory, the destructor unlinks the names.  The model has
    one label; a state is what the kernel keeps for it and one [sock] object
    per process, and a step is one call of the kernel or one access to the
    shared memory, so that constructors and destructors interleave. *)
From stdpp Require Import functions.
From S2P Require Import Prelude.

(** ** The state *)

(** [sock_shmem::shm_state] (tcp_engine.h 148-150). *)
Inductive shm_state : Type := UNITILIZATED | OK | UNLINKED.

#[export] Instance shm_state_dec : EqDecision shm_state.
Proof. solve_decision. Defined.

(** A semaphore is a named one or one of the array [locks] of a memory object. *)
Inductive semref : Type := Named (n : nat) | Internal (h i : nat).

#[export] Instance semref_dec : EqDecision semref.
Proof. solve_decision. Defined.

(** [sock_shmem], its semaphores apart; [inits] counts the calls of
    [sock_shmem_initializer::init] that return and is not in the code. *)
Record sock_shmem : Type := SockShmem {
  state : shm_state;
  locks_num : nat;
  inits : nat;
}.

(** What [ftruncate] leaves in a new object. *)
Definition zeroed : sock_shmem := SockShmem UNITILIZATED 0 0.

(** Where a process is in the constructor ([AtLock] to [AtUnlock]), in a use of
    the socket, or in the destructor ([AtCloseLock] to [Closed]).  [Gone]: an
    exception has ended it; [Stuck] and [Abandoned]: an exception or an early
    return has ended it while it held the lock. *)
Inductive pc : Type :=
| Unborn
| AtLock | AtWait | AtShmOpen | AtMap | AtState | AtInit | AtSetOk | AtMqOpen | AtLoad
| AtUnlock | AtRetry
| Ready
| AtAcquire | AtCheck (internal : bool) | AtRefuse (internal : bool) | Using (internal : bool)
| Inside (i : nat)
| AtCloseLock | AtLocks (i : nat) | AtSemUnlink | AtShmUnlink | AtMark | AtUnlocks (i : nat)
| AtCloseUnlock | AtMqUnlink | Closed
| Gone | Stuck | Abandoned (i : nat).

#[export] Instance pc_dec : EqDecision pc.
Proof. solve_decision. Defined.

(** The fields of [sock] that change: [lock], [shmem] and [mq]. *)
Record sock : Type := Sock {
  s_pc : pc;
  s_lock : option nat;
  s_shmem : option nat;
  s_mq : option nat;
}.

(** The three names, the semaphores' values, the memory objects (an object
    stays when its name is unlinked), the first unused object number. *)
Record world : Type := World {
  w_sem_name : option nat;
  w_shm_name : option nat;
  w_mq_name : option nat;
  w_sem : semref -> Z;
  w_shm : nat -> sock_shmem;
  w_next : nat;
  w_sock : nat -> sock;
}.

Definition newborn : sock := Sock Unborn None None None.
Definition world_init : world :=
  World None None None (fun _ => 0) (fun _ => zeroed) 0 (fun _ => newborn).

(** ** The steps *)

(** What a process does: the next call succeeds, the next call fails, or, when
    it is in no call, the operation it starts. *)
Inductive act : Type :=
| Next | Err | Construct | Acquire (internal : bool) | Put | Enter (i : nat) | Leave | Destroy.

Definition set_sock (p : nat) (s : sock) (w : world) : world :=
  World (w_sem_name w) (w_shm_name w) (w_mq_name w) (w_sem w) (w_shm w) (w_next w)
    (<[p := s]> (w_sock w)).

Definition go (p : nat) (c : pc) (w : world) : world :=
  let s := w_sock w p in set_sock p (Sock c (s_lock s) (s_shmem s) (s_mq s)) w.

(** [sem_wait] returns only for a positive semaphore. *)
Definition sem_wait (r : semref) (w : world) : option world :=
  if 0 <? w_sem w r then
    Some (World (w_sem_name w) (w_shm_name w) (w_mq_name w) (<[r := w_sem w r - 1]> (w_sem w))
            (w_shm w) (w_next w) (w_sock w))
  else None.

Definition sem_post (r : semref) (w : world) : world :=
  World (w_sem_name w) (w_shm_name w) (w_mq_name w) (<[r := w_sem w r + 1]> (w_sem w))
    (w_shm w) (w_next w) (w_sock w).

Definition set_shm (h : nat) (m : sock_shmem) (w : world) : world :=
  World (w_sem_name w) (w_shm_name w) (w_mq_name w) (w_sem w) (<[h := m]> (w_shm w)) (w_next w)
    (w_sock w).

Definition set_state (h : nat) (x : shm_state) (w : world) : world :=
  let m := w_shm w h in set_shm h (SockShmem x (locks_num m) (inits m)) w.

(** [__create_lock]: [sem_open] with [O_CREAT] and the value 1. *)
Definition create_lock (p : nat) (w : world) : world :=
  let s := w_sock w p in
  match w_sem_name w with
  | Some n => set_sock p (Sock AtWait (Some n) (s_shmem s) (s_mq s)) w
  | None =>
      let n := w_next w in
      World (Some n) (w_shm_name w) (w_mq_name w) (<[Named n := 1]> (w_sem w)) (w_shm w) (S n)
        (<[p := Sock AtWait (Some n) (s_shmem s) (s_mq s)]> (w_sock w))
  end.

(** [shm_open] with [O_CREAT]. *)
Definition shm_open (p : nat) (w : world) : world :=
  let s := w_sock w p in
  match w_shm_name w with
  | Some h => set_sock p (Sock AtMap (s_lock s) (Some h) (s_mq s)) w
  | None =>
      let h := w_next w in
      World (w_sem_name w) (Some h) (w_mq_name w) (w_sem w) (w_shm w) (S h)
        (<[p := Sock AtMap (s_lock s) (Some h) (s_mq s)]> (w_sock w))
  end.

(** [sock_mq]'s constructor with [create]: [mq_open] with [O_CREAT]. *)
Definition mq_open (p : nat) (w : world) : world :=
  let s := w_sock w p in
  match w_mq_name w with
  | Some n => set_sock p (Sock AtUnlock (s_lock s) (s_shmem s) (Some n)) w
  | None =>
      let n := w_next w in
      World (w_sem_name w) (w_shm_name w) (Some n) (w_sem w) (w_shm w) (S n)
        (<[p := Sock AtUnlock (s_lock s) (s_shmem s) (Some n)]> (w_sock w))
  end.

(** [sock_mem_guard::init] (newimpl.cpp 217-222): [locks_num] is 4, the four
    locks start at 1 and the four notifications at 0. *)
Definition locks_count : nat := 4.

Definition init_sem (h : nat) (f : semref -> Z) (r : semref) : Z :=
  match r with
  | Internal h' i => if decide (h' = h) then
      if decide (i < locks_count)%nat then 1 else if decide (i < 8)%nat then 0 else f r
      else f r
  | Named _ => f r
  end.

Definition initializer_init (h : nat) (w : world) : world :=
  World (w_sem_name w) (w_shm_name w) (w_mq_name w) (init_sem h (w_sem w))
    (<[h := SockShmem (state (w_shm w h)) locks_count (S (inits (w_shm w h)))]> (w_shm w))
    (w_next w) (w_sock w).

Definition sem_unlink (w : world) : world :=
  World None (w_shm_name w) (w_mq_name w) (w_sem w) (w_shm w) (w_next w) (w_sock w).
Definition shm_unlink (w : world) : world :=
  World (w_sem_name w) None (w_mq_name w) (w_sem w) (w_shm w) (w_next w) (w_sock w).

(** [~sock_mq] of the process that has the queue (only [create] ones exist). *)
Definition mq_drop (p : nat) (c : pc) (w : world) : world :=
  let s := w_sock w p in
  match s_mq s with
  | Some _ =>
      World (w_sem_name w) (w_shm_name w) None (w_sem w) (w_shm w) (w_next w)
        (<[p := Sock c (s_lock s) (s_shmem s) None]> (w_sock w))
  | None => go p c w
  end.

(** [get_mq] (298-300) dereferences [mq]; [None] is the null pointer. *)
Definition get_mq (s : sock) : option nat := s_mq s.

(** [reopen]: the constructor (201-235). *)
Definition step_reopen (p : nat) (w : world) : option world :=
  match w_sock w p with
  | Sock AtLock None _ _ => Some (create_lock p w)
  | Sock AtLock (Some _) _ _ => Some (go p AtWait w)
  | Sock AtWait (Some n) _ _ => go p AtShmOpen <$> sem_wait (Named n) w
  | Sock AtShmOpen _ _ _ => Some (shm_open p w)
  | Sock AtMap _ _ _ => Some (go p AtState w)
  | Sock AtState _ (Some h) _ =>
      Some (go p (match state (w_shm w h) with
                  | UNLINKED => AtRetry | UNITILIZATED => AtInit | OK => AtLoad end) w)
  | Sock AtRetry (Some n) _ mq =>
      Some (set_sock p (Sock AtLock (Some n) None mq) (sem_post (Named n) w))
  | Sock AtInit _ (Some h) _ => Some (go p AtSetOk (initializer_init h w))
  | Sock AtSetOk _ (Some h) _ => Some (go p AtMqOpen (set_state h OK w))
  | Sock AtMqOpen _ _ _ => Some (mq_open p w)
  | Sock AtLoad _ _ _ => Some (go p AtUnlock w)
  | Sock AtUnlock (Some n) _ _ => Some (go p Ready (sem_post (Named n) w))
  | _ => None
  end.

(** [sem_init] is refused, for all eight semaphores alike (a system that shares
    none between processes): the locks do not look at the answer, the first
    notification throws ([notificator_wrapper::init]), and what has been done
    is [locks_num]. *)
Definition initializer_throws (h : nat) (w : world) : world :=
  let m := w_shm w h in set_shm h (SockShmem (state m) locks_count (inits m)) w.

(** The calls of the constructor that throw: the lock is not released. *)
Definition step_reopen_fails (p : nat) (w : world) : option world :=
  match w_sock w p with
  | Sock AtLock None _ _ => Some (go p Gone w)
  | Sock AtWait _ _ _ => Some (go p Gone w)
  | Sock (AtShmOpen | AtMap | AtMqOpen) _ _ _ => Some (go p Stuck w)
  | Sock AtInit _ (Some h) _ => Some (go p Stuck (initializer_throws h w))
  | _ => None
  end.

(** [accquire_shmem] and [put_internal_lock] (282-296), and the sections under
    one of the locks of the shared memory. *)
Definition step_use (p : nat) (a : act) (w : world) : option world :=
  match a, w_sock w p with
  | Acquire true, Sock Ready _ _ _ => Some (go p AtAcquire w)
  | Acquire false, Sock Ready _ _ _ => Some (go p (AtCheck false) w)
  | Next, Sock AtAcquire (Some n) _ _ => go p (AtCheck true) <$> sem_wait (Named n) w
  | Err, Sock AtAcquire _ _ _ => Some (go p Ready w)
  | Next, Sock (AtCheck b) _ (Some h) _ =>
      Some (go p (if decide (state (w_shm w h) = UNLINKED) then AtRefuse b else Using b) w)
  | Next, Sock (AtRefuse true) (Some n) _ _ => Some (go p Ready (sem_post (Named n) w))
  | Next, Sock (AtRefuse false) _ _ _ => Some (go p Ready w)
  | Put, Sock (Using true) (Some n) _ _ => Some (go p Ready (sem_post (Named n) w))
  | Put, Sock (Using false) _ _ _ => Some (go p Ready w)
  | Enter i, Sock Ready _ (Some h) _ =>
      if decide (i < locks_count)%nat then go p (Inside i) <$> sem_wait (Internal h i) w else None
  | Leave, Sock (Inside i) _ (Some h) _ => Some (go p Ready (sem_post (Internal h i) w))
  | _, _ => None
  end.

(** [~sock] (251-280) and the destructor of its member [mq]. *)
Definition step_close (p : nat) (w : world) : option world :=
  match w_sock w p with
  | Sock AtCloseLock (Some n) _ _ => go p (AtLocks 0) <$> sem_wait (Named n) w
  | Sock (AtLocks i) _ (Some h) _ =>
      if decide (i < locks_num (w_shm w h))%nat
      then go p (AtLocks (S i)) <$> sem_wait (Internal h i) w
      else Some (go p AtSemUnlink w)
  | Sock AtSemUnlink _ _ _ => Some (go p AtShmUnlink (sem_unlink w))
  | Sock AtShmUnlink _ _ _ => Some (go p AtMark (shm_unlink w))
  | Sock AtMark _ (Some h) _ => Some (go p (AtUnlocks 0) (set_state h UNLINKED w))
  | Sock (AtUnlocks i) _ (Some h) _ =>
      if decide (i < locks_num (w_shm w h))%nat
      then Some (go p (AtUnlocks (S i)) (sem_post (Internal h i) w))
      else Some (go p AtCloseUnlock w)
  | Sock AtCloseUnlock (Some n) _ _ => Some (go p AtMqUnlink (sem_post (Named n) w))
  | Sock AtMqUnlink _ _ _ => Some (mq_drop p Closed w)
  | Sock (Abandoned i) _ _ (Some _) => Some (mq_drop p (Abandoned i) w)
  | _ => None
  end.

(** A failing lock ends the destructor: outside the [try] by an exception that
    leaves a destructor, inside it by [return]. *)
Definition step_close_fails (p : nat) (w : world) : option world :=
  match w_sock w p with
  | Sock AtCloseLock _ _ _ => Some (go p Gone w)
  | Sock (AtLocks i) _ (Some h) _ =>
      if decide (i < locks_num (w_shm w h))%nat then Some (go p (Abandoned i) w) else None
  | _ => None
  end.

Definition orelse {A} (x y : option A) : option A :=
  match x with Some _ => x | None => y end.

Definition step (p : nat) (a : act) (w : world) : option world :=
  match a, s_pc (w_sock w p) with
  | Construct, Unborn => Some (go p AtLock w)
  | Destroy, Ready => Some (go p AtCloseLock w)
  | Next, _ => orelse (step_reopen p w) (orelse (step_use p Next w) (step_close p w))
  | Err, _ => orelse (step_reopen_fails p w) (orelse (step_use p Err w) (step_close_fails p w))
  | _, _ => step_use p a w
  end.

Fixpoint run (tr : list (nat * act)) (w : world) : option world :=
  match tr with
  | [] => Some w
  | (p, a) :: tr => step p a w ≫= run tr
  end.
