(* ===== verification/LifecycleOps.v ===== *)
(** * LifecycleOps: what the sharing protocol of a socket guarantees

    An invariant of the interleavings of [Lifecycle] in which destructors and
    constructors do not collide, what follows from it, and concrete runs that
    show what happens when they do. *)
From stdpp Require Import functions relations.
From S2P Require Import Prelude Lifecycle.

(** ** Where the locks are held *)

Definition in_ctor (c : pc) : bool :=
  match c with
  | AtLock | AtWait | AtShmOpen | AtMap | AtState | AtInit | AtSetOk | AtMqOpen | AtLoad
  | AtUnlock | AtRetry => true
  | _ => false
  end.

Definition has_lock (c : pc) : bool :=
  match c with
  | AtShmOpen | AtMap | AtState | AtInit | AtSetOk | AtMqOpen | AtLoad | AtUnlock | AtRetry
  | AtCheck true | AtRefuse true | Using true
  | AtLocks _ | AtSemUnlink | AtShmUnlink | AtMark | AtUnlocks _ | AtCloseUnlock
  | Stuck | Abandoned _ => true
  | _ => false
  end.

Definition has_internal (c : pc) (i : nat) : bool :=
  match c with
  | Inside j => bool_decide (i = j)
  | AtLocks j | Abandoned j => bool_decide (i < j)%nat
  | AtSemUnlink | AtShmUnlink | AtMark => bool_decide (i < locks_count)%nat
  | AtUnlocks j => bool_decide (j <= i < locks_count)%nat
  | _ => false
  end.

(** The socket has found its memory initialised, or has initialised it. *)
Definition inited (c : pc) : bool :=
  match c with
  | Unborn | AtLock | AtWait | AtShmOpen | AtMap | AtState | AtInit | AtSetOk | AtRetry
  | Gone | Stuck => false
  | _ => true
  end.

Definition mapped (c : pc) : bool :=
  match c with AtMap | AtState | AtInit | AtSetOk => true | _ => inited c end.

(** The semaphore has been opened. *)
Definition opened (c : pc) : bool :=
  match c with AtWait | AtShmOpen | AtRetry => true | _ => mapped c end.

Definition closing (c : pc) : bool := match c with AtShmUnlink | AtMark => true | _ => false end.

Definition holds (s : sock) (r : semref) : bool :=
  match r with
  | Named n => has_lock (s_pc s) && bool_decide (s_lock s = Some n)
  | Internal h i => has_internal (s_pc s) i && bool_decide (s_shmem s = Some h)
  end.

(** A run is calm if a destructor unlinks the names only of memory that has
    not been unlinked before, and at no moment at which a constructor has
    opened the semaphore and has not finished. *)
Definition calm (p : nat) (a : act) (w : world) : Prop :=
  s_pc (w_sock w p) = AtSemUnlink -> a = Next ->
  (forall h, s_shmem (w_sock w p) = Some h -> state (w_shm w h) <> UNLINKED) /\
  (forall q, in_ctor (s_pc (w_sock w q)) -> s_lock (w_sock w q) <> s_lock (w_sock w p)).

Definition any_step (w w' : world) : Prop := exists p a, step p a w = Some w'.
Definition calm_step (w w' : world) : Prop := exists p a, calm p a w /\ step p a w = Some w'.

(** ** The invariant of the calm runs *)

Record inv (w : world) : Prop := {
  i_names : (forall n, w_sem_name w = Some n -> (n < w_next w)%nat) /\
            (forall h, w_shm_name w = Some h -> (h < w_next w)%nat);
  i_lock p n : s_lock (w_sock w p) = Some n ->
    (n < w_next w)%nat /\ (in_ctor (s_pc (w_sock w p)) -> w_sem_name w = Some n);
  i_shmem p h : s_shmem (w_sock w p) = Some h -> (h < w_next w)%nat;
  i_mapped p : mapped (s_pc (w_sock w p)) -> is_Some (s_shmem (w_sock w p));
  i_opened p : opened (s_pc (w_sock w p)) -> is_Some (s_lock (w_sock w p));
  i_unborn p : s_pc (w_sock w p) = Unborn -> s_lock (w_sock w p) = None;
  i_fresh h : (w_next w <= h)%nat -> w_shm w h = zeroed;
  i_binary r : w_sem w r <= 1;
  i_excl r p q : holds (w_sock w p) r -> w_sem w r <= 0 /\ (holds (w_sock w q) r -> q = p);
  i_inited p h : s_shmem (w_sock w p) = Some h -> inited (s_pc (w_sock w p)) ->
    state (w_shm w h) <> UNITILIZATED;
  i_initing p h : s_shmem (w_sock w p) = Some h ->
    (s_pc (w_sock w p) = AtInit -> state (w_shm w h) = UNITILIZATED /\ inits (w_shm w h) = 0%nat) /\
    (s_pc (w_sock w p) = AtSetOk -> state (w_shm w h) = UNITILIZATED /\
       inits (w_shm w h) = 1%nat /\ locks_num (w_shm w h) = locks_count);
  i_count h : (state (w_shm w h) = UNITILIZATED -> inits (w_shm w h) = 0%nat \/
      exists p, s_pc (w_sock w p) = AtSetOk /\ s_shmem (w_sock w p) = Some h) /\
    (state (w_shm w h) <> UNITILIZATED ->
      inits (w_shm w h) = 1%nat /\ locks_num (w_shm w h) = locks_count);
  i_named p h : s_shmem (w_sock w p) = Some h -> mapped (s_pc (w_sock w p)) ->
    state (w_shm w h) <> UNLINKED ->
    (w_sem_name w = s_lock (w_sock w p) /\ w_shm_name w = Some h) \/
    exists q, closing (s_pc (w_sock w q)) /\ s_shmem (w_sock w q) = Some h;
  i_closing p h : s_shmem (w_sock w p) = Some h -> closing (s_pc (w_sock w p)) ->
    state (w_shm w h) <> UNLINKED /\
    (s_pc (w_sock w p) = AtShmUnlink -> w_shm_name w = Some h) /\
    (s_pc (w_sock w p) = AtMark -> w_shm_name w <> Some h);
  i_unlinked h : state (w_shm w h) = UNLINKED -> w_shm_name w <> Some h;
}.

Lemma world_init_inv : inv world_init.
Proof.
  split; cbn; try done.
  - intros r p q. destruct r; done.
  - intros h. split; [by left|done].
Qed.

(** Two constructors past [sem_open] have the same semaphore, so at most one
    is inside. *)
Lemma ctor_unique w p q :
  inv w -> in_ctor (s_pc (w_sock w p)) -> has_lock (s_pc (w_sock w p)) ->
  in_ctor (s_pc (w_sock w q)) -> has_lock (s_pc (w_sock w q)) ->
  is_Some (s_lock (w_sock w p)) -> is_Some (s_lock (w_sock w q)) -> q = p.
Proof.
  intros Hi Hcp Hhp Hcq Hhq [n Hp] [m Hq].
  destruct (i_lock w Hi _ _ Hp) as [_ Hn]. destruct (i_lock w Hi _ _ Hq) as [_ Hm].
  specialize (Hn Hcp). specialize (Hm Hcq). assert (m = n) as -> by congruence.
  apply (i_excl w Hi (Named n) p q); cbn; rewrite bool_decide_true by done;
    [destruct (has_lock (s_pc (w_sock w p)))|destruct (has_lock (s_pc (w_sock w q)))]; done.
Qed.

(** A destructor that unlinks holds the four locks of its memory. *)
Lemma closing_unique w p q h :
  inv w -> closing (s_pc (w_sock w p)) -> s_shmem (w_sock w p) = Some h ->
  closing (s_pc (w_sock w q)) \/ s_pc (w_sock w q) = AtSemUnlink ->
  s_shmem (w_sock w q) = Some h -> q = p.
Proof.
  intros Hi Hp Hsp Hq Hsq. apply (i_excl w Hi (Internal h 0) p q); cbn.
  - rewrite Hsp. destruct (s_pc (w_sock w p)); try done; cbn;
      rewrite !bool_decide_true by (done || unfold locks_count; lia); done.
  - rewrite Hsq. destruct Hq as [Hq| ->]; [destruct (s_pc (w_sock w q)); try done|];
      cbn; rewrite !bool_decide_true by (done || unfold locks_count; lia); done.
Qed.

(** *** Steps of one socket that change no name and no memory *)

(** What another state of the socket [p] and other semaphore values have to
    satisfy. *)
Record harmless (w : world) (p : nat) (s' : sock) (f' : semref -> Z) : Prop := {
  h_lock : s_lock s' = s_lock (w_sock w p);
  h_shmem h : s_shmem s' = Some h -> s_shmem (w_sock w p) = Some h;
  h_born : s_pc s' <> Unborn;
  h_opened : opened (s_pc s') -> is_Some (s_lock (w_sock w p));
  h_mapped : mapped (s_pc s') ->
    mapped (s_pc (w_sock w p)) /\ s_shmem s' = s_shmem (w_sock w p);
  h_ctor : in_ctor (s_pc s') -> in_ctor (s_pc (w_sock w p)) \/ s_lock s' = None;
  h_inited h : s_shmem s' = Some h -> inited (s_pc s') ->
    inited (s_pc (w_sock w p)) \/ state (w_shm w h) <> UNITILIZATED;
  h_initing h : s_shmem s' = Some h -> s_pc s' = AtInit ->
    state (w_shm w h) = UNITILIZATED /\ inits (w_shm w h) = 0%nat;
  h_plain : s_pc s' <> AtSetOk /\ closing (s_pc s') = false /\
    s_pc (w_sock w p) <> AtSetOk /\ closing (s_pc (w_sock w p)) = false;
  h_binary r : f' r <= 1;
  h_own r : holds s' r -> f' r <= 0 /\ forall q, q <> p -> ~ holds (w_sock w q) r;
  h_others r q : q <> p -> holds (w_sock w q) r -> f' r <= 0;
}.

(** Looks a socket up in an updated map of sockets. *)
Ltac at_sock q p :=
  destruct (decide (q = p)) as [->|];
  [rewrite ?fn_lookup_insert in *|rewrite ?fn_lookup_insert_ne in * by done].

Lemma inv_harmless w p s' f' mq' next' :
  inv w -> harmless w p s' f' -> (w_next w <= next')%nat ->
  inv (World (w_sem_name w) (w_shm_name w) mq' f' (w_shm w) next' (<[p := s']> (w_sock w))).
Proof.
  intros Hi [] Hn. destruct h_plain0 as (Hs1&Hc1&Hs2&Hc2). split; cbn.
  - destruct (i_names w Hi) as [H1 H2].
    split; intros x Hx; [specialize (H1 x Hx)|specialize (H2 x Hx)]; lia.
  - intros q n. at_sock q p.
    + rewrite h_lock0. intros Hl. destruct (i_lock w Hi p n Hl) as [? Hc]. split; [lia|].
      intros Hc'. destruct (h_ctor0 Hc') as [|]; [by apply Hc|congruence].
    + intros Hl. destruct (i_lock w Hi q n Hl). split; [lia|done].
  - intros q h. at_sock q p; intros Hh;
      [apply h_shmem0 in Hh; pose proof (i_shmem w Hi p h Hh)|pose proof (i_shmem w Hi q h Hh)]; lia.
  - intros q. at_sock q p; [|apply (i_mapped w Hi)].
    intros Hm. destruct (h_mapped0 Hm) as [Hm' ->]. apply (i_mapped w Hi); done.
  - intros q. at_sock q p; [rewrite h_lock0; done|apply (i_opened w Hi)].
  - intros q. at_sock q p; [done|apply (i_unborn w Hi)].
  - intros h Hh. apply (i_fresh w Hi). lia.
  - done.
  - intros r q q'. at_sock q p; at_sock q' p.
    + intros Hh. split; [by apply h_own0|done].
    + intros Hh. destruct (h_own0 r Hh) as [? Ho]. split; [done|].
      intros Hq'. destruct (Ho q'); done.
    + intros Hh. split; [by apply (h_others0 r q)|]. intros Hp.
      destruct (h_own0 r Hp) as [_ Ho]. destruct (Ho q); done.
    + intros Hh. split; [by apply (h_others0 r q)|]. apply (i_excl w Hi r q q' Hh).
  - intros q h. at_sock q p; [|apply (i_inited w Hi)]. intros Hh Hin.
    destruct (h_inited0 h Hh Hin) as [|]; [|done]. apply (i_inited w Hi p); auto.
  - intros q h. at_sock q p; [|apply (i_initing w Hi)]. intros Hh.
    split; intros Hpc; [auto|done].
  - intros h. destruct (i_count w Hi h) as [Hu Ho]. split; [|done].
    intros Hst. destruct (Hu Hst) as [|(q&Hq&Hqh)]; [by left|].
    right. exists q. at_sock q p; done.
  - intros q h. at_sock q p; intros Hh Hm Hst.
    + destruct (h_mapped0 Hm) as [Hm' _]. rewrite h_lock0.
      destruct (i_named w Hi p h (h_shmem0 h Hh) Hm' Hst) as [|(q&Hq&Hqh)]; [by left|].
      right. exists q. at_sock q p; [by rewrite Hc2 in Hq|done].
    + destruct (i_named w Hi q h Hh Hm Hst) as [|(q'&Hq&Hqh)]; [by left|].
      right. exists q'. at_sock q' p; [by rewrite Hc2 in Hq|done].
  - intros q h. at_sock q p; [|apply (i_closing w Hi)]. intros _ Hc. by rewrite Hc1 in Hc.
  - apply (i_unlinked w Hi).
Qed.

(** The semaphores stay good when the socket waits on one or posts one of its. *)
Lemma wait_binary w r r' :
  inv w -> 0 < w_sem w r -> (<[r := w_sem w r - 1]> (w_sem w)) r' <= 1.
Proof.
  intros Hi Hr. pose proof (i_binary w Hi r). pose proof (i_binary w Hi r').
  destruct (decide (r = r')) as [->|]; rewrite ?fn_lookup_insert, ?fn_lookup_insert_ne by done; lia.
Qed.

Lemma wait_others w r r' q :
  inv w -> 0 < w_sem w r -> holds (w_sock w q) r' -> (<[r := w_sem w r - 1]> (w_sem w)) r' <= 0.
Proof.
  intros Hi Hr Hq. destruct (i_excl w Hi r' q q Hq) as [Hz _].
  destruct (decide (r = r')) as [->|]; rewrite ?fn_lookup_insert, ?fn_lookup_insert_ne by done; lia.
Qed.

Lemma wait_own w p r r' :
  inv w -> 0 < w_sem w r -> holds (w_sock w p) r' \/ r' = r ->
  (<[r := w_sem w r - 1]> (w_sem w)) r' <= 0 /\ forall q, q <> p -> ~ holds (w_sock w q) r'.
Proof.
  intros Hi Hr [Hp| ->].
  - split; [by apply (wait_others w r r' p)|]. intros q Hne Hq.
    apply Hne, (i_excl w Hi r' p q Hp), Hq.
  - rewrite fn_lookup_insert. pose proof (i_binary w Hi r). split; [lia|].
    intros q _ Hq. destruct (i_excl w Hi r q q Hq). lia.
Qed.

Lemma post_binary w p r r' :
  inv w -> holds (w_sock w p) r -> (<[r := w_sem w r + 1]> (w_sem w)) r' <= 1.
Proof.
  intros Hi Hp. destruct (i_excl w Hi r p p Hp) as [Hz _]. pose proof (i_binary w Hi r').
  destruct (decide (r = r')) as [->|]; rewrite ?fn_lookup_insert, ?fn_lookup_insert_ne by done; lia.
Qed.

Lemma post_others w p r r' q :
  inv w -> holds (w_sock w p) r -> holds (w_sock w q) r' -> q <> p \/ r' <> r ->
  (<[r := w_sem w r + 1]> (w_sem w)) r' <= 0.
Proof.
  intros Hi Hp Hq Hne. destruct (i_excl w Hi r' q q Hq) as [Hz _].
  destruct (decide (r = r')) as [->|]; [|rewrite fn_lookup_insert_ne by done; lia].
  destruct Hne as [Hne|]; [|done]. destruct Hne. apply (i_excl w Hi r' p q Hp), Hq.
Qed.

Lemma post_own w p r r' :
  inv w -> holds (w_sock w p) r -> holds (w_sock w p) r' -> r' <> r ->
  (<[r := w_sem w r + 1]> (w_sem w)) r' <= 0 /\ forall q, q <> p -> ~ holds (w_sock w q) r'.
Proof.
  intros Hi Hp Hp' Hne. split; [apply (post_others w p r r' p); auto|].
  intros q Hq Hh. apply Hq, (i_excl w Hi r' p q Hp'), Hh.
Qed.

Lemma same_own w p r :
  inv w -> holds (w_sock w p) r -> w_sem w r <= 0 /\ forall q, q <> p -> ~ holds (w_sock w q) r.
Proof.
  intros Hi Hp. split; [apply (i_excl w Hi r p p Hp)|].
  intros q Hq Hh. apply Hq, (i_excl w Hi r p q Hp), Hh.
Qed.

(** Moves between places that need no fact about the memory. *)
Definition moves (c c' : pc) : bool :=
  implb (mapped c') (mapped c) && implb (opened c') (opened c) && implb (in_ctor c') (in_ctor c || bool_decide (c = Unborn)) &&
  implb (inited c') (inited c) && negb (closing c) && negb (closing c') &&
  match c with AtSetOk => false | _ => true end &&
  match c' with Unborn | AtInit | AtSetOk => false | _ => true end.

Lemma moves_harmless w p s' f' :
  inv w -> moves (s_pc (w_sock w p)) (s_pc s') ->
  s_lock s' = s_lock (w_sock w p) ->
  s_shmem s' = s_shmem (w_sock w p) \/ (s_shmem s' = None /\ mapped (s_pc s') = false) ->
  (forall r, f' r <= 1) ->
  (forall r, holds s' r -> f' r <= 0 /\ forall q, q <> p -> ~ holds (w_sock w q) r) ->
  (forall r q, q <> p -> holds (w_sock w q) r -> f' r <= 0) ->
  harmless w p s' f'.
Proof.
  intros Hi Hm Hl Hs H1 H2 H3. pose proof (i_unborn w Hi p) as Hb.
  unfold moves in Hm. set (c := s_pc (w_sock w p)) in *. set (c' := s_pc s') in *.
  rewrite !andb_True in Hm. destruct Hm as (((((((Hm&Ho)&Hc)&Hin)&Hcl)&Hcl')&Hs1)&Hs2).
  split; fold c c'; try done.
  - intros h Hh. destruct Hs as [|[Hs _]]; congruence.
  - intros E. rewrite E in Hs2. done.
  - intros E. apply (i_opened w Hi). fold c. destruct (opened c'), (opened c); done.
  - intros E. destruct Hs as [Hs|[_ Hs]]; [|by rewrite Hs in E].
    split; [|done]. destruct (mapped c'), (mapped c); done.
  - intros E. rewrite Hl. destruct (in_ctor c') eqn:E'; [|done]. cbn [implb] in Hc.
    apply orb_True in Hc as [Hc|Hc]; [by left|]. right. apply Hb. by apply bool_decide_spec in Hc.
  - intros h _ E. left. destruct (inited c'), (inited c); done.
  - intros h _ E. rewrite E in Hs2. done.
  - split; [intros E; rewrite E in Hs2; done|].
    split; [destruct (closing c'); done|].
    split; [intros E; rewrite E in Hs1; done|]. destruct (closing c); done.
Qed.

Lemma inv_go w p c' :
  inv w -> moves (s_pc (w_sock w p)) c' ->
  (forall r, holds (Sock c' (s_lock (w_sock w p)) (s_shmem (w_sock w p)) None) r ->
     holds (w_sock w p) r) ->
  inv (go p c' w).
Proof.
  intros Hi Hm Hh. unfold go, set_sock. apply inv_harmless; [done| |done].
  apply moves_harmless; try done; [by left|apply (i_binary w Hi)| |].
  - intros r Hr. apply same_own; [done|]. apply Hh. destruct r; done.
  - intros r q _ Hq. apply (i_excl w Hi r q q Hq).
Qed.

Lemma inv_wait w w1 p c' r :
  inv w -> sem_wait r w = Some w1 -> moves (s_pc (w_sock w p)) c' ->
  (forall r', holds (Sock c' (s_lock (w_sock w p)) (s_shmem (w_sock w p)) None) r' ->
     holds (w_sock w p) r' \/ r' = r) ->
  inv (go p c' w1).
Proof.
  intros Hi Hw Hm Hh. unfold sem_wait in Hw. destruct (Z.ltb_spec 0 (w_sem w r)) as [Hr|]; [|done].
  injection Hw as <-. unfold go, set_sock. cbn. apply inv_harmless; [done| |done].
  apply moves_harmless; try done; [by left| | |].
  - intros r'. apply wait_binary; done.
  - intros r' Hr'. apply wait_own; [done|done|]. apply Hh. destruct r'; done.
  - intros r' q _ Hq. apply (wait_others w r r' q); done.
Qed.

Lemma inv_post w p s' r :
  inv w -> moves (s_pc (w_sock w p)) (s_pc s') -> holds (w_sock w p) r ->
  s_lock s' = s_lock (w_sock w p) ->
  s_shmem s' = s_shmem (w_sock w p) \/ (s_shmem s' = None /\ mapped (s_pc s') = false) ->
  (forall r', holds s' r' -> holds (w_sock w p) r' /\ r' <> r) ->
  inv (set_sock p s' (sem_post r w)).
Proof.
  intros Hi Hm Hr Hl Hs Hh. unfold set_sock, sem_post. cbn. apply inv_harmless; [done| |done].
  apply moves_harmless; try done.
  - intros r'. apply (post_binary w p); done.
  - intros r' Hr'. destruct (Hh r' Hr'). apply post_own; done.
  - intros r' q Hq Hr'. apply (post_others w p r r' q); auto.
Qed.

(** *** The steps that change a name or the memory *)

(** The clauses of the invariant that a step of [p] leaves as they are. *)
Ltac inv_same w Hi p :=
  first
    [ exact (i_names w Hi) | exact (i_fresh w Hi) | exact (i_binary w Hi)
    | exact (i_unlinked w Hi) | exact (i_count w Hi)
    | let q := fresh "q" in
      intros q; at_sock q p;
      [ cbn; first [done | eauto; done | intros; congruence]
      | first [ exact (i_lock w Hi q) | exact (i_shmem w Hi q) | exact (i_mapped w Hi q)
              | exact (i_opened w Hi q) | exact (i_unborn w Hi q) | exact (i_inited w Hi q)
              | exact (i_initing w Hi q) | exact (i_closing w Hi q) ] ] ].

(** A socket that the step moves away from a place where no lock of the shared
    memory is held and that is no place of [i_count] and [i_named]. *)
Lemma count_kept w p s' :
  inv w -> s_pc (w_sock w p) <> AtSetOk -> forall h, state (w_shm w h) = UNITILIZATED ->
  inits (w_shm w h) = 0%nat \/
  exists q, s_pc (<[p := s']> (w_sock w) q) = AtSetOk /\
    s_shmem (<[p := s']> (w_sock w) q) = Some h.
Proof.
  intros Hi Hpc h Hst. destruct (proj1 (i_count w Hi h) Hst) as [|(q&Hq&Hqh)]; [by left|].
  right. exists q. at_sock q p; done.
Qed.

Lemma named_kept w p s' q h :
  inv w -> closing (s_pc (w_sock w p)) = false ->
  s_shmem (w_sock w q) = Some h -> mapped (s_pc (w_sock w q)) -> state (w_shm w h) <> UNLINKED ->
  (w_sem_name w = s_lock (w_sock w q) /\ w_shm_name w = Some h) \/
  exists q', closing (s_pc (<[p := s']> (w_sock w) q')) /\
    s_shmem (<[p := s']> (w_sock w) q') = Some h.
Proof.
  intros Hi Hc Hh Hm Hst. destruct (i_named w Hi q h Hh Hm Hst) as [|(q'&Hq&Hqh)]; [by left|].
  right. exists q'. at_sock q' p; [by rewrite Hc in Hq|done].
Qed.

(** A socket that keeps its locks or releases some. *)
Lemma excl_kept w p s' :
  inv w -> (forall r, holds s' r -> holds (w_sock w p) r) -> forall r q q',
  holds (<[p := s']> (w_sock w) q) r ->
  w_sem w r <= 0 /\ (holds (<[p := s']> (w_sock w) q') r -> q' = q).
Proof.
  intros Hi Hh r q q' Hq.
  assert (forall x, holds (<[p := s']> (w_sock w) x) r -> holds (w_sock w x) r) as Hx
    by (intros x; at_sock x p; auto).
  destruct (i_excl w Hi r q q' (Hx q Hq)). auto.
Qed.

Lemma inv_open_lock w p n s' :
  inv w -> s_pc (w_sock w p) = AtLock -> w_sem_name w = Some n ->
  s' = Sock AtWait (Some n) (s_shmem (w_sock w p)) (s_mq (w_sock w p)) ->
  inv (set_sock p s' w).
Proof.
  intros Hi Hpc Hn ->. pose proof (proj1 (i_names w Hi) n Hn) as Hlt.
  unfold set_sock. split; cbn; try inv_same w Hi p.
  - intros q m. at_sock q p; [cbn|exact (i_lock w Hi q m)]. intros [= <-]. done.
  - intros q h. at_sock q p; exact (i_shmem w Hi _ h).
  - apply excl_kept; [done|]. intros []; done.
  - intros h. split; [apply count_kept; [done|congruence]|apply (i_count w Hi h)].
  - intros q h. at_sock q p; [done|]. intros. apply named_kept; try done. by rewrite Hpc.
Qed.

(** Nobody has a semaphore that does not exist. *)
Lemma no_lock_yet w q n : inv w -> (w_next w <= n)%nat -> ~ holds (w_sock w q) (Named n).
Proof.
  intros Hi Hn Hq. cbn in Hq. apply andb_True in Hq as [_ Hq%bool_decide_spec].
  destruct (i_lock w Hi q n Hq). lia.
Qed.

Lemma inv_new_lock w p s' :
  inv w -> s_pc (w_sock w p) = AtLock -> w_sem_name w = None ->
  s' = Sock AtWait (Some (w_next w)) (s_shmem (w_sock w p)) (s_mq (w_sock w p)) ->
  inv (World (Some (w_next w)) (w_shm_name w) (w_mq_name w) (<[Named (w_next w) := 1]> (w_sem w))
         (w_shm w) (S (w_next w)) (<[p := s']> (w_sock w))).
Proof.
  intros Hi Hpc Hn ->. split; cbn; try inv_same w Hi p.
  - split; [intros m [= <-]; lia|]. intros h Hh. pose proof (proj2 (i_names w Hi) h Hh). lia.
  - intros q m. at_sock q p; [intros [= <-]; cbn; auto with lia|]. intros Hm.
    destruct (i_lock w Hi q m Hm) as [? Hc]. split; [lia|]. intros E. specialize (Hc E). congruence.
  - intros q h Hh. assert (s_shmem (w_sock w q) = Some h) as Hh' by (at_sock q p; done).
    pose proof (i_shmem w Hi q h Hh'). lia.
  - intros h Hh. apply (i_fresh w Hi). lia.
  - intros r. pose proof (i_binary w Hi r).
    destruct (decide (r = Named (w_next w))) as [->|];
      rewrite ?fn_lookup_insert, ?fn_lookup_insert_ne by done; lia.
  - intros r q q' Hq. assert (r <> Named (w_next w)) as Hr.
    { intros ->. revert Hq. at_sock q p; [done|]. by apply no_lock_yet. }
    rewrite fn_lookup_insert_ne by done. revert Hq. apply excl_kept; [done|]. intros []; done.
  - intros h. split; [apply count_kept; [done|congruence]|apply (i_count w Hi h)].
  - intros q h. at_sock q p; [done|]. intros Hh Hm Hst.
    destruct (named_kept w p (Sock AtWait (Some (w_next w)) (s_shmem (w_sock w p))
      (s_mq (w_sock w p))) q h Hi ltac:(by rewrite Hpc) Hh Hm Hst) as [[Hs _]|]; [|by right].
    destruct (i_opened w Hi q) as [m Hl]; [|congruence].
    destruct (s_pc (w_sock w q)); done.
Qed.

Lemma inv_create_lock w p :
  inv w -> s_pc (w_sock w p) = AtLock -> inv (create_lock p w).
Proof.
  intros Hi Hpc. unfold create_lock. destruct (w_sem_name w) as [n|] eqn:Hn.
  - by apply (inv_open_lock w p n).
  - by apply inv_new_lock.
Qed.

Lemma inv_map w p h s' :
  inv w -> s_pc (w_sock w p) = AtShmOpen -> w_shm_name w = Some h ->
  s' = Sock AtMap (s_lock (w_sock w p)) (Some h) (s_mq (w_sock w p)) ->
  inv (set_sock p s' w).
Proof.
  intros Hi Hpc Hn ->. pose proof (proj2 (i_names w Hi) h Hn) as Hlt.
  pose proof (i_lock w Hi p) as Hl. rewrite Hpc in Hl.
  assert (is_Some (s_lock (w_sock w p))) as Ho by (apply (i_opened w Hi); by rewrite Hpc).
  unfold set_sock. split; cbn; try inv_same w Hi p.
  - apply excl_kept; [done|]. intros []; [cbn; by rewrite Hpc|done].
  - intros h'. split; [apply count_kept; [done|congruence]|apply (i_count w Hi h')].
  - intros q h'. at_sock q p.
    + cbn. intros [= <-] _ _. left. split; [|done]. destruct Ho as [m Hm].
      destruct (Hl m Hm) as [_ Hc]. rewrite Hm. by apply Hc.
    + intros. apply named_kept; try done. by rewrite Hpc.
Qed.

Lemma inv_new_shm w p s' :
  inv w -> s_pc (w_sock w p) = AtShmOpen -> w_shm_name w = None ->
  s' = Sock AtMap (s_lock (w_sock w p)) (Some (w_next w)) (s_mq (w_sock w p)) ->
  inv (World (w_sem_name w) (Some (w_next w)) (w_mq_name w) (w_sem w) (w_shm w) (S (w_next w))
         (<[p := s']> (w_sock w))).
Proof.
  intros Hi Hpc Hn ->. pose proof (i_lock w Hi p) as Hl. rewrite Hpc in Hl.
  assert (is_Some (s_lock (w_sock w p))) as Ho by (apply (i_opened w Hi); by rewrite Hpc).
  split; cbn; try inv_same w Hi p.
  - split; [|intros h [= <-]; lia]. intros n Hm. pose proof (proj1 (i_names w Hi) n Hm). lia.
  - intros q m Hm. assert (s_lock (w_sock w q) = Some m) as Hm' by (at_sock q p; done).
    destruct (i_lock w Hi q m Hm'). split; [lia|]. at_sock q p; [intros _; by apply Hl|done].
  - intros q h. at_sock q p; [cbn; intros [= <-]; lia|]. intros Hh.
    pose proof (i_shmem w Hi q h Hh). lia.
  - intros h Hh. apply (i_fresh w Hi). lia.
  - apply excl_kept; [done|]. intros []; [cbn; by rewrite Hpc|done].
  - intros h'. split; [apply count_kept; [done|congruence]|apply (i_count w Hi h')].
  - intros q h. at_sock q p.
    + cbn. intros [= <-] _ _. left. split; [|done]. destruct Ho as [m Hm].
      destruct (Hl m Hm) as [_ Hc]. rewrite Hm. by apply Hc.
    + intros Hh Hm Hst. destruct (i_named w Hi q h Hh Hm Hst) as [[_ ?]|(q'&Hq&Hqh)]; [congruence|].
      right. exists q'. at_sock q' p; [by rewrite Hpc in Hq|done].
  - intros q h. at_sock q p; [done|]. intros Hh Hc.
    destruct (i_closing w Hi q h Hh Hc) as (Hst&Hu&_). pose proof (i_shmem w Hi q h Hh).
    split; [done|split; [intros E; specialize (Hu E); congruence|intros _ [= ?]; lia]].
  - intros h Hst [= <-]. rewrite (i_fresh w Hi) in Hst by lia. done.
Qed.

Lemma inv_shm_open w p :
  inv w -> s_pc (w_sock w p) = AtShmOpen -> inv (shm_open p w).
Proof.
  intros Hi Hpc. unfold shm_open. destruct (w_shm_name w) as [h|] eqn:Hn.
  - by apply (inv_map w p h).
  - by apply inv_new_shm.
Qed.

(** An object that changes; the others are as before. *)
Ltac at_shm h' h :=
  destruct (decide (h' = h)) as [->|];
  [rewrite ?fn_lookup_insert in *|rewrite ?fn_lookup_insert_ne in * by done]; cbn in *.

(** While a socket is at [AtInit] or [AtSetOk] nobody else holds a lock of its
    memory or initialises it. *)
Lemma initing_alone w p h q :
  inv w -> s_pc (w_sock w p) = AtInit \/ s_pc (w_sock w p) = AtSetOk ->
  s_shmem (w_sock w p) = Some h ->
  s_shmem (w_sock w q) = Some h -> q <> p ->
  inited (s_pc (w_sock w q)) = false /\ s_pc (w_sock w q) <> AtInit /\ s_pc (w_sock w q) <> AtSetOk.
Proof.
  intros Hi Hp Hh Hq Hne.
  assert (state (w_shm w h) = UNITILIZATED) as Hst
    by (destruct (i_initing w Hi p h Hh) as [H1 H2];
        destruct Hp as [Hp|Hp]; [by apply H1|by apply H2]).
  assert (forall c, s_pc (w_sock w q) = c -> c = AtInit \/ c = AtSetOk -> False) as Hx.
  { intros c Hc Hc'. apply Hne, (ctor_unique w p q Hi).
    1-2: destruct Hp as [E|E]; rewrite E; done.
    1-2: destruct Hc' as [E|E]; rewrite Hc, E; done.
    - apply (i_opened w Hi). destruct Hp as [E|E]; rewrite E; done.
    - apply (i_opened w Hi). destruct Hc' as [E|E]; rewrite Hc, E; done. }
  split; [|split; intros E; apply (Hx _ E); auto].
  destruct (inited (s_pc (w_sock w q))) eqn:E; [|done].
  destruct (i_inited w Hi q h Hq); [by rewrite E|done].
Qed.

Lemma internal_inited c i : has_internal c i -> inited c.
Proof. by destruct c. Qed.

Lemma inv_init w p h s' :
  inv w -> s_pc (w_sock w p) = AtInit -> s_shmem (w_sock w p) = Some h ->
  s' = Sock AtSetOk (s_lock (w_sock w p)) (Some h) (s_mq (w_sock w p)) ->
  inv (set_sock p s' (initializer_init h w)).
Proof.
  intros Hi Hpc Hh ->. destruct (proj1 (i_initing w Hi p h Hh) Hpc) as [Hst Hin].
  pose proof (i_lock w Hi p) as Hl. rewrite Hpc in Hl.
  pose proof (i_opened w Hi p) as Ho. rewrite Hpc in Ho. pose proof (i_shmem w Hi p h Hh).
  pose proof (fun q => initing_alone w p h q Hi (or_introl Hpc) Hh) as Hal.
  unfold set_sock, initializer_init. split; cbn; try inv_same w Hi p.
  - intros h' Hh'. rewrite fn_lookup_insert_ne by lia. by apply (i_fresh w Hi).
  - intros [n|h' i]; cbn; [apply (i_binary w Hi)|].
    pose proof (i_binary w Hi (Internal h' i)). repeat destruct (decide _); lia.
  - intros r q q' Hq. destruct (excl_kept w p (Sock AtSetOk (s_lock (w_sock w p)) (Some h)
      (s_mq (w_sock w p))) Hi ltac:(intros []; [cbn; by rewrite Hpc|done]) r q q' Hq) as [Hz Hu].
    split; [|done]. destruct r as [n|h' i]; [done|]. cbn. destruct (decide (h' = h)) as [->|]; [|done].
    exfalso. revert Hq. at_sock q p; [done|]. cbn. intros [Hq Hqh%bool_decide_spec]%andb_True.
    destruct (Hal q Hqh) as [E _]; [done|]. apply internal_inited in Hq. by rewrite E in Hq.
  - intros q h'. at_sock q p; [done|]. at_shm h' h; apply (i_inited w Hi q).
  - intros q h'. at_sock q p; cbn; intros Hq.
    + injection Hq as <-. rewrite fn_lookup_insert. cbn. rewrite Hst, Hin. done.
    + at_shm h' h; [|by apply (i_initing w Hi)]. destruct (Hal q Hq) as (_&?&?); done.
  - intros h'. at_shm h' h.
    + split; [intros _; right; exists p; by rewrite fn_lookup_insert|done].
    + split; [apply count_kept; [done|congruence]|apply (i_count w Hi h')].
  - intros q h' Hq Hm Hs. assert (state (w_shm w h') <> UNLINKED) as Hs' by (at_shm h' h; done).
    at_sock q p; [|apply named_kept; by rewrite ?Hpc]. cbn in Hq. injection Hq as ->.
    apply (named_kept w p _ p h'); by rewrite ?Hpc.
  - intros q h'. at_sock q p; [done|]. intros Hq Hc.
    destruct (i_closing w Hi q h' Hq Hc) as [Hs Hx]. split; [at_shm h' h; done|done].
  - intros h'. at_shm h' h; apply (i_unlinked w Hi).
Qed.

Lemma inv_set_ok w p h s' :
  inv w -> s_pc (w_sock w p) = AtSetOk -> s_shmem (w_sock w p) = Some h ->
  s' = Sock AtMqOpen (s_lock (w_sock w p)) (Some h) (s_mq (w_sock w p)) ->
  inv (set_sock p s' (set_state h OK w)).
Proof.
  intros Hi Hpc Hh ->. destruct (proj2 (i_initing w Hi p h Hh) Hpc) as (Hst&Hin&Hln).
  pose proof (i_lock w Hi p) as Hl. rewrite Hpc in Hl.
  pose proof (i_opened w Hi p) as Ho. rewrite Hpc in Ho. pose proof (i_shmem w Hi p h Hh).
  pose proof (fun q => initing_alone w p h q Hi (or_intror Hpc) Hh) as Hal.
  unfold set_sock, set_state, set_shm. split; cbn; try inv_same w Hi p.
  - intros h' Hh'. rewrite fn_lookup_insert_ne by lia. by apply (i_fresh w Hi).
  - apply excl_kept; [done|]. intros []; [cbn; by rewrite Hpc|done].
  - intros q h'. at_shm h' h; [done|]. at_sock q p; [cbn; intros [= ->]; done|apply (i_inited w Hi q)].
  - intros q h'. at_sock q p; cbn; intros Hq; [done|].
    at_shm h' h; [|by apply (i_initing w Hi)]. destruct (Hal q Hq) as (_&?&?); done.
  - intros h'. at_shm h' h; [done|]. split; [|apply (i_count w Hi h')]. intros Hs.
    destruct (proj1 (i_count w Hi h') Hs) as [|(q&Hq&Hqh)]; [by left|].
    right. exists q. at_sock q p; [congruence|done].
  - intros q h' Hq Hm Hs. assert (state (w_shm w h') <> UNLINKED) as Hs'
      by (at_shm h' h; congruence).
    at_sock q p; [|apply named_kept; by rewrite ?Hpc]. cbn in Hq. injection Hq as ->.
    apply (named_kept w p _ p h'); by rewrite ?Hpc.
  - intros q h'. at_sock q p; [done|]. intros Hq Hc.
    destruct (i_closing w Hi q h' Hq Hc) as [Hs Hx]. split; [at_shm h' h; done|done].
  - intros h'. at_shm h' h; [done|apply (i_unlinked w Hi)].
Qed.

(** A destructor that holds the locks of memory that is not unlinked finds the
    names of its socket. *)
Lemma names_are_its_own w p h :
  inv w -> s_pc (w_sock w p) = AtSemUnlink -> s_shmem (w_sock w p) = Some h ->
  state (w_shm w h) <> UNLINKED ->
  w_sem_name w = s_lock (w_sock w p) /\ w_shm_name w = Some h.
Proof.
  intros Hi Hpc Hh Hst.
  destruct (i_named w Hi p h Hh ltac:(by rewrite Hpc) Hst) as [|(q&Hq&Hqh)]; [done|].
  assert (p = q) as -> by (apply (closing_unique w q p h); auto). by rewrite Hpc in Hq.
Qed.

Lemma inv_sem_unlink w p h s' :
  inv w -> s_pc (w_sock w p) = AtSemUnlink -> s_shmem (w_sock w p) = Some h ->
  state (w_shm w h) <> UNLINKED ->
  (forall q, in_ctor (s_pc (w_sock w q)) -> s_lock (w_sock w q) <> s_lock (w_sock w p)) ->
  s' = Sock AtShmUnlink (s_lock (w_sock w p)) (Some h) (s_mq (w_sock w p)) ->
  inv (set_sock p s' (sem_unlink w)).
Proof.
  intros Hi Hpc Hh Hst Hcalm ->. destruct (names_are_its_own w p h Hi Hpc Hh Hst) as [Hsn Hmn].
  pose proof (i_lock w Hi p) as Hl. rewrite Hpc in Hl.
  pose proof (i_opened w Hi p) as Ho. rewrite Hpc in Ho.
  pose proof (i_inited w Hi p) as Hin. rewrite Hpc in Hin. pose proof (i_shmem w Hi p h Hh).
  unfold set_sock, sem_unlink. split; cbn; try inv_same w Hi p.
  - split; [done|apply (i_names w Hi)].
  - intros q n. at_sock q p; cbn; intros Hq.
    + split; [apply (Hl n Hq)|done].
    + destruct (i_lock w Hi q n Hq) as [? Hc]. split; [done|]. intros E. specialize (Hc E).
      destruct (Hcalm q E). congruence.
  - apply excl_kept; [done|]. intros []; cbn; rewrite Hpc, ?Hh; done.
  - intros q h'. at_sock q p; [cbn; intros [= <-] _; by apply Hin|apply (i_inited w Hi q)].
  - intros h'. split; [apply count_kept; [done|congruence]|apply (i_count w Hi h')].
  - intros q h' Hq Hm Hs. right.
    assert (h' = h \/ exists q', q' <> p /\ closing (s_pc (w_sock w q')) /\
      s_shmem (w_sock w q') = Some h') as [->|(q'&Hne&Hq'&Hqh)].
    { at_sock q p; [left; cbn in Hq; congruence|].
      destruct (i_named w Hi q h' Hq Hm Hs) as [[_ ?]|(q'&?&?)]; [left; congruence|].
      right. exists q'. split; [intros ->; by rewrite Hpc in *|done]. }
    + exists p. rewrite fn_lookup_insert. done.
    + exists q'. rewrite fn_lookup_insert_ne by done. done.
  - intros q h'. at_sock q p; [cbn; intros [= <-] _; done|apply (i_closing w Hi q)].
Qed.

Lemma inv_shm_unlink w p h s' :
  inv w -> s_pc (w_sock w p) = AtShmUnlink -> s_shmem (w_sock w p) = Some h ->
  s' = Sock AtMark (s_lock (w_sock w p)) (Some h) (s_mq (w_sock w p)) ->
  inv (set_sock p s' (shm_unlink w)).
Proof.
  intros Hi Hpc Hh ->. destruct (i_closing w Hi p h Hh ltac:(by rewrite Hpc)) as (Hst&Hmn&_).
  specialize (Hmn Hpc). pose proof (i_lock w Hi p) as Hl. rewrite Hpc in Hl.
  pose proof (i_opened w Hi p) as Ho. rewrite Hpc in Ho.
  pose proof (i_inited w Hi p) as Hin. rewrite Hpc in Hin. pose proof (i_shmem w Hi p h Hh).
  unfold set_sock, shm_unlink. split; cbn; try inv_same w Hi p.
  - split; [apply (i_names w Hi)|done].
  - apply excl_kept; [done|]. intros []; cbn; rewrite Hpc, ?Hh; done.
  - intros q h'. at_sock q p; [cbn; intros [= <-] _; by apply Hin|apply (i_inited w Hi q)].
  - intros h'. split; [apply count_kept; [done|congruence]|apply (i_count w Hi h')].
  - intros q h' Hq Hm Hs. right.
    assert (h' = h \/ exists q', q' <> p /\ closing (s_pc (w_sock w q')) /\
      s_shmem (w_sock w q') = Some h') as [->|(q'&Hne&Hq'&Hqh)].
    { at_sock q p; [left; cbn in Hq; congruence|].
      destruct (i_named w Hi q h' Hq Hm Hs) as [[_ ?]|(q'&?&?)]; [left; congruence|].
      destruct (decide (q' = p)) as [->|]; [left; congruence|]. right. exists q'. done. }
    + exists p. rewrite fn_lookup_insert. done.
    + exists q'. rewrite fn_lookup_insert_ne by done. done.
  - intros q h'. at_sock q p; [cbn; intros [= <-] _; done|]. intros Hq Hc.
    destruct (i_closing w Hi q h' Hq Hc) as (Hs&Hu&_). split; [done|split; [|done]].
    intros E. specialize (Hu E). assert (h' = h) as -> by congruence.
    assert (q = p) by (apply (closing_unique w p q h); auto; by rewrite Hpc). done.
  - done.
Qed.

Lemma inv_mark w p h s' :
  inv w -> s_pc (w_sock w p) = AtMark -> s_shmem (w_sock w p) = Some h ->
  s' = Sock (AtUnlocks 0) (s_lock (w_sock w p)) (Some h) (s_mq (w_sock w p)) ->
  inv (set_sock p s' (set_state h UNLINKED w)).
Proof.
  intros Hi Hpc Hh ->. destruct (i_closing w Hi p h Hh ltac:(by rewrite Hpc)) as (Hst&_&Hmn).
  specialize (Hmn Hpc). pose proof (i_lock w Hi p) as Hl. rewrite Hpc in Hl.
  pose proof (i_opened w Hi p) as Ho. rewrite Hpc in Ho.
  pose proof (i_inited w Hi p h Hh ltac:(by rewrite Hpc)) as Hin. pose proof (i_shmem w Hi p h Hh).
  unfold set_sock, set_state, set_shm. split; cbn; try inv_same w Hi p.
  - intros h' Hh'. rewrite fn_lookup_insert_ne by lia. by apply (i_fresh w Hi).
  - apply excl_kept; [done|]. intros []; cbn; rewrite Hpc, ?Hh; [done|].
    intros [[_ Hlt]%bool_decide_spec Hs]%andb_True. apply andb_True.
    split; [by apply bool_decide_spec|done].
  - intros q h'. at_shm h' h; [done|].
    at_sock q p; [cbn; intros [= ->]; done|apply (i_inited w Hi q)].
  - intros q h'. at_sock q p; [done|]. intros Hq.
    at_shm h' h; [|by apply (i_initing w Hi)].
    destruct (i_initing w Hi q h Hq) as [H1 H2].
    split; intros E; destruct Hin; [by apply H1|by apply H2].
  - intros h'. at_shm h' h; [split; [done|]; intros _; by apply (i_count w Hi h)|].
    split; [apply count_kept; [done|congruence]|apply (i_count w Hi h')].
  - intros q h' Hq Hm Hs. at_shm h' h; [done|]. at_sock q p; [cbn in Hq; congruence|].
    destruct (i_named w Hi q h' Hq Hm Hs) as [|(q'&Hq'&Hqh)]; [by left|].
    right. exists q'. at_sock q' p; [congruence|done].
  - intros q h'. at_sock q p; [done|]. intros Hq Hc.
    at_shm h' h; [|by apply (i_closing w Hi)].
    assert (q = p) by (apply (closing_unique w p q h); auto; by rewrite Hpc). done.
  - intros h'. at_shm h' h; [done|apply (i_unlinked w Hi)].
Qed.

(** ** Every calm step preserves the invariant *)

(** What a socket holds at one place compared with another. *)
Ltac solve_holds :=
  intros [?|? ?]; cbn; rewrite ?andb_True, ?bool_decide_spec;
  unfold locks_count in *; intuition (lia || congruence).

Ltac same_place E := apply inv_go; [done|by rewrite E|rewrite E; solve_holds].

Lemma sem_wait_some {f : world -> world} r w w' :
  f <$> sem_wait r w = Some w' -> exists w1, sem_wait r w = Some w1 /\ w' = f w1.
Proof. destruct (sem_wait r w) as [w1|]; [|done]. intros [= <-]. by exists w1. Qed.

(** [AtState]: the move depends on the state of the memory. *)
Lemma inv_at_state w p h c' :
  inv w -> s_pc (w_sock w p) = AtState -> s_shmem (w_sock w p) = Some h ->
  c' = match state (w_shm w h) with UNLINKED => AtRetry | UNITILIZATED => AtInit | OK => AtLoad end ->
  inv (go p c' w).
Proof.
  intros Hi Hpc Hh Hc'. unfold go, set_sock. apply inv_harmless; [done| |done].
  assert (is_Some (s_lock (w_sock w p))) by (apply (i_opened w Hi); by rewrite Hpc).
  assert (forall r, holds (Sock c' (s_lock (w_sock w p)) (Some h) (s_mq (w_sock w p))) r ->
    holds (w_sock w p) r) as Hho
    by (intros r; subst c'; destruct r, (state (w_shm w h)); cbn; by rewrite ?Hpc).
  split; cbn; rewrite ?Hpc, ?Hh; try done.
  - subst c'. destruct (state (w_shm w h)); done.
  - intros _. by left.
  - intros h' [= <-] Hin. right. subst c'. destruct (state (w_shm w h)); done.
  - intros h' [= <-] ->. destruct (state (w_shm w h)) eqn:Hst; try done. split; [done|].
    destruct (proj1 (i_count w Hi h) Hst) as [|(q&Hq&Hqh)]; [done|].
    destruct (decide (p = q)) as [->|Hne]; [congruence|].
    destruct Hne, (ctor_unique w q p Hi); rewrite ?Hq, ?Hpc; try done.
    apply (i_opened w Hi). by rewrite Hq.
  - subst c'. destruct (state (w_shm w h)); done.
  - apply (i_binary w Hi).
  - intros r Hr. apply same_own; auto.
  - intros r q _ Hq. apply (i_excl w Hi r q q Hq).
Qed.

(** [AtLock] of a retry: the semaphore has been opened before. *)
Lemma inv_lock_again w p n :
  inv w -> s_pc (w_sock w p) = AtLock -> s_lock (w_sock w p) = Some n -> inv (go p AtWait w).
Proof.
  intros Hi Hpc Hl. unfold go, set_sock. apply inv_harmless; [done| |done].
  split; cbn; rewrite ?Hpc, ?Hl; try done.
  - intros _. by left.
  - apply (i_binary w Hi).
  - intros []; done.
  - intros r q _ Hq. apply (i_excl w Hi r q q Hq).
Qed.

Lemma inv_mq_open w p :
  inv w -> s_pc (w_sock w p) = AtMqOpen -> inv (mq_open p w).
Proof.
  intros Hi Hpc. unfold mq_open.
  assert (forall n, harmless w p (Sock AtUnlock (s_lock (w_sock w p)) (s_shmem (w_sock w p)) (Some n))
    (w_sem w)) as Hh.
  { intros n. apply moves_harmless; try done; [by rewrite Hpc|by left|apply (i_binary w Hi)| |].
    - intros r Hr. apply same_own; [done|]. destruct r; cbn in *; rewrite Hpc; done.
    - intros r q _ Hq. apply (i_excl w Hi r q q Hq). }
  destruct (w_mq_name w) as [n|]; [unfold set_sock|]; apply inv_harmless; try done. lia.
Qed.

Lemma inv_mq_drop w p c' :
  inv w -> moves (s_pc (w_sock w p)) c' ->
  (forall r, holds (Sock c' (s_lock (w_sock w p)) (s_shmem (w_sock w p)) None) r ->
     holds (w_sock w p) r) ->
  inv (mq_drop p c' w).
Proof.
  intros Hi Hm Hh. unfold mq_drop. destruct (s_mq (w_sock w p)); [|by apply inv_go].
  apply inv_harmless; [done| |done]. apply moves_harmless; try done; [by left|apply (i_binary w Hi)| |].
  - intros r Hr. apply same_own; [done|]. auto.
  - intros r q _ Hq. apply (i_excl w Hi r q q Hq).
Qed.

Lemma inv_step_reopen w w' p : inv w -> step_reopen p w = Some w' -> inv w'.
Proof.
  intros Hi. unfold step_reopen. destruct (w_sock w p) as [c lk sh mq] eqn:E.
  destruct c; try done.
  - destruct lk as [n|]; intros [= <-];
      [apply (inv_lock_again w p n)|apply inv_create_lock]; rewrite ?E; done.
  - destruct lk as [n|]; [|done]. intros (w1&Hw&->)%sem_wait_some.
    apply (inv_wait w w1 p _ (Named n)); rewrite ?E; [done|done|done|solve_holds].
  - intros [= <-]. apply inv_shm_open; [done|by rewrite E].
  - intros [= <-]. same_place E.
  - destruct sh as [h|]; [|done]. intros [= <-]. by apply (inv_at_state w p h); rewrite ?E.
  - destruct sh as [h|]; [|done]. intros [= <-]. unfold go. cbn. rewrite E.
    apply (inv_init w p h); rewrite ?E; done.
  - destruct sh as [h|]; [|done]. intros [= <-]. unfold go. cbn. rewrite E.
    apply (inv_set_ok w p h); rewrite ?E; done.
  - intros [= <-]. apply inv_mq_open; [done|by rewrite E].
  - intros [= <-]. same_place E.
  - destruct lk as [n|]; [|done]. intros [= <-]. unfold go. cbn. rewrite E.
    apply (inv_post w p _ (Named n)); rewrite ?E; try done; [cbn; by rewrite bool_decide_true|by left|].
    solve_holds.
  - destruct lk as [n|]; [|done]. intros [= <-].
    apply (inv_post w p _ (Named n)); rewrite ?E; try done; [cbn; by rewrite bool_decide_true|by right|].
    solve_holds.
Qed.

(** A refused [sem_init] changes [locks_num] of memory that counts as not
    initialised. *)
Lemma inv_init_throws w p h :
  inv w -> s_shmem (w_sock w p) = Some h -> inv (initializer_throws h w).
Proof.
  intros Hi Hh. pose proof (i_shmem w Hi p h Hh). unfold initializer_throws, set_shm.
  split; cbn; try apply Hi.
  - intros h' Hh'. rewrite fn_lookup_insert_ne by lia. by apply (i_fresh w Hi).
  - intros q h' Hq Hin. pose proof (i_inited w Hi q h' Hq Hin). by at_shm h' h.
  - intros q h' Hq. pose proof (i_initing w Hi q h' Hq). at_shm h' h; naive_solver.
  - intros h'. pose proof (i_count w Hi h'). at_shm h' h; naive_solver.
  - intros q h' Hq Hm Hs. apply (i_named w Hi q h'); [done..|]. by at_shm h' h.
  - intros q h' Hq Hc. pose proof (i_closing w Hi q h' Hq Hc). by at_shm h' h.
  - intros h' Hs. apply (i_unlinked w Hi). by at_shm h' h.
Qed.

Lemma inv_step_fails w w' p : inv w -> step_reopen_fails p w = Some w' -> inv w'.
Proof.
  intros Hi. unfold step_reopen_fails. destruct (w_sock w p) as [c lk sh mq] eqn:E.
  destruct c; try done; cbn; [destruct lk; [done|]|..]; try (intros [= <-]; same_place E).
  destruct sh as [h|]; [|done]. intros [= <-].
  assert (w_sock (initializer_throws h w) p = w_sock w p) as E' by done.
  apply inv_go; rewrite ?E', ?E; [|done|solve_holds].
  apply (inv_init_throws w p); by rewrite ?E.
Qed.

Lemma inv_at_check w p h b :
  inv w -> s_pc (w_sock w p) = AtCheck b -> s_shmem (w_sock w p) = Some h ->
  inv (go p (if decide (state (w_shm w h) = UNLINKED) then AtRefuse b else Using b) w).
Proof.
  intros Hi Hpc Hh. apply inv_go; [done|rewrite Hpc; by destruct (decide _)|].
  destruct (decide _), b; intros []; cbn; by rewrite Hpc.
Qed.

Lemma inv_step_use w w' p a : inv w -> step_use p a w = Some w' -> inv w'.
Proof.
  intros Hi. unfold step_use. destruct (w_sock w p) as [c lk sh mq] eqn:E.
  destruct a as [| | |[]| |i| |], c; try done.
  - destruct lk as [n|]; [|done]. intros (w1&Hw&->)%sem_wait_some.
    apply (inv_wait w w1 p _ (Named n)); rewrite ?E; [done|done|done|solve_holds].
  - destruct sh as [h|]; [|done]. intros [= <-]. by apply inv_at_check; rewrite ?E.
  - destruct internal; [destruct lk as [n|]; [|done]|]; intros [= <-]; [|same_place E].
    unfold go. cbn. rewrite E.
    apply (inv_post w p _ (Named n)); rewrite ?E; try done;
      [cbn; by rewrite bool_decide_true|by left|solve_holds].
  - intros [= <-]. same_place E.
  - intros [= <-]. same_place E.
  - intros [= <-]. same_place E.
  - destruct internal; [destruct lk as [n|]; [|done]|]; intros [= <-]; [|same_place E].
    unfold go. cbn. rewrite E.
    apply (inv_post w p _ (Named n)); rewrite ?E; try done;
      [cbn; by rewrite bool_decide_true|by left|solve_holds].
  - destruct sh as [h|]; [|done]. destruct (decide _); [|done]. intros (w1&Hw&->)%sem_wait_some.
    apply (inv_wait w w1 p _ (Internal h i)); rewrite ?E; [done|done|done|solve_holds].
  - destruct sh as [h|]; [|done]. intros [= <-]. unfold go. cbn. rewrite E.
    apply (inv_post w p _ (Internal h i)); rewrite ?E; try done;
      [cbn; by rewrite !bool_decide_true|by left|solve_holds].
Qed.

(** The destructor's memory is initialised, so it has [locks_count] locks. *)
Lemma locks_num_inited w p h :
  inv w -> inited (s_pc (w_sock w p)) -> s_shmem (w_sock w p) = Some h ->
  locks_num (w_shm w h) = locks_count.
Proof. intros Hi Hc Hh. apply (i_count w Hi h), (i_inited w Hi p h Hh Hc). Qed.

Lemma holds_one_more i lk h mq mq' r :
  holds (Sock (AtLocks (S i)) lk (Some h) mq) r ->
  holds (Sock (AtLocks i) lk (Some h) mq') r \/ r = Internal h i.
Proof.
  destruct r as [n|h' j]; [by left|]. cbn. rewrite !andb_True, !bool_decide_spec.
  intros [Hj [= <-]]. destruct (decide (j = i)) as [->|]; [by right|left]. split; [lia|done].
Qed.

Lemma holds_one_less i lk h mq mq' r :
  holds (Sock (AtUnlocks (S i)) lk (Some h) mq) r ->
  holds (Sock (AtUnlocks i) lk (Some h) mq') r /\ r <> Internal h i.
Proof.
  destruct r as [n|h' j]; [done|]. cbn. rewrite !andb_True, !bool_decide_spec.
  intros [Hj [= <-]]. split; [split; [lia|done]|]. intros [= ->]. lia.
Qed.

Lemma inv_step_close w w' p :
  inv w -> calm p Next w -> step_close p w = Some w' -> inv w'.
Proof.
  intros Hi Hcalm. unfold step_close. destruct (w_sock w p) as [c lk sh mq] eqn:E.
  pose proof (fun h Hc => locks_num_inited w p h Hi Hc) as Hn. rewrite E in Hn. cbn in Hn.
  unfold calm in Hcalm. rewrite E in Hcalm. cbn in Hcalm.
  destruct c; try done.
  - destruct lk as [n|]; [|done]. intros (w1&Hw&->)%sem_wait_some.
    apply (inv_wait w w1 p _ (Named n)); rewrite ?E; [done|done|done|solve_holds].
  - destruct sh as [h|]; [|done]. rewrite (Hn h I eq_refl).
    destruct (decide _); [|intros [= <-]; same_place E]. intros (w1&Hw&->)%sem_wait_some.
    apply (inv_wait w w1 p _ (Internal h i)); rewrite ?E; [done|done|done|].
    apply holds_one_more.
  - intros [= <-]. destruct (i_mapped w Hi p) as [h Hh]; [by rewrite E|]. rewrite E in Hh.
    cbn in Hh. subst sh. destruct (Hcalm eq_refl eq_refl) as [Hu Hq].
    unfold go. cbn. rewrite E. apply (inv_sem_unlink w p h); rewrite ?E; auto.
  - intros [= <-]. destruct (i_mapped w Hi p) as [h Hh]; [by rewrite E|]. rewrite E in Hh.
    cbn in Hh. subst sh. unfold go. cbn. rewrite E. apply (inv_shm_unlink w p h); rewrite ?E; done.
  - destruct sh as [h|]; [|done]. intros [= <-]. unfold go. cbn. rewrite E.
    apply (inv_mark w p h); rewrite ?E; done.
  - destruct sh as [h|]; [|done]. rewrite (Hn h I eq_refl).
    destruct (decide _); [|intros [= <-]; same_place E]. intros [= <-]. unfold go. cbn. rewrite E.
    apply (inv_post w p _ (Internal h i)); rewrite ?E; try done; [|by left|apply holds_one_less].
    cbn. rewrite !bool_decide_true by (done || lia). done.
  - destruct lk as [n|]; [|done]. intros [= <-]. unfold go. cbn. rewrite E.
    apply (inv_post w p _ (Named n)); rewrite ?E; try done;
      [cbn; by rewrite bool_decide_true|by left|solve_holds].
  - intros [= <-]. apply inv_mq_drop; [done|by rewrite E|rewrite E; solve_holds].
  - destruct mq as [n|]; [|done]. intros [= <-].
    apply inv_mq_drop; [done|by rewrite E|rewrite E; solve_holds].
Qed.

Lemma inv_step_close_fails w w' p : inv w -> step_close_fails p w = Some w' -> inv w'.
Proof.
  intros Hi. unfold step_close_fails. destruct (w_sock w p) as [c lk sh mq] eqn:E.
  destruct c; try done; [intros [= <-]; same_place E|]. destruct sh as [h|]; [|done].
  destruct (decide _); [|done]. intros [= <-]. same_place E.
Qed.

Lemma orelse_some {A} (x y : option A) z : orelse x y = Some z -> x = Some z \/ y = Some z.
Proof. destruct x; auto. Qed.

Lemma calm_step_inv w w' : inv w -> calm_step w w' -> inv w'.
Proof.
  intros Hi (p&a&Hcalm&Hs). unfold step in Hs. destruct (w_sock w p) as [c lk sh mq] eqn:E.
  cbn in Hs. destruct a as [| | |b| |i| |].
  - apply orelse_some in Hs as [Hs|[Hs|Hs]%orelse_some].
    + by apply (inv_step_reopen w w' p).
    + by apply (inv_step_use w w' p Next).
    + by apply (inv_step_close w w' p).
  - apply orelse_some in Hs as [Hs|[Hs|Hs]%orelse_some].
    + by apply (inv_step_fails w w' p).
    + by apply (inv_step_use w w' p Err).
    + by apply (inv_step_close_fails w w' p).
  - destruct c; try (by apply (inv_step_use w w' p Construct)). injection Hs as <-. same_place E.
  - by apply (inv_step_use w w' p (Acquire b)).
  - by apply (inv_step_use w w' p Put).
  - by apply (inv_step_use w w' p (Enter i)).
  - by apply (inv_step_use w w' p Leave).
  - destruct c; try (by apply (inv_step_use w w' p Destroy)). injection Hs as <-. same_place E.
Qed.

Lemma calm_inv w w' : rtc calm_step w w' -> inv w -> inv w'.
Proof. induction 1; eauto using calm_step_inv. Qed.

Lemma calm_reachable_inv w : rtc calm_step world_init w -> inv w.
Proof. intros H. apply (calm_inv _ _ H), world_init_inv. Qed.

(** ** Properties *)

(** One goal for every way a step can go, with the state it leads to. *)
Ltac step_cases w p Hs E :=
  revert Hs; unfold step, step_reopen, step_reopen_fails, step_use, step_close, step_close_fails;
  destruct (w_sock w p) as [c lk sh mq] eqn:E; cbn;
  unfold go, create_lock, shm_open, mq_open, mq_drop, sem_wait, orelse, set_sock;
  match goal with |- _ -> _ => idtac end;
  match goal with a : act |- _ => destruct a as [| | |[]| | | |] end;
  destruct c, lk, sh; cbn; rewrite ?E; try done;
  repeat (case_match; cbn); intros [= <-]; cbn; try done;
  try match goal with
  | H : _ = Some ?y |- context [?y] => cbn in H; injection H as <-; cbn
  end.

(** Memory that has been unlinked stays so: only [AtSetOk] writes another
    state, into memory that is not initialised. *)
Lemma unlinked_step w w' h :
  inv w -> calm_step w w' -> state (w_shm w h) = UNLINKED -> state (w_shm w' h) = UNLINKED.
Proof.
  intros Hi (p&a&_&Hs) Hst.
  assert (forall h', s_shmem (w_sock w p) = Some h' -> s_pc (w_sock w p) = AtSetOk -> h' <> h) as Hne.
  { intros h' Hh Hpc ->. destruct (proj2 (i_initing w Hi p h Hh) Hpc). congruence. }
  step_cases w p Hs E; cbn in Hne; try done.
  all: match goal with
         | |- state (<[?x := _]> _ ?y) = _ =>
             destruct (decide (y = x)) as [->|];
             [rewrite fn_lookup_insert; try done; by destruct (Hne x)
             |by rewrite fn_lookup_insert_ne]
         end.
Qed.

(** C23: processes share one socket properly as long as runs are calm: the
    memory is initialised at most once, and exactly once before any constructor
    returns; between the lock and the unlock of [reopen] there is at most one
    process; and from a destructor's [sem_unlink] until it has marked the memory
    UNLINKED nobody is in a section under one of the memory's four locks. *)
Theorem socket_initialised_once w :
  rtc calm_step world_init w ->
  (forall h, (inits (w_shm w h) <= 1)%nat) /\
  (forall p h, s_shmem (w_sock w p) = Some h -> inited (s_pc (w_sock w p)) ->
    inits (w_shm w h) = 1%nat /\ locks_num (w_shm w h) = locks_count) /\
  (forall p q, in_ctor (s_pc (w_sock w p)) && has_lock (s_pc (w_sock w p)) ->
    in_ctor (s_pc (w_sock w q)) && has_lock (s_pc (w_sock w q)) -> q = p) /\
  (forall p q h i, closing (s_pc (w_sock w p)) -> s_shmem (w_sock w p) = Some h ->
    s_shmem (w_sock w q) = Some h -> (i < locks_count)%nat -> s_pc (w_sock w q) <> Inside i).
Proof.
  intros Hr. pose proof (calm_reachable_inv w Hr) as Hi. repeat split.
  - intros h. destruct (i_count w Hi h) as [Hu Ho].
    destruct (decide (state (w_shm w h) = UNITILIZATED)) as [Hst|Hst];
      [|destruct (Ho Hst); lia].
    destruct (Hu Hst) as [|(p&Hp&Hh)]; [lia|].
    destruct (proj2 (i_initing w Hi p h Hh) Hp) as (_&->&_). lia.
  - by apply (i_count w Hi h), (i_inited w Hi p).
  - by apply (locks_num_inited w p).
  - intros p q [Hp Hp']%andb_True [Hq Hq']%andb_True.
    assert (forall x, in_ctor (s_pc (w_sock w x)) -> has_lock (s_pc (w_sock w x)) ->
      is_Some (s_lock (w_sock w x))) as Ho.
    { intros x H1 H2. apply (i_opened w Hi). destruct (s_pc (w_sock w x)); done. }
    by apply (ctor_unique w p q Hi); auto.
  - intros p q h i Hp Hh Hq Hlt E.
    assert (q = p) as ->.
    { apply (i_excl w Hi (Internal h i) p q); cbn.
      - rewrite Hh. destruct (s_pc (w_sock w p)); try done; cbn;
          by rewrite !bool_decide_true by (done || lia).
      - by rewrite E, Hq; cbn; rewrite !bool_decide_true. }
    by rewrite E in Hp.
Qed.

(** C24: a closed socket stays closed in a calm run: its memory is UNLINKED for
    ever, no constructor opens it again, and [accquire_shmem] refuses it. *)
Theorem closed_for_good w w' h :
  rtc calm_step world_init w -> state (w_shm w h) = UNLINKED -> rtc calm_step w w' ->
  state (w_shm w' h) = UNLINKED /\ w_shm_name w' <> Some h /\
  forall p b, s_pc (w_sock w' p) = AtCheck b -> s_shmem (w_sock w' p) = Some h ->
    step p Next w' = Some (go p (AtRefuse b) w').
Proof.
  intros Hr Hst Hr'. apply calm_reachable_inv in Hr as Hi.
  assert (state (w_shm w' h) = UNLINKED /\ inv w') as [Hst' Hi'].
  { clear Hr. induction Hr' as [|w1 w2 w3 Hs Hr' IH]; [done|].
    apply IH; [by apply (unlinked_step w1)|by apply (calm_step_inv w1)]. }
  split; [done|]. split; [by apply (i_unlinked w' Hi')|]. intros p b Hpc Hh.
  unfold step, step_reopen, step_use. destruct (w_sock w' p) as [c lk sh mq]. cbn in *. subst.
  cbn. by rewrite decide_True.
Qed.

(** ** Concrete runs *)

Lemma run_any tr w w' : run tr w = Some w' -> rtc any_step w w'.
Proof.
  revert w. induction tr as [|[p a] tr IH]; intros w; cbn; [intros [= <-]; done|].
  destruct (step p a w) as [w1|] eqn:E; [|done]. intros Hr.
  eapply rtc_l; [by exists p, a|]. by apply IH.
Qed.

Lemma step_other w w' p a q : step p a w = Some w' -> q <> p -> w_sock w' q = w_sock w q.
Proof.
  intros Hs Hne. step_cases w p Hs E; try done; rewrite ?fn_lookup_insert_ne by done; done.
Qed.

(** The calm runs among them, when the first [n] processes are those that take
    part in the run. *)
Definition calm_among (n p : nat) (a : act) (w : world) : bool :=
  match w_sock w p, a with
  | Sock AtSemUnlink lk (Some h) _, Next =>
      bool_decide (state (w_shm w h) <> UNLINKED) &&
      forallb (fun q => negb (in_ctor (s_pc (w_sock w q))) ||
                        bool_decide (s_lock (w_sock w q) <> lk)) (seq 0 n)
  | Sock AtSemUnlink _ None _, Next => false
  | _, _ => true
  end.

Fixpoint run_calm (n : nat) (tr : list (nat * act)) (w : world) : option world :=
  match tr with
  | [] => Some w
  | (p, a) :: tr =>
      if calm_among n p a w && bool_decide (p < n)%nat then step p a w ≫= run_calm n tr else None
  end.

Lemma calm_among_calm n p a w :
  (forall q, (n <= q)%nat -> w_sock w q = newborn) -> calm_among n p a w -> calm p a w.
Proof.
  intros Hn Hc Hpc ->. unfold calm_among in Hc. destruct (w_sock w p) as [c lk [h|] mq]; cbn in *;
    subst; [|done].
  apply andb_True in Hc as [Hst%bool_decide_spec Hq]. split; [intros h' [= <-]; done|].
  intros q Hin. destruct (decide (n <= q)%nat) as [Hle|Hlt]; [by rewrite (Hn q Hle) in Hin|].
  apply Is_true_true in Hq. rewrite forallb_forall in Hq.
  specialize (Hq q ltac:(apply in_seq; lia)). apply Is_true_true, orb_True in Hq as [Hq|Hq].
  - by destruct (in_ctor _).
  - by apply bool_decide_spec in Hq.
Qed.

Lemma run_calm_steps n tr w w' :
  (forall q, (n <= q)%nat -> w_sock w q = newborn) -> run_calm n tr w = Some w' ->
  rtc calm_step w w'.
Proof.
  revert w. induction tr as [|[p a] tr IH]; intros w Hn; cbn; [intros [= <-]; done|].
  destruct (calm_among n p a w && _) eqn:Hc; [|done].
  apply Is_true_true, andb_True in Hc as [Hc Hp%bool_decide_spec].
  destruct (step p a w) as [w1|] eqn:E; [|done]. intros Hr.
  eapply rtc_l; [exists p, a; split; [by apply (calm_among_calm n)|done]|].
  apply IH; [|done]. intros q Hq. rewrite (step_other _ _ _ _ _ E) by lia. auto.
Qed.

(** [p] constructs with [k] calls, and destroys with [k] calls. *)
Definition calls (p k : nat) : list (nat * act) := repeat (p, Next) k.
Definition constructs (p k : nat) : list (nat * act) := (p, Construct) :: calls p k.
Definition destroys (p k : nat) : list (nat * act) := (p, Destroy) :: calls p k.

Definition world_at (o : option world) : world := default world_init o.

Lemma run_calm_reaches n tr (P : world -> Prop) :
  is_Some (run_calm n tr world_init) -> P (world_at (run_calm n tr world_init)) ->
  exists w, rtc calm_step world_init w /\ P w.
Proof.
  intros [w Hw] HP. exists w. rewrite Hw in HP. split; [|done].
  by apply (run_calm_steps n tr); [done|].
Qed.

Lemma run_reaches tr (P : world -> Prop) :
  is_Some (run tr world_init) -> P (world_at (run tr world_init)) ->
  exists w, rtc any_step world_init w /\ P w.
Proof.
  intros [w Hw] HP. exists w. rewrite Hw in HP. split; [by apply (run_any tr)|done].
Qed.

(** Process 0 initialises the socket, process 1 loads it and enters a section;
    the destructor of process 0 waits for it, and has unlinked the semaphore's
    name when the run stops. *)
Definition close_under_way : list (nat * act) :=
  constructs 0 9 ++ constructs 1 7 ++ [(1%nat, Enter 2)] ++ destroys 0 3 ++ [(1%nat, Leave)] ++
  calls 0 4.

Lemma socket_initialised_once_witness :
  exists w, rtc calm_step world_init w /\ s_pc (w_sock w 0%nat) = AtShmUnlink /\
    s_pc (w_sock w 1%nat) = Ready /\ s_shmem (w_sock w 1%nat) = Some 1%nat /\
    inits (w_shm w 1%nat) = 1%nat.
Proof.
  destruct (run_calm_reaches 2 close_under_way (fun w =>
    s_pc (w_sock w 0%nat) = AtShmUnlink /\ s_pc (w_sock w 1%nat) = Ready /\
    s_shmem (w_sock w 1%nat) = Some 1%nat)) as (w&Hr&H0&H1&H2);
    [eexists; vm_compute; reflexivity|vm_compute; done|].
  exists w. split; [done|]. split; [done|]. split; [done|]. split; [done|].
  apply (proj1 (proj2 (socket_initialised_once w Hr)) 1%nat 1%nat); [done|]. by rewrite H1.
Defined.

(** The same run to the end: process 1 asks for the memory afterwards. *)
Definition asks_too_late : list (nat * act) := [(1%nat, Acquire false)].

Lemma closed_for_good_witness :
  exists w, rtc calm_step world_init w /\ s_pc (w_sock w 1%nat) = AtCheck false /\
    step 1 Next w = Some (go 1 (AtRefuse false) w).
Proof.
  set (w0 := world_at (run_calm 2 (close_under_way ++ calls 0 2) world_init)).
  assert (rtc calm_step world_init w0) as Hr
    by (apply (run_calm_steps 2 (close_under_way ++ calls 0 2)); [done|vm_compute; reflexivity]).
  set (w := world_at (run asks_too_late w0)).
  assert (rtc calm_step w0 w) as Hr'
    by (eapply rtc_once; exists 1%nat, (Acquire false); split; [by intros _|vm_compute; reflexivity]).
  exists w. split; [by etrans|]. split; [vm_compute; reflexivity|].
  apply (closed_for_good w0 w 1%nat Hr ltac:(vm_compute; reflexivity) Hr');
    vm_compute; reflexivity.
Defined.

(** Process 1 opens the semaphore and waits; process 0 destroys the socket;
    process 2 constructs it anew. *)
Definition opener_waits : list (nat * act) :=
  constructs 0 9 ++ constructs 1 1 ++ destroys 0 15 ++ calls 1 4 ++ constructs 2 5 ++
  calls 1 1 ++ calls 2 1.

(** Processes 0 and 1 share a socket; both destroy it, and between the two
    process 2 constructs it anew, after them process 3. *)
Definition closed_twice : list (nat * act) :=
  constructs 0 9 ++ constructs 1 7 ++ destroys 0 15 ++ constructs 2 9 ++ destroys 1 15 ++
  constructs 3 9.

(** C39: without either of the two conditions of calm runs the protocol fails.
    A constructor that had opened the old semaphore when the socket was
    destroyed goes on with the new memory under the old semaphore: it and a
    later constructor are both between lock and unlock and both initialise the
    same memory.  A second destructor of the same memory removes the names of
    the socket's next life: two processes then have sockets with the one label
    that share nothing. *)
Theorem lifecycle_needs_calm :
  (exists w, rtc any_step world_init w /\
     s_pc (w_sock w 1%nat) = AtSetOk /\ s_pc (w_sock w 2%nat) = AtSetOk /\
     s_shmem (w_sock w 1%nat) = s_shmem (w_sock w 2%nat) /\ inits (w_shm w 3%nat) = 2%nat) /\
  (exists w, rtc any_step world_init w /\
     s_pc (w_sock w 2%nat) = Ready /\ s_pc (w_sock w 3%nat) = Ready /\
     s_shmem (w_sock w 2%nat) = Some 4%nat /\ s_shmem (w_sock w 3%nat) = Some 6%nat /\
     state (w_shm w 4%nat) = OK /\ state (w_shm w 6%nat) = OK).
Proof.
  split.
  - apply (run_reaches opener_waits); [eexists; vm_compute; reflexivity|vm_compute; done].
  - apply (run_reaches closed_twice); [eexists; vm_compute; reflexivity|vm_compute; done].
Qed.

(** The queue of process 0 is unlinked by the destructor of its member, after
    the lock has been released. *)
Definition reopened_in_between : list (nat * act) :=
  constructs 0 9 ++ destroys 0 15 ++ constructs 1 9 ++ calls 0 1.

(** Also in a calm run a socket can lose its message queue: a process that
    constructs the socket between the unlock and the end of another process's
    destructor opens the old queue, whose name is then removed.  And a process
    that finds the memory initialised has no queue at all: [get_mq]
    dereferences a null pointer. *)
Lemma socket_without_queue :
  (exists w, rtc calm_step world_init w /\ s_pc (w_sock w 1%nat) = Ready /\
     w_shm_name w = s_shmem (w_sock w 1%nat) /\ get_mq (w_sock w 1%nat) = Some 2%nat /\
     w_mq_name w = None) /\
  (exists w, rtc calm_step world_init w /\ s_pc (w_sock w 1%nat) = Ready /\
     get_mq (w_sock w 1%nat) = None).
Proof.
  split.
  - apply (run_calm_reaches 2 reopened_in_between);
      [eexists; vm_compute; reflexivity|vm_compute; done].
  - apply (run_calm_reaches 2 (constructs 0 9 ++ constructs 1 7));
      [eexists; vm_compute; reflexivity|vm_compute; done].
Qed.

(** ** The constructor returns *)

(** Within [b] calls [p] has a socket whose memory is [h], the named one. *)
Definition returns (p b : nat) (w : world) (h : nat) : Prop :=
  exists k w', (k <= b)%nat /\ run (calls p k) w = Some w' /\
    s_pc (w_sock w' p) = Ready /\ s_shmem (w_sock w' p) = Some h /\
    w_shm_name w' = Some h /\ state (w_shm w' h) = OK.

Lemma returns_step p b w w1 h :
  step_reopen p w = Some w1 -> returns p b w1 h -> returns p (S b) w h.
Proof.
  intros Hs (k&w'&Hk&Hr&HQ). exists (S k), w'. split; [lia|]. split; [|done].
  cbn. unfold step. by rewrite Hs.
Qed.

(** One call of the constructor, from the place the socket is known to be at. *)
Ltac one_call E :=
  eapply returns_step; [unfold step_reopen; rewrite E; reflexivity|].

Lemma returns_unlock p w n h mq :
  w_sock w p = Sock AtUnlock (Some n) (Some h) mq -> w_shm_name w = Some h ->
  state (w_shm w h) = OK -> returns p 1 w h.
Proof.
  intros E Hn Hst. one_call E. exists 0%nat. eexists. split; [lia|]. split; [done|].
  unfold go. cbn. by rewrite fn_lookup_insert, E.
Qed.

Lemma returns_mq_open p w n h mq :
  w_sock w p = Sock AtMqOpen (Some n) (Some h) mq -> w_shm_name w = Some h ->
  state (w_shm w h) = OK -> returns p 2 w h.
Proof.
  intros E Hn Hst. one_call E. unfold mq_open. rewrite E.
  destruct (w_mq_name w) as [m|]; eapply (returns_unlock p _ n h); cbn;
    rewrite ?fn_lookup_insert; done.
Qed.

Lemma returns_init p w n h mq :
  w_sock w p = Sock AtInit (Some n) (Some h) mq -> w_shm_name w = Some h -> returns p 4 w h.
Proof.
  intros E Hn. one_call E.
  eapply returns_step.
  { unfold step_reopen, go. cbn. rewrite fn_lookup_insert, E. reflexivity. }
  eapply (returns_mq_open p _ n h mq); unfold go; cbn; rewrite ?fn_lookup_insert, ?E; done.
Qed.

Lemma returns_state p w n h mq :
  w_sock w p = Sock AtState (Some n) (Some h) mq -> w_shm_name w = Some h ->
  state (w_shm w h) <> UNLINKED -> returns p 5 w h.
Proof.
  intros E Hn Hst. one_call E. destruct (state (w_shm w h)) eqn:Hs; [| |done].
  - eapply (returns_init p _ n h mq); unfold go; cbn; rewrite ?fn_lookup_insert, ?E; done.
  - assert (w_sock (go p AtLoad w) p = Sock AtLoad (Some n) (Some h) mq) as E1
      by (unfold go; cbn; by rewrite fn_lookup_insert, E).
    eapply returns_step.
    { unfold step_reopen. rewrite E1. reflexivity. }
    destruct (returns_unlock p (go p AtUnlock (go p AtLoad w)) n h mq) as (k&w'&Hk&HQ);
      [unfold go; cbn; rewrite !fn_lookup_insert, E; done|done|done|].
    exists k, w'. split; [lia|exact HQ].
Qed.

Lemma returns_shm_open p w n sh mq :
  inv w -> w_sock w p = Sock AtShmOpen (Some n) sh mq -> exists h, returns p 7 w h.
Proof.
  intros Hi E. pose proof (i_unlinked w Hi) as Hu. pose proof (i_fresh w Hi (w_next w)) as Hf.
  exists (default (w_next w) (w_shm_name w)). one_call E. unfold shm_open. rewrite E.
  destruct (w_shm_name w) as [h|] eqn:Hn; cbn;
    (eapply returns_step; [unfold step_reopen; cbn; rewrite fn_lookup_insert; reflexivity|]);
    eapply (returns_state p _ n _ mq); unfold go; cbn; rewrite ?fn_lookup_insert; try done.
  - intros Hst. by destruct (Hu h Hst).
  - by rewrite Hf.
Qed.

(** C25: in every state calm runs reach, when the label's semaphore is free (or
    does not exist yet), a new process that is left alone and whose calls
    succeed gets its socket: after at most ten calls of the
    kernel the constructor has returned, the memory it has is the one under
    the label, and it is initialised. *)
Theorem constructor_returns w p :
  rtc calm_step world_init w -> s_pc (w_sock w p) = Unborn ->
  (forall n, w_sem_name w = Some n -> 0 < w_sem w (Named n)) ->
  exists k w' h, (k <= 10)%nat /\ run (constructs p k) w = Some w' /\
    s_pc (w_sock w' p) = Ready /\ s_shmem (w_sock w' p) = Some h /\
    w_shm_name w' = Some h /\ state (w_shm w' h) = OK.
Proof.
  intros Hr Hpc Hfree. pose proof (calm_reachable_inv w Hr) as Hi.
  set (w1 := go p AtLock w).
  assert (step p Construct w = Some w1) as H1 by (unfold step; by rewrite Hpc).
  assert (calm_step w w1) as C1 by (exists p, Construct; by split; [intros E; congruence|]).
  pose proof (calm_step_inv _ _ Hi C1) as Hi1.
  assert (w_sock w1 p = Sock AtLock None (s_shmem (w_sock w p)) (s_mq (w_sock w p))) as E1
    by (unfold w1, go; cbn; by rewrite fn_lookup_insert, (i_unborn w Hi p Hpc)).
  assert (exists n w2, step_reopen p w1 = Some w2 /\ inv w2 /\ 0 < w_sem w2 (Named n) /\
    w_sock w2 p = Sock AtWait (Some n) (s_shmem (w_sock w p)) (s_mq (w_sock w p)))
    as (n&w2&H2&Hi2&Hs2&E2).
  { assert (inv (create_lock p w1)) as Hic by (apply inv_create_lock; by rewrite ?E1).
    unfold step_reopen. rewrite E1. destruct (w_sem_name w) as [n|] eqn:Hn;
      [exists n|exists (w_next w)]; eexists; (split; [done|]); (split; [done|]);
      unfold create_lock; rewrite E1; unfold w1, go; cbn; rewrite Hn; cbn;
      rewrite ?fn_lookup_insert; auto with lia. }
  destruct (sem_wait (Named n) w2) as [w3|] eqn:E3;
    [|unfold sem_wait in E3; destruct (Z.ltb_spec 0 (w_sem w2 (Named n))); [done|lia]].
  assert (step_reopen p w2 = Some (go p AtShmOpen w3)) as H3
    by (unfold step_reopen; by rewrite E2, E3).
  pose proof (inv_step_reopen _ _ _ Hi2 H3) as Hi3.
  assert (w_sock w3 = w_sock w2) as Es
    by (unfold sem_wait in E3; destruct (0 <? _); [by injection E3 as <-|done]).
  destruct (returns_shm_open p (go p AtShmOpen w3) n (s_shmem (w_sock w p)) (s_mq (w_sock w p)))
    as (h&Hret); [done|unfold go; cbn; by rewrite fn_lookup_insert, Es, E2|].
  destruct (returns_step _ _ _ _ _ H2 (returns_step _ _ _ _ _ H3 Hret)) as (k&w'&Hk&Hrun&HQ).
  exists k, w', h. split; [lia|]. split; [|done].
  change (run (constructs p k) w) with (step p Construct w ≫= run (calls p k)).
  rewrite H1. exact Hrun.
Qed.

(** Process 1 constructs a socket that process 0 has closed. *)
Lemma constructor_returns_witness :
  exists w k w' h, rtc calm_step world_init w /\ (k <= 10)%nat /\
    run (constructs 1 k) w = Some w' /\ s_shmem (w_sock w' 1%nat) = Some h.
Proof.
  set (tr := constructs 0 9 ++ destroys 0 15).
  set (w := world_at (run_calm 2 tr world_init)).
  assert (rtc calm_step world_init w) as Hr
    by (apply (run_calm_steps 2 tr); [done|vm_compute; reflexivity]).
  exists w. destruct (constructor_returns w 1 Hr) as (k&w'&h&Hk&Hrun&_&Hh&_);
    [vm_compute; reflexivity|intros n Hn; vm_compute in Hn; discriminate Hn|].
  exists k, w', h. exact (conj Hr (conj Hk (conj Hrun Hh))).
Defined.
