(* ===== verification/Scan.v ===== *)
(** * Scan: what the scan of [next_msg] finds

    [next_msg] of [src/src/tcp_proto_output.h] (133-152) goes through the
    messages of the window by their data lengths.  Where the controller answers
    the lengths of the messages, it finds the first one that is not in use, for
    any buffer and any lengths; the unit tests' controllers do
    ([Tests.cw_controller]).  The socket's own controller answers something
    else, and its scan sees one message only ([CumulativeOps.scan_never_passes_first]). *)
From S2P Require Import Prelude Window Message ProtoMem Cumulative.

(** ** Reference definition *)

(** A message as the scan sees it: the pointer to it, its [used], its length. *)
Record slot (V : Type) : Type := Slot { sl_ptr : V; sl_used : bool; sl_size : Z }.
Arguments Slot {V} _ _ _.
Arguments sl_ptr {V} _.
Arguments sl_used {V} _.
Arguments sl_size {V} _.

Fixpoint slots_size {V} (l : list (slot V)) : Z :=
  match l with [] => 0 | x :: l => sl_size x + slots_size l end.

(** The first message that is not in use. *)
Fixpoint first_unused {V} (l : list (slot V)) : option V :=
  match l with
  | [] => None
  | x :: l => if sl_used x then first_unused l else Some (sl_ptr x)
  end.

Section scan.
Context {St V E : Type} `{!MemArea St cumulative_area, !SentBuf St V E, !SendWait St}.
Implicit Types (s : St) (l : list (slot V)).

(** From [off] on the buffer holds the messages [l], and the controller answers
    what they are. *)
Fixpoint laid_out (off : Z) l s : Prop :=
  match l with
  | [] => True
  | x :: l =>
      output_sent_buf_get_msg_at off s = (Ret (sl_ptr x), s) /\
      is_msg_used (sl_ptr x) s = (Ret (sl_used x), s) /\
      get_msg_data_sz (sl_ptr x) s = (Ret (sl_size x), s) /\
      0 < sl_size x /\ laid_out (off + sl_size x) l s
  end.

(** What [next_msg] does once it has found [v]. *)
Definition take (win : send_window) (v : V) : M St V :=
  mark_msg_used v true;;
  flush win;;
  mret v.

Lemma slots_size_nonneg off l s : laid_out off l s -> 0 <= slots_size l.
Proof.
  revert off. induction l as [|x l IH]; intros off; cbn; [lia|].
  intros (_&_&_&?&Hl). specialize (IH _ Hl). lia.
Qed.

Lemma next_msg_loop_finds fuel win off l s :
  laid_out off l s -> off + slots_size l = w_sent_off win ->
  0 <= off -> w_sent_off win < 9223372036854775808 -> (length l <= fuel)%nat ->
  next_msg_loop fuel win off s =
    match first_unused l with
    | Some v => take win v s
    | None => (Throw ETimeout, s)
    end.
Proof.
  revert off fuel. induction l as [|[v u n] l IH]; intros off fuel.
  - cbn [slots_size length first_unused]. intros _ Hs _ _ _.
    assert ((off <? w_sent_off win) = false) as He by lia.
    destruct fuel; cbn [next_msg_loop]; rewrite He; done.
  - intros (Hg&Hu&Hn&Hpos&Hl) Hsum Hoff Hbig Hf. cbn in Hg, Hu, Hn, Hpos, Hsum, Hf.
    destruct fuel as [|fuel]; [lia|]. pose proof (slots_size_nonneg _ _ _ Hl).
    cbn [next_msg_loop].  rewrite (proj2 (Z.ltb_lt _ _)) by lia.
    mstep Hg. mstep Hu. cbn [first_unused sl_used]. destruct u.
    + mstep Hn. rewrite s64_small by lia. apply IH; (done || lia).
    + done.
Qed.

(** C14: where the controller answers the messages' own lengths, [next_msg] is
    the search for the first outstanding message that is not in use: it returns
    and marks that one, and throws [timeout] exactly when all are in use. *)
Theorem scan_finds_first_unused fuel l s :
  let win := win_of (area_get s) in
  l <> [] -> laid_out (w_off win) l s -> w_off win + slots_size l = w_sent_off win ->
  0 <= w_off win -> w_sent_off win < 9223372036854775808 -> (length l <= fuel)%nat ->
  cw_next_msg fuel s =
    match first_unused l with
    | Some v => take win v s
    | None => (Throw ETimeout, s)
    end.
Proof.
  intros win Hne Hl Hsum Hoff Hbig Hf. unfold cw_next_msg.
  mstep (eq_refl (setup s)). fold win.
  assert (sent_buf_empty win = false) as ->.
  { unfold sent_buf_empty. apply Z.eqb_neq. clearbody win. destruct l as [|x l]; [done|].
    destruct Hl as (_&_&_&?&Hl). pose proof (slots_size_nonneg _ _ _ Hl). cbn [slots_size] in Hsum. lia. }
  cbn [when]. mstep (eq_refl (mret (M:=M St) tt s)). mstep (eq_refl (setup s)). fold win.
  unfold offset. by apply next_msg_loop_finds.
Qed.

End scan.
