(* ===== verification/Setup.v ===== *)
(** * Setup: what is there before the first packet

    The queue attributes and sizes of [src/src/proto.h]; [fill_param],
    [sock_mq]'s constructor and destructor with the limit they raise, from
    [src/src/tcp_engine.cpp]; the constructors of [socket_base],
    [socket_sock_base], [socket_serv] and [socket_client] from
    [src/src/newimpl.cpp].  The answers of the kernel's calls are arguments. *)
From stdpp Require Import gmap strings.
From S2P Require Import Prelude Engine Message Transfer.

(** ** Constants and attributes (proto.h 20-23, 38-43, 58-75) *)

Definition INPUT_MQ_MAXMSG : Z := 100.
Definition INPUT_MQ_MSGSIZE : Z := 100.
Definition TCP_INPUT_MQ_MAXMSG : Z := 100.
Definition TCP_INPUT_MQ_MSGSIZE : Z := 65534 + sizeof_TCP_PACKET.

(** [mq_attr]: the two fields that [mq_open] looks at. *)
Record mq_attr : Type := MqAttr { attr_maxmsg : Z; attr_msgsize : Z }.

Definition default_mq_attr : mq_attr := MqAttr INPUT_MQ_MAXMSG INPUT_MQ_MSGSIZE.
Definition default_tcp_mq_attr : mq_attr := MqAttr TCP_INPUT_MQ_MAXMSG TCP_INPUT_MQ_MSGSIZE.

(** [fill_param] and [fill_param_self] (68-81); [inet_addr] is the library's.
    [htons] and [htonl] swap bytes; [INADDR_ANY] is 0 in any order. *)
Definition htons (p : Z) : Z := ntohs p.
Definition fill_param (inet_addr : string -> Z) (addr : string) (port : Z) : sockaddr_in :=
  Addr (inet_addr addr) (htons port).
Definition fill_param_self (port : Z) : sockaddr_in := Addr INADDR_ANY (htons port).

(** ** The host

    The process's limit on the bytes in message queues, the queues by name, and
    the raw sockets that are open. *)
Record host : Type := Host {
  h_limit : Z * Z;
  h_queues : queues;
  h_fds : list Z;
}.

Definition set_limit (l : Z * Z) (h : host) : host := Host l (h_queues h) (h_fds h).
Definition set_queues (qs : queues) (h : host) : host := Host (h_limit h) qs (h_fds h).
Definition set_fds (fds : list Z) (h : host) : host := Host (h_limit h) (h_queues h) fds.

Definition on_queues {A} (m : M queues A) : M host A := fun h =>
  let '(r, qs) := m (h_queues h) in (r, set_queues qs h).

(** ** [sock_mq] (90-160) *)

Definition MAXMQSYSTEM : Z := 10.

(** An open queue: whether it was created here, and its name. *)
Record sock_mq : Type := SockMq { mq_create : bool; mq_label : string }.

Section sock_mq.

(** Whether the calls succeed. *)
Context (getrlimit_ok setrlimit_ok mq_open_ok : bool).

(** What the constructor wants the limit to be. *)
Definition mq_required (attr : mq_attr) (rlim_cur : Z) : Z :=
  u64 (u64 (u64 (attr_maxmsg attr) * u64 (attr_msgsize attr)) + u64 (rlim_cur * MAXMQSYSTEM)).

Definition raise_limit (attr : mq_attr) : M host unit :=
  (if getrlimit_ok then mret tt else throw EFuck);;
  rlim ← gets h_limit;
  let required := mq_required attr (fst rlim) in
  when (fst rlim <? required)
    (if setrlimit_ok then modify (set_limit (required, required)) else throw EFuck).

(** [mq_open]: [O_CREAT] makes a queue where there is none, and opens the one
    there is with the attributes it has. *)
Definition mq_open (create : bool) (label : string) (attr : mq_attr) : M queues unit := fun qs =>
  if mq_open_ok then
    match qs !! label with
    | Some _ => (Ret tt, qs)
    | None =>
        if create then (Ret tt, <[label := Mq (attr_maxmsg attr) (attr_msgsize attr) []]> qs)
        else (Throw EFuck, qs)
    end
  else (Throw EFuck, qs).

Definition sock_mq_new (id : socket_identify) (create : bool) (attr : mq_attr) : M host sock_mq :=
  let label := sock_label id in
  raise_limit attr;;
  on_queues (mq_open create label attr);;
  mret (SockMq create label).

(** The destructor: [mq_unlink] by the one that created it. *)
Definition sock_mq_delete (mq : sock_mq) : M host unit :=
  when (mq_create mq) (on_queues (modify (delete (mq_label mq)))).

Definition getattrs (mq : sock_mq) : M host mq_attr :=
  qs ← gets h_queues;
  match qs !! mq_label mq with
  | Some q => mret (MqAttr (mq_maxmsg q) (mq_msgsize q))
  | None => throw EFuck
  end.

(** [put_msg_to_q] (newimpl.cpp 81-100) with the [sock_mq] it makes.  The code
    leaves [created_attr] as it is on the stack: [attr] is anything. *)
Definition route_packet (attr : mq_attr) (m : msg) : M host unit :=
  try_catch
    (mq ← sock_mq_new (msg_ident m) false attr;
     finally
       (a ← getattrs mq;
        if attr_msgsize a <? packet_sz m then throw EFuck
        else on_queues (put_msg (mq_label mq) (packet_bytes m)))
       (sock_mq_delete mq))
    is_fuck (mret tt).

(** ** The raw socket (newimpl.cpp 16-47) *)

Record socket_base : Type := SocketBase {
  sb_raw : Z;
  sb_id : socket_identify;
  max_packet_sz : Z;
  max_data_sz : Z;
}.

Definition AF_INET : Z := 2.

(** [fd]: what [socket] answers, [None] for -1.  An exception leaves the
    constructor, and the destructor that would close [raw] does not run. *)
Definition socket_base_new (fd : option Z) (setsockopt_ok bind_ok : bool) (ifs : list ifaddrs)
    (id : socket_identify) : M host socket_base :=
  match fd with
  | None => throw ERuntime
  | Some raw =>
      modify (fun h => set_fds (raw :: h_fds h) h);;
      (if setsockopt_ok then mret tt else throw ERuntime);;
      (if bind_ok then mret tt else throw ERuntime);;
      match mtu_binded ifs AF_INET (sin_addr (in_addr id)) TCP_INPUT_MQ_MSGSIZE with
      | Ret mtu => mret (SocketBase raw id (u64 mtu) (max_packet_data_size mtu))
      | Throw e => throw e
      | Fault f => faults f
      end
  end.

(** [~socket_base] *)
Definition socket_base_delete (sb : socket_base) : M host unit :=
  modify (fun h => set_fds (filter (fun fd => fd <> sb_raw sb) (h_fds h)) h).

(** [socket_sock_base]'s constructor (49-60): the queue of the process that is
    the first to open the socket ([first]; [Lifecycle] has the memory).  When
    it throws, the part that is a [socket_base] is destroyed. *)
Definition socket_sock_base_new (fd : option Z) (setsockopt_ok bind_ok : bool) (ifs : list ifaddrs)
    (first : bool) (id : socket_identify) : M host socket_base :=
  sb ← socket_base_new fd setsockopt_ok bind_ok ifs id;
  let attr := MqAttr (attr_maxmsg default_tcp_mq_attr) (max_packet_sz sb) in
  try_catch (when first (sock_mq_new id true attr;; mret tt)) (fun _ => true)
    (socket_base_delete sb;; throw EFuck);;
  mret sb.

(** [get_mtu] (180-182) *)
Definition base_get_mtu (sb : socket_base) : Z := max_data_sz sb.

(** [socket_serv]'s constructor (1074-1075). *)
Definition socket_serv_new (fd : option Z) (setsockopt_ok bind_ok : bool) (ifs : list ifaddrs)
    (bind_addr : sockaddr_in) : M host socket_base :=
  socket_base_new fd setsockopt_ok bind_ok ifs (Ident bind_addr (Addr 0 0)).

End sock_mq.

(** ** The limit *)

(** Without wrap-around every [sock_mq] makes the limit more than ten times what
    it was. *)
Lemma raise_limit_ok attr c m qs fds :
  0 <= attr_maxmsg attr < modulus32 -> 0 <= attr_msgsize attr < modulus32 -> 0 < c ->
  let q := attr_maxmsg attr * attr_msgsize attr in
  q + 10 * c < modulus64 ->
  raise_limit true true attr (Host (c, m) qs fds) = (Ret tt, Host (q + 10 * c, q + 10 * c) qs fds).
Proof.
  intros Ha Hm Hc q Hq. assert (0 <= q < modulus64) by (unfold q; nia).
  assert (mq_required attr c = q + 10 * c) as Hr.
  { unfold mq_required, MAXMQSYSTEM. rewrite (u64_small (attr_maxmsg attr)), (u64_small (attr_msgsize attr)) by lia.
    fold q. rewrite (u64_small q), (u64_small (c * 10)), u64_small by lia. lia. }
  unfold raise_limit. mstep (eq_refl (mret (M:=M host) tt (Host (c, m) qs fds))).
  mstep (eq_refl (gets h_limit (Host (c, m) qs fds))). cbn [fst h_limit]. rewrite Hr.
  rewrite (proj2 (Z.ltb_lt _ _)) by lia. done.
Qed.

(** The limit after [n] more queues. *)
Fixpoint limit_after (q : Z) (n : nat) (c : Z) : Z :=
  match n with O => c | S n => limit_after q n (q + 10 * c) end.

Lemma limit_after_closed q n c : 9 * limit_after q n c = 9 * 10 ^ Z.of_nat n * c + (10 ^ Z.of_nat n - 1) * q.
Proof.
  revert c. induction n as [|n IH]; intros c; cbn [limit_after]; [lia|].
  rewrite IH, Nat2Z.inj_succ, Z.pow_succ_r by lia. lia.
Qed.

(** From the kernel's usual limit of 819200 bytes thirteen queues for packets of
    1500 bytes take the limit past 2^62; the fourteenth wraps it. *)
Lemma fourteenth_queue_wraps :
  4611686018427387904 < limit_after (100 * 1500) 13 819200 < modulus64 /\
  modulus64 < 150000 + 10 * limit_after (100 * 1500) 13 819200.
Proof. vm_compute. intuition discriminate. Qed.

(** The limit never falls. *)
Lemma raise_limit_mono get_ok set_ok attr h :
  fst (h_limit h) <= fst (h_limit (snd (raise_limit get_ok set_ok attr h))) /\
  h_queues (snd (raise_limit get_ok set_ok attr h)) = h_queues h /\
  h_fds (snd (raise_limit get_ok set_ok attr h)) = h_fds h.
Proof.
  destruct h as [[c m] qs fds]. unfold raise_limit. destruct get_ok; [|cbn; split_and!; (lia || done)].
  mstep (eq_refl (mret (M:=M host) tt (Host (c, m) qs fds))).
  mstep (eq_refl (gets h_limit (Host (c, m) qs fds))). cbn [fst h_limit].
  destruct (Z.ltb_spec c (mq_required attr c)), set_ok; cbn; split_and!; (lia || done).
Qed.

(** ** Routing a packet *)

(** A process that may raise its limit routes packets as [put_msg_to_q] does,
    whatever is in [created_attr]. *)
Lemma raise_limit_granted attr h :
  exists l, raise_limit true true attr h = (Ret tt, set_limit l h).
Proof.
  destruct h as [[c m] qs fds]. unfold raise_limit.
  mstep (eq_refl (mret (M:=M host) tt (Host (c, m) qs fds))).
  mstep (eq_refl (gets h_limit (Host (c, m) qs fds))). cbn [fst h_limit].
  destruct (c <? mq_required attr c); [by eexists|exists (c, m); done].
Qed.

(** Opening the queue of a label that has one, or none. *)
Lemma sock_mq_open_eq attr id h :
  exists l, sock_mq_new true true true id false attr h =
    (match h_queues h !! sock_label id with
     | Some _ => Ret (SockMq false (sock_label id)) | None => Throw EFuck end, set_limit l h).
Proof.
  destruct (raise_limit_granted attr h) as [l Hl]. exists l. unfold sock_mq_new. mstep Hl.
  rewrite bind_unfold. unfold on_queues, mq_open. destruct h as [l0 qs fds]. cbn [h_queues set_limit].
  by destruct (qs !! sock_label id).
Qed.

(** Where the kernel grants the raised limit, routing a packet through a
    [sock_mq] of its own is [put_msg_to_q]: same answer, same queues, whatever
    the uninitialised attributes are, and the raw sockets are left alone. *)
Lemma route_packet_is_put attr m h :
  let r := route_packet true true true attr m h in
  fst r = fst (put_msg_to_q m (h_queues h)) /\
  h_queues (snd r) = snd (put_msg_to_q m (h_queues h)) /\
  h_fds (snd r) = h_fds h.
Proof.
  cbv zeta. rewrite put_msg_to_q_eq. cbv zeta.
  unfold route_packet, try_catch. rewrite !bind_unfold.
  destruct (sock_mq_open_eq attr (msg_ident m) h) as [l ->].
  destruct h as [l0 qs fds]. cbn [h_queues set_limit h_fds].
  destruct (qs !! sock_label (msg_ident m)) as [q|] eqn:Hq; [|done].
  unfold finally. cbn [mq_label].
  assert (getattrs (SockMq false (sock_label (msg_ident m))) (set_limit l (Host l0 qs fds)) =
    (Ret (MqAttr (mq_maxmsg q) (mq_msgsize q)), Host l qs fds)) as Hat
    by (unfold getattrs; rewrite bind_unfold; cbn [gets h_queues set_limit mq_label]; by rewrite Hq).
  rewrite (run_ret _ _ _ _ _ Hat). cbn [attr_msgsize].
  destruct (mq_msgsize q <? packet_sz m); [done|]. cbn [orb].
  unfold on_queues, put_msg. cbn [h_queues set_queues]. rewrite Hq.
  destruct (mq_msgsize q <? Z.of_nat (length (packet_bytes m))); [done|].
  destruct (mq_maxmsg q <=? Z.of_nat (length (mq_msgs q))); done.
Qed.

(** One that may not drops every packet that would raise it. *)
Lemma refused_limit_drops attr m h :
  fst (h_limit h) < mq_required attr (fst (h_limit h)) ->
  route_packet true false true attr m h = (Ret tt, h).
Proof.
  intros Hlt. unfold route_packet, try_catch, sock_mq_new, raise_limit. rewrite !bind_unfold.
  cbn [mret M_ret]. rewrite bind_unfold. cbn [gets].
  rewrite (proj2 (Z.ltb_lt _ _) Hlt). done.
Qed.

(** ** The constructors *)

(** The MTU a raw socket works with: the least of the cap and the interfaces'. *)
Definition bound_mtu (ifs : list ifaddrs) (ident : socket_identify) : Z :=
  foldl Z.min TCP_INPUT_MQ_MSGSIZE (omap id (matching_mtus ifs AF_INET (sin_addr (in_addr ident)))).

Lemma socket_base_new_ok raw ifs id h :
  None ∉ matching_mtus ifs AF_INET (sin_addr (in_addr id)) ->
  socket_base_new (Some raw) true true ifs id h =
    (Ret (SocketBase raw id (u64 (bound_mtu ifs id)) (max_packet_data_size (bound_mtu ifs id))),
     set_fds (raw :: h_fds h) h).
Proof.
  intros Hn. unfold socket_base_new. rewrite mtu_binded_is_minimum, decide_False by done. done.
Qed.

(** When a call after [socket] fails, nothing closes the descriptor. *)
Lemma socket_base_new_leaks raw opt_ok bind_ok ifs id h r h' :
  socket_base_new (Some raw) opt_ok bind_ok ifs id h = (r, h') -> h_fds h' = raw :: h_fds h.
Proof.
  unfold socket_base_new. destruct opt_ok, bind_ok, (mtu_binded _ _ _ _); by intros [= <- <-].
Qed.

Lemma filter_absent (x : Z) (l : list Z) : x ∉ l -> filter (fun y => y <> x) l = l.
Proof.
  induction l as [|y l IH]; intros Hx; [done|]. apply not_elem_of_cons in Hx as [Hy Hx].
  rewrite filter_cons_True by done. by rewrite IH.
Qed.

(** The one of [socket_sock_base] closes it when it is its own part that fails. *)
Lemma socket_sock_base_refused raw ifs id h :
  None ∉ matching_mtus ifs AF_INET (sin_addr (in_addr id)) -> raw ∉ h_fds h ->
  exists h', socket_sock_base_new false true true (Some raw) true true ifs true id h = (Throw EFuck, h') /\
    h_fds h' = h_fds h /\ h_queues h' = h_queues h.
Proof.
  intros Hn Hf. unfold socket_sock_base_new. mstep (socket_base_new_ok raw ifs id h Hn).
  eexists. split; [reflexivity|]. split; [|done]. cbn [h_fds set_fds sb_raw].
  rewrite filter_cons_False by tauto. by apply filter_absent.
Qed.

(** A socket's constructor that returns, first to open a label that has no
    queue. *)
Lemma socket_sock_base_new_ok raw ifs id h :
  None ∉ matching_mtus ifs AF_INET (sin_addr (in_addr id)) ->
  h_queues h !! sock_label id = None ->
  let mtu := bound_mtu ifs id in
  exists l, socket_sock_base_new true true true (Some raw) true true ifs true id h =
    (Ret (SocketBase raw id (u64 mtu) (max_packet_data_size mtu)),
     Host l (<[sock_label id := Mq TCP_INPUT_MQ_MAXMSG (u64 mtu) []]> (h_queues h)) (raw :: h_fds h)).
Proof.
  intros Hn Hq mtu. unfold socket_sock_base_new. mstep (socket_base_new_ok raw ifs id h Hn).
  set (h1 := set_fds (raw :: h_fds h) h). cbn [when max_packet_sz].
  set (attr := MqAttr _ _).
  destruct (raise_limit_granted attr h1) as [l Hl]. exists l.
  rewrite bind_unfold. unfold try_catch, sock_mq_new. rewrite !bind_unfold, Hl, bind_unfold.
  unfold on_queues, mq_open. cbn [h1 h_queues set_limit set_fds]. rewrite Hq. done.
Qed.

(** C16: what the constructors choose fits together.  In a socket that has been
    opened over any interfaces, a packet whose data fits in [get_mtu()] is not
    too long for the queue, and not for the buffer of [next_msg] either: it is
    queued, and read back with its headers and data; a longer one is dropped
    and nothing changes. *)
Theorem fresh_socket_takes_packets raw ifs id h sb h' m :
  None ∉ matching_mtus ifs AF_INET (sin_addr (in_addr id)) ->
  h_queues h !! sock_label id = None ->
  socket_sock_base_new true true true (Some raw) true true ifs true id h = (Ret sb, h') ->
  56 <= bound_mtu ifs id <= 65536 ->
  msg_ident m = id -> sized m -> iphdr_wf (m_iph m) -> TCPHDR_wf (m_tcph m) ->
  let r := put_msg_to_q m (h_queues h') in
  if m_data_len m <=? base_get_mtu sb
  then fst r = Ret tt /\
       exists m' qs, next_msg (sock_label id) (max_data_sz sb) None (snd r) = (Ret m', qs) /\
         m_iph m' = m_iph m /\ m_tcph m' = m_tcph m /\ msg_data m' = m_data m
  else r = (Ret tt, h_queues h').
Proof.
  intros Hn Hq Hrun Hmtu Hid Hs Hi Ht. cbv zeta.
  destruct (socket_sock_base_new_ok raw ifs id h Hn Hq) as [l Hok]. rewrite Hok in Hrun.
  injection Hrun as <- <-. cbn [h_queues max_data_sz base_get_mtu].
  set (mtu := bound_mtu ifs id) in *. rewrite (u64_small mtu) by lia.
  assert (max_packet_data_size mtu = mtu - 56) as Hd by (apply u64_small; lia).
  rewrite Hd. set (qs := <[sock_label id := _]> _).
  assert (qs !! sock_label (msg_ident m) = Some (Mq TCP_INPUT_MQ_MAXMSG mtu [])) as Hlk
    by (rewrite Hid; apply lookup_insert_eq).
  destruct (Z.leb_spec (m_data_len m) (mtu - 56)) as [Hle|Hgt].
  - destruct (put_msg_to_q_routes m qs) as (_&Hput&_).
    rewrite (Hput _ Hlk Hs Hi); [|cbn; lia|done]. split; [done|]. cbn [snd].
    destruct (next_msg_dequeues (sock_label id) (mtu - 56) m (Mq TCP_INPUT_MQ_MAXMSG mtu [packet_bytes m]) []
      (<[sock_label id := Mq TCP_INPUT_MQ_MAXMSG mtu [packet_bytes m]]> qs)) as (m'&Hr&?&?&?);
      try done; [apply lookup_insert_eq|cbn; lia|lia|].
    rewrite Hid. eexists m', _. split; [exact Hr|done].
  - rewrite put_msg_to_q_eq. cbv zeta. rewrite Hlk. cbn [mq_msgsize].
    destruct (packet_bytes_sized m Hs Hi) as (_&_&->).
    rewrite (proj2 (Z.ltb_lt _ _)) by lia. done.
Qed.

(** An interface with less room than the headers makes the limit for data wrap:
    nothing is too long. *)
Lemma tiny_mtu_wraps mtu : 0 <= mtu < 56 -> max_packet_data_size mtu = modulus64 - (56 - mtu).
Proof. intros H. unfold max_packet_data_size, sizeof_TCP_PACKET, sizeof_iphdr, sizeof_TCPHDR, sizeof_tcphdr. wrap_lia. Qed.

(** ** Witnesses *)

Definition loopback : list ifaddrs := [Ifa (Some (AF_INET, 16777343)) (Some (Some 1500))].
Definition local_id : socket_identify := Ident (Addr 16777343 20480) (Addr 16777343 53764).
Definition fresh_host : host := Host (819200, 819200) ∅ [].

Lemma fresh_socket_takes_packets_witness :
  let m := set_syn (set_src_addr (out_addr local_id) (set_dest_addr (in_addr local_id) (msg_of [1; 2; 3]))) in
  exists sb h', socket_sock_base_new true true true (Some 7) true true loopback true local_id fresh_host
      = (Ret sb, h') /\
    base_get_mtu sb = 1444 /\
    fst (put_msg_to_q m (h_queues h')) = Ret tt /\
    exists m' qs, next_msg (sock_label local_id) (max_data_sz sb) None (snd (put_msg_to_q m (h_queues h')))
        = (Ret m', qs) /\ msg_data m' = [1; 2; 3].
Proof.
  destruct (socket_sock_base_new true true true (Some 7) true true loopback true local_id fresh_host)
    as [r h'] eqn:E.
  pose proof E as E'. vm_compute in E'. injection E' as <- Hh.
  pose proof (fun m => fresh_socket_takes_packets 7 loopback local_id fresh_host _ h' m
    ltac:(vm_compute; set_solver) ltac:(reflexivity) E ltac:(vm_compute; intuition discriminate)) as H.
  specialize (H (set_syn (set_src_addr (out_addr local_id) (set_dest_addr (in_addr local_id) (msg_of [1; 2; 3]))))
    ltac:(reflexivity) ltac:(vm_compute; intuition discriminate) ltac:(vm_compute; intuition discriminate)
    ltac:(vm_compute; intuition discriminate)).
  destruct H as [H1 (m'&qs&H2&_&_&H3)].
  eexists _, h'. split_and!; [reflexivity|reflexivity|exact H1|].
  exists m', qs. split; [exact H2|exact H3].
Defined.
