(* ===== verification/Tests.v ===== *)
(** * Tests: the unit tests as programs

    The test cases of [src/src/tcp_test_boost.cpp] over the model's components,
    each with its fake controller, its loops and its requirements, and what
    comes of them.  A requirement that does not hold ends a test
    ([test_failed]).  The text sent to the console is left out; a test's own
    variables are its state.  [ScanTest] has the test of the sender's window. *)
From stdpp Require Import gmap strings.
From S2P Require Import Prelude Window Engine Message Transfer ProtoMem Timeout FastRetransmit.
From S2P Require Import Persist SendBuffer Setup.

(** ** The test framework *)

(** [BOOST_REQUIRE] *)
Definition require {St} (b : bool) : M St unit := if b then mret tt else faults test_failed.

(** [BOOST_REQUIRE_THROW(m, e)]: another exception leaves the test. *)
Definition require_throws {St A} (e : exn -> bool) (m : M St A) : M St unit :=
  try_catch (m;; faults test_failed) e (mret tt).

(** [for(x : xs) body] *)
Fixpoint for_each {St A} (xs : list A) (body : A -> M St unit) : M St unit :=
  match xs with
  | [] => mret tt
  | x :: xs => body x;; for_each xs body
  end.

(** [0 .. n-1] *)
Definition upto (n : Z) : list Z := seqZ 0 n.

(** A test passes when it comes to its end. *)
Definition passes {St A} (m : M St A) (s : St) : Prop := exists a, fst (m s) = Ret a.

(** ** [receiver_window_test] (274-288): [limit] is a 32-bit zero *)

Definition receiver_window_test : M unit unit :=
  let win a sz := Rwin a 0 sz in
  let limit := u32 (u32 (modulus32 - 1) + 1) in
  let below n := u32 (limit - n) in
  require (contains (win 0 100) (win 10 50));;
  require (negb (contains (win 0 100) (win 10 110)));;
  require (negb (contains (win 50 100) (win 40 60)));;
  require (negb (contains (win 50 100) (win 40 110)));;
  require (contains (win (below 100) 200) (win (below 50) 60));;
  require (contains (win (below 100) 200) (win 50 40));;
  require (negb (contains (win (below 100) 200) (win (below 50) 600)));;
  require (negb (contains (win (below 100) 200) (win (below 110) 40)));;
  require (negb (contains (win (below 100) 200) (win (below 110) 120)));;
  require (negb (contains (win (below 100) 200) (win (below 110) 600)));;
  require (negb (contains (win (below 100) 200) (win 110 600))).

Lemma receiver_window_test_passes : passes receiver_window_test tt.
Proof. exists tt. reflexivity. Qed.

(** ** [send_window_test] (290-309) *)

Definition send_window_test : M unit unit :=
  let limit := u32 (modulus32 - 1 + 1) in
  let check start off sz :=
    let win := set_off_from_seq 1 (Swin (Rwin start 0 100) 0) in
    require (offset win =? off);;
    require (get_sz win =? sz);;
    require (w_sent_off win =? 0);;
    require (w_start win =? start) in
  check 1 1 99;;
  check (u32 (limit - 1)) 3 97.

Lemma send_window_test_passes : passes send_window_test tt.
Proof. exists tt. reflexivity. Qed.

(** ** [chsum_test] (311-326): a checksum sees every change of the last byte by
    one, for the lengths up to 97 *)

Definition chsum_test : M unit unit :=
  let bsz := 97 in
  let input_buf := upto bsz in
  for_each (upto bsz) (fun i =>
    let n := Z.to_nat (i + 1) in
    let old := chsum (take n input_buf) in
    let new_ := chsum (take n (<[Z.to_nat i := u8 (i + 1)]> input_buf)) in
    require (negb (old =? new_))).

Lemma chsum_test_passes : passes chsum_test tt.
Proof. exists tt. vm_compute. reflexivity. Qed.

(** ** [test_mq_data] (30-44): a full queue of integers comes out in order *)

Definition test_mq_data (mq : sock_mq) : M host unit :=
  let data i := le_bytes 4 (i + 1) in
  for_each (upto INPUT_MQ_MAXMSG) (fun i => on_queues (put_msg (mq_label mq) (data i)));;
  for_each (upto INPUT_MQ_MAXMSG) (fun i =>
    rec ← on_queues (get_msg (mq_label mq) 4);
    require (le_val (data i) =? le_val rec)).

(** ** [mq_test] (45-70), [mq_test_long_msg] (73-88), [several_mq_test]
    (1190-1203): a process whose calls the kernel grants; a queue lives to the
    end of its block *)

Section mq_tests.
Context (inet_addr : string -> Z).

Definition mq_ident (p1 p2 : Z) : socket_identify :=
  Ident (fill_param inet_addr "127.0.0.1" p1) (fill_param inet_addr "127.0.0.1" p2).

(** [{ sock_mq mq(param); body }] *)
Definition with_mq {A} (id : socket_identify) (create : bool) (attr : mq_attr)
    (body : sock_mq -> M host A) : M host A :=
  mq ← sock_mq_new true true true id create attr;
  finally (body mq) (sock_mq_delete mq).

Definition mq_test : M host unit :=
  let param := mq_ident 0 0 in
  for_each (upto 10) (fun _ =>
    with_mq param true default_mq_attr (fun _ =>
      with_mq param false default_mq_attr (fun _ => mret tt)));;
  require_throws is_fuck (with_mq param false default_mq_attr (fun _ => mret tt));;
  with_mq param true (MqAttr INPUT_MQ_MAXMSG 4) test_mq_data.

Definition mq_test_long_msg : M host unit :=
  with_mq (mq_ident 0 0) true default_tcp_mq_attr (fun mq =>
    let msg_sz := attr_msgsize default_tcp_mq_attr in
    on_queues (put_msg (mq_label mq) (replicate (Z.to_nat msg_sz) 0));;
    on_queues (get_msg (mq_label mq) msg_sz);;
    mret tt).

Definition several_mq_test : M host unit :=
  with_mq (mq_ident 0 80) true default_tcp_mq_attr (fun _ =>
    with_mq (mq_ident 80 0) true default_tcp_mq_attr (fun _ => mret tt)).

End mq_tests.

Lemma mq_tests_pass :
  let addr := fun _ : string => 16777343 in
  passes (mq_test addr) fresh_host /\ passes (mq_test_long_msg addr) fresh_host /\
  passes (several_mq_test addr) fresh_host.
Proof. split_and!; exists tt; vm_compute; reflexivity. Qed.

(** Its queues have raised the limit at least 10^12 times. *)
Lemma mq_test_raises_limit :
  819200 * 10 ^ 12 <= fst (h_limit (snd (mq_test (fun _ => 16777343) fresh_host))).
Proof. vm_compute. discriminate. Qed.

(** ** [fast_retransmit_test] (490-528) *)

Record fr_test : Type := FrTest { frt_area : fast_retransmit_area; frt_retry : bool }.

#[export] Instance fr_test_area : MemArea fr_test fast_retransmit_area := {|
  area_get := frt_area;
  area_put := fun a s => FrTest a (frt_retry s);
|}.

Definition set_retry (b : bool) : M fr_test unit := modify (fun s => FrTest (frt_area s) b).

(** [output_on_retry]; the message is the one given to [on_ack]. *)
#[export] Instance fr_test_controller : RetryController fr_test := {|
  output_on_retry := fun _ =>
    retry ← gets frt_retry;
    require retry;;
    set_retry false;
|}.

Definition fast_retransmit_test : M fr_test unit :=
  let ack j := set_seq j (set_ack (msg_alloc 0)) in
  let on_ack j := fr_on_ack (ack j) (msg_alloc 0) in
  for_each (upto 2) (fun j =>
    for_each (upto (TCP_FAST_RETRANSMIT_BOUND - 1)) (fun _ => on_ack j);;
    set_retry true;;
    on_ack j;;
    retry ← gets frt_retry;
    require (negb retry));;
  for_each (upto (TCP_FAST_RETRANSMIT_BOUND * 3)) (fun j => on_ack j).

Lemma fast_retransmit_test_passes :
  passes fast_retransmit_test (FrTest fast_retransmit_init false).
Proof. exists tt. vm_compute. reflexivity. Qed.

(** ** [timeout_computing_test] (589-642): while the trips get longer the
    timeout does not fall; at the end of ten shorter ones it has fallen *)

Definition timeout_test_round (d ts : Z) : M timeout_area Z :=
  let ack := set_sender_timestamp 1002000 (set_recv_timestamp 1000000 (msg_alloc 0)) in
  let sender := set_sender_timestamp 3000000 (msg_alloc 0) in
  let sender := set_recv_timestamp (u64 (get_recv_timestamp ack - d)) sender in
  timeout_refresh ts sender ack;;
  get_timeout.

(** [n] rounds with [ts] growing by [d], each requiring [ok last now]. *)
Fixpoint timeout_test_loop (n : nat) (d : Z) (ok : Z -> Z -> bool) (ts last : Z) :
    M timeout_area (Z * Z) :=
  match n with
  | O => mret (ts, last)
  | S n =>
      let ts := u64 (ts + d) in
      now ← timeout_test_round d ts;
      require (ok last now);;
      timeout_test_loop n d ok ts now
  end.

Definition timeout_computing_test : M timeout_area unit :=
  r ← timeout_test_loop 10 1000 Z.leb 3002000 0;
  let '(ts, last) := r in
  r ← timeout_test_loop 10 (-1000) (fun _ _ => true) ts last;
  let '(_, now) := r in
  require (now <=? last).

Lemma timeout_computing_test_passes : passes timeout_computing_test timeout_init.
Proof. exists tt. vm_compute. reflexivity. Qed.

(** ** [output_control_flow_persist_timer_test] (530-587)

    [output_set_ping_only(true)] starts the thread [t1], which takes the mutex
    and opens the window; [output_wait_win_sz_not_zero] releases the mutex while
    the window is closed, so that [t1] runs, as a whole, before the wait or in
    it: [early] says which.  [depth]: how many threads may be started inside of
    one another. *)

Record persist_test : Type := PersistTest {
  pt_ping : bool;
  pt_ping_ready : bool;
  pt_ack : msg;
  pt_started : bool;
}.

Definition set_ping (b : bool) (s : persist_test) : persist_test :=
  PersistTest b (pt_ping_ready s) (pt_ack s) (pt_started s).
Definition set_ping_ready (b : bool) (s : persist_test) : persist_test :=
  PersistTest (pt_ping s) b (pt_ack s) (pt_started s).
Definition set_test_ack (m : msg) (s : persist_test) : persist_test :=
  PersistTest (pt_ping s) (pt_ping_ready s) m (pt_started s).
Definition set_started (b : bool) (s : persist_test) : persist_test :=
  PersistTest (pt_ping s) (pt_ping_ready s) (pt_ack s) b.

Definition require_done : M persist_test unit :=
  ping_ready ← gets pt_ping_ready;
  require (negb ping_ready);;
  ping ← gets pt_ping;
  require (negb ping).

(** [timer.on_ack] of the controller, with the member [ack]. *)
Definition test_on_ack `{PingController persist_test} (ping_only : bool) : M persist_test unit :=
  ack ← gets pt_ack;
  persist_on_ack ack ping_only.

(** [t1] *)
Definition persist_t1 (C : PingController persist_test) : M persist_test unit :=
  modify (set_started false);;
  ping ← gets pt_ping;
  require ping;;
  for_each (upto 100) (fun _ => test_on_ack true);;
  modify (set_ping_ready true);;
  ack ← gets pt_ack;
  modify (set_test_ack (set_window_sz 1 ack));;
  test_on_ack true;;
  require_done.

Section persist_test.
Context (early : bool).

Fixpoint persist_controller (depth : nat) : PingController persist_test :=
  let t1 := match depth with
            | O => faults out_of_fuel
            | S depth => persist_t1 (persist_controller depth)
            end in
  {| output_set_ping_only := fun enable =>
       ping ← gets pt_ping;
       require (xorb ping enable);;
       modify (set_ping enable);;
       ping_ready ← gets pt_ping_ready;
       require ping_ready;;
       modify (set_ping_ready false);;
       when enable (if early then t1 else modify (set_started true));
     output_wait_win_sz_not_zero :=
       started ← gets pt_started;
       when started t1;;
       ack ← gets pt_ack;
       if 0 <? get_window_sz ack then mret tt else faults blocked;
     output_signal_win_sz_not_zero := mret tt |}.

(** [start_test]: [t2] *)
Definition persist_timer_test (depth : nat) : M persist_test unit :=
  modify (set_ping_ready true);;
  test_on_ack (H := persist_controller depth) false;;
  require_done.

End persist_test.

Definition persist_test_init : persist_test := PersistTest false false (msg_alloc 0) false.

(** One thread is enough, whenever it runs. *)
Lemma persist_timer_test_passes early : passes (persist_timer_test early 1) persist_test_init.
Proof. exists tt. destruct early; vm_compute; reflexivity. Qed.

(** ** [send_output_buffer_test] (776-864): the messages are a counter of 8
    bytes; a pointer is the distance from the first byte of the buffer *)

Record buffer_test : Type := BufferTest { bt_area : send_buffer_area; bt_rel : list Z }.

#[export] Instance buffer_test_area : MemArea buffer_test send_buffer_area := {|
  area_get := bt_area;
  area_put := fun a s => BufferTest a (bt_rel s);
|}.

Definition sizeof_my_msg : Z := 8.

#[export] Instance buffer_test_controller : InplaceController buffer_test Z Z := {|
  put_msg_inplace := fun buf m =>
    a ← mem_get;
    mem_put (SendBufferArea (store_bytes (sb_buf a) buf (le_bytes 8 (get_seq m))) (sb_off_map a) (sb_end a));;
    mret sizeof_my_msg;
  get_msg_inplace := mret;
  get_msg_inplace_future := mret;
  release_inplace_msg := fun buf =>
    modify (fun s => BufferTest (bt_area s) (bt_rel s ++ [buf]));;
    mret sizeof_my_msg;
|}.

(** [now->cnt] *)
Definition my_msg_cnt (p : Z) : M buffer_test Z :=
  a ← mem_get;
  mret (le_val (load_bytes (sb_buf a) p 8)).

(** The first loop: puts the messages [xs], each behind the one at [prev]. *)
Fixpoint buffer_test_puts (xs : list Z) (prev : option Z) : M buffer_test (list Z) :=
  match xs with
  | [] => mret []
  | i :: xs =>
      let go := set_seq i (msg_alloc 0) in
      now ← put_msg_at (V:=Z) i go;
      cnt ← my_msg_cnt now;
      require (cnt =? get_seq go);;
      match prev with
      | Some prev => require (prev + sizeof_my_msg =? now)
      | None => mret tt
      end;;
      ptrs ← buffer_test_puts xs (Some now);
      mret (now :: ptrs)
  end.

Definition send_output_buffer_test : M buffer_test unit :=
  ptrs ← buffer_test_puts (upto 10) None;
  for_each (upto 10) (fun i =>
    p ← get_msg_at (V:=Z) (E:=Z) i;
    require (bool_decide (ptrs !! Z.to_nat i = Some p)));;
  release_range (V:=Z) (E:=Z) 5 9;;
  release_range (V:=Z) (E:=Z) 0 4;;
  rel ← gets bt_rel;
  require (bool_decide (rel = drop 5 ptrs ++ take 5 ptrs));;
  refresh;;
  p ← put_msg_at (V:=Z) 0 (set_seq 0 (msg_alloc 0));
  require (bool_decide (head ptrs = Some p)).

(** The test fails at its second message.  A message of [msg(NULL, 0)] has no
    data, so [put_msg_at] writes the end of the buffer over the place of the
    message itself, and the answer is what lies behind it. *)
Lemma send_output_buffer_test_fails :
  fst (send_output_buffer_test (BufferTest send_buffer_init [])) = Fault test_failed.
Proof. vm_compute. reflexivity. Qed.

Lemma first_put_answers_the_end :
  fst (put_msg_at (V:=Z) (E:=Z) 0 (msg_alloc 0) (BufferTest send_buffer_init [])) = Ret sizeof_my_msg.
Proof. vm_compute. reflexivity. Qed.

(** ** [wtf_test] (866-885): a semaphore of value 1 is waited for twice *)

Definition wtf_test : M Z unit :=
  let sem_wait := v ← gets id; if 0 <? v then modify (fun v => v - 1) else faults blocked in
  modify (fun _ => 1);;
  sem_wait;;
  sem_wait.

(** Nobody posts it: the test, and the suite with it, never ends. *)
Lemma wtf_test_blocks v : fst (wtf_test v) = Fault blocked.
Proof. reflexivity. Qed.
