(* ===== verification/MemTest.v ===== *)
(** * MemTest: the tests of the shared memory's contents

    [sock_test] and [mem_manager_test] of [src/src/tcp_test_boost.cpp] (93-143,
    224-272), run by one process over [Lifecycle]'s kernel: several [sock]
    objects of one label, the bytes of each memory object, and the queue. *)
From stdpp Require Import gmap strings.
From S2P Require Import Prelude Message Transfer ProtoMem Socket Memory Lifecycle Setup Tests.

(** ** The state: the kernel's, the client's part of each memory object, the
    queues, and the queue of each [sock] that made one *)
Record site : Type := Site {
  st_world : world;
  st_data : nat -> mem;
  st_host : host;
  st_mq : nat -> option sock_mq;
}.

Definition set_world (w : world) (s : site) : site := Site w (st_data s) (st_host s) (st_mq s).
Definition set_data (h : nat) (d : mem) (s : site) : site :=
  Site (st_world s) (<[h := d]> (st_data s)) (st_host s) (st_mq s).
Definition set_mq (p : nat) (q : option sock_mq) (s : site) : site :=
  Site (st_world s) (st_data s) (st_host s) (<[p := q]> (st_mq s)).

Definition on_host {A} (m : M host A) : M site A :=
  fun s => let '(r, h) := m (st_host s) in (r, Site (st_world s) (st_data s) h (st_mq s)).

(** A step that [Lifecycle] does not let happen blocks. *)
Definition on_world (f : world -> option world) : M site unit :=
  s ← gets st_world;
  match f s with Some w => modify (set_world w) | None => faults blocked end.

(** What a test's constructor of [sock] gets: the identity, the queue's
    attributes, the size of the client's memory and [initializer.init], given
    the memory object. *)
Record sock_param : Type := SockParam {
  sp_id : socket_identify;
  sp_mq : mq_attr;
  sp_sz : Z;
  sp_init : nat -> site -> site;
}.

Section sock.
Context (sp : sock_param).

Definition next (p : nat) : M site unit :=
  w ← gets st_world;
  match w_sock w p with
  | Sock AtInit _ (Some h) _ =>
      modify (sp_init sp h);;
      on_world (fun w => Some (go p AtSetOk w))
  | Sock AtMqOpen _ _ _ =>
      on_world (step p Next);;
      mq ← on_host (sock_mq_new true true true (sp_id sp) true (sp_mq sp));
      modify (set_mq p (Some mq))
  | Sock AtMqUnlink _ _ _ =>
      on_world (step p Next);;
      s ← gets st_mq;
      match s p with Some mq => on_host (sock_mq_delete mq) | None => mret tt end
  | _ => on_world (step p Next)
  end.

(** To the end of a constructor or destructor. *)
Fixpoint settle (fuel : nat) (p : nat) : M site unit :=
  w ← gets st_world;
  match s_pc (w_sock w p), fuel with
  | Ready, _ | Closed, _ => mret tt
  | _, O => faults out_of_fuel
  | _, S fuel => next p;; settle fuel p
  end.

Definition new_sock (p : nat) : M site unit := on_world (step p Construct);; settle 20 p.
Definition delete_sock (p : nat) : M site unit := on_world (step p Destroy);; settle 20 p.

(** [sock sk(param, init); body] in a block *)
Definition with_sock {A} (p : nat) (body : M site A) : M site A :=
  new_sock p;; finally body (delete_sock p).

(** [accquire_shmem] gives the client's memory: its object. *)
Definition accquire_shmem (p : nat) (internal_lock : bool) : M site nat :=
  on_world (step p (Acquire internal_lock));;
  when internal_lock (on_world (step p Next));;
  on_world (step p Next);;
  w ← gets st_world;
  match w_sock w p with
  | Sock (Using _) _ (Some h) _ => mret h
  | _ => on_world (step p Next);; throw EFuck
  end.

Definition put_internal_lock (p : nat) : M site unit := on_world (step p Put).

(** [sk.get_mq()]; the null pointer of a [sock] that did not make one is
    dereferenced. *)
Definition sock_queue (p : nat) : M site sock_mq :=
  w ← gets st_world;
  q ← gets st_mq;
  match get_mq (w_sock w p), q p with Some _, Some mq => mret mq | _, _ => faults out_of_range end.

(** [memcmp] and [memcpy] at an offset of the client's memory, which ends at
    its size. *)
Definition memcmp (h : nat) (off : Z) (bs : bytes) : M site bool :=
  if off + Z.of_nat (length bs) <=? sp_sz sp then
    d ← gets st_data; mret (bool_decide (load_bytes (d h) off (length bs) = bs))
  else faults out_of_range.

Definition memcpy (h : nat) (off : Z) (bs : bytes) : M site unit :=
  if off + Z.of_nat (length bs) <=? sp_sz sp then
    modify (fun s => set_data h (store_bytes (st_data s h) off bs) s)
  else faults out_of_range.

End sock.

Definition is_fuck (e : exn) : bool := match e with EFuck => true | _ => false end.

(** ** [sock_test]: its initialiser does nothing *)
Section tests.
Context (inet_addr : string -> Z).

Definition sock_test_param : sock_param :=
  SockParam (mq_ident inet_addr 0 0) (MqAttr INPUT_MQ_MAXMSG 4) 400 (fun _ s => s).

Definition sock_test_round (iter : Z) : M site unit :=
  let sp := sock_test_param in
  let sk := Z.to_nat (3 * iter) in
  let sk2 := S sk in
  let sk3 := S sk2 in
  let data := concat (map (fun i => le_bytes 4 (i + 100)) (upto 100)) in
  let clean_data := replicate 400 0 in
  with_sock sp sk (
    mq ← sock_queue sk;
    on_host (test_mq_data mq);;
    mem ← accquire_shmem sk true;
    b ← memcmp sp mem 0 clean_data; require b;;
    memcpy sp mem 0 data;;
    b ← memcmp sp mem 0 data; require b;;
    put_internal_lock sk;;
    with_sock sp sk2 (
      mem ← accquire_shmem sk2 true;
      b ← memcmp sp mem 0 data; require b;;
      put_internal_lock sk2;;
      mem ← accquire_shmem sk true;
      b ← memcmp sp mem 0 data; require b;;
      put_internal_lock sk;;
      new_sock sp sk3;;
      delete_sock sp sk3;;
      require_throws is_fuck (accquire_shmem sk true);;
      require_throws is_fuck (accquire_shmem sk2 true))).

Definition sock_test : M site unit := for_each (upto 2) sock_test_round.

End tests.

Definition site_init : site := Site world_init (fun _ => mem_zero) fresh_host (fun _ => None).

Lemma sock_test_passes : passes (sock_test (fun _ => 16777343)) site_init.
Proof. exists tt. vm_compute. reflexivity. Qed.

(** ** [mem_manager_test]

    Its initialiser makes one lock and counts its calls ([Lifecycle]'s
    [inits]).  It gives the tag [RESERVED], which no socket uses, an area of
    100 bytes, and takes [mem_full_sz] bytes for the socket. *)

Definition one_lock (h : nat) (s : site) : site :=
  let w := st_world s in
  set_world
    (World (w_sem_name w) (w_shm_name w) (w_mq_name w) (<[Internal h 0 := 1]> (w_sem w))
      (<[h := SockShmem (state (w_shm w h)) 1 (S (inits (w_shm w h)))]> (w_shm w)) (w_next w) (w_sock w)) s.

Section mem_manager_test.
Context (inet_addr : string -> Z).

Definition mem_test_param : sock_param :=
  SockParam (mq_ident inet_addr 123 90) (MqAttr INPUT_MQ_MAXMSG 4) mem_full_sz one_lock.

(** [mem_ctl<RESERVED> ctl(mn, wrapper); body]: the wrapper has a lock, so that
    [accquire_shmem] takes none and there is nothing to [Put] back. *)
Definition with_ctl (p : nat) (body : nat -> M site unit) : M site unit :=
  w ← gets st_world;
  match s_shmem (w_sock w p) with
  | Some h =>
      on_world (Lifecycle.sem_wait (Internal h 0));;
      mem ← accquire_shmem p false;
      on_world (step p Put);;
      finally (body mem) (on_world (fun w => Some (Lifecycle.sem_post (Internal h 0) w)))
  | None => faults out_of_range
  end.

(** The rounds: the first ends in [return]. *)
Definition mem_manager_test : M site unit :=
  let sp := mem_test_param in
  let data := map (fun i => u8 (i + 100)) (upto 100) in
  let off := summary_prefix_off RESERVED in
  with_sock sp 0 (with_ctl 0 (fun mem => memcpy sp mem off data)).

End mem_manager_test.

(** The area begins eight bytes behind the memory the test has taken. *)
Lemma mem_manager_test_writes_outside :
  fst (mem_manager_test (fun _ => 16777343) site_init) = Fault out_of_range /\
  summary_prefix_off RESERVED = mem_full_sz + 8.
Proof. split; vm_compute; reflexivity. Qed.

(** The same test with an area inside of it comes to its [return], with the
    lock given back. *)
Lemma inside_area_is_written :
  let test := with_sock (mem_test_param (fun _ => 16777343)) 0
    (with_ctl 0 (fun mem => memcpy (mem_test_param (fun _ => 16777343)) mem
      (summary_prefix_off INPUT_RECEIVER_BUFFER_PROCESSING + 8) (replicate 100 7))) in
  passes test site_init /\ w_sem (st_world (snd (test site_init))) (Internal 1 0) = 1.
Proof. split; [exists tt|]; vm_compute; reflexivity. Qed.

(** ** The memory of a socket

    [sock_mem_guard::init] (newimpl.cpp 217-222) over the contents: the areas
    first, then the semaphores.  The fake controllers of the unit tests
    ([fake_controller_base], 328-351) have the areas only; the tests in [Tests]
    and [ScanTest] begin with them. *)
Definition guard_init (h : nat) (s : site) : site :=
  let s := set_data h (on_init (st_data s h)) s in
  set_world (initializer_init h (st_world s)) s.

Definition fake_controller_init (h : nat) (s : site) : site := set_data h (on_init (st_data s h)) s.

Definition socket_param (init : nat -> site -> site) (id : socket_identify) : sock_param :=
  SockParam id (MqAttr INPUT_MQ_MAXMSG 1500) mem_full_sz init.

(** The first constructor leaves the bytes of a new socket, and whoever attaches
    later finds them. *)
Definition first_sock (init : nat -> site -> site) : outcome unit * site :=
  new_sock (socket_param init (mq_ident (fun _ => 16777343) 1234 80)) 0 site_init.
Definition second_sock (init : nat -> site -> site) : outcome unit * site :=
  new_sock (socket_param init (mq_ident (fun _ => 16777343) 1234 80)) 1 (snd (first_sock init)).

Lemma new_socket_data init :
  init = guard_init \/ init = fake_controller_init ->
  st_data (snd (first_sock init)) 1%nat = on_init mem_zero /\
  st_data (snd (second_sock init)) 1%nat = on_init mem_zero.
Proof.
  unfold second_sock, first_sock, guard_init, fake_controller_init, site_init.
  generalize on_init as f. generalize mem_zero as d. intros d f [-> | ->]; split; vm_compute; reflexivity.
Qed.

Lemma new_socket_memory init :
  init = guard_init \/ init = fake_controller_init ->
  fst (first_sock init) = Ret tt /\ fst (second_sock init) = Ret tt /\
  (forall p, (p < 2)%nat -> s_shmem (w_sock (st_world (snd (second_sock init))) p) = Some 1%nat) /\
  forall id, represents (st_data (snd (second_sock init)) 1%nat) (sk_init id 0).
Proof.
  intros Hi. rewrite (proj2 (new_socket_data init Hi)).
  split_and!; [destruct Hi as [-> | ->]; vm_compute; reflexivity..| |exact on_init_zero].
  intros [|[|p]] Hp; [destruct Hi as [-> | ->]; vm_compute; reflexivity..|lia].
Qed.
