(* ===== verification/LoopTest.v ===== *)
(** * LoopTest: the tests that send to themselves

    [transfer_test] and [socket_sock_base_test] of
    [src/src/tcp_test_boost.cpp] (145-211): a raw socket on the loopback
    interface hears what it has sent.  The build leaves both out unless
    [TRANSFER_COMPLETLY_NO_LOST] is set, which nothing does. *)
From stdpp Require Import gmap strings.
From S2P Require Import Prelude Engine Message Transfer Setup Tests.

(** ** The loopback interface *)

Definition lo_addr : Z := 16777343.
Definition lo_inet_addr (_ : string) : Z := lo_addr.

(** The header the kernel puts before a segment. *)
Definition lo_iphdr : iphdr := Iphdr (replicate 12 0) lo_addr lo_addr.
Definition lo_sendto (_ : sockaddr_in) (d : bytes) : Z := Z.of_nat (length d).

(** [id]: the socket at port 1234 for the peer at port 80. *)
Definition lo_ident : socket_identify :=
  Ident (fill_param lo_inet_addr "127.0.0.1" 1234) (fill_param lo_inet_addr "127.0.0.1" 80).

(** [outpu_buf] *)
Definition outpu_buf : bytes := seqZ 0 100.

(** [msg::flush_to_orig_buf] *)
Definition flush_to_orig_buf (m : msg) : bytes := msg_data m.

Definition same_bytes (a b : bytes) : bool := bool_decide (a = b).

Definition answer {St A} (o : outcome A) : M St A := fun s => (o, s).

(** ** [transfer_test] (145-176) *)

Definition transfer_test : M host unit :=
  for_each (upto 2) (fun _ =>
    sock ← socket_base_new (Some 7) true true loopback lo_ident;
    finally
      (let output_msg := set_dest_addr (out_addr lo_ident) (msg_of outpu_buf) in
       sent ← answer (transfer_send_to lo_sendto output_msg);
       require (same_bytes (flush_to_orig_buf output_msg) outpu_buf);;
       let input_msg := msg_of (replicate 100 0) in
       input_msg ← answer (transfer_recvfrom (Some (packet lo_iphdr (snd sent))) input_msg);
       require (same_bytes (flush_to_orig_buf input_msg) outpu_buf))
      (socket_base_delete sock)).

Lemma transfer_test_passes : passes transfer_test fresh_host.
Proof. exists tt. vm_compute. reflexivity. Qed.

(** ** [socket_sock_base_test] (178-211) *)

(** The host, and the packets on the loopback interface. *)
Record loop_host : Type := LoopHost { lh_host : host; lh_wire : list bytes }.

Definition on_host {A} (m : M host A) : M loop_host A := fun s =>
  let '(r, h) := m (lh_host s) in (r, LoopHost h (lh_wire s)).

(** [sock.send(output_msg)] at the time [ts] *)
Definition lo_send (id : socket_identify) (ts : Z) (m : msg) : M loop_host unit :=
  sent ← answer (socket_send lo_sendto id ts m);
  modify (fun s => LoopHost (lh_host s) (lh_wire s ++ [packet lo_iphdr (snd sent)])).

(** [sock.next_msg]: the raw socket is readable when a packet is on its way. *)
Definition lo_next_msg (sb : socket_base) : M loop_host msg := fun s =>
  let '(r, h) := on_queues (next_msg (sock_label (sb_id sb)) (max_data_sz sb)
    (Some <$> head (lh_wire s))) (lh_host s) in (r, LoopHost h (tail (lh_wire s))).

(** The loop [while(1)], [fuel] rounds of it. *)
Fixpoint until_message (fuel : nat) (sb : socket_base) : M loop_host unit :=
  match fuel with
  | O => faults out_of_fuel
  | S fuel =>
      try_catch
        (input ← lo_next_msg sb;
         require (same_bytes (flush_to_orig_buf input) outpu_buf))
        (fun e => match e with ETimeout => true | _ => false end)
        (until_message fuel sb)
  end.

Definition socket_sock_base_test (fuel : nat) : M loop_host unit :=
  for_each (upto 2) (fun _ =>
    sb ← on_host (socket_sock_base_new true true true (Some 7) true true loopback true lo_ident);
    finally
      (lo_send lo_ident 0 (msg_of outpu_buf);;
       until_message fuel sb)
      (on_host (sock_mq_delete (SockMq true (sock_label lo_ident));; socket_base_delete sb))).

(** A round that hears nothing. *)
Lemma until_message_waits fuel sb s s' :
  lo_next_msg sb s = (Throw ETimeout, s') -> until_message (S fuel) sb s = until_message fuel sb s'.
Proof. intros Hn. cbn [until_message]. unfold try_catch. by rewrite bind_unfold, Hn. Qed.

(** With nothing on its way and its queue empty the socket waits. *)
Lemma quiet_socket_waits fuel sb s :
  lh_wire s = [] ->
  (forall q, h_queues (lh_host s) !! sock_label (sb_id sb) = Some q -> mq_msgs q = []) ->
  until_message fuel sb s = (Fault out_of_fuel, s).
Proof.
  destruct s as [[l qs fds] w]. cbn [lh_wire lh_host h_queues]. intros -> Hq.
  induction fuel as [|fuel IH]; [done|].
  assert (lo_next_msg sb (LoopHost (Host l qs fds) []) = (Throw ETimeout, LoopHost (Host l qs fds) [])) as Hn.
  { unfold lo_next_msg, on_queues, next_msg. cbn [lh_host lh_wire h_queues head fmap].
    rewrite bind_unfold. cbn [gets]. unfold id at 1.
    destruct (qs !! sock_label (sb_id sb)) as [q|] eqn:E; [rewrite (Hq q eq_refl)|]; done. }
  by rewrite (until_message_waits _ _ _ _ Hn).
Qed.

(** The socket, the host when it has been opened, when it has sent, and when it
    has looked for a message. *)
Definition lo_sock : socket_base := SocketBase 7 lo_ident 1500 1444.
Definition lo_opened : loop_host :=
  snd (on_host (socket_sock_base_new true true true (Some 7) true true loopback true lo_ident)
         (LoopHost fresh_host [])).
Definition lo_sent : loop_host := snd (lo_send lo_ident 0 (msg_of outpu_buf) lo_opened).
Definition lo_heard : loop_host := snd (lo_next_msg lo_sock lo_sent).

Lemma own_packet_is_dropped :
  lo_next_msg lo_sock lo_sent = (Throw ETimeout, lo_heard) /\ length (lh_wire lo_sent) = 1%nat /\
  lh_wire lo_heard = [] /\ h_queues (lh_host lo_heard) = h_queues (lh_host lo_opened).
Proof. split_and!; vm_compute; reflexivity. Qed.

#[local] Opaque lo_opened lo_sent lo_heard.

(** The test would never end.  A socket's own segment says that it comes from
    the socket and goes to the peer; [put_msg_to_q] looks for the queue of a
    socket at the peer's port, which is not there, and drops it. *)
Lemma socket_sock_base_test_never_ends fuel :
  fst (socket_sock_base_test fuel (LoopHost fresh_host [])) = Fault out_of_fuel.
Proof.
  assert (until_message fuel lo_sock lo_sent = (Fault out_of_fuel, if (fuel =? 0)%nat then lo_sent else lo_heard))
    as Hloop.
  { destruct fuel as [|fuel]; [reflexivity|]. destruct own_packet_is_dropped as (Hn&_&Hw&Hq).
    refine (eq_trans (until_message_waits _ _ _ _ Hn) _).
    refine (quiet_socket_waits fuel lo_sock lo_heard Hw _). rewrite Hq. intros q Hl. vm_compute in Hl.
    by injection Hl as <-. }
  assert (on_host (socket_sock_base_new true true true (Some 7) true true loopback true lo_ident)
    (LoopHost fresh_host []) = (Ret lo_sock, lo_opened)) as Hnew by (vm_compute; reflexivity).
  assert (lo_send lo_ident 0 (msg_of outpu_buf) lo_opened = (Ret tt, lo_sent)) as Hsend
    by (vm_compute; reflexivity).
  unfold socket_sock_base_test. change (upto 2) with [0; 1]. cbn [for_each].
  rewrite bind_unfold. rewrite (run_ret _ _ _ _ _ Hnew).
  unfold finally. rewrite (run_ret _ _ _ _ _ Hsend), Hloop. done.
Qed.
