(* ===== verification/ScanTest.v ===== *)
(** * ScanTest: the unit test of the sender's window

    [send_cumulative_window_test] of [src/src/tcp_test_boost.cpp] (888-1080):
    the window of [Cumulative] over a controller that keeps its messages in a
    map from offsets and expects each of its signals. *)
From S2P Require Import Prelude Window Message ProtoMem Cumulative Scan Tests.

(** ** The fake controller (894-985)

    A [my_msg] and the message [msg_] points to; [mp] by rising offsets.  A
    pointer to a [my_msg] is its offset: the test keeps none of them longer than
    the map does.  [mp[off]] of an offset without entry is a null pointer. *)

Record my_msg : Type := MyMsg {
  my_cnt : Z;
  my_used : bool;
  my_released : bool;
  my_msg_ : msg;
}.

Record window_test : Type := WindowTest {
  wt_area : cumulative_area;
  wt_mp : list (Z * option my_msg);
  wt_not_empty : bool;
  wt_a : bool;
  wt_b : bool;
  wt_c : bool;
  wt_d : bool;
}.

#[export] Instance window_test_area : MemArea window_test cumulative_area := {|
  area_get := wt_area;
  area_put := fun a s => WindowTest a (wt_mp s) (wt_not_empty s) (wt_a s) (wt_b s) (wt_c s) (wt_d s);
|}.

Definition set_mp (mp : list (Z * option my_msg)) (s : window_test) : window_test :=
  WindowTest (wt_area s) mp (wt_not_empty s) (wt_a s) (wt_b s) (wt_c s) (wt_d s).

(** The flags of the signals: what is expected next. *)
Inductive signal : Type := NotEmpty | SigA | SigB | SigC | SigD.

Definition get_signal (x : signal) (s : window_test) : bool :=
  match x with
  | NotEmpty => wt_not_empty s | SigA => wt_a s | SigB => wt_b s | SigC => wt_c s | SigD => wt_d s
  end.

Definition set_signal (x : signal) (b : bool) (s : window_test) : window_test :=
  match x with
  | NotEmpty => WindowTest (wt_area s) (wt_mp s) b (wt_a s) (wt_b s) (wt_c s) (wt_d s)
  | SigA => WindowTest (wt_area s) (wt_mp s) (wt_not_empty s) b (wt_b s) (wt_c s) (wt_d s)
  | SigB => WindowTest (wt_area s) (wt_mp s) (wt_not_empty s) (wt_a s) b (wt_c s) (wt_d s)
  | SigC => WindowTest (wt_area s) (wt_mp s) (wt_not_empty s) (wt_a s) (wt_b s) b (wt_d s)
  | SigD => WindowTest (wt_area s) (wt_mp s) (wt_not_empty s) (wt_a s) (wt_b s) (wt_c s) b
  end.

Definition expect (x : signal) (b : bool) : M window_test unit := modify (set_signal x b).

Definition signalled (x : signal) : M window_test unit :=
  b ← gets (get_signal x);
  require b;;
  expect x false.

(** [BOOST_REQUIRE(!x)] *)
Definition has_come (x : signal) : M window_test unit :=
  b ← gets (get_signal x);
  require (negb b).

(** [std::map] *)
Fixpoint mp_find (off : Z) (mp : list (Z * option my_msg)) : option (option my_msg) :=
  match mp with
  | [] => None
  | (o, x) :: mp => if o =? off then Some x else mp_find off mp
  end.

Fixpoint mp_set (off : Z) (x : option my_msg) (mp : list (Z * option my_msg)) : list (Z * option my_msg) :=
  match mp with
  | [] => [(off, x)]
  | (o, y) :: mp' =>
      if o =? off then (off, x) :: mp'
      else if off <? o then (off, x) :: mp
      else (o, y) :: mp_set off x mp'
  end.

Definition deref (off : Z) : M window_test my_msg :=
  mp ← gets wt_mp;
  match mp_find off mp with Some (Some x) => mret x | _ => faults out_of_range end.

Definition put_entry (off : Z) (x : my_msg) : M window_test unit :=
  modify (fun s => set_mp (mp_set off (Some x) (wt_mp s)) s).

Definition get_entry (off : Z) : M window_test Z :=
  mp ← gets wt_mp;
  match mp_find off mp with
  | Some _ => mret off
  | None => modify (set_mp (mp_set off None mp));; mret off
  end.

Definition in_range (a b off : Z) : bool := (a <=? off) && (off <=? b).

#[export] Instance cw_controller : SentBuf window_test Z Z := {|
  output_sent_buf_put_msg_at := fun off m =>
    put_entry off (MyMsg (get_seq m) false false m);;
    mret off;
  output_sent_buf_get_msg_at := get_entry;
  output_sent_buf_release_range := fun a b =>
    mp ← gets wt_mp;
    for_each (filter (fun off => in_range a b off = true) (map fst mp)) (fun off =>
      x ← deref off;
      require (negb (my_released x));;
      put_entry off (MyMsg (my_cnt x) (my_used x) true (my_msg_ x)));
  output_sent_buf_refresh_contents := signalled SigD;
  mark_msg_used := fun p flag =>
    x ← deref p;
    put_entry p (MyMsg (my_cnt x) flag (my_released x) (my_msg_ x));
  is_msg_used := fun p => x ← deref p; mret (my_used x || my_released x);
  get_msg_data_sz := fun p => x ← deref p; mret (get_data_len (my_msg_ x));
|}.

#[export] Instance window_test_events : SendEvents window_test Z := {|
  output_sent_buf_signal_not_empty := signalled NotEmpty;
  output_refresh_on_msg_pair := fun _ _ => signalled SigA;
  output_refresh_on_msg_pair_prev_window_matched := fun _ _ => signalled SigA;
  on_sent_buf_empty := signalled SigB;
|}.

#[export] Instance window_test_wait : SendWait window_test := {|
  output_sent_buf_wait_not_empty := signalled SigC;
|}.

(** ** [start_test] (987-1077) *)

Definition msg_of_len (n : Z) : msg := set_data_len n (msg_alloc 0).
Definition ack_of (sq : Z) : msg := set_seq sq (set_ack (msg_alloc 0)).

Definition test_send (m : msg) : M window_test msg := r ← cw_send (E:=Z) m; mret (fst r).
Definition test_next : M window_test Z := cw_next_msg (V:=Z) (E:=Z) (Z.to_nat OUTPUT_WINDOW_SZ).
Definition test_window_on_ack : msg -> M window_test unit := cw_on_ack (V:=Z) (E:=Z).

(** A whole window at once. *)
Definition win_exceed_test (start : Z) : M window_test unit :=
  expect NotEmpty true;;
  test_send (msg_of_len OUTPUT_WINDOW_SZ);;
  for_each [SigD; SigB; SigA] (fun x => expect x true);;
  test_window_on_ack (ack_of (OUTPUT_WINDOW_SZ + start - 1));;
  for_each [SigA; SigB; SigD; NotEmpty] has_come.

(** More than a window. *)
Definition drop_overflow_test : M window_test unit :=
  require_throws is_drop (test_send (msg_of_len (OUTPUT_WINDOW_SZ + 1))).

(** The sends of a round; the messages come back with their numbers. *)
Fixpoint test_sends (i : Z) (ms : list msg) : M window_test (list msg) :=
  match ms with
  | [] => mret []
  | m :: ms =>
      expect NotEmpty (i =? 0);;
      m ← test_send m;
      when (i =? 0) (has_come NotEmpty);;
      rest ← test_sends (i + 1) ms;
      mret (m :: rest)
  end.

(** Every message is taken once, then none is left, then all are retried. *)
Definition take_and_retry (go : list msg) : M window_test unit :=
  for_each go (fun m =>
    hu ← test_next;
    x ← deref hu;
    require (get_seq m =? my_cnt x));;
  require_throws (fun e => match e with ETimeout => true | _ => false end) test_next;;
  for_each go (cw_retry (V:=Z) (E:=Z)).

(** The acknowledgements of a round, one for each message. *)
Fixpoint test_acks (start : Z) (ms : list msg) : M window_test Z :=
  match ms with
  | [] => mret start
  | m :: ms =>
      let start := start + get_data_len m in
      let last := match ms with [] => true | _ => false end in
      expect SigA true;;
      when last (expect SigB true);;
      test_window_on_ack (ack_of (start - 1));;
      has_come SigA;;
      when last (has_come SigB);;
      test_acks start ms
  end.

Definition test_round (start : Z) : M window_test Z :=
  go ← test_sends 0 (map msg_of_len [1; 2; 3; 4]);
  for_each (upto 10) (fun _ => take_and_retry go);;
  expect SigA true;;
  test_window_on_ack (ack_of (start - 1));;
  has_come SigA;;
  test_acks start go.

Definition send_cumulative_window_test : M window_test unit :=
  let start := 100500 in
  cw_force_move_start start;;
  win_exceed_test start;;
  let start := start + OUTPUT_WINDOW_SZ in
  drop_overflow_test;;
  start ← test_round start;
  test_round start;;
  mret tt.

Definition window_test_init : window_test :=
  WindowTest cumulative_init [] false false false false false.

Lemma send_cumulative_window_test_passes : passes send_cumulative_window_test window_test_init.
Proof. exists tt. vm_compute. reflexivity. Qed.

(** ** The scan of this controller

    The window of a round after its four sends, the first message taken. *)
Definition four_messages : window_test :=
  let entry i n used := (i, Some (MyMsg (101500 + i) used false (msg_of_len n))) in
  WindowTest (CumulativeArea 101500 0 10 OUTPUT_WINDOW_SZ)
    [entry 0 1 true; entry 1 2 true; entry 3 3 false; entry 6 4 false]
    false false false false false.

Lemma scan_finds_first_unused_witness :
  fst (cw_next_msg (V:=Z) (E:=Z) 4 four_messages) = Ret 3.
Proof.
  rewrite (scan_finds_first_unused (V:=Z) (E:=Z) 4
    [Slot 0 true 1; Slot 1 true 2; Slot 3 false 3; Slot 6 false 4] four_messages).
  - reflexivity.
  - done.
  - repeat (split; [reflexivity|]). done.
  - reflexivity.
  - done.
  - reflexivity.
  - simpl. lia.
Defined.
