(* ===== verification/Client.v ===== *)
(** * Client: the client's socket and the end of a socket

    [socket_client] of [src/src/newimpl.cpp] (1104-1121) is a pointer that
    [connect] fills.  What becomes of a second [connect], and of a socket that
    is destroyed while its receiving worker waits, comes from [Lifecycle] and
    from the worker's own code. *)
From S2P Require Import Prelude Message ProtoMem Input Socket SenderModel ReceiverModel.
From S2P Require Import Handshake Lifecycle.

(** ** [socket_client] *)

Record socket_client : Type := SocketClient {
  cl_ptr : option sk;
  cl_id : socket_identify;
}.

Section client.
Context (sendto : sockaddr_in -> bytes -> Z) (rand32 : M sk Z) (others : pause_point -> M sk unit).

Definition socket_client_new (id : socket_identify) : socket_client := SocketClient None id.

(** [ptr->f(...)]: through a null pointer nothing is defined. *)
Definition through_ptr {A} (f : M sk A) : M socket_client A := fun c =>
  match cl_ptr c with
  | Some s => let '(r, s') := f s in (r, SocketClient (Some s') (cl_id c))
  | None => (Fault out_of_range, c)
  end.

Definition client_send (fuel : nat) (buf : bytes) : M socket_client unit :=
  through_ptr (stream_send sendto rand32 others fuel buf).

Definition client_recv (fuel : nat) (size : Z) : M socket_client bytes :=
  through_ptr (stream_recv sendto rand32 others fuel size).

(** [connect] over memory that nobody else has open: a new socket, whose
    handshake follows. *)
Definition client_connect (mtu : Z) (fuel : nat) : M socket_client unit :=
  modify (fun c => SocketClient (Some (sk_init (cl_id c) mtu)) (cl_id c));;
  through_ptr (connect sendto rand32 others fuel).

(** Before [connect] the calls do not throw, as the interface says they would:
    they go through the null pointer. *)
Lemma unconnected_client_faults fuel buf size id :
  client_send fuel buf (socket_client_new id) = (Fault out_of_range, socket_client_new id) /\
  client_recv fuel size (socket_client_new id) = (Fault out_of_range, socket_client_new id).
Proof. done. Qed.

End client.

(** ** A second [connect]

    [ptr.reset(new socket_full_impl(id))] constructs the new socket, which
    attaches to the memory of the old one, and then destroys the old one, which
    closes that memory; the handshake's first access is refused.  Sockets 0
    and 1 of the process are the old and the new one. *)
Definition nexts (p k : nat) : list (nat * act) := repeat (p, Next) k.

Definition reconnect : list (nat * act) :=
  (0%nat, Construct) :: nexts 0 9 ++
  (1%nat, Construct) :: nexts 1 7 ++
  (0%nat, Destroy) :: nexts 0 16 ++
  (1%nat, Acquire false) :: nexts 1 1.

Lemma second_connect_is_refused :
  exists w, run reconnect world_init = Some w /\
    s_pc (w_sock w 0%nat) = Closed /\ s_pc (w_sock w 1%nat) = AtRefuse false.
Proof.
  assert (option_map (fun w => (s_pc (w_sock w 0%nat), s_pc (w_sock w 1%nat))) (run reconnect world_init)
    = Some (Closed, AtRefuse false)) as H by (vm_compute; reflexivity).
  destruct (run reconnect world_init) as [w|]; [|discriminate H].
  exists w. cbn [option_map] in H. by injection H as -> ->.
Qed.

(** ** The receiving worker of a socket that is destroyed

    The destructor ([~socket_full_impl], 1058-1070) joins the receiving worker;
    a worker whose segment has filled the window waits for the client to read
    it, without a time limit and without looking at [active].  The client's
    thread is the one in the destructor. *)
Lemma full_window_blocks_destructor :
  fst (input_on_regular_msg kernel_takes_all alone (data_msg 5000000 (replicate 1000 7))
         (sk_listening 5000000)) = Fault blocked.
Proof. vm_compute. reflexivity. Qed.
