(* ===== verification/NetTest.v ===== *)
(** * NetTest: the tests of whole sockets over the loopback interface

    [twice_socket_test], [serv_socket_test] and [serv_client_socket_test] of
    [src/src/tcp_test_boost.cpp] (1193-1354), run on [Lockstep]'s network: two
    sockets, one thread in [send] and one in [recv].  The thread in [recv]
    reads when the receiving worker waits for it and when [send] has returned;
    [single_socket_test], a socket connected to itself, is left out. *)
From S2P Require Import Prelude Window Message Transfer ProtoMem Input Socket ReceiverModel Handshake.
From S2P Require Import SenderModel NetOps Connect Lockstep Setup Tests LoopTest Client.

(** The thread in [recv] asks for all that is missing, a full window or more
    while the receiving worker waits. *)
Definition missing : Client :=
  {| asks := fun _ => INPUT_WINDOW_SZ; asks_something := fun _ => eq_refl |}.
#[local] Existing Instance missing.

(** ** Two processes *)

Definition ends : Type := sk * sk.

(** [a]: the end that sends *)
Definition on_a {A} (m : M sk A) : M ends A := fun ab =>
  let '(r, a) := m (fst ab) in (r, (a, snd ab)).
Definition on_b {A} (m : M sk A) : M ends A := fun ab =>
  let '(r, b) := m (snd ab) in (r, (fst ab, b)).
Definition swap_ends : M ends unit := modify (fun ab => (snd ab, fst ab)).

(** The kernel's random numbers, for both ends. *)
Definition rand_a : M sk Z := mret 70.
Definition rand_b : M sk Z := mret 5000000.

(** The messages of the connection: the client's SYN, and what the server
    answers when its queue is [q]. *)
Definition fuel_hs : nat := 4.
Definition client_hs (others : pause_point -> M sk unit) : M sk unit :=
  handshake lo_sendto rand_a others fuel_hs false.
Definition server_hs : M sk unit := handshake lo_sendto rand_b alone fuel_hs true.

Definition syn_of (a : sk) : list msg := k_out (snd (client_hs alone a)).
Definition syn_ack_of (q : list msg) (b : sk) : list msg := k_out (snd (server_hs (set_in q b))).

(** While a thread waits for a lock, [q] arrives. *)
Definition arriving (q : list msg) (_ : pause_point) : M sk unit := modify (set_in q).

(** Both calls of [handshake].  The server's queue has [q], the client's SYN;
    the acknowledgement is the last message the client sends. *)
Definition meet (q : list msg) (connect : (pause_point -> M sk unit) -> M ends unit) : M ends unit :=
  b ← gets snd;
  connect (arriving (syn_ack_of q b));;
  a ← gets fst;
  on_b (modify (set_in (q ++ drop 1 (k_out a))));;
  on_b server_hs;;
  on_a (modify settled);;
  on_b (modify settled).

(** ** [send] of the pieces in one thread, [recv] of all of it in another *)
Definition send_recv (send : (pause_point -> M sk unit) -> nat -> bytes -> M ends unit)
    (pieces : list bytes) : M ends unit :=
  let dsz := length (concat pieces) in
  on_a (modify settled);;
  b ← gets snd;
  for_each pieces (send (lockstep lo_sendto rand_a b) (5 * dsz)%nat);;
  a ← gets fst;
  let b' := replay lo_sendto rand_a b (k_out a) in
  let read := (length (k_user b') - length (k_user b))%nat in
  on_b (modify (fun _ => b'));;
  on_b (stream_recv lo_sendto rand_b alone dsz (Z.of_nat (dsz - read)));;
  b' ← gets snd;
  let input_data := drop (length (k_user b)) (k_user b') in
  require (same_bytes (concat pieces) input_data).

Definition sock_send (others : pause_point -> M sk unit) (fuel : nat) (data : bytes) : M ends unit :=
  on_a (stream_send lo_sendto rand_a others fuel data).

(** ** [twice_socket_test] *)

Definition test_data (dsz iter : Z) : bytes := map (fun i => u8 (i + 100 * (iter + 1))) (upto dsz).

Definition twice_socket_round : M ends unit :=
  for_each (upto 10) (fun iter =>
    send_recv sock_send [test_data (OUTPUT_WINDOW_SZ `div` 3) iter]);;
  for_each (upto 2) (fun iter => send_recv sock_send [test_data (2 * OUTPUT_WINDOW_SZ - 1) iter]);;
  for_each (upto 2) (fun iter =>
    let dsz := 2 * (OUTPUT_WINDOW_SZ - 1) in
    let data := test_data dsz iter in
    let half := Z.to_nat (dsz `div` 2) in
    send_recv sock_send [take half data; drop half data]).

Definition twice_socket_test : M ends unit :=
  a ← gets fst;
  meet (syn_of a) (fun others => on_a (client_hs others));;
  for_each (upto 2) (fun _ => twice_socket_round;; swap_ends).

Definition lo_id (p1 p2 : Z) : socket_identify := mq_ident lo_inet_addr p1 p2.
Definition lo_mtu : Z := max_packet_data_size 1500.

Definition two_sockets : ends := (sk_init (lo_id 80 1234) lo_mtu, sk_init (lo_id 1234 80) lo_mtu).

Lemma twice_socket_test_passes : passes twice_socket_test two_sockets.
Proof. exists tt. vm_compute. reflexivity. Qed.

(** ** [serv_socket_test], [serv_client_socket_test]: the server's raw socket
    hears the client's SYN, stamped and behind an IP header *)

Definition accept (raw : list msg) : M ends (list msg) :=
  r ← answer (fst (accept_one_client (in_addr (lo_id 1234 0))
    (map (fun m => Some (packet lo_iphdr (tcp_region m))) raw) (msg_alloc lo_mtu) ∅));
  on_b (modify (fun _ => sk_init (fst r) lo_mtu));;
  mret [snd r].

(** The loop over [accept_one_client]: the first socket is the client's, or
    nobody else knocks. *)
Definition serv_round (connect : (pause_point -> M sk unit) -> M ends unit)
    (send : (pause_point -> M sk unit) -> nat -> bytes -> M ends unit) (iter : Z) : M ends unit :=
  let id := lo_id (80 + iter) 1234 in
  on_a (modify (fun _ => sk_init id lo_mtu));;
  a ← gets fst;
  q ← accept (syn_of a);
  b ← gets snd;
  if sin_port (out_addr (k_id b)) =? sin_port (in_addr id) then
    meet q connect;;
    send_recv send [map (fun i => u8 (i + 100)) (upto 1)]
  else faults blocked.

Definition serv_socket_test : M ends unit :=
  for_each (upto 5) (serv_round (fun others => on_a (client_hs others)) sock_send).

(** [socket_client] owns the client's end. *)
Definition on_client (f : M socket_client unit) : M ends unit := fun ab =>
  let '(r, c) := f (SocketClient (Some (fst ab)) (k_id (fst ab))) in
  (r, (default (fst ab) (cl_ptr c), snd ab)).

Definition serv_client_socket_test : M ends unit :=
  for_each (upto 5) (serv_round
    (fun others => on_client (client_connect lo_sendto rand_a others lo_mtu fuel_hs))
    (fun others fuel data => on_client (client_send lo_sendto rand_a others fuel data))).

Lemma serv_tests_pass : passes serv_socket_test two_sockets /\ passes serv_client_socket_test two_sockets.
Proof. split; exists tt; vm_compute; reflexivity. Qed.

(** ** [single_socket_test] (1109-1172) need not end

    The socket is its own peer: a thread in [send] and a thread in [recv] wait
    for messages of the handshake in one queue, and either throws away what the
    other waits for.  When the thread in [send] looks first, it takes the SYN it
    has sent, and both wait for ever. *)
Definition own_peer : sk := sk_init (lo_id 80 80) lo_mtu.

Lemma own_syn_can_be_lost :
  exists s, client_hs (arriving (syn_of own_peer)) own_peer = (Fault out_of_fuel, s) /\
    is_state (k_state s) = CLOSED /\ k_out s = syn_of own_peer /\ k_in s = [] /\
    fst (server_hs s) = Fault out_of_fuel.
Proof. eexists. split; [vm_compute; reflexivity|]. split_and!; vm_compute; reflexivity. Qed.
